(* ===== verification/_CoqProject ===== *)
-Q . S2P
Prelude.v
PyDict.v
Bytes.v
Crypto.v
Formatting.v
PyFloat.v
MediationFee.v
MediationFeeProofs.v
State.v
Events.v
StateChanges.v
Channel.v
ChannelValidation.v
ChannelOps.v
ChannelTransition.v
ChannelLocks.v
ChannelInvariant.v
ChannelSend.v
ChannelReceive.v
ChannelMachine.v
ChannelSystem.v
ChannelProtocol.v
ChannelLifecycle.v
ChannelExamples.v
ChannelFindings.v
TokenNetwork.v
TokenNetworkProofs.v
TransferTasks.v
Target.v
TaskSteps.v
TargetProofs.v
Mediator.v
MediatorFees.v
MediatorSteps.v
MediatorProofs.v
Initiator.v
InitiatorManager.v
InitiatorSteps.v
InitiatorProofs.v
Node.v
Views.v
NodeProofs.v
NodeFrame.v
NodeChannels.v
Wal.v
WalProofs.v
NodeExamples.v
TaskExamples.v
ChainExamples.v
Messages.v
MessageHandler.v
MessageProofs.v
MessageExamples.v
Services.v
ServicesProofs.v
ServicesExamples.v
ChainEvents.v
ChainEventsProofs.v
ChainDecode.v
ChainSync.v
ChainSyncProofs.v
ChainSyncExamples.v
Restore.v
EventHandler.v
EventHandlerProofs.v
ServiceStart.v
ServiceStartProofs.v
Pathfinding.v
Routing.v
RoutingProofs.v
Payments.v
PaymentsProofs.v
EventHandlerExamples.v
Transport.v
TransportProofs.v
Proxies.v
ProxiesProofs.v
Api.v
ApiProofs.v
NetworkExamples.v
