(* ===== verification/Prelude.v ===== *)
(** * Verification of a Raiden node

    Raiden moves tokens off-chain.  A node shares a payment channel with each
    of its partners, and each of the two keeps a copy of the channel; a
    transfer is a sequence of signed messages that change both copies.  All the
    logic is in pure state machines under [src/raiden_common/transfer]: a
    function [state_transition] takes a state and a state change (a message, a
    user action, a block, an event of the contracts) and returns the new state
    with the events to carry out.  Around them the node has a log of state
    changes, a poller of the blockchain, a message handler, an event handler that
    sends messages and transactions, a transport with retries, and clients of
    the path finding and monitoring services.  This development models the state
    machines and the code around them down to the interfaces of the network, and
    proves, under conditions that each theorem states, that no tokens are lost or
    created, which messages, transactions and blockchain events are kept, and that
    a restarted node continues where it stopped.

    ** The program and the files that model it

    - [transfer/channel.py], the payment channel: [Channel] (queries),
      [ChannelValidation] (the checks of received messages), [ChannelOps]
      (sending and receiving transfers, unlocks and expirations, secrets,
      withdraws) and [ChannelTransition] (one handler per state change, the
      sanity check, [state_transition]).  A definition has the name of its
      Python function; a leading underscore is dropped.
    - [transfer/state.py], [transfer/architecture.py] and [messages/transfers.py]
      ([Lock]): [State] has the records, one per dataclass with its validation,
      and one [set_] function per attribute that the code assigns.
    - [transfer/events.py], [transfer/state_change.py] and their counterparts
      in [mediated_transfer]: [Events] and [StateChanges], one record per class
      and one constructor of [Event] and [StateChange] each.
    - [transfer/mediated_transfer/mediation_fee.py]: [MediationFee], over the
      rationals, as the code uses [Fraction]; the one computation with floats
      is on IEEE binary64 numbers ([PyFloat]).
    - [transfer/token_network.py]: [TokenNetwork].  It owns the channels of a
      node in a token network and hands a state change to its channel.
    - [transfer/mediated_transfer/target.py] and [transfer/secret_registry.py]:
      [Target], the task of a node that receives a payment.  It works on a
      channel that it shares with the token network.
    - [transfer/mediated_transfer/mediator.py]: [Mediator], the task of a node
      that forwards a transfer.  [TransferTasks] has what the tasks share: the
      channels of the node as a store of objects with references to them (the
      tasks change channels that belong to the token networks), routes and
      [is_safe_to_wait].
    - [transfer/mediated_transfer/initiator.py] and [initiator_manager.py]:
      [Initiator] and [InitiatorManager], a transfer and the payment that owns
      it.  The limit of the fees is computed with floats, as in the code.
    - [transfer/node.py], [mediated_transfer/tasks.py], [ChainState] and the
      lookups of [transfer/views.py] that the node uses: [Node].  It dispatches
      a state change to the token networks, the channels and the tasks, and
      keeps the message queues and the pending transactions.
    - [storage/wal.py], the tables of [storage/sqlite.py] and the part of
      [raiden_service.py] that drives the log: [Wal].  It works for any state
      machine; the node's is [node_transition] of [WalProofs].
    - [messages], [utils/validation.py], [transfer/utils/secret.py]: [Messages],
      how an event becomes a signed message and a message becomes a balance
      proof or a transfer.
    - [message_handler.py]: [MessageHandler], how received messages become state
      changes and in which order these are dispatched.
    - [transfer/views.py]: [Views], the lookups in the state of the node.
    - [blockchain/events.py], [filters.py] and [utils.py]: [ChainEvents], the
      filters and the polling of logs in batches; [blockchain/decode.py] and
      [state.py]: [ChainDecode], from logs to state changes; the loop over the
      batches in [raiden_service.py]: [ChainSync].
    - [services.py], [messages/monitoring_service.py] and
      [path_finding_service.py]: [Services], what the services are told.
    - [storage/restore.py]: [Restore], balance proofs and channels of the past.
    - [raiden_event_handler.py], with the greenlets of [async_handle_events]
      and [network/resolver/client.py]: [EventHandler], which turns events into
      messages for the transport and transactions.
    - [raiden_service.py]: [ServiceStart] is the start of a node with its restored
      state, [Payments] a payment and how a batch of state changes goes through
      the log, the services and the event handler.
    - [network/pathfinding.py] and [routing.py]: [Pathfinding] and [Routing], the
      requests for paths with their payment, and the routes of a payment.
    - [network/transport/matrix/transport.py], [matrix/utils.py] and
      [transport/utils.py]: [Transport], the retry queues, the validation of what is
      received, and the broadcasts.
    - [network/proxies/token_network.py] and the approval of [token.py]: [Proxies],
      the transactions of a channel with their preconditions and the explanation
      of their failures.
    - [api/python.py], [waiting.py], [utils/gas_reserve.py] and the proxies that
      [network/proxies/proxy_manager.py] makes: [Api], what the user asks the node
      for.  New channels and deposits go through [Proxies].
    - [utils/formatting.py]: [Formatting], addresses as text.
    - [utils/packing.py], [utils/signer.py], [transfer/identifiers.py],
      [transfer/utils]: [Crypto] packs the data that is hashed and signed byte
      by byte ([Bytes]).

    ** How Python is modelled

    - A function that can raise returns [Py A], a value or an exception, in a
      monad; an [assert] is [py_assert] with its text.  Theorems that say that
      a function returns [Ok] therefore include that no assertion fails.
    - A function that changes an object in place takes the object and returns
      it.  A function that changes an object before it rejects a message
      returns the changed object also in this case.
    - A dictionary is an association list in the order of insertion ([PyDict]),
      since the code iterates over dictionaries; [dict_refines] relates it to a
      finite map.
    - Integers are [Z], as Python's are unbounded, and the bounds of the
      contracts ([UINT256_MAX], [UINT64_MAX]) appear where the code checks them.
    - Text of an error is kept as its format string with its arguments.
    - The random generator that makes message identifiers is a sequence of
      numbers and a position in it.
    - Code that is not in the repository is a parameter: the hash functions and
      the recovery of a signer are the class [Crypto], with the laws that the
      code needs of them in [CryptoLaws] (lengths of digests, and
      that nothing but the empty string has the digest of the empty string);
      [toy_crypto] is an instance of both.  The
      power function of floats is the class [FloatPow], the identifiers of the
      [ulid] package are [UlidFactory] (a new one is above the last one) and
      the serialization of the storage is [Serializer] (what is written can be
      read back).  The JSON form of metadata, the encryption of secrets and the
      hexadecimal strings of [eth_utils] are [MessageEnv], and the key of a node
      is [PrivateKey] (its signatures have 65 bytes and its address is recovered
      from them).  The Ethereum client is [Web3] with the laws [Web3Laws] for a
      chain, and the logarithm for the size of a batch is [FloatLog]; the packing
      of [raiden_contracts] is [ServiceProofs] and [ClosingProofs], the contracts
      are [Contracts] for the event handler and [Chain] for the calls of the user,
      whose queries may raise, the path
      finding service is [PathfindingService] with the records [PFSProxy] and
      [ServiceRegistry], the Matrix client is [MatrixEnv], and the contract of a
      token network with the Ethereum client is [EthClient] for its proxy.
    - Code that changes a state and may raise in the middle of it is in the monad
      [St] of this file, where an exception keeps the changes made before it.
    - The database is its three tables with the constraints of their
      definitions; a transaction that is rolled back leaves them as they were.
    - A transition function of the log may return another object than the one
      it changed ([Transition]), since the log keeps the object and drops the
      other one.
    - All recursion is structural, and every definition evaluates.  The rounds of
      queries in a batch of logs ([ChainEvents.query_loop]) are bounded by a number
      that is proved to be enough (three rounds end it).  Where the code waits, what
      it waits for is an argument that is consumed: the readings of the clock in
      [sync_loop] and in the transport, the answers of the resolver in
      [resolver_loop], the polls of the path finding service in [wait_for_block],
      and the sleeps of a call of the user with what other greenlets do in them
      ([Api.Sleep]).  The theorems say how much of it is enough.

    ** What is proved

    - [ChannelLocks]: the three dictionaries of the locks are one finite map,
      and the encoding of a lock can be read back.
    - [ChannelInvariant] has the invariant of a channel: the locks agree with
      the balance proof, the balances add up and cover the locks and the
      withdraws.  [channel_inv] is the part that every operation keeps without
      conditions; [solvent_inv] adds that pending locks stay covered.
    - [ChannelSend] and [ChannelReceive]: what each operation does on every
      branch, which messages are accepted and that nothing else changes.
    - [ChannelMachine] and [ChannelSystem]: every handler of [state_transition]
      keeps the invariant; [channel_step] is the relation of all the ways in
      which a channel changes, and in every reachable channel the sanity check
      holds and the tokens are conserved.
    - [ChannelProtocol]: two nodes.  What one can send the other one accepts,
      and their copies of the channel mirror each other again.
    - [ChannelLifecycle]: the status of a channel only moves forward, and
      expired withdraws are given up.
    - [MediationFeeProofs]: interpolation is on the line between the knots, and
      a fee function is well formed or undefined.
    - [TokenNetworkProofs]: the two indices of a token network agree, and a
      state change touches one channel only.
    - [TargetProofs]: the task of a target runs exactly as long as its lock is
      pending, reports a payment only when the tokens arrived, and registers
      the secret on-chain in time.
    - [TaskSteps] states, as the class [ChannelTask], what a task promises to
      the node: it changes the channels by operations of the channels only.
      The target's instance is there, too; [MediatorSteps] and [InitiatorSteps] have
      the others.
    - [MediatorFees] and [MediatorProofs]: a mediator forwards no more than it
      receives, pays only while it can still claim, and registers the secret in
      time.
    - [InitiatorProofs]: the transfers of a payment are well formed, a secret is
      revealed only on a valid request, a payment is paid once, and a new
      transfer stays within the limit of the fees.
    - [NodeProofs] and [NodeChannels]: the node loses no message and drops a
      transaction only when it is obsolete, by rules that are listed there, and all
      its channels stay reachable, so that everything that
      is proved of a reachable channel holds for them.
    - [WalProofs]: a restart restores the state up to the first periodic
      snapshot; after it the restart applies one state change twice.
    - [MessageProofs]: a transfer, an unlock and an expiration arrive.  What a
      node sends becomes a message, the signed message becomes a state change of
      the partner, and the partner's channel accepts it.  A batch of messages is
      dispatched in a safe order.
    - [NodeFrame]: what a state change of the node leaves as it is.
    - [ChainEventsProofs] and [ChainSyncProofs]: a batch has the logs that its
      filters select, also of contracts that are created in the same batch, but for
      the secret registry in the batch of the first channel; the
      synchronization refines an abstract node that takes the blocks in whole
      batches, it ends at the confirmed head, and a restart continues it.
    - [ServicesProofs]: the newest balance proof of a batch is monitored, in one
      request that the services verify.
    - [EventHandlerProofs]: messages reach the transport once and in order, a
      channel is settled with the amounts on the chain, and exactly the unlocks
      that pay off are sent.
    - [ServiceStartProofs]: a restarted node sends the queued messages and the
      pending transactions again and knows its payments.
    - [RoutingProofs] and [PaymentsProofs]: routes are usable, the IOUs of the path
      finding service, and a payment is started once.
    - [TransportProofs]: a message stays in the retry queue until it is
      confirmed, a check sends exactly what is due, and every message that is
      handed to the node is signed by its sender.
    - [ProxiesProofs]: an operation of the proxy sends its transaction at most once
      and returns exactly if it was mined successfully; a channel is settled with
      the amounts on the chain, and a balance proof is never updated.
    - [ApiProofs]: a wait ends with its condition, and a deposit is attempted
      exactly if it is within the limits.
    - [ChannelExamples], [ChannelFindings], [NodeExamples], [TaskExamples],
      [ChainExamples], [MessageExamples], [ChainSyncExamples], [ServicesExamples],
      [EventHandlerExamples] and [NetworkExamples]: channels, tasks and nodes on which the theorems are applied, and theorems about behaviour that differs from
      what the code or its comments intend.

    ** The environment

    A few state changes are only correct for data that is consistent with the
    blockchain and with what the node checks before; [env_ok], [target_env],
    [mediator_env], [manager_env], [tn_env_ok] and [node_env] say for each of
    them what is needed: an on-chain withdraw does
    not exceed what the channel granted, a withdraw that the user asks for
    leaves the pending locks covered (the code does not check this, see
    [locked_tokens_can_be_withdrawn]), a secrethash is new where a transfer starts,
    and received numbers have the ranges of their encoding.  None of them says
    that code of the repository returns.  Where it can raise, the exception is a
    case of the theorem: [fee_error], when the imbalance fee of the new capacity of
    a channel cannot be computed, [short_lock] and [short_pair], when a received
    lock expires no later than the reveal timeout (see
    [short_expiration_crashes_target]), and [unsendable], when a message cannot be
    built or signed.  The acceptance of
    a withdraw request or confirmation is modelled, but it cannot be reached:
    the packing of the signed data is not implemented in the repository
    ([withdraw_request_not_implemented]).

    ** Not modelled

    Input and output: the Matrix client with its login and its synchronization
    with the server, WebRTC, the proxies of the other contracts (and with them the
    registration of tokens and the deposit for the services), the RPC client,
    the alarm task and the start and stop of greenlets, the HTTP interface, accounts
    and the command line.  Of the storage, the migrations, the queries for the
    user and the JSON serialization.  The interleaving of greenlets is modelled
    where the code depends on it (the threads of the event handler, the order in
    which message handlers end, the sleeps of a call), not in general.

    ** This file

    Shared vocabulary of the development: the exception monad in which the
    Python code is translated, the development's tactics and hint databases,
    the insertion-order independent lemmas on lists and sums, and the
    fixed-width integer bounds of [raiden_common/constants.py]. *)

From stdpp Require Export base list list_numbers strings option numbers sets.

#[global] Open Scope Z_scope.

(** ** Membership in lists *)

Lemma elem_of_filter_bool {A} (f : A -> bool) l x : x ∈ List.filter f l <-> x ∈ l /\ f x = true.
Proof. rewrite !list_elem_of_In. apply filter_In. Qed.

Lemma elem_of_map {A B} (f : A -> B) l y : y ∈ map f l <-> exists x, y = f x /\ x ∈ l.
Proof.
  rewrite list_elem_of_In, in_map_iff. setoid_rewrite list_elem_of_In. naive_solver.
Qed.

(** ** Exceptions

    The exceptions that the modelled functions raise.  The text of an
    [assert] or of a [raise] is kept as in the source. *)
Inductive exn : Type :=
  | AssertionError (msg : string)
  | ValueError (msg : string)
  | KeyError
  | IndexError
  | OverflowError
  | ZeroDivisionError
  | UndefinedMediationFee
  | NotImplementedError
  | AttributeError
  | RuntimeError (msg : string)
  | StopIteration
  | IntegrityError
  | InvalidSecret
  | InvalidSignature
  | UnknownRaidenEventType
  | EthGetLogsTimeout
  | BlockBatchSizeTooSmall
  | RaidenRecoverableError (msg : string)
  | RaidenUnrecoverableError (msg : string)
  | BrokenPreconditionError (msg : string)
  (** Another exception of [exceptions.py], by its class. *)
  | RaidenError (cls msg : string).

#[export] Instance exn_eq_dec : EqDecision exn.
Proof. solve_decision. Defined.

(** The result of running a Python function: a value or an exception. *)
Inductive Py (A : Type) : Type :=
  | Ok (a : A)
  | Raise (e : exn).
Arguments Ok {_} _.
Arguments Raise {_} _.

#[export] Instance py_ret : MRet Py := fun A a => Ok a.
#[export] Instance py_bind : MBind Py := fun A B f m =>
  match m with Ok a => f a | Raise e => Raise e end.

(** [assert cond, msg] *)
Definition py_assert (cond : bool) (msg : string) : Py unit :=
  if cond then Ok tt else Raise (AssertionError msg).

(** [if cond: raise e] *)
Definition raise_if (cond : bool) (e : exn) : Py unit :=
  if cond then Raise e else Ok tt.

(** An optional value that the caller asserts to be present. *)
Definition assert_some {A} (o : option A) (msg : string) : Py A :=
  match o with Some a => Ok a | None => Raise (AssertionError msg) end.

Definition is_ok {A} (m : Py A) : bool :=
  match m with Ok _ => true | Raise _ => false end.

(** A [for] loop that threads a state through a list; an exception stops it. *)
Fixpoint py_foldl {A S} (f : S -> A -> Py S) (s : S) (l : list A) : Py S :=
  match l with
  | [] => Ok s
  | x :: l' => s' ← f s x; py_foldl f s' l'
  end.

(** A list comprehension whose expression may raise. *)
Fixpoint py_map {A B} (f : A -> Py B) (l : list A) : Py (list B) :=
  match l with
  | [] => Ok []
  | x :: l' => y ← f x; ys ← py_map f l'; Ok (y :: ys)
  end.

(** The [for ...: assert ...] loops. *)
Definition py_forall {A} (f : A -> Py unit) (l : list A) : Py unit :=
  py_foldl (fun _ x => f x) tt l.

(** ** Integer bounds of [constants.py] *)
Definition UINT256_MAX : Z := 2 ^ 256 - 1.
Definition UINT64_MAX : Z := 2 ^ 64 - 1.
Definition MAXIMUM_PENDING_TRANSFERS : Z := 160.

(** [constants.UINT256_MAX] is a 77-digit number: keep it folded in goals. *)
#[global] Opaque UINT256_MAX UINT64_MAX.

Lemma UINT256_MAX_eq : UINT256_MAX = 2 ^ 256 - 1.
Proof. reflexivity. Qed.
Lemma UINT64_MAX_eq : UINT64_MAX = 2 ^ 64 - 1.
Proof. reflexivity. Qed.
Lemma UINT256_MAX_pos : 0 < UINT256_MAX.
Proof. rewrite UINT256_MAX_eq. lia. Qed.
Lemma UINT64_MAX_pos : 0 < UINT64_MAX.
Proof. rewrite UINT64_MAX_eq. lia. Qed.

(** ** Hint databases *)
Create HintDb raiden discriminated.
Create HintDb raiden_rw.
#[export] Hint Resolve UINT256_MAX_pos UINT64_MAX_pos : raiden.

(** ** The exception monad *)
Lemma bind_Ok {A B} (f : A -> Py B) (m : Py A) (b : B) :
  m ≫= f = Ok b <-> exists a, m = Ok a /\ f a = Ok b.
Proof. destruct m; cbn; naive_solver. Qed.

Lemma py_map_Forall2 {A B} (f : A -> Py B) l r :
  py_map f l = Ok r <-> Forall2 (fun a b => f a = Ok b) l r.
Proof.
  revert r. induction l as [|a l IH]; intros r; cbn.
  - split; [intros [= <-]; constructor|]. by inversion 1.
  - split.
    + intros Hok. apply bind_Ok in Hok as (b & Hb & Hok). apply bind_Ok in Hok as (bs & Hbs & Hok).
      injection Hok as <-. constructor; [done|]. by apply IH.
    + inversion 1 as [|? b ? bs Hb Hbs]; subst. rewrite Hb. apply IH in Hbs. by rewrite Hbs.
Qed.

Lemma py_map_perm {A B} (f : A -> Py B) l l' r :
  l ≡ₚ l' -> py_map f l = Ok r -> exists r', py_map f l' = Ok r' /\ r ≡ₚ r'.
Proof.
  intros Hp. rewrite py_map_Forall2. intros Hr.
  destruct (Permutation_Forall2 Hp Hr) as (r' & Hp' & Hr').
  exists r'. by rewrite py_map_Forall2.
Qed.

Lemma bind_Raise {A B} (f : A -> Py B) (m : Py A) (e : exn) :
  m ≫= f = Raise e <-> m = Raise e \/ exists a, m = Ok a /\ f a = Raise e.
Proof. destruct m; cbn; naive_solver. Qed.

Lemma bind_ret_l {A B} (f : A -> Py B) (a : A) : (Ok a ≫= f) = f a.
Proof. reflexivity. Qed.

Lemma py_assert_Ok c msg u : py_assert c msg = Ok u <-> c = true.
Proof. destruct u, c; cbn; split; congruence. Qed.

Lemma raise_if_Ok c e u : raise_if c e = Ok u <-> c = false.
Proof. destruct u, c; cbn; split; congruence. Qed.

Lemma assert_some_Ok {A} (o : option A) msg a :
  assert_some o msg = Ok a <-> o = Some a.
Proof. destruct o; cbn; naive_solver. Qed.

Lemma py_foldl_app {A S} (f : S -> A -> Py S) s l1 l2 :
  py_foldl f s (l1 ++ l2) = (s' ← py_foldl f s l1; py_foldl f s' l2).
Proof.
  revert s. induction l1 as [|x l1 IH]; intros s; [done|].
  cbn. destruct (f s x); cbn; [apply IH|done].
Qed.

(** An invariant of every iteration is an invariant of the loop. *)
Lemma py_foldl_inv {A S} (I : S -> Prop) (f : S -> A -> Py S) l s s' :
  (forall s x s', x ∈ l -> I s -> f s x = Ok s' -> I s') ->
  I s -> py_foldl f s l = Ok s' -> I s'.
Proof.
  revert s. induction l as [|x l IH]; intros s Hstep HI; cbn.
  - naive_solver.
  - intros (s1 & H1 & H2)%bind_Ok.
    eapply IH; [|eapply Hstep; [apply list_elem_of_here|..]; eassumption|done].
    intros. eapply Hstep; [apply list_elem_of_further|..]; eassumption.
Qed.

(** A loop whose iterations preserve [I] and never raise under [I] returns. *)
Lemma py_foldl_total {A S} (I : S -> Prop) (f : S -> A -> Py S) l s :
  (forall s x, x ∈ l -> I s -> exists s', f s x = Ok s' /\ I s') ->
  I s -> exists s', py_foldl f s l = Ok s' /\ I s'.
Proof.
  revert s. induction l as [|x l IH]; intros s Hstep HI; cbn; [eauto|].
  destruct (Hstep s x) as (s1 & -> & HI1); [apply list_elem_of_here|done|].
  cbn. apply IH; [|done].
  intros. apply Hstep; [by apply list_elem_of_further|done].
Qed.

Lemma py_forall_Ok {A} (f : A -> Py unit) l :
  py_forall f l = Ok tt <-> forall x, x ∈ l -> f x = Ok tt.
Proof.
  unfold py_forall. induction l as [|x l IH]; cbn.
  - split; [set_solver|done].
  - rewrite bind_Ok. split.
    + intros ([] & H1 & H2) y [->|Hy]%elem_of_cons; [done|].
      by apply IH.
    + intros H. exists tt. split; [apply H; left|].
      apply IH. intros y Hy. apply H. by right.
Qed.

(** ** Tactics *)

(** Break the boolean connectives of the context into atomic comparisons. *)
Ltac bool_hyps :=
  repeat match goal with
  | H : _ && _ = true |- _ => apply andb_true_iff in H as [? ?]
  | H : _ || _ = false |- _ => apply orb_false_iff in H as [? ?]
  | H : negb _ = true |- _ => apply negb_true_iff in H
  | H : negb _ = false |- _ => apply negb_false_iff in H
  | H : bool_decide _ = true |- _ => apply bool_decide_eq_true in H
  | H : bool_decide _ = false |- _ => apply bool_decide_eq_false in H
  | H : (_ <=? _) = true |- _ => apply Z.leb_le in H
  | H : (_ <=? _) = false |- _ => apply Z.leb_gt in H
  | H : (_ <? _) = true |- _ => apply Z.ltb_lt in H
  | H : (_ <? _) = false |- _ => apply Z.ltb_ge in H
  | H : (_ =? _) = true |- _ => apply Z.eqb_eq in H
  | H : (_ =? _) = false |- _ => apply Z.eqb_neq in H
  end.

(** Run a [Py] computation that is known to have returned. *)
Ltac py_inv :=
  repeat match goal with
  | H : (_ ≫= _) = Ok _ |- _ => apply bind_Ok in H as (? & ? & ?)
  | H : py_assert _ _ = Ok _ |- _ => apply py_assert_Ok in H
  | H : raise_if _ _ = Ok _ |- _ => apply raise_if_Ok in H
  | H : assert_some _ _ = Ok _ |- _ => apply assert_some_Ok in H
  | H : Raise _ = Ok _ |- _ => discriminate H
  | H : Ok _ = Raise _ |- _ => discriminate H
  | H : Ok _ = Ok _ |- _ => injection H as H
  | H : mret _ = Ok _ |- _ => injection H as H
  end.

(** An equation of integers from the known value [H] of its left side, up to
    the arithmetic on the right side. *)
Ltac exact_lia H := etransitivity; [exact H|lia].

(** Case split on the conditions of the goal or of a hypothesis. *)
Ltac case_if :=
  match goal with
  | |- context [if ?b then _ else _] => destruct b eqn:?
  | H : context [if ?b then _ else _] |- _ => destruct b eqn:?
  end.

(** ** Lists *)

(** [list.remove(x)] of Python: drop the first occurrence. *)
Fixpoint remove_first {A} `{EqDecision A} (x : A) (l : list A) : list A :=
  match l with
  | [] => []
  | y :: l' => if decide (x = y) then l' else y :: remove_first x l'
  end.

Section remove_first.
Context {A : Type} `{EqDecision A}.
Implicit Types (x : A) (l : list A).

Lemma remove_first_perm x l : x ∈ l -> x :: remove_first x l ≡ₚ l.
Proof.
  induction l as [|y l IH]; cbn; [set_solver|].
  intros Hx. case_decide as E; [by subst|].
  rewrite Permutation_swap. constructor. apply IH. set_solver.
Qed.

Lemma remove_first_not_in x l : x ∉ l -> remove_first x l = l.
Proof.
  induction l as [|y l IH]; cbn; [done|]. intros Hx.
  case_decide; [set_solver|]. f_equal. apply IH. set_solver.
Qed.

Lemma remove_first_app_last x l : x ∉ l -> remove_first x (l ++ [x]) = l.
Proof.
  induction l as [|y l IH]; cbn; intros Hx.
  - by rewrite decide_True.
  - case_decide; [set_solver|]. f_equal. apply IH. set_solver.
Qed.

Lemma length_remove_first x l :
  x ∈ l -> length l = S (length (remove_first x l)).
Proof. intros H. by rewrite <- (Permutation_length (remove_first_perm x l H)). Qed.

Lemma elem_of_remove_first x y l : y ∈ remove_first x l -> y ∈ l.
Proof.
  induction l as [|z l IH]; cbn; [done|]. case_decide; [set_solver|].
  rewrite !elem_of_cons. naive_solver.
Qed.
End remove_first.

(** Sum of an integer measure over a list, Python's [sum(f(x) for x in l)]. *)
Definition zsum {A} (f : A -> Z) (l : list A) : Z :=
  foldr (fun x acc => f x + acc) 0 l.

Section zsum.
Context {A : Type}.
Implicit Types (f : A -> Z) (l : list A).

Lemma zsum_app f l1 l2 : zsum f (l1 ++ l2) = zsum f l1 + zsum f l2.
Proof. unfold zsum. induction l1 as [|x l1 IH]; cbn; lia. Qed.

Lemma zsum_nonneg f l : (forall x, x ∈ l -> 0 <= f x) -> 0 <= zsum f l.
Proof.
  induction l as [|x l IH]; cbn; intros H; [lia|].
  specialize (H x (list_elem_of_here x l)) as Hx.
  enough (0 <= zsum f l) by (unfold zsum in *; lia).
  apply IH. intros. apply H. by right.
Qed.

Lemma zsum_elem f l x :
  (forall x, x ∈ l -> 0 <= f x) -> x ∈ l -> f x <= zsum f l.
Proof.
  intros H (l1 & l2 & ->)%list_elem_of_split.
  rewrite zsum_app. cbn.
  enough (0 <= zsum f l1 /\ 0 <= zsum f l2) by (unfold zsum in *; lia).
  split; apply zsum_nonneg; intros; apply H; set_solver.
Qed.

Lemma zsum_map {B} (g : B -> A) f (l : list B) :
  zsum f (map g l) = zsum (fun x => f (g x)) l.
Proof. unfold zsum. induction l as [|x l IH]; cbn; [done|]. by rewrite IH. Qed.

#[export] Instance zsum_proper f : Proper ((≡ₚ) ==> (=)) (zsum f).
Proof.
  intros l1 l2 H. unfold zsum. induction H; cbn; try lia.
Qed.
End zsum.

(** Largest element of a list of integers, [max(l, default=d)]. *)
Definition zmax_default (d : Z) (l : list Z) : Z :=
  match l with [] => d | x :: l' => foldr Z.max x l' end.

Lemma zmax_default_In d l : l <> [] -> zmax_default d l ∈ l.
Proof.
  destruct l as [|x l]; [done|]. intros _. cbn.
  induction l as [|y l IH]; cbn; [set_solver|].
  destruct (Z.max_spec y (foldr Z.max x l)) as [[_ ->]|[_ ->]]; set_solver.
Qed.

Lemma zmax_default_ge d l x : x ∈ l -> x <= zmax_default d l.
Proof.
  destruct l as [|y l]; [set_solver|]. cbn.
  induction l as [|z l IH]; cbn; [set_solver|].
  rewrite !elem_of_cons in *. intros [->|[->|Hx]].
  - specialize (IH (or_introl eq_refl)). lia.
  - lia.
  - specialize (IH (or_intror Hx)). lia.
Qed.

(** ** Code that changes a state and may raise

    An exception keeps the changes that were made before it.  The monad of the
    event handler, of the transport and of the calls of the user. *)

Definition St (S A : Type) : Type := S -> S * Py A.

#[export] Instance st_ret S : MRet (St S) := fun A a s => (s, Ok a).
#[export] Instance st_bind S : MBind (St S) := fun A B f m s =>
  match m s with
  | (s', Ok a) => f a s'
  | (s', Raise e) => (s', Raise e)
  end.

Section state.
Context {S : Type}.
Implicit Types (s : S).

(** A computation that does not touch the state. *)
Definition st_lift {A} (m : Py A) : St S A := fun s => (s, m).
Definition st_get : St S S := fun s => (s, Ok s).
Definition st_modify (f : S -> S) : St S unit := fun s => (f s, Ok tt).
Definition st_raise {A} (e : exn) : St S A := fun s => (s, Raise e).

(** [try: m except: handler] *)
Definition st_catch {A} (m : St S A) (handler : exn -> St S A) : St S A := fun s =>
  match m s with
  | (s', Raise e) => handler e s'
  | r => r
  end.

(** [for a in l: f(a)] *)
Fixpoint st_iter {A} (f : A -> St S unit) (l : list A) : St S unit :=
  match l with
  | [] => mret tt
  | a :: l' => _ ← f a; st_iter f l'
  end.

Lemma st_bind_ok {A B} (m : St S A) (f : A -> St S B) s s' a :
  m s = (s', Ok a) -> (m ≫= f) s = f a s'.
Proof. intros Hm. unfold mbind, st_bind. by rewrite Hm. Qed.

Lemma st_bind_raise {A B} (m : St S A) (f : A -> St S B) s s' e :
  m s = (s', Raise e) -> (m ≫= f) s = (s', Raise e).
Proof. intros Hm. unfold mbind, st_bind. by rewrite Hm. Qed.

Lemma st_lift_bind {A B} (m : Py A) (f : A -> St S B) s a :
  m = Ok a -> (st_lift m ≫= f) s = f a s.
Proof. intros ->. done. Qed.

Lemma st_lift_raise {A B} (m : Py A) (f : A -> St S B) s e :
  m = Raise e -> (st_lift m ≫= f) s = (s, Raise e).
Proof. intros ->. done. Qed.

Lemma st_iter_cons {A} (f : A -> St S unit) a l s s' :
  f a s = (s', Ok tt) -> st_iter f (a :: l) s = st_iter f l s'.
Proof. intros Hf. cbn. by rewrite (st_bind_ok _ _ _ _ _ Hf). Qed.

(** The result of a loop whose steps do not raise. *)
Lemma st_iter_app {A} (f : A -> St S unit) l1 l2 s s' :
  st_iter f l1 s = (s', Ok tt) -> st_iter f (l1 ++ l2) s = st_iter f l2 s'.
Proof.
  revert s. induction l1 as [|a l1 IH]; intros s Hr; cbn in *; [by injection Hr as ->|].
  unfold mbind, st_bind in *. destruct (f a s) as [s1 [[]|e]]; [by apply IH|discriminate Hr].
Qed.

Lemma st_iter_foldl {A} (f : A -> St S unit) (step : S -> A -> S) l s :
  (forall a s, a ∈ l -> f a s = (step s a, Ok tt)) -> st_iter f l s = (foldl step s l, Ok tt).
Proof.
  revert s. induction l as [|a l IH]; intros s Hf; [done|].
  rewrite (st_iter_cons f a l s (step s a)) by (apply Hf; left). cbn.
  apply IH. intros. apply Hf. by right.
Qed.

(** An invariant of the state. *)
Lemma st_iter_ind {A} (P : S -> Prop) (f : A -> St S unit) l s :
  (forall a s, a ∈ l -> P s -> P (fst (f a s))) -> P s -> P (fst (st_iter f l s)).
Proof.
  revert s. induction l as [|a l IH]; intros s Hf Hs; [done|]. cbn. unfold mbind, st_bind.
  pose proof (Hf a s ltac:(left) Hs) as Ha. destruct (f a s) as [s' [[]|e]]; cbn in *; [|done].
  apply IH; [|done]. intros. apply Hf; [by right|done].
Qed.
End state.
