(* ===== verification/PyDict.v ===== *)
(** Python dictionaries.

    The state of a channel is kept in dictionaries, and some of the code
    depends on the fact that a dictionary iterates in insertion order (e.g.
    [events_for_expired_withdraws] stops at the first withdraw that is not
    expired).  A dictionary is therefore an association list: assigning to a
    present key replaces the value in place, assigning to a new key appends.

    [dict_abs] maps a dictionary to stdpp's extensional [gmap]; the
    [dict_refines] class states what a dictionary promises to its clients.  At the
    end of the file is [list.sort]. *)

From stdpp Require Import base list gmap sorting.
From S2P Require Import Prelude.

Definition dict (K V : Type) : Type := list (K * V).

Section operations.
Context {K V : Type} `{EqDecision K}.
Implicit Types (d : dict K V) (k : K) (v : V).

(** [d.get(k)] *)
Fixpoint dict_get k d : option V :=
  match d with
  | [] => None
  | (k', v) :: d' => if decide (k = k') then Some v else dict_get k d'
  end.

(** [d[k] = v] *)
Fixpoint dict_set k v d : dict K V :=
  match d with
  | [] => [(k, v)]
  | (k', v') :: d' =>
      if decide (k = k') then (k', v) :: d' else (k', v') :: dict_set k v d'
  end.

(** [del d[k]] for a present key; nothing otherwise. *)
Fixpoint dict_del k d : dict K V :=
  match d with
  | [] => []
  | (k', v') :: d' =>
      if decide (k = k') then d' else (k', v') :: dict_del k d'
  end.

(** [k in d] *)
Definition dict_mem k d : bool :=
  match dict_get k d with Some _ => true | None => false end.

(** [del d[k]] with the [KeyError] of an absent key. *)
Definition dict_del_checked k d : Py (dict K V) :=
  if dict_mem k d then Ok (dict_del k d) else Raise KeyError.

Definition dict_keys d : list K := map fst d.
Definition dict_values d : list V := map snd d.

(** A dictionary has every key once. *)
Definition dict_wf d : Prop := NoDup (dict_keys d).
End operations.

Section lemmas.
Context {K V : Type} `{EqDecision K}.
Implicit Types (d : dict K V) (k : K) (v : V).

Lemma dict_get_In k v d : dict_get k d = Some v -> (k, v) ∈ d.
Proof.
  induction d as [|[k' v'] d IH]; cbn; [done|].
  case_decide; [|set_solver]. intros [= ->]. subst. left.
Qed.

Lemma dict_get_Some k v d :
  dict_wf d -> dict_get k d = Some v <-> (k, v) ∈ d.
Proof.
  unfold dict_wf. induction d as [|[k' v'] d IH]; cbn; intros Hnd.
  - split; [done|]. by intros ?%elem_of_nil.
  - apply NoDup_cons in Hnd as [Hk Hnd]. rewrite elem_of_cons.
    case_decide as E; [subst k'|].
    + split; [intros [= ->]; by left|]. intros [[= ->]|Hin]; [done|].
      exfalso. apply Hk. apply list_elem_of_fmap. by exists (k, v).
    + rewrite IH by done. naive_solver.
Qed.

Lemma dict_get_None k d : dict_get k d = None <-> k ∉ dict_keys d.
Proof.
  induction d as [|[k' v'] d IH]; cbn.
  - split; [intros _; apply not_elem_of_nil|done].
  - rewrite not_elem_of_cons. case_decide; naive_solver.
Qed.

Lemma dict_mem_true k d : dict_mem k d = true <-> is_Some (dict_get k d).
Proof. unfold dict_mem. destruct (dict_get k d); naive_solver. Qed.

Lemma dict_mem_false k d : dict_mem k d = false <-> dict_get k d = None.
Proof. unfold dict_mem. destruct (dict_get k d); naive_solver. Qed.

Lemma dict_mem_keys k d : dict_mem k d = true <-> k ∈ dict_keys d.
Proof.
  rewrite dict_mem_true, <- not_eq_None_Some, dict_get_None.
  destruct (decide (k ∈ dict_keys d)); tauto.
Qed.

Lemma dict_get_set_eq k v d : dict_get k (dict_set k v d) = Some v.
Proof.
  induction d as [|[k' v'] d IH]; cbn; [by rewrite decide_True|].
  case_decide; cbn; [by rewrite decide_True|by rewrite decide_False].
Qed.

Lemma dict_get_set_ne k k' v d :
  k <> k' -> dict_get k (dict_set k' v d) = dict_get k d.
Proof.
  intros Hne. induction d as [|[k1 v1] d IH]; cbn; [by rewrite decide_False|].
  case_decide; cbn; [subst; by rewrite !decide_False|].
  case_decide; [done|apply IH].
Qed.

Lemma dict_get_del_ne k k' d :
  k <> k' -> dict_get k (dict_del k' d) = dict_get k d.
Proof.
  intros Hne. induction d as [|[k1 v1] d IH]; cbn; [done|].
  case_decide; cbn; [subst; by rewrite decide_False|].
  case_decide; [done|apply IH].
Qed.

Lemma dict_del_absent k d : dict_get k d = None -> dict_del k d = d.
Proof.
  induction d as [|[k1 v1] d IH]; cbn; [done|].
  case_decide; [done|]. intros Hk. by rewrite IH.
Qed.

(** Assigning a new key appends it at the end. *)
Lemma dict_set_fresh k v d :
  dict_get k d = None -> dict_set k v d = d ++ [(k, v)].
Proof.
  induction d as [|[k1 v1] d IH]; cbn; [done|].
  case_decide; [done|]. intros Hk. by rewrite IH.
Qed.

(** Assigning a present key keeps the order of the keys. *)
Lemma dict_keys_set_present k v d :
  is_Some (dict_get k d) -> dict_keys (dict_set k v d) = dict_keys d.
Proof.
  induction d as [|[k1 v1] d IH]; cbn; [by intros []|].
  case_decide; cbn; [done|]. intros Hk. unfold dict_keys in *.
  by rewrite IH.
Qed.

Lemma dict_keys_del k d : dict_keys (dict_del k d) = remove_first k (dict_keys d).
Proof.
  unfold dict_keys. induction d as [|[k1 v1] d IH]; cbn; [done|].
  case_decide; [done|]. cbn. by rewrite <- IH.
Qed.

Lemma dict_wf_nil : dict_wf (V:=V) (K:=K) [].
Proof. constructor. Qed.

Lemma dict_wf_set k v d : dict_wf d -> dict_wf (dict_set k v d).
Proof.
  unfold dict_wf. intros Hwf. destruct (dict_get k d) eqn:E.
  - by rewrite dict_keys_set_present by eauto.
  - rewrite dict_set_fresh by done. unfold dict_keys.
    rewrite map_app. apply NoDup_app. split_and!; [done| |by apply NoDup_singleton].
    intros x Hx ->%list_elem_of_singleton. by apply dict_get_None in E.
Qed.

Lemma dict_wf_del k d : dict_wf d -> dict_wf (dict_del k d).
Proof.
  unfold dict_wf. induction d as [|[k1 v1] d IH]; cbn; [done|].
  intros [Hk Hwf]%NoDup_cons. case_decide; [done|]. cbn. constructor.
  - fold (dict_keys (dict_del k d)). rewrite dict_keys_del.
    intros ?%elem_of_remove_first. done.
  - by apply IH.
Qed.

Lemma dict_get_del_eq k d : dict_wf d -> dict_get k (dict_del k d) = None.
Proof.
  unfold dict_wf. induction d as [|[k1 v1] d IH]; cbn; [done|].
  intros [Hk Hwf]%NoDup_cons. case_decide as E.
  - subst. by apply dict_get_None.
  - cbn. rewrite decide_False by done. by apply IH.
Qed.

(** The entries of a dictionary up to the order of the keys. *)
Lemma dict_set_fresh_perm k v d :
  dict_get k d = None -> dict_set k v d ≡ₚ (k, v) :: d.
Proof.
  intros H. rewrite dict_set_fresh by done.
  apply Permutation_sym, Permutation_cons_append.
Qed.

Lemma dict_del_perm k v d :
  dict_get k d = Some v -> d ≡ₚ (k, v) :: dict_del k d.
Proof.
  induction d as [|[k1 v1] d IH]; cbn; [done|]. case_decide as E.
  - intros [= ->]. by subst.
  - intros Hk. rewrite Permutation_swap. constructor. by apply IH.
Qed.

Lemma dict_values_set_fresh k v d :
  dict_get k d = None -> dict_values (dict_set k v d) = dict_values d ++ [v].
Proof.
  intros H. rewrite dict_set_fresh by done. unfold dict_values. by rewrite map_app.
Qed.

Lemma dict_values_del k v d :
  dict_get k d = Some v -> dict_values d ≡ₚ v :: dict_values (dict_del k d).
Proof.
  intros H%dict_del_perm. unfold dict_values.
  by rewrite (Permutation_map snd H).
Qed.

Lemma dict_values_elem v d : v ∈ dict_values d <-> exists k, (k, v) ∈ d.
Proof.
  unfold dict_values. rewrite list_elem_of_fmap. split.
  - intros ([k w] & -> & H). by exists k.
  - intros (k & H). by exists (k, v).
Qed.

(** Every value that is in the dictionary after an assignment was assigned
    or was there before. *)
Lemma dict_set_elem k v d k' v' :
  (k', v') ∈ dict_set k v d -> (k' = k /\ v' = v) \/ (k', v') ∈ d.
Proof.
  induction d as [|[k1 v1] d IH]; cbn.
  - intros [= -> ->]%list_elem_of_singleton. by left.
  - case_decide; rewrite !elem_of_cons; naive_solver.
Qed.

Lemma dict_get_app k d1 d2 :
  dict_get k (d1 ++ d2) =
  match dict_get k d1 with Some v => Some v | None => dict_get k d2 end.
Proof.
  induction d1 as [|[k1 v1] d1 IH]; cbn; [done|]. by case_decide.
Qed.

Lemma dict_values_app d1 d2 : dict_values (d1 ++ d2) = dict_values d1 ++ dict_values d2.
Proof. apply map_app. Qed.

Lemma dict_keys_app d1 d2 : dict_keys (d1 ++ d2) = dict_keys d1 ++ dict_keys d2.
Proof. apply map_app. Qed.

Lemma dict_wf_app d1 d2 :
  dict_wf (d1 ++ d2) <->
  dict_wf d1 /\ dict_wf d2 /\ (forall k, is_Some (dict_get k d1) -> dict_get k d2 = None).
Proof.
  unfold dict_wf. rewrite dict_keys_app, NoDup_app. split.
  - intros (H1 & Hd & H2). split_and!; [done..|]. intros k Hk. apply dict_get_None, Hd.
    rewrite <- not_eq_None_Some, dict_get_None in Hk.
    by destruct (decide (k ∈ dict_keys d1)).
  - intros (H1 & H2 & Hd). split_and!; [done| |done]. intros k Hk.
    apply dict_get_None, Hd. by apply dict_mem_true, dict_mem_keys.
Qed.

Lemma dict_del_app k d1 d2 :
  dict_wf (d1 ++ d2) -> dict_del k (d1 ++ d2) = dict_del k d1 ++ dict_del k d2.
Proof.
  intros (_ & _ & Hd)%dict_wf_app.
  destruct (dict_get k d1) as [v|] eqn:E.
  - rewrite (dict_del_absent k d2) by eauto. clear Hd.
    induction d1 as [|[k1 v1] d1 IH]; cbn in *; [done|].
    case_decide; [done|]. cbn. by rewrite IH.
  - rewrite (dict_del_absent k d1) by done. clear Hd.
    induction d1 as [|[k1 v1] d1 IH]; cbn in *; [done|].
    case_decide; [done|]. by rewrite IH.
Qed.

(** Lookup does not depend on the order of the entries. *)
Lemma dict_get_perm k d1 d2 :
  dict_wf d1 -> d1 ≡ₚ d2 -> dict_get k d1 = dict_get k d2.
Proof.
  intros Hwf Hp.
  assert (dict_wf d2) as Hwf2
    by (unfold dict_wf, dict_keys in *; by rewrite <- (Permutation_map fst Hp)).
  apply option_eq. intros v. by rewrite !dict_get_Some, Hp by done.
Qed.

Lemma dict_del_elem k d k' v' : (k', v') ∈ dict_del k d -> (k', v') ∈ d.
Proof.
  induction d as [|[k1 v1] d IH]; cbn; [done|].
  case_decide; rewrite !elem_of_cons; naive_solver.
Qed.

Lemma dict_keys_set_elem k v d k' :
  k' ∈ dict_keys (dict_set k v d) -> k' = k \/ k' ∈ dict_keys d.
Proof.
  intros ([k1 v1] & -> & [[-> _]|Hin]%dict_set_elem)%list_elem_of_fmap; [by left|].
  right. apply list_elem_of_fmap. by exists (k1, v1).
Qed.

Lemma dict_keys_update k v v' d k' :
  dict_get k d = Some v' -> k' ∈ dict_keys (dict_set k v d) -> k' ∈ dict_keys d.
Proof. intros Hg. by rewrite dict_keys_set_present by eauto. Qed.

Lemma dict_keys_del_subset k d : dict_keys (dict_del k d) ⊆ dict_keys d.
Proof. rewrite dict_keys_del. intros x. apply elem_of_remove_first. Qed.

(** A function of the key and the value. *)
Lemma dict_get_map_keyed {W} (g : K -> V -> W) k d :
  dict_get k (map (fun kv => (fst kv, g (fst kv) (snd kv))) d) = g k <$> dict_get k d.
Proof. induction d as [|[k1 v1] d IH]; cbn; [done|]. case_decide; [by subst|done]. Qed.
End lemmas.

(** Applying a function to the values of a dictionary. *)
Definition dict_map_values {K V W} (f : V -> W) (d : dict K V) : dict K W :=
  map (fun kv => (kv.1, f kv.2)) d.
#[global] Arguments dict_map_values : simpl never.

Section map_values.
Context {K V W : Type} `{EqDecision K} (f : V -> W).
Implicit Types (d : dict K V) (k : K).

Lemma dict_get_map_values k d :
  dict_get k (dict_map_values f d) = f <$> dict_get k d.
Proof.
  unfold dict_map_values. induction d as [|[k1 v1] d IH]; cbn; [done|]. by case_decide.
Qed.

Lemma dict_keys_map_values d : dict_keys (dict_map_values f d) = dict_keys d.
Proof. unfold dict_keys, dict_map_values. by rewrite map_map. Qed.

Lemma dict_values_map_values d : dict_values (dict_map_values f d) = map f (dict_values d).
Proof. unfold dict_values, dict_map_values. by rewrite !map_map. Qed.

Lemma dict_del_map_values k d :
  dict_map_values f (dict_del k d) = dict_del k (dict_map_values f d).
Proof.
  unfold dict_map_values. induction d as [|[k1 v1] d IH]; cbn; [done|].
  case_decide; [done|]. cbn. f_equal. apply IH.
Qed.

Lemma dict_set_map_values k v d :
  dict_map_values f (dict_set k v d) = dict_set k (f v) (dict_map_values f d).
Proof.
  unfold dict_map_values. induction d as [|[k1 v1] d IH]; cbn; [done|].
  case_decide; [done|]. cbn. f_equal. apply IH.
Qed.
End map_values.

#[export] Hint Resolve dict_wf_nil dict_wf_set dict_wf_del : raiden.
#[export] Hint Rewrite @dict_get_set_eq : raiden_rw.

(** ** Refinement: a dictionary implements a finite map *)

(** What a mutable mapping promises to its clients, in terms of an abstract
    finite map. *)
Class MapRefinement (K V D : Type) `{Countable K}
    (get : K -> D -> option V) (set : K -> V -> D -> D) (del : K -> D -> D)
    (wf : D -> Prop) (abs : D -> gmap K V) : Prop := {
  refine_get k d : wf d -> get k d = abs d !! k;
  refine_set k v d : wf d -> abs (set k v d) = <[k := v]> (abs d);
  refine_del k d : wf d -> abs (del k d) = delete k (abs d);
  refine_set_wf k v d : wf d -> wf (set k v d);
  refine_del_wf k d : wf d -> wf (del k d)
}.

Section refinement.
Context {K V : Type} `{Countable K}.

Definition dict_abs (d : dict K V) : gmap K V := list_to_map d.

Lemma dict_get_abs k (d : dict K V) : dict_get k d = dict_abs d !! k.
Proof.
  unfold dict_abs. induction d as [|[k' v'] d IH]; cbn; [by rewrite lookup_empty|].
  rewrite lookup_insert. case_decide; case_decide; congruence.
Qed.

#[export] Instance dict_refines :
  MapRefinement K V (dict K V) dict_get dict_set dict_del dict_wf dict_abs.
Proof.
  split.
  - intros. apply dict_get_abs.
  - intros k v d _. apply map_eq. intros k'. rewrite <- dict_get_abs, lookup_insert.
    case_decide; [subst; apply dict_get_set_eq|].
    by rewrite dict_get_set_ne, dict_get_abs by done.
  - intros k d Hwf. apply map_eq. intros k'. rewrite <- dict_get_abs, lookup_delete.
    case_decide; [subst; by apply dict_get_del_eq|].
    by rewrite dict_get_del_ne, dict_get_abs by done.
  - intros. by apply dict_wf_set.
  - intros. by apply dict_wf_del.
Qed.
End refinement.

(** ** [list.sort(key=...)]: a stable sort by an order on the keys *)

Section sort.
Context {A K : Type} (key : A -> K) (key_leb : K -> K -> bool).

Fixpoint insert_by (x : A) (l : list A) : list A :=
  match l with
  | [] => [x]
  | y :: l' => if key_leb (key x) (key y) then x :: l else y :: insert_by x l'
  end.

Definition py_sort (l : list A) : list A := foldr insert_by [] l.

Definition key_le (k1 k2 : K) : Prop := key_leb k1 k2 = true.
Definition by_key (x y : A) : Prop := key_le (key x) (key y).

Lemma insert_by_perm x l : insert_by x l ≡ₚ x :: l.
Proof.
  induction l as [|y l IH]; cbn; [done|]. destruct (key_leb _ _); [done|].
  rewrite IH. apply Permutation_swap.
Qed.

Lemma py_sort_perm l : py_sort l ≡ₚ l.
Proof. induction l as [|x l IH]; cbn; [done|]. by rewrite insert_by_perm, IH. Qed.

Lemma py_sort_elem x l : x ∈ py_sort l <-> x ∈ l.
Proof. by rewrite py_sort_perm. Qed.

Context `{!Transitive key_le} `{!Total key_le}.

Lemma insert_by_sorted x l : StronglySorted by_key l -> StronglySorted by_key (insert_by x l).
Proof.
  induction 1 as [|y l Hl IH Hy]; cbn; [by repeat constructor|]. destruct (key_leb _ _) eqn:E.
  - constructor; [by constructor|]. constructor; [exact E|].
    eapply Forall_impl; [exact Hy|]. intros z Hz. exact (transitivity (R := key_le) E Hz).
  - constructor; [exact IH|]. rewrite insert_by_perm. constructor; [|exact Hy].
    destruct (total key_le (key x) (key y)) as [Hc|Hc]; [|exact Hc]. unfold key_le in Hc. congruence.
Qed.

Lemma py_sort_sorted l : StronglySorted by_key (py_sort l).
Proof. induction l as [|x l IH]; cbn; [constructor|]. by apply insert_by_sorted. Qed.

(** Elements with the same key keep their order. *)
Lemma insert_by_stable `{EqDecision K} k x l :
  filter (fun y => key y = k) (insert_by x l) = filter (fun y => key y = k) (x :: l).
Proof.
  induction l as [|y l IH]; cbn [insert_by]; [done|].
  destruct (key_leb _ _) eqn:E; [done|]. rewrite filter_cons, IH, !filter_cons.
  destruct (decide (key x = k)) as [<-|]; destruct (decide (key y = _)) as [Hy|]; try done.
  rewrite Hy in E. destruct (total key_le (key x) (key x)); unfold key_le in *; congruence.
Qed.

Lemma py_sort_stable `{EqDecision K} k l :
  filter (fun y => key y = k) (py_sort l) = filter (fun y => key y = k) l.
Proof.
  induction l as [|x l IH]; [done|]. cbn [py_sort foldr].
  rewrite insert_by_stable, !filter_cons. by rewrite <- IH.
Qed.

(** The keys of the sorted list do not depend on the order of the list. *)
Lemma py_sort_keys `{!AntiSymm (=) key_le} l l' :
  l ≡ₚ l' -> key <$> py_sort l = key <$> py_sort l'.
Proof.
  intros Hp. apply (StronglySorted_unique key_le).
  - eapply StronglySorted_fmap; [|apply py_sort_sorted]. done.
  - eapply StronglySorted_fmap; [|apply py_sort_sorted]. done.
  - by rewrite !py_sort_perm, Hp.
Qed.

Lemma sorted_lookup l i j x y :
  StronglySorted by_key l -> l !! i = Some x -> l !! j = Some y -> (i < j)%nat -> by_key x y.
Proof.
  intros Hl. revert i j. induction Hl as [|z l Hl IH Hz]; [done|].
  intros [|i] [|j]; cbn; intros; try lia.
  - simplify_eq. rewrite Forall_lookup in Hz. by eapply Hz.
  - eapply (IH i j); done || lia.
Qed.
End sort.
