(* ===== verification/Bytes.v ===== *)
(** Byte strings: [int.to_bytes]/[int.from_bytes] in big-endian order,
    [bytes.hex], and the textual helpers of [utils/formatting.py] that the
    signed data depends on.  The little-endian combinators and their lemmas
    are coqutil's. *)

From stdpp Require Import base list list_numbers strings pretty.
From coqutil Require Import Byte Word.LittleEndianList.
From S2P Require Import Prelude.

(** Python's [bytes]. *)
Definition bytes : Type := list Byte.byte.

#[export] Instance byte_eq_dec : EqDecision Byte.byte := Byte.byte_eq_dec.
#[export] Instance bytes_eq_dec : EqDecision bytes := _.

(** [bytes(n)]: [n] zero bytes. *)
Definition zero_bytes (n : nat) : bytes := replicate n Byte.x00.

(** The big-endian digits of the low [n] bytes of an integer. *)
Definition be_encode (n : nat) (z : Z) : bytes := rev (le_split n z).

(** [int.from_bytes(b, byteorder=big)] *)
Definition int_from_bytes (b : bytes) : Z := le_combine (rev b).

(** [z.to_bytes(n, byteorder=big)]: [OverflowError] when [z] does not fit. *)
Definition int_to_bytes (n : nat) (z : Z) : Py bytes :=
  if (0 <=? z) && (z <? 2 ^ (Z.of_nat n * 8)) then Ok (be_encode n z)
  else Raise OverflowError.

Lemma length_be_encode n z : length (be_encode n z) = n.
Proof. unfold be_encode. by rewrite length_rev, length_le_split. Qed.

Lemma be_encode_inv n z :
  0 <= z < 2 ^ (Z.of_nat n * 8) -> int_from_bytes (be_encode n z) = z.
Proof.
  intros H. unfold int_from_bytes, be_encode.
  rewrite rev_involutive, le_combine_split. by apply Z.mod_small.
Qed.

Lemma be_encode_inj n z1 z2 :
  0 <= z1 < 2 ^ (Z.of_nat n * 8) -> 0 <= z2 < 2 ^ (Z.of_nat n * 8) ->
  be_encode n z1 = be_encode n z2 -> z1 = z2.
Proof.
  intros H1 H2 H. apply (f_equal int_from_bytes) in H.
  by rewrite !be_encode_inv in H.
Qed.

Lemma int_from_bytes_bound b :
  0 <= int_from_bytes b < 2 ^ (Z.of_nat (length b) * 8).
Proof.
  unfold int_from_bytes. pose proof (le_combine_bound (rev b)) as H.
  rewrite length_rev in H. by rewrite Z.mul_comm.
Qed.

Lemma int_to_bytes_from_bytes n z b :
  int_to_bytes n z = Ok b -> length b = n /\ int_from_bytes b = z.
Proof.
  unfold int_to_bytes. case_if; [|done]. intros [= <-]. bool_hyps.
  split; [apply length_be_encode|by apply be_encode_inv].
Qed.

Lemma int_from_bytes_to_bytes b :
  int_to_bytes (length b) (int_from_bytes b) = Ok b.
Proof.
  pose proof (int_from_bytes_bound b) as [H1 H2].
  unfold int_to_bytes. rewrite (proj2 (Z.leb_le _ _) H1), (proj2 (Z.ltb_lt _ _) H2).
  cbn. unfold be_encode, int_from_bytes. f_equal.
  rewrite <- (length_rev b), split_le_combine. apply rev_involutive.
Qed.

(** ** Text *)

Definition byte_of_ascii (c : Ascii.ascii) : Byte.byte := Ascii.byte_of_ascii c.

Definition bytes_of_string (s : string) : bytes :=
  map byte_of_ascii (String.list_ascii_of_string s).

Definition hex_digit (d : Z) : string :=
  match d with
  | 0 => "0" | 1 => "1" | 2 => "2" | 3 => "3" | 4 => "4" | 5 => "5"
  | 6 => "6" | 7 => "7" | 8 => "8" | 9 => "9" | 10 => "a" | 11 => "b"
  | 12 => "c" | 13 => "d" | 14 => "e" | _ => "f"
  end%string.

(** [b.hex()] *)
Fixpoint bytes_hex (b : bytes) : string :=
  match b with
  | [] => ""%string
  | x :: b' =>
      (hex_digit (byte.unsigned x / 16) +:+ hex_digit (byte.unsigned x mod 16)
         +:+ bytes_hex b')%string
  end.

(** [utils.formatting.to_hex_address] *)
Definition to_hex_address (address : bytes) : string :=
  ("0x" +:+ bytes_hex address)%string.

(** [data.startswith(prefix)] *)
Fixpoint startswith (prefix data : bytes) : bool :=
  match prefix, data with
  | [], _ => true
  | _, [] => false
  | x :: p, y :: d => bool_decide (x = y) && startswith p d
  end.
