(* ===== verification/Crypto.v ===== *)
(** The cryptographic interface of the program.

    Hashing, public key recovery and the packing of signed data are done by
    third-party packages (eth_utils, eth_keys, hashlib, raiden_contracts).
    They are the operations of the class [Crypto]; what the code relies on is
    the class [CryptoLaws].  The functions of [utils/signer.py],
    [utils/packing.py], [utils/secrethash.py] and [transfer/utils] that wrap
    them are translated here. *)

From stdpp Require Import base list strings pretty.
From coqutil Require Import Byte.
From S2P Require Import Prelude Bytes.

(** ** Identifiers ([transfer/identifiers.py]) *)

Record CanonicalIdentifier : Type := mkCanonicalIdentifier {
  chain_identifier : Z;
  token_network_address : bytes;
  channel_identifier : Z
}.

#[export] Instance CanonicalIdentifier_eq_dec : EqDecision CanonicalIdentifier.
Proof. solve_decision. Defined.

(** [CanonicalIdentifier.validate] *)
Definition CanonicalIdentifier_validate (c : CanonicalIdentifier) : Py unit :=
  raise_if ((channel_identifier c <? 0) || (UINT256_MAX <? channel_identifier c))
    (ValueError "channel id is invalid").

Record QueueIdentifier : Type := mkQueueIdentifier {
  qi_recipient : bytes;
  qi_canonical_identifier : CanonicalIdentifier
}.

#[export] Instance QueueIdentifier_eq_dec : EqDecision QueueIdentifier.
Proof. solve_decision. Defined.

Definition EMPTY_ADDRESS : bytes := zero_bytes 20.
Definition NULL_ADDRESS_BYTES : bytes := zero_bytes 20.
Definition EMPTY_HASH : bytes := zero_bytes 32.
Definition EMPTY_SECRETHASH : bytes := zero_bytes 32.

Definition CANONICAL_IDENTIFIER_UNORDERED_QUEUE : CanonicalIdentifier :=
  mkCanonicalIdentifier 0 EMPTY_ADDRESS 0.

(** ** The third-party operations *)

Class Crypto : Type := {
  (** [eth_utils.keccak] *)
  keccak : bytes -> bytes;
  (** [hashlib.sha256(data).digest()] *)
  sha256 : bytes -> bytes;
  (** [keys.ecdsa_recover(hash, keys.Signature(sig)).to_canonical_address()];
      [None] when the library raises. *)
  ecdsa_recover : bytes -> bytes -> option bytes;
  (** [raiden_contracts.utils.proofs.pack_balance_proof] for the message type
      BALANCE_PROOF: token network (hex), chain, channel, nonce, balance hash
      and additional hash. *)
  proofs_pack_balance_proof : string -> Z -> Z -> Z -> bytes -> bytes -> bytes
}.

(** Documented behaviour of the hash functions: both digests have 32 bytes,
    and no other input is known with the digest of the empty string. *)
Class CryptoLaws `(Crypto) : Prop := {
  keccak_length b : length (keccak b) = 32%nat;
  sha256_length b : length (sha256 b) = 32%nat;
  keccak_empty b : keccak b = keccak [] -> b = []
}.

Section signed_data.
Context `{Crypto}.

(** [constants.LOCKSROOT_OF_NO_LOCKS] *)
Definition LOCKSROOT_OF_NO_LOCKS : bytes := keccak [].

(** [utils.secrethash.sha256_secrethash] *)
Definition sha256_secrethash (secret : bytes) : bytes := sha256 secret.

(** [utils.signer.eth_sign_sha3] *)
Definition eth_sign_prefix : bytes :=
  Byte.x19 :: bytes_of_string "Ethereum Signed Message:" ++ [Byte.x0a].

Definition eth_sign_sha3 (data : bytes) : bytes :=
  let data' :=
    if negb (startswith eth_sign_prefix data)
    then eth_sign_prefix ++ bytes_of_string (pretty (length data)) ++ data
    else data in
  keccak data'.

(** [utils.signer.recover], with the [v] normalization of [get_public_key];
    [None] stands for the exceptions that it raises. *)
Definition get_public_key (message signature : bytes) : option bytes :=
  let hashed_message := eth_sign_sha3 message in
  match last signature with
  | None => None
  | Some v =>
      let signature' :=
        if 27 <=? byte.unsigned v
        then take (length signature - 1) signature
               ++ [byte.of_Z (byte.unsigned v - 27)]
        else signature in
      ecdsa_recover hashed_message signature'
  end.

Definition recover (data signature : bytes) : option bytes :=
  get_public_key data signature.

(** [utils.packing.pack_balance_proof] *)
Definition pack_balance_proof (nonce : Z) (balance_hash additional_hash : bytes)
    (cid : CanonicalIdentifier) : bytes :=
  proofs_pack_balance_proof (to_hex_address (token_network_address cid))
    (chain_identifier cid) (channel_identifier cid) nonce
    balance_hash additional_hash.

(** [utils.packing.pack_withdraw]: the body of the function is
    [raise NotImplementedError]. *)
Definition pack_withdraw (cid : CanonicalIdentifier) (participant : bytes)
    (total_withdraw expiration_block : Z) : Py bytes :=
  Raise NotImplementedError.

(** [transfer.utils.hash_balance_data] *)
Definition hash_balance_data (transferred_amount locked_amount : Z)
    (locksroot : bytes) : Py bytes :=
  _ ← py_assert (bool_decide (locksroot <> [])) "Can't hash empty locksroot";
  _ ← py_assert (bool_decide (length locksroot = 32%nat)) "Locksroot has wrong length";
  if (transferred_amount =? 0) && (locked_amount =? 0)
       && bool_decide (locksroot = LOCKSROOT_OF_NO_LOCKS)
  then Ok EMPTY_HASH
  else
    t ← int_to_bytes 32 transferred_amount;
    l ← int_to_bytes 32 locked_amount;
    Ok (keccak (t ++ l ++ locksroot)).

(** For amounts of an unsigned 256 bit range and a 32 byte locksroot the
    balance hash is defined. *)
Lemma hash_balance_data_defined t l root :
  0 <= t <= UINT256_MAX -> 0 <= l <= UINT256_MAX -> length root = 32%nat ->
  exists h, hash_balance_data t l root = Ok h.
Proof.
  intros Ht Hl Hr. unfold hash_balance_data.
  rewrite UINT256_MAX_eq in *.
  rewrite (bool_decide_eq_true_2 (root <> [])) by (intros ->; discriminate).
  rewrite (bool_decide_eq_true_2 (length root = _)) by done. cbn.
  case_if; [eauto|].
  unfold int_to_bytes.
  assert (forall z, 0 <= z <= 2 ^ 256 - 1 ->
            (0 <=? z) && (z <? 2 ^ (Z.of_nat 32 * 8)) = true) as Hz.
  { intros z Hz. apply andb_true_iff. rewrite Z.leb_le, Z.ltb_lt. lia. }
  rewrite !Hz by done. cbn. eauto.
Qed.
End signed_data.

(** A concrete instance, used to evaluate the model on examples: the digest of
    a string is its length and the sum of its bytes in 32 bytes, and a
    signature is the address of its signer followed by any byte. *)
Definition toy_digest (b : bytes) : bytes :=
  be_encode 32 (Z.min (2 ^ 256 - 1)
    (2 ^ 16 * Z.of_nat (length b) + zsum byte.unsigned b)).

Definition toy_crypto : Crypto := {|
  keccak := toy_digest;
  sha256 := toy_digest;
  ecdsa_recover := fun _ s => Some (take 20 s);
  proofs_pack_balance_proof := fun _ _ _ _ _ _ => []
|}.

Lemma byte_unsigned_nonneg (x : Byte.byte) : 0 <= byte.unsigned x.
Proof. unfold byte.unsigned. lia. Qed.

Lemma toy_crypto_laws : CryptoLaws toy_crypto.
Proof.
  split; cbn; intros b; try apply length_be_encode.
  assert (0 <= zsum byte.unsigned b) as Hs
    by (apply zsum_nonneg; intros; apply byte_unsigned_nonneg).
  assert (0 < 2 ^ 256) as Hm by lia.
  unfold toy_digest. intros Heq.
  apply be_encode_inj in Heq; change (2 ^ (Z.of_nat 32 * 8)) with (2 ^ 256);
    change (zsum byte.unsigned []) with 0 in *; [|lia..].
  destruct b as [|x b]; [done|]. cbn [length] in Heq. lia.
Qed.
