(* ===== verification/Formatting.v ===== *)
(** Addresses as text ([utils/formatting.py]): the checksum of EIP-55, and that
    an address can be read back from it. *)

From Stdlib Require Import Ascii.
From coqutil Require Import Byte.
From S2P Require Import Prelude Bytes Crypto.

(** [char in "0123456789"] and [char.upper()], of a hexadecimal digit. *)
Definition is_decimal (c : ascii) : bool :=
  let n := nat_of_ascii c in ((48 <=? n) && (n <=? 57))%nat.
Definition upper (c : ascii) : ascii :=
  let n := nat_of_ascii c in
  if ((97 <=? n) && (n <=? 122))%nat then ascii_of_nat (n - 32) else c.

(** The loop of [to_checksum_address]: a letter is upper case if its bit of the
    hash is set. *)
Fixpoint checksum_chars (v i : Z) (cs : list ascii) : list ascii :=
  match cs with
  | [] => []
  | c :: cs' =>
      (if is_decimal c then c
       else if Z.testbit v (255 - 4 * i) then upper c else c)
      :: checksum_chars v (i + 1) cs'
  end.

(** [to_checksum_address] *)
Definition to_checksum_address `{Crypto} (address : bytes) : string :=
  let v := int_from_bytes (keccak (bytes_of_string (bytes_hex address))) in
  ("0x" +:+ String.string_of_list_ascii
              (checksum_chars v 0 (String.list_ascii_of_string (bytes_hex address))))%string.

(** ** Reading an address *)

(** The value of a hexadecimal digit, in upper or lower case. *)
Definition hex_value (c : ascii) : Z :=
  let n := Z.of_nat (nat_of_ascii c) in
  if n <=? 57 then n - 48 else if n <=? 70 then n - 55 else n - 87.

Fixpoint parse_digits (cs : list ascii) : bytes :=
  match cs with
  | a :: b :: cs' => byte.of_Z (16 * hex_value a + hex_value b) :: parse_digits cs'
  | _ => []
  end.

(** The bytes of an address with the prefix [0x]. *)
Definition parse_address (s : string) : bytes :=
  parse_digits (drop 2 (String.list_ascii_of_string s)).

Lemma list_ascii_app s1 s2 :
  String.list_ascii_of_string (s1 +:+ s2)
  = String.list_ascii_of_string s1 ++ String.list_ascii_of_string s2.
Proof.
  induction s1 as [|c s1 IH]; [done|].
  change (String.list_ascii_of_string (String c s1 +:+ s2))
    with (c :: String.list_ascii_of_string (s1 +:+ s2)). by rewrite IH.
Qed.

(** A digit is one character, and has its value in both cases. *)
Lemma hex_digit_char d :
  0 <= d < 16 ->
  exists c, String.list_ascii_of_string (hex_digit d) = [c] /\ hex_value c = d
            /\ hex_value (upper c) = d.
Proof.
  intros Hd.
  assert (d ∈ [0; 1; 2; 3; 4; 5; 6; 7; 8; 9; 10; 11; 12; 13; 14; 15]) as Hin.
  { rewrite !elem_of_cons. lia. }
  clear Hd. repeat (apply elem_of_cons in Hin as [->|Hin];
    [eexists; split; [reflexivity|split; reflexivity]|]). set_solver.
Qed.

Lemma parse_checksum_chars v b i :
  parse_digits (checksum_chars v i (String.list_ascii_of_string (bytes_hex b))) = b.
Proof.
  revert i. induction b as [|x b IH]; intros i; [done|]. cbn [bytes_hex].
  pose proof (byte.unsigned_range x) as Hx.
  destruct (hex_digit_char (byte.unsigned x / 16)) as (c1 & E1 & V1 & U1);
    [split; [apply Z.div_pos; lia|apply Z.div_lt_upper_bound; lia]|].
  destruct (hex_digit_char (byte.unsigned x mod 16)) as (c2 & E2 & V2 & U2);
    [apply Z.mod_pos_bound; lia|].
  rewrite !list_ascii_app, E1, E2. cbn [app checksum_chars parse_digits]. rewrite IH. f_equal.
  assert (forall c d j, hex_value c = d -> hex_value (upper c) = d ->
    hex_value (if is_decimal c then c else if Z.testbit v (255 - 4 * j) then upper c else c) = d)
    as Hcase by (intros; repeat case_match; done).
  rewrite (Hcase c1 _ _ V1 U1), (Hcase c2 _ _ V2 U2).
  rewrite <- Z.div_mod by lia. apply byte.of_Z_unsigned.
Qed.

Lemma parse_to_checksum `{Crypto} a : parse_address (to_checksum_address a) = a.
Proof.
  unfold parse_address, to_checksum_address. rewrite list_ascii_app.
  cbn [String.list_ascii_of_string drop app].
  rewrite String.list_ascii_of_string_of_list_ascii. apply parse_checksum_chars.
Qed.

#[export] Instance to_checksum_address_inj `{Crypto} : Inj (=) (=) to_checksum_address.
Proof. intros a b Hab. by rewrite <- (parse_to_checksum a), Hab, parse_to_checksum. Qed.
