(* ===== verification/PyFloat.v ===== *)
(** Python floats.

    A [float] is an IEEE 754 binary64 number; its operations are those of the
    standard library's [SpecFloat] at precision 53 and maximal exponent 1024.
    [float ** float] is the C library's [pow], which is the parameter of the
    class [FloatPow]. *)

From Stdlib Require Import SpecFloat.
From S2P Require Import Prelude.

Definition float : Type := spec_float.
Definition prec : Z := 53.
Definition emax : Z := 1024.

Class FloatPow : Type := {
  (** [x ** y]; raises [OverflowError] on overflow. *)
  float_pow : float -> float -> Py float
}.

Definition is_infinite (x : float) : bool :=
  match x with S754_infinity _ => true | _ => false end.

(** [float(z)] for an integer *)
Definition float_of_int (z : Z) : Py float :=
  let x := binary_normalize prec emax z 0 false in
  if is_infinite x then Raise OverflowError else Ok x.

(** [a / b] on integers: the correctly rounded quotient. *)
Definition int_truediv (a b : Z) : Py float :=
  if b =? 0 then Raise ZeroDivisionError
  else if a =? 0 then Ok (S754_zero false)
  else
    let '(m, e, l) := SFdiv_core_binary prec emax (Z.abs a) 0 (Z.abs b) 0 in
    let x := binary_round_aux prec emax (xorb (a <? 0) (b <? 0)) m e l in
    if is_infinite x then Raise OverflowError else Ok x.

Definition float_mul (x y : float) : float := SFmul prec emax x y.
Definition float_add (x y : float) : float := SFadd prec emax x y.
Definition float_sub (x y : float) : float := SFsub prec emax x y.
Definition float_abs (x : float) : float := SFabs x.
Definition float_le (x y : float) : bool := SFleb x y.
Definition float_lt (x y : float) : bool := SFltb x y.

Definition is_zero (x : float) : bool :=
  match x with S754_zero _ => true | _ => false end.

(** [x / y] *)
Definition float_div (x y : float) : Py float :=
  if is_zero y then Raise ZeroDivisionError else Ok (SFdiv prec emax x y).

(** Round half to even of [n / 2 ^ k] for a natural number [n]. *)
Definition round_half_even (n : Z) (k : Z) : Z :=
  let q := n / 2 ^ k in
  let r := n mod 2 ^ k in
  match Z.compare (2 * r) (2 ^ k) with
  | Lt => q
  | Gt => q + 1
  | Eq => if Z.even q then q else q + 1
  end.

(** [round(x)]: the nearest integer, ties to even. *)
Definition float_round (x : float) : Py Z :=
  match x with
  | S754_zero _ => Ok 0
  | S754_infinity _ => Raise OverflowError
  | S754_nan => Raise (ValueError "cannot convert float NaN to integer")
  | S754_finite s m e =>
      let n := if 0 <=? e then Zpos m * 2 ^ e else round_half_even (Zpos m) (- e) in
      Ok (if s then - n else n)
  end.

(** [math.ceil(x)] *)
Definition float_ceil (x : float) : Py Z :=
  match x with
  | S754_zero _ => Ok 0
  | S754_infinity _ => Raise OverflowError
  | S754_nan => Raise (ValueError "cannot convert float NaN to integer")
  | S754_finite s m e =>
      let n := if s then Zneg m else Zpos m in
      Ok (if 0 <=? e then n * 2 ^ e else - (- n / 2 ^ (- e)))
  end.

(** [int(x)]: towards zero. *)
Definition float_trunc (x : float) : Py Z :=
  match x with
  | S754_zero _ => Ok 0
  | S754_infinity _ => Raise OverflowError
  | S754_nan => Raise (ValueError "cannot convert float NaN to integer")
  | S754_finite s m e =>
      let n := if 0 <=? e then Zpos m * 2 ^ e else Zpos m / 2 ^ (- e) in
      Ok (if s then - n else n)
  end.

(** The literals 0.1, 0.03, 0.0005, 0.2 and 1e6. *)
Definition float_0_03 : float := S754_finite false 8646911284551352 (-58).
Definition float_0_0005 : float := S754_finite false 4611686018427388 (-63).
Definition float_0_2 : float := S754_finite false 7205759403792794 (-55).
Definition float_0_1 : float := S754_finite false 7205759403792794 (-56).
Definition float_1e6 : float := binary_normalize prec emax 1000000 0 false.

(** The rounding of a ratio is within one half of it. *)
Lemma round_half_even_bounds n k :
  0 <= k -> 2 * n - 2 ^ k <= 2 * (round_half_even n k * 2 ^ k) <= 2 * n + 2 ^ k.
Proof.
  intros Hk. unfold round_half_even.
  assert (0 < 2 ^ k) as Hp by (apply Z.pow_pos_nonneg; lia).
  pose proof (Z.div_mod n (2 ^ k) ltac:(lia)) as Hn.
  pose proof (Z.mod_pos_bound n (2 ^ k) Hp) as Hr.
  destruct (Z.compare_spec (2 * (n mod 2 ^ k)) (2 ^ k)) as [E|E|E];
    [destruct (Z.even _)|..]; nia.
Qed.
