(* ===== verification/MediationFee.v ===== *)
(** The mediation fee model ([transfer/mediated_transfer/mediation_fee.py]).

    Exact rational arithmetic (Python's [Fraction]) is [Q]; the imbalance
    curve, which the source evaluates with floats, uses [PyFloat].  The file
    models the piecewise linear functions ([Interpolate]), the fee schedule of
    a channel, the total fee of a mediation and the discretisation of the
    imbalance penalty. *)

From Stdlib Require Import QArith Qabs Qminmax Lqa.
From S2P Require Import Prelude PyFloat.

#[local] Open Scope Z_scope.

(** ** Piecewise linear functions *)

Record Interpolate : Type := mkInterpolate {
  x_list : list Q;
  y_list : list Q;
  slopes : list Q
}.

Fixpoint strictly_ascending (l : list Q) : bool :=
  match l with
  | x1 :: ((x2 :: _) as l') =>
      negb (Qle_bool (x2 - x1)%Q 0%Q) && strictly_ascending l'
  | _ => true
  end.

Fixpoint slopes_of (xs ys : list Q) : list Q :=
  match xs, ys with
  | x1 :: ((x2 :: _) as xs'), y1 :: ((y2 :: _) as ys') =>
      ((y2 - y1) / (x2 - x1))%Q :: slopes_of xs' ys'
  | _, _ => []
  end.

(** [Interpolate.__init__] *)
Definition new_Interpolate (xs ys : list Q) : Py Interpolate :=
  if strictly_ascending xs then Ok (mkInterpolate xs ys (slopes_of xs ys))
  else Raise (ValueError "x_list must be in strictly ascending order!").

(** [bisect_right(l, x)]: how many leading elements are not above [x]. *)
Fixpoint bisect_right (l : list Q) (x : Q) : nat :=
  match l with
  | [] => 0%nat
  | y :: l' => if Qle_bool y x then S (bisect_right l' x) else 0%nat
  end.

Definition index_or_raise {A} (l : list A) (i : nat) : Py A :=
  match l !! i with Some a => Ok a | None => Raise IndexError end.

(** [Interpolate.__call__] *)
Definition interpolate_call (f : Interpolate) (x : Q) : Py Q :=
  first ← index_or_raise (x_list f) 0;
  final ← index_or_raise (x_list f) (length (x_list f) - 1);
  if negb (Qle_bool first x && Qle_bool x final)
  then Raise (ValueError "x out of bounds!")
  else if Qeq_bool x final then index_or_raise (y_list f) (length (y_list f) - 1)
  else
    let i := (bisect_right (x_list f) x - 1)%nat in
    y ← index_or_raise (y_list f) i;
    s ← index_or_raise (slopes f) i;
    xi ← index_or_raise (x_list f) i;
    Ok (y + s * (x - xi))%Q.

(** ** Fee schedules *)

Record FeeScheduleState : Type := mkFeeScheduleState {
  cap_fees : bool;
  flat : Z;
  proportional : Z;  (** parts per million *)
  imbalance_penalty : option (list (Z * Z));
  penalty_func : option Interpolate
}.

(** [FeeScheduleState.__post_init__]: the penalty function is built from the
    non-empty list of points. *)
Definition update_penalty_func (points : option (list (Z * Z))) :
    Py (option Interpolate) :=
  match points with
  | Some ((_ :: _) as l) =>
      f ← new_Interpolate (map (fun p => inject_Z p.1) l) (map (fun p => inject_Z p.2) l);
      Ok (Some f)
  | _ => Ok None
  end.

Definition new_FeeScheduleState (cap : bool) (fl prop : Z)
    (points : option (list (Z * Z))) : Py FeeScheduleState :=
  f ← update_penalty_func points;
  Ok (mkFeeScheduleState cap fl prop points f).

(** [FeeScheduleState.fee].  The conditional expression spans the whole sum:
    without a penalty function the result is zero. *)
Definition fee (s : FeeScheduleState) (balance : Z) (amount : Q) : Py Q :=
  match penalty_func s with
  | None => Ok 0%Q
  | Some f =>
      after ← interpolate_call f (inject_Z balance + amount)%Q;
      before ← interpolate_call f (inject_Z balance);
      Ok (inject_Z (flat s) + (Qmake (proportional s) 1000000) * Qabs amount
            + (after - before))%Q
  end.

(** ** The total fee of a mediation *)

Definition qsign (x : Q) : Z :=
  match (x ?= 0)%Q with Eq => 0 | Gt => 1 | Lt => -1 end.

(** [sorted(set(l))] *)
Fixpoint qinsert (x : Q) (l : list Q) : list Q :=
  match l with
  | [] => [x]
  | y :: l' =>
      match (x ?= y)%Q with
      | Eq => l
      | Lt => x :: l
      | Gt => y :: qinsert x l'
      end
  end.
Definition sorted_set (l : list Q) : list Q := foldr qinsert [] l.

(** [_collect_x_values] *)
Definition collect_x_values (pin pout : Interpolate) (balance_in balance_out max_x : Z) :
    list Q :=
  let all_x_vals :=
    map (fun x => x - inject_Z balance_in)%Q (x_list pin)
    ++ map (fun x => inject_Z balance_out - x)%Q (x_list pout) in
  let limit x := Qmax (Qmin (Qmin x (inject_Z balance_out)) (inject_Z max_x)) 0%Q in
  sorted_set (map limit all_x_vals).

(** [l.insert(i, x)] *)
Definition list_insert_at {A} (i : nat) (x : A) (l : list A) : list A :=
  take i l ++ x :: drop i l.

(** One iteration of the loop of [_cap_fees]. *)
Definition cap_fees_step (xy : list Q * list Q) (i : nat) : Py (list Q * list Q) :=
  let '(xs, ys) := xy in
  y1 ← index_or_raise ys i;
  y2 ← index_or_raise ys (S i);
  if qsign y1 * qsign y2 =? -1 then
    x1 ← index_or_raise xs i;
    x2 ← index_or_raise xs (S i);
    let new_x := (x1 + Qabs y1 / Qabs (y2 - y1) * (x2 - x1))%Q in
    let new_index := bisect_right xs new_x in
    Ok (list_insert_at new_index new_x xs, list_insert_at new_index 0%Q ys)
  else Ok (xs, ys).

(** [_cap_fees].  The range of the loop is computed once, from the length of
    the list before any insertion. *)
Definition apply_cap_fees (xs ys : list Q) : Py (list Q * list Q) :=
  xy ← py_foldl cap_fees_step (xs, ys) (seq 0 (length xs - 1));
  Ok (xy.1, map (fun y => Qmax y 0%Q) xy.2).

(** [try: ... except ValueError: raise UndefinedMediationFee()] *)
Definition except_value_error {A} (m : Py A) : Py A :=
  match m with Raise (ValueError _) => Raise UndefinedMediationFee | _ => m end.

(** [copy(schedule)] with a dummy penalty function when none is set. *)
Definition with_dummy_penalty (s : FeeScheduleState) (upper : Z) : Py FeeScheduleState :=
  match penalty_func s with
  | Some _ => Ok s
  | None =>
      f ← new_Interpolate [0%Q; inject_Z upper] [0%Q; 0%Q];
      Ok (mkFeeScheduleState (cap_fees s) (flat s) (proportional s)
            (imbalance_penalty s) (Some f))
  end.

(** [_mediation_fee_func] *)
Definition mediation_fee_func_aux (schedule_in schedule_out : FeeScheduleState)
    (balance_in balance_out receivable : Z)
    (amount_with_fees amount_without_fees : option Z) (cap : bool) : Py Interpolate :=
  _ ← py_assert (bool_decide (amount_with_fees = None) || bool_decide (amount_without_fees = None))
        "Must be called with either amount_with_fees or amount_without_fees as None";
  if (balance_out =? 0) || (receivable =? 0) then Raise UndefinedMediationFee else
  sin ← with_dummy_penalty schedule_in (balance_in + receivable);
  sout ← with_dummy_penalty schedule_out balance_out;
  pin ← assert_some (penalty_func sin) "";
  pout ← assert_some (penalty_func sout) "";
  let xs := collect_x_values pin pout balance_in balance_out
              (if amount_with_fees then balance_out else receivable) in
  let total x :=
    fin ← fee sin balance_in
            (match amount_with_fees with None => x | Some a => inject_Z a end);
    fout ← fee sout balance_out
            (match amount_without_fees with None => (- x)%Q | Some a => (- inject_Z a)%Q end);
    Ok (fin + fout)%Q in
  ys ← except_value_error (py_map total xs);
  xy ← (if cap then apply_cap_fees xs ys else Ok (xs, ys));
  new_Interpolate xy.1 xy.2.

(** [FeeScheduleState.mediation_fee_func] *)
Definition mediation_fee_func schedule_in schedule_out balance_in balance_out
    receivable amount_with_fees cap : Py Interpolate :=
  mediation_fee_func_aux schedule_in schedule_out balance_in balance_out
    receivable (Some amount_with_fees) None cap.

(** [FeeScheduleState.mediation_fee_backwards_func] *)
Definition mediation_fee_backwards_func schedule_in schedule_out balance_in balance_out
    receivable amount_without_fees cap : Py Interpolate :=
  mediation_fee_func_aux schedule_in schedule_out balance_in balance_out
    receivable None (Some amount_without_fees) cap.

(** ** The imbalance penalty *)

Definition NUM_DISCRETISATION_POINTS : Z := 21.

(** [linspace] *)
Definition linspace (start stop num : Z) : Py (list Z) :=
  _ ← py_assert (1 <? num) "Must generate at least one step";
  _ ← py_assert (start <=? stop) "start must be smaller than stop";
  step ← int_truediv (stop - start) (num - 1);
  py_map (fun i => fi ← float_of_int i; r ← float_round (float_mul fi step); Ok (start + r))
    (map Z.of_nat (seq 0 (Z.to_nat num))).

Section imbalance.
Context `{FloatPow}.

(** The function [f] inside [calculate_imbalance_fees]. *)
Definition imbalance_curve (a o b : float) (x : Z) : Py Z :=
  fx ← float_of_int x;
  p ← float_pow (float_abs (float_sub fx o)) b;
  float_round (float_mul a p).

(** [calculate_imbalance_fees] *)
Definition calculate_imbalance_fees (channel_capacity proportional_imbalance_fee : Z) :
    Py (option (list (Z * Z))) :=
  _ ← py_assert (0 <=? channel_capacity) "channel_capacity must be larger than zero";
  _ ← py_assert (0 <=? proportional_imbalance_fee)
        "prop. imbalance fee must be larger than zero";
  if proportional_imbalance_fee =? 0 then Ok None
  else if channel_capacity =? 0 then Ok None
  else
    prod ← float_of_int (channel_capacity * proportional_imbalance_fee);
    c ← float_div prod float_1e6;
    pif ← float_of_int proportional_imbalance_fee;
    rate ← float_div pif float_1e6;
    two ← float_of_int 2;
    half_slope ← float_div float_0_1 two;
    _ ← py_assert (float_le rate half_slope) "Too high imbalance fee";
    o ← int_truediv channel_capacity 2;
    b0 ← float_div (float_mul float_0_1 o) c;
    ten ← float_of_int 10;
    let b := if float_lt ten b0 then ten else b0 in
    ob ← float_pow o b;
    a ← float_div c ob;
    let num_base_points := Z.min NUM_DISCRETISATION_POINTS (channel_capacity + 1) in
    xs ← linspace 0 channel_capacity num_base_points;
    ys ← py_map (imbalance_curve a o b) xs;
    Ok (Some (combine xs ys)).
End imbalance.
