(* ===== verification/MediationFeeProofs.v ===== *)
(** Correctness of the mediation fee model: interpolation stays on its
    segments, capping keeps the function well formed, and a capped fee is never
    negative. *)

From Stdlib Require Import QArith Qabs Qminmax Lqa Qfield.
From S2P Require Import Prelude PyFloat MediationFee.

#[local] Open Scope Q_scope.

(** ** Ascending lists *)

Definition asc (l : list Q) : Prop :=
  forall i a b, l !! i = Some a -> l !! S i = Some b -> a < b.

Lemma strictly_ascending_asc l : strictly_ascending l = true <-> asc l.
Proof.
  induction l as [|x [|y l] IH].
  - split; [|done]. intros _ i a b Ha. by rewrite lookup_nil in Ha.
  - split; [|done]. intros _ i a b _ Hb. by rewrite lookup_cons, lookup_nil in Hb.
  - cbn [strictly_ascending]. rewrite andb_true_iff, negb_true_iff, IH, <- not_true_iff_false,
      Qle_bool_iff. split.
    + intros [Hxy Hasc] [|i] a b Ha Hb; cbn in *; [simplify_eq; lra|]. by eapply Hasc.
    + intros Hasc. split.
      * specialize (Hasc 0%nat x y eq_refl eq_refl). lra.
      * intros i a b Ha Hb. by apply (Hasc (S i)).
Qed.

Lemma asc_cons x l : asc (x :: l) <-> (forall y, head l = Some y -> x < y) /\ asc l.
Proof.
  split.
  - intros Ha. split; [|intros i a b H1 H2; by apply (Ha (S i))].
    intros y Hy. apply (Ha 0%nat); [done|]. by destruct l.
  - intros [Hh Ha] [|i] a b H1 H2; cbn in *; [|by eapply Ha]. simplify_eq. apply Hh. by destruct l.
Qed.

Lemma asc_le l i j a b : asc l -> (i <= j)%nat -> l !! i = Some a -> l !! j = Some b -> a <= b.
Proof.
  intros Hasc Hij. revert b. induction Hij as [|j Hij IH]; intros b Ha Hb.
  - simplify_eq. lra.
  - destruct (lookup_lt_is_Some_2 l j) as [c Hc]; [apply lookup_lt_Some in Hb; lia|].
    specialize (IH c Ha Hc). specialize (Hasc j c b Hc Hb). lra.
Qed.

Lemma asc_insert l i x a b :
  asc l -> l !! i = Some a -> l !! S i = Some b -> a < x -> x < b ->
  asc (list_insert_at (S i) x l).
Proof.
  intros Hasc Ha Hb Hax Hxb. unfold list_insert_at.
  assert (length (take (S i) l) = S i) as Hlen.
  { rewrite length_take. apply lookup_lt_Some in Hb. lia. }
  assert (forall j, (j <= i)%nat -> (take (S i) l ++ x :: drop (S i) l) !! j = l !! j) as Hlow.
  { intros j Hj. rewrite lookup_app_l by lia. apply lookup_take_lt. lia. }
  assert ((take (S i) l ++ x :: drop (S i) l) !! S i = Some x) as Hmid.
  { rewrite lookup_app_r by lia. by rewrite Hlen, Nat.sub_diag. }
  assert (forall j, (i < j)%nat -> (take (S i) l ++ x :: drop (S i) l) !! S j = l !! j) as Hhigh.
  { intros j Hj. rewrite lookup_app_r by lia. rewrite Hlen.
    replace (S j - S i)%nat with (S (j - S i)) by lia.
    change (drop (S i) l !! (j - S i)%nat = l !! j). rewrite lookup_drop. f_equal. lia. }
  intros j c d Hc Hd. destruct (decide (j < i)%nat); [|destruct (decide (j = i)) as [->|];
    [|destruct (decide (j = S i)) as [->|]]].
  - rewrite Hlow in Hc, Hd by lia. by eapply Hasc.
  - rewrite Hlow in Hc by lia. rewrite Hmid in Hd. by simplify_eq.
  - rewrite Hmid in Hc. rewrite Hhigh in Hd by lia. by simplify_eq.
  - destruct j as [|j]; [lia|]. rewrite Hhigh in Hc, Hd by lia. by eapply Hasc.
Qed.

(** [bisect_right] finds the first element above [x]. *)
Lemma bisect_right_below l x i y :
  (i < bisect_right l x)%nat -> l !! i = Some y -> y <= x.
Proof.
  revert i. induction l as [|z l IH]; intros i Hi Hy; cbn in *; [lia|].
  destruct (Qle_bool z x) eqn:E; [|lia]. apply Qle_bool_iff in E.
  destruct i as [|i]; cbn in Hy; [by simplify_eq|]. apply (IH i); [lia|done].
Qed.

Lemma bisect_right_above l x y : l !! bisect_right l x = Some y -> x < y.
Proof.
  induction l as [|z l IH]; cbn; [done|].
  destruct (Qle_bool z x) eqn:E; [done|]. cbn. intros [= <-].
  apply not_true_iff_false in E. rewrite Qle_bool_iff in E. lra.
Qed.

Lemma bisect_right_unique l x i a b :
  asc l -> l !! i = Some a -> l !! S i = Some b -> a <= x -> x < b ->
  bisect_right l x = S i.
Proof.
  intros Hasc Ha Hb Hax Hxb.
  destruct (Nat.lt_trichotomy (bisect_right l x) (S i)) as [Hlt|[Heq|Hgt]]; [|done|].
  - exfalso. destruct (lookup_lt_is_Some_2 l (bisect_right l x)) as [c Hc];
      [apply lookup_lt_Some in Hb; lia|].
    pose proof (bisect_right_above l x c Hc).
    pose proof (asc_le l (bisect_right l x) i c a Hasc ltac:(lia) Hc Ha). lra.
  - exfalso. pose proof (bisect_right_below l x (S i) b ltac:(lia) Hb). lra.
Qed.

Lemma slopes_of_lookup xs ys i x1 x2 y1 y2 :
  xs !! i = Some x1 -> xs !! S i = Some x2 -> ys !! i = Some y1 -> ys !! S i = Some y2 ->
  slopes_of xs ys !! i = Some ((y2 - y1) / (x2 - x1)).
Proof.
  revert xs ys. induction i as [|i IH]; intros [|a [|b xs]] [|c [|d ys]] H1 H2 H3 H4; cbn in *;
    try done; [by simplify_eq|]. by apply (IH (b :: xs) (d :: ys)).
Qed.

(** ** Interpolation *)

(** What the constructor establishes for lists of the same length. *)
Record interp_wf (f : Interpolate) : Prop := {
  iw_nonempty : x_list f <> [];
  iw_length : length (y_list f) = length (x_list f);
  iw_asc : asc (x_list f);
  iw_slopes : slopes f = slopes_of (x_list f) (y_list f)
}.

Lemma new_Interpolate_wf xs ys :
  xs <> [] -> length ys = length xs -> asc xs ->
  exists f, new_Interpolate xs ys = Ok f /\ interp_wf f /\ x_list f = xs /\ y_list f = ys.
Proof.
  intros Hne Hlen Hasc. unfold new_Interpolate.
  rewrite (proj2 (strictly_ascending_asc xs) Hasc). eexists. split; [done|]. by split.
Qed.

(** [v] is the value at [x] of the line through two adjacent knots. *)
Definition on_segment (f : Interpolate) (x v : Q) : Prop :=
  exists i x1 x2 y1 y2,
    x_list f !! i = Some x1 /\ x_list f !! S i = Some x2
    /\ y_list f !! i = Some y1 /\ y_list f !! S i = Some y2
    /\ x1 <= x <= x2 /\ v == y1 + (y2 - y1) / (x2 - x1) * (x - x1).

Lemma segment_between x1 x2 y1 y2 x :
  x1 < x2 -> x1 <= x <= x2 ->
  Qmin y1 y2 <= y1 + (y2 - y1) / (x2 - x1) * (x - x1) <= Qmax y1 y2.
Proof.
  intros Hx Hr. set (t := (x - x1) / (x2 - x1)).
  assert (y1 + (y2 - y1) / (x2 - x1) * (x - x1) == y1 + (y2 - y1) * t) as ->
    by (unfold t; field; lra).
  assert (0 <= t <= 1) as Ht.
  { unfold t. split; [apply Qle_shift_div_l|apply Qle_shift_div_r]; lra. }
  destruct (Q.min_spec y1 y2) as [[Hle ->]|[Hle ->]], (Q.max_spec y1 y2) as [[Hle' ->]|[Hle' ->]];
    split; nra.
Qed.

Lemma last_lookup {A} (l : list A) : l <> [] -> exists a, l !! (length l - 1)%nat = Some a.
Proof.
  intros Hne. apply lookup_lt_is_Some_2. destruct l; [done|]. cbn. lia.
Qed.

(** The two outcomes of a call. *)
Lemma interpolate_call_cases f x :
  interp_wf f ->
  (exists first final v, x_list f !! 0%nat = Some first
     /\ x_list f !! (length (x_list f) - 1)%nat = Some final
     /\ first <= x <= final /\ interpolate_call f x = Ok v
     /\ (on_segment f x v \/ (length (x_list f) = 1%nat /\ y_list f !! 0%nat = Some v)))
  \/ interpolate_call f x = Raise (ValueError "x out of bounds!").
Proof.
  intros [Hne Hlen Hasc Hsl]. unfold interpolate_call, index_or_raise.
  destruct (x_list f) as [|first rest] eqn:Ex; [done|]. rewrite <- Ex in *. clear rest Ex.
  assert (exists first, x_list f !! 0%nat = Some first) as [x0 Hx0].
  { apply lookup_lt_is_Some_2. destruct (x_list f); [done|]. cbn. lia. }
  destruct (last_lookup (x_list f) Hne) as [xn Hxn].
  rewrite Hx0, Hxn. cbn.
  destruct (Qle_bool x0 x) eqn:E0; cbn; [|by right].
  destruct (Qle_bool x xn) eqn:En; cbn; [|by right].
  apply Qle_bool_iff in E0, En. left.
  destruct (Qeq_bool x xn) eqn:Eq.
  - apply Qeq_bool_iff in Eq.
    destruct (last_lookup (y_list f)) as [yn Hyn]; [destruct (y_list f), (x_list f); done|].
    rewrite Hyn. exists x0, xn, yn. split_and!; try done. rewrite Hlen in Hyn.
    destruct (length (x_list f)) as [|[|n]] eqn:Hn; cbn in *; [by destruct (x_list f)|by right|left].
    
    destruct (lookup_lt_is_Some_2 (x_list f) n) as [x1 Hx1]; [lia|].
    destruct (lookup_lt_is_Some_2 (y_list f) n) as [y1 Hy1]; [lia|].
    exists n, x1, xn, y1, yn. pose proof (Hasc _ _ _ Hx1 Hxn).
    split_and!; try done; [lra|]. rewrite Eq. field. lra.
  - assert (x < xn) as Hlt.
    { apply Qeq_bool_neq in Eq. lra. }
    set (b := bisect_right (x_list f) x) in *.
    assert (0 < b)%nat as Hb.
    { subst b. destruct (x_list f) as [|z l]; [done|]. cbn in *. simplify_eq.
      rewrite (proj2 (Qle_bool_iff _ _) E0). lia. }
    assert (b < length (x_list f))%nat as Hb'.
    { destruct (decide (b < length (x_list f))%nat); [done|]. exfalso.
      pose proof (bisect_right_below (x_list f) x (length (x_list f) - 1) xn ltac:(lia) Hxn). lra. }
    destruct (lookup_lt_is_Some_2 (x_list f) (b - 1)) as [x1 Hx1]; [lia|].
    destruct (lookup_lt_is_Some_2 (x_list f) b) as [x2 Hx2]; [lia|].
    destruct (lookup_lt_is_Some_2 (y_list f) (b - 1)) as [y1 Hy1]; [lia|].
    destruct (lookup_lt_is_Some_2 (y_list f) b) as [y2 Hy2]; [lia|].
    assert (S (b - 1) = b) as HS by lia.
    pose proof (slopes_of_lookup (x_list f) (y_list f) (b - 1) x1 x2 y1 y2 Hx1
      ltac:(by rewrite HS) Hy1 ltac:(by rewrite HS)) as Hs.
    rewrite Hsl, Hx1, Hy1, Hs. cbn. exists x0, xn. eexists. split_and!; try done. left.
    exists (b - 1)%nat, x1, x2, y1, y2. rewrite HS. split_and!; try done.
    + exact (bisect_right_below (x_list f) x (b - 1) x1 ltac:(lia) Hx1).
    + pose proof (bisect_right_above (x_list f) x x2 Hx2). lra.
Qed.

(** The bounds are exactly the first and the last knot. *)
Lemma interpolate_call_bounds f x x0 xn :
  x_list f !! 0%nat = Some x0 -> x_list f !! (length (x_list f) - 1)%nat = Some xn ->
  interpolate_call f x = Raise (ValueError "x out of bounds!") <-> ~ (x0 <= x <= xn).
Proof.
  intros H0 Hl. unfold interpolate_call, index_or_raise. rewrite H0, Hl. cbn.
  destruct (Qle_bool x0 x && Qle_bool x xn) eqn:E; cbn.
  - apply andb_true_iff in E as [E1%Qle_bool_iff E2%Qle_bool_iff].
    split; [|by intros []]. intros Hrun. repeat (case_match; cbn in Hrun; try discriminate Hrun).
  - split; [|done]. intros _ [H1%Qle_bool_iff H2%Qle_bool_iff]. by rewrite H1, H2 in E.
Qed.

(** Interpolation.  For a function built from at least two knots, a call
    inside the bounds returns the value of the line between the two adjacent
    knots around [x], which lies between their values; a call outside the
    bounds raises [ValueError].  No other exception is possible. *)
Theorem interpolate_on_segment f x x0 xn (Hf : interp_wf f) (Hn : (2 <= length (x_list f))%nat)
    (H0 : x_list f !! 0%nat = Some x0) (Hl : x_list f !! (length (x_list f) - 1)%nat = Some xn) :
  (x0 <= x <= xn ->
     exists v, interpolate_call f x = Ok v /\ on_segment f x v
     /\ exists y1 y2, y1 ∈ y_list f /\ y2 ∈ y_list f /\ Qmin y1 y2 <= v <= Qmax y1 y2)
  /\ (~ (x0 <= x <= xn) -> interpolate_call f x = Raise (ValueError "x out of bounds!")).
Proof.
  split.
  - intros Hr. destruct (interpolate_call_cases f x Hf) as [(? & ? & v & _ & _ & _ & Hrun & Hv)|Hrun].
    2: { by apply (interpolate_call_bounds f x x0 xn) in Hrun. }
    exists v. destruct Hv as [Hv|[Hone _]]; [|lia]. split_and!; [done..|].
    destruct Hv as (i & a1 & a2 & y1 & y2 & A1 & A2 & A3 & A4 & A5 & Hval).
    exists y1, y2. rewrite Hval. split; [by eapply list_elem_of_lookup_2|].
    split; [by eapply list_elem_of_lookup_2|].
    apply segment_between; [|done]. exact (iw_asc f Hf i a1 a2 A1 A2).
  - intros Hr. by apply (interpolate_call_bounds f x x0 xn).
Qed.

(** ** Capping *)

Lemma qsign_opposite y1 y2 :
  (qsign y1 * qsign y2 =? -1)%Z = true -> (y1 < 0 /\ 0 < y2) \/ (0 < y1 /\ y2 < 0).
Proof.
  unfold qsign. destruct (Qcompare_spec y1 0), (Qcompare_spec y2 0); cbn; try done; auto.
Qed.

(** The crossing of zero is strictly inside the segment. *)
Lemma crossing_inside x1 x2 y1 y2 :
  x1 < x2 -> (y1 < 0 /\ 0 < y2) \/ (0 < y1 /\ y2 < 0) ->
  x1 < x1 + Qabs y1 / Qabs (y2 - y1) * (x2 - x1) < x2.
Proof.
  intros Hx Hy.
  assert (0 < Qabs y1 / Qabs (y2 - y1) < 1) as Ht.
  { destruct Hy as [[H1 H2]|[H1 H2]];
      [rewrite (Qabs_neg y1), (Qabs_pos (y2 - y1)) by lra
      |rewrite (Qabs_pos y1), (Qabs_neg (y2 - y1)) by lra];
      (split; [apply Qlt_shift_div_l|apply Qlt_shift_div_r]; lra). }
  set (t := Qabs y1 / Qabs (y2 - y1)) in *. nra.
Qed.

Definition cap_inv (n : nat) (xy : list Q * list Q) : Prop :=
  asc xy.1 /\ length xy.2 = length xy.1 /\ (n <= length xy.1)%nat.

Lemma length_list_insert_at {A} i (x : A) l :
  (i <= length l)%nat -> length (list_insert_at i x l) = S (length l).
Proof.
  intros Hi. unfold list_insert_at. rewrite length_app. cbn. rewrite length_take, length_drop. lia.
Qed.

Lemma cap_fees_step_inv n xy i :
  cap_inv n xy -> (S i < n)%nat -> exists xy', cap_fees_step xy i = Ok xy' /\ cap_inv n xy'.
Proof.
  destruct xy as [xs ys]. intros (Hasc & Hlen & Hn) Hi. cbn in *.
  unfold cap_fees_step, index_or_raise.
  destruct (lookup_lt_is_Some_2 ys i) as [y1 Hy1]; [lia|].
  destruct (lookup_lt_is_Some_2 ys (S i)) as [y2 Hy2]; [lia|].
  destruct (lookup_lt_is_Some_2 xs i) as [x1 Hx1]; [lia|].
  destruct (lookup_lt_is_Some_2 xs (S i)) as [x2 Hx2]; [lia|].
  rewrite Hy1, Hy2. cbn. case_if; [|eexists; split; [done|]; by split_and!].
  rewrite Hx1, Hx2. cbn.
  pose proof (crossing_inside x1 x2 y1 y2 (Hasc _ _ _ Hx1 Hx2) (qsign_opposite _ _ Heqb)) as Hnew.
  set (new_x := x1 + _) in *.
  rewrite (bisect_right_unique xs new_x i x1 x2) by (done || lra).
  eexists. split; [done|]. split_and!; cbn.
  - apply (asc_insert xs i new_x x1 x2); done || apply Hnew.
  - rewrite !length_list_insert_at by lia. lia.
  - rewrite length_list_insert_at by lia. lia.
Qed.

Lemma apply_cap_fees_wf xs ys :
  asc xs -> length ys = length xs ->
  exists xs' ys', apply_cap_fees xs ys = Ok (xs', ys') /\ asc xs'
    /\ length ys' = length xs' /\ (length xs <= length xs')%nat /\ Forall (fun y => 0 <= y) ys'.
Proof.
  intros Hasc Hlen. unfold apply_cap_fees.
  destruct (py_foldl_total (cap_inv (length xs)) cap_fees_step (seq 0 (length xs - 1)) (xs, ys))
    as ([xs' ys'] & -> & Ha & Hl & Hn).
  - intros xy i Hi Hinv. apply cap_fees_step_inv; [done|].
    apply elem_of_seq in Hi. lia.
  - by split_and!.
  - cbn in *. exists xs', (map (fun y => Qmax y 0) ys'). split_and!; try done.
    + by rewrite length_map.
    + apply Forall_forall. intros y (y0 & -> & _)%list_elem_of_fmap. apply Q.le_max_r.
Qed.

(** ** The fee of a mediation *)

(** A schedule whose penalty function was built by [_update_penalty_func]. *)
Definition schedule_wf (s : FeeScheduleState) : Prop :=
  match penalty_func s with Some f => interp_wf f | None => True end.

Lemma new_FeeScheduleState_wf cap fl prop points s :
  new_FeeScheduleState cap fl prop points = Ok s -> schedule_wf s.
Proof.
  unfold new_FeeScheduleState, update_penalty_func, schedule_wf. intros Hok.
  destruct points as [[|p l]|]; py_inv; subst; cbn; try done.
  py_inv. subst. cbn. unfold new_Interpolate in *. case_if; [|done]. py_inv. subst.
  split; cbn [x_list y_list slopes]; try done.
  - cbn. by rewrite !length_map.
  - by apply strictly_ascending_asc.
Qed.

(** The only exception of a fee is the [ValueError] of the interpolation. *)
Lemma fee_cases s b x :
  schedule_wf s -> (exists v, fee s b x = Ok v) \/ (exists m, fee s b x = Raise (ValueError m)).
Proof.
  unfold schedule_wf, fee. destruct (penalty_func s) as [f|]; [|eauto]. intros Hf.
  destruct (interpolate_call_cases f (inject_Z b + x) Hf)
    as [(? & ? & v & _ & _ & _ & -> & _)| ->]; cbn; [|eauto].
  destruct (interpolate_call_cases f (inject_Z b) Hf)
    as [(? & ? & w & _ & _ & _ & -> & _)| ->]; cbn; eauto.
Qed.

Lemma py_map_cases {A B} (f : A -> Py B) l :
  (forall x, (exists v, f x = Ok v) \/ (exists m, f x = Raise (ValueError m))) ->
  (exists vs, py_map f l = Ok vs /\ length vs = length l)
  \/ (exists m, py_map f l = Raise (ValueError m)).
Proof.
  intros Hf. induction l as [|x l IH]; cbn; [left; by exists []|].
  destruct (Hf x) as [[v ->]|[m ->]]; cbn; [|eauto].
  destruct IH as [(vs & -> & Hl)|[m ->]]; cbn; [|eauto]. left. eexists. split; [done|]. cbn. lia.
Qed.

Lemma qinsert_head x l y :
  head (qinsert x l) = Some y -> y = x \/ head l = Some y.
Proof.
  destruct l as [|z l]; cbn; [naive_solver|]. destruct (x ?= z); cbn; naive_solver.
Qed.

Lemma qinsert_asc x l : asc l -> asc (qinsert x l).
Proof.
  induction l as [|y l IH]; intros Ha; cbn.
  - intros i a b _ Hb. by rewrite lookup_cons, lookup_nil in Hb.
  - destruct (Qcompare_spec x y) as [|Hlt|Hgt]; [done| |].
    + apply asc_cons. split; [|done]. by intros z [= <-].
    + apply asc_cons in Ha as [Hh Ha]. apply asc_cons. split; [|by apply IH].
      intros z [->|Hz]%qinsert_head; [done|by apply Hh].
Qed.

Lemma sorted_set_asc l : asc (sorted_set l).
Proof.
  induction l as [|x l IH]; cbn; [|by apply qinsert_asc].
  intros i a b Ha. by rewrite lookup_nil in Ha.
Qed.

Lemma sorted_set_nonempty l : l <> [] -> sorted_set l <> [].
Proof.
  destruct l as [|x l]; [done|]. intros _. unfold sorted_set. cbn.
  destruct (foldr qinsert [] l) as [|y l']; cbn; [done|].
  by destruct (x ?= y).
Qed.

Lemma with_dummy_penalty_wf s upper :
  schedule_wf s -> (0 < upper)%Z ->
  exists s' f, with_dummy_penalty s upper = Ok s' /\ schedule_wf s'
    /\ penalty_func s' = Some f /\ interp_wf f.
Proof.
  intros Hs Hu. unfold with_dummy_penalty. unfold schedule_wf in *.
  destruct (penalty_func s) as [f|] eqn:E; [exists s, f; by rewrite E|].
  destruct (new_Interpolate_wf [0; inject_Z upper] [0; 0]) as (f & -> & Hf & _); [done..| |].
  - apply asc_cons. split.
    + intros y [= <-]. unfold Qlt. cbn. lia.
    + intros i a b _ Hb. by rewrite lookup_cons, lookup_nil in Hb.
  - cbn. eexists _, f. split; [done|]. by split.
Qed.

(** The values of a function with non-negative knots are not negative. *)
Lemma interpolate_nonneg f x v :
  interp_wf f -> Forall (fun y => 0 <= y) (y_list f) -> interpolate_call f x = Ok v -> 0 <= v.
Proof.
  intros Hf Hnn Hrun. rewrite Forall_forall in Hnn.
  destruct (interpolate_call_cases f x Hf) as [(x0 & xn & v' & _ & _ & _ & Hrun' & Hv)|Hrun'];
    rewrite Hrun in Hrun'; simplify_eq.
  destruct Hv as [(i & x1 & x2 & y1 & y2 & A1 & A2 & A3 & A4 & A5 & Hval)|[_ Hv]].
  - pose proof (segment_between x1 x2 y1 y2 x (iw_asc f Hf i x1 x2 A1 A2) A5) as [Hmin _].
    rewrite Hval. pose proof (Hnn y1 ltac:(by eapply list_elem_of_lookup_2)).
    pose proof (Hnn y2 ltac:(by eapply list_elem_of_lookup_2)).
    destruct (Q.min_spec y1 y2) as [[_ Hm]|[_ Hm]]; rewrite Hm in Hmin; lra.
  - apply Hnn. by eapply list_elem_of_lookup_2.
Qed.

(** The fee function is defined, or the fee is undefined. *)
Definition fee_func_result (cap : bool) (r : Py Interpolate) : Prop :=
  (exists f, r = Ok f /\ interp_wf f
     /\ (cap = true -> Forall (fun y => 0 <= y) (y_list f)
         /\ forall x v, interpolate_call f x = Ok v -> 0 <= v))
  \/ r = Raise UndefinedMediationFee.

Lemma fee_points_result cap (total : Q -> Py Q) xs :
  asc xs -> xs <> [] ->
  (forall x, (exists v, total x = Ok v) \/ (exists m, total x = Raise (ValueError m))) ->
  fee_func_result cap
    (ys ← except_value_error (py_map total xs);
     xy ← (if cap then apply_cap_fees xs ys else Ok (xs, ys));
     new_Interpolate xy.1 xy.2).
Proof.
  intros Hasc Hne Htotal.
  destruct (py_map_cases total xs Htotal) as [(ys & -> & Hlen)|[m ->]]; cbn; [|by right].
  left. destruct cap; cbn.
  - destruct (apply_cap_fees_wf xs ys Hasc Hlen) as (xs' & ys' & -> & Ha & Hl & Hle & Hnn). cbn.
    destruct (new_Interpolate_wf xs' ys') as (f & -> & Hf & Hx & Hy); [|done..|].
    { destruct xs'; [|done]. destruct xs; cbn in Hle; [done|lia]. }
    exists f. split_and!; [done..|]. intros _. rewrite Hy. split; [done|]. intros x v.
    apply interpolate_nonneg; [done|by rewrite Hy].
  - destruct (new_Interpolate_wf xs ys) as (f & -> & Hf & _); [done..|]. by exists f.
Qed.

Lemma mediation_fee_func_aux_result sin sout bin bout recv aw awo cap :
  schedule_wf sin -> schedule_wf sout -> (0 <= bin)%Z -> (0 <= bout)%Z -> (0 <= recv)%Z ->
  aw = None \/ awo = None ->
  fee_func_result cap (mediation_fee_func_aux sin sout bin bout recv aw awo cap).
Proof.
  intros Hin Hout Hbin Hbout Hrecv Hone. unfold mediation_fee_func_aux.
  assert (bool_decide (aw = None) || bool_decide (awo = None) = true) as ->.
  { destruct Hone as [-> | ->]; [done|]. by destruct (bool_decide _). }
  cbn. destruct (Z.eqb_spec bout 0); cbn; [by right|].
  destruct (Z.eqb_spec recv 0); cbn; [by right|].
  destruct (with_dummy_penalty_wf sin (bin + recv)) as (sin' & fin & -> & Hin' & Efin & Hfin);
    [done|lia|]. cbn.
  destruct (with_dummy_penalty_wf sout bout) as (sout' & fout & -> & Hout' & Efout & Hfout);
    [done|lia|]. cbn.
  rewrite Efin, Efout. cbn. apply fee_points_result.
  - apply sorted_set_asc.
  - apply sorted_set_nonempty. destruct (x_list fin) eqn:E; [|done].
    by destruct (iw_nonempty fin Hfin).
  - intros x.
    destruct (fee_cases sin' bin (match aw with None => x | Some a => inject_Z a end) Hin')
      as [[v1 ->]|[m ->]]; cbn; [|eauto].
    destruct (fee_cases sout' bout
      (match awo with None => - x | Some a => - inject_Z a end) Hout') as [[v2 ->]|[m ->]]; cbn; eauto.
Qed.

(** The fee of a mediation.  For schedules built from their points and
    balances that are not negative, [mediation_fee_func] and
    [mediation_fee_backwards_func] return a well-formed piecewise linear
    function or raise [UndefinedMediationFee], and nothing else; with capped
    fees, the fee is never negative. *)
Theorem mediation_fee_well_defined sin sout bin bout recv amount cap
    (Hin : schedule_wf sin) (Hout : schedule_wf sout)
    (Hbin : (0 <= bin)%Z) (Hbout : (0 <= bout)%Z) (Hrecv : (0 <= recv)%Z) :
  fee_func_result cap (mediation_fee_func sin sout bin bout recv amount cap)
  /\ fee_func_result cap (mediation_fee_backwards_func sin sout bin bout recv amount cap).
Proof. split; apply mediation_fee_func_aux_result; auto. Qed.

(** ** Findings and examples *)

(** Without a penalty function, the flat and the proportional part of a
    schedule are dropped: the conditional expression of [FeeScheduleState.fee]
    covers the whole sum. *)
Lemma fee_without_penalty_is_zero cap fl prop b x s :
  new_FeeScheduleState cap fl prop None = Ok s -> fee s b x = Ok 0.
Proof. by intros [= <-]. Qed.

(** The loop of [_cap_fees] runs over the indices of the original list: after
    an insertion the last segment is not visited, and a fee that falls from 1
    to -1 is capped to the line from 1 to 0. *)
Lemma cap_fees_misses_last_crossing :
  apply_cap_fees [0; 1; 2] [-1; 1; -1] = Ok ([0; 1 # 2; 1; 2], [0; 0; 1; 0]).
Proof. vm_compute. reflexivity. Qed.

Definition example_interpolate : Interpolate :=
  mkInterpolate [0; 10; 20] [0; 5; 0] (slopes_of [0; 10; 20] [0; 5; 0]).

Lemma example_interpolate_wf : interp_wf example_interpolate.
Proof.
  split; try done. by apply strictly_ascending_asc.
Qed.

Lemma interpolate_on_segment_witness :
  exists v, interpolate_call example_interpolate 4 = Ok v /\ on_segment example_interpolate 4 v.
Proof.
  destruct (interpolate_on_segment example_interpolate 4 0 20 example_interpolate_wf)
    as [Hin _]; [cbn; lia|reflexivity..|].
  destruct Hin as (v & Hrun & Hv & _); [split; discriminate|].
  exists v. split; [exact Hrun|exact Hv].
Defined.

Lemma mediation_fee_well_defined_witness :
  fee_func_result true
    (mediation_fee_func (mkFeeScheduleState true 1 10000 None (Some example_interpolate))
       (mkFeeScheduleState true 1 10000 None None) 5 8 6 4 true).
Proof.
  apply (mediation_fee_well_defined (mkFeeScheduleState true 1 10000 None (Some example_interpolate))
    (mkFeeScheduleState true 1 10000 None None) 5 8 6 4 true).
  - exact example_interpolate_wf.
  - exact I.
  - lia.
  - lia.
  - lia.
Defined.
