(* ===== verification/State.v ===== *)
(** The state of a channel ([transfer/state.py] and the balance proofs of
    [transfer/architecture.py]).

    Every dataclass is a record with the same fields; the validations of a
    [__post_init__] are in a constructor function [new_...] in the exception
    monad.  Attribute assignment on the mutable states is the [set_...]
    function of the attribute. *)

From S2P Require Import Prelude PyDict Bytes Crypto PyFloat MediationFee.

(** Transport metadata of an address, opaque to the state machine. *)
Definition AddressMetadata : Type := list (string * string).

Inductive ChannelState : Type :=
  | STATE_CLOSED | STATE_CLOSING | STATE_OPENED
  | STATE_SETTLED | STATE_SETTLING | STATE_UNUSABLE.

#[export] Instance ChannelState_eq_dec : EqDecision ChannelState.
Proof. solve_decision. Defined.

Definition CHANNEL_STATES_PRIOR_TO_CLOSED : list ChannelState :=
  [STATE_OPENED; STATE_CLOSING].
Definition CHANNEL_STATES_UP_TO_CLOSED : list ChannelState :=
  CHANNEL_STATES_PRIOR_TO_CLOSED ++ [STATE_CLOSED].

(** ** The pseudo random number generator

    A [random.Random] object is the stream of the draws it will make; drawing
    advances the stream. *)
Record Random : Type := mkRandom {
  rng_stream : nat -> Z;
  rng_position : nat
}.

(** [message_identifier_from_prng]: [prng.randint(0, UINT64_MAX)]. *)
Definition message_identifier_from_prng (prng : Random) : Z * Random :=
  (rng_stream prng (rng_position prng) mod (UINT64_MAX + 1),
   mkRandom (rng_stream prng) (S (rng_position prng))).

(** ** Routes *)

Record HopState : Type := mkHopState {
  node_address : bytes;
  hop_channel_identifier : Z
}.

Record RouteState : Type := mkRouteState {
  route : list bytes;
  address_to_metadata : dict bytes AddressMetadata;
  swaps : dict bytes bytes;
  estimated_fee : Z
}.

(** [RouteState.hop_after] *)
Fixpoint hop_after_in (route : list bytes) (a : bytes) : option bytes :=
  match route with
  | [] => None
  | x :: rest => if decide (x = a) then head rest else hop_after_in rest a
  end.
Definition hop_after (r : RouteState) (a : bytes) : option bytes :=
  hop_after_in (route r) a.

(** [get_address_metadata] *)
Fixpoint get_address_metadata (a : bytes) (route_states : list RouteState) :
    option AddressMetadata :=
  match route_states with
  | [] => None
  | r :: rest =>
      match dict_get a (address_to_metadata r) with
      | Some m => Some m
      | None => get_address_metadata a rest
      end
  end.

(** ** Locks *)

(** [messages.transfers.Lock]: the serializable form of a lock. *)
Module Lock.
Record t : Type := mk {
  amount : Z;
  expiration : Z;
  secrethash : bytes
}.

(** [Lock.__post_init__] *)
Definition new (amount expiration : Z) (secrethash : bytes) : Py t :=
  _ ← raise_if (amount <? 0) (ValueError "amount needs to be positive");
  _ ← raise_if (UINT256_MAX <? amount) (ValueError "amount is too large");
  _ ← raise_if (expiration <? 0) (ValueError "expiration needs to be positive");
  _ ← raise_if (UINT256_MAX <? expiration) (ValueError "expiration is too large");
  _ ← raise_if (negb (bool_decide (length secrethash = 32%nat)))
        (ValueError "secrethash is not a valid hash");
  Ok (mk amount expiration secrethash).

(** [Lock.as_bytes] *)
Definition as_bytes (l : t) : bytes :=
  be_encode 32 (expiration l) ++ be_encode 32 (amount l) ++ secrethash l.

(** [Lock.from_bytes] *)
Definition from_bytes (serialized : bytes) : Py t :=
  new (int_from_bytes (take 32 (drop 32 serialized)))
      (int_from_bytes (take 32 serialized))
      (drop 64 serialized).
End Lock.

Record HashTimeLockState : Type := mkHashTimeLockState {
  lock_amount : Z;
  lock_expiration : Z;
  lock_secrethash : bytes
}.

#[export] Instance HashTimeLockState_eq_dec : EqDecision HashTimeLockState.
Proof. solve_decision. Defined.

(** The [encoded] attribute. *)
Definition lock_encoded (l : HashTimeLockState) : bytes :=
  Lock.as_bytes (Lock.mk (lock_amount l) (lock_expiration l) (lock_secrethash l)).

(** [HashTimeLockState.__post_init__] *)
Definition new_HashTimeLockState (amount expiration : Z) (secrethash : bytes) :
    Py HashTimeLockState :=
  _ ← Lock.new amount expiration secrethash;
  Ok (mkHashTimeLockState amount expiration secrethash).

(** The attributes [amount], [expiration], [secrethash] and [encoded] of an
    [UnlockPartialProofState] are copied from its lock by [__post_init__]. *)
Record UnlockPartialProofState : Type := mkUnlockPartialProofState {
  unlock_lock : HashTimeLockState;
  unlock_secret : bytes
}.

#[export] Instance UnlockPartialProofState_eq_dec : EqDecision UnlockPartialProofState.
Proof. solve_decision. Defined.

(** [PendingLocksState]: the encoded locks in order of insertion. *)
Definition PendingLocksState : Type := list bytes.

(** ** On-chain transactions *)

Inductive TransactionResult : Type := SUCCESS | FAILURE.

#[export] Instance TransactionResult_eq_dec : EqDecision TransactionResult.
Proof. solve_decision. Defined.

Record TransactionExecutionStatus : Type := mkTransactionExecutionStatus {
  started_block_number : option Z;
  finished_block_number : option Z;
  tx_result : option TransactionResult
}.

Record SuccessfulTransactionState : Type := mkSuccessfulTransactionState {
  st_finished_block_number : Z;
  st_started_block_number : option Z
}.

Record TransactionChannelDeposit : Type := mkTransactionChannelDeposit {
  participant_address : bytes;
  td_contract_balance : Z;
  deposit_block_number : Z
}.

(** ** Withdraws and cooperative settlement *)

Record ExpiredWithdrawState : Type := mkExpiredWithdrawState {
  ew_total_withdraw : Z;
  ew_expiration : Z;
  ew_nonce : Z;
  ew_recipient_metadata : option AddressMetadata
}.

Record PendingWithdrawState : Type := mkPendingWithdrawState {
  pw_total_withdraw : Z;
  pw_expiration : Z;
  pw_nonce : Z;
  pw_recipient_metadata : option AddressMetadata
}.

Record CoopSettleState : Type := mkCoopSettleState {
  total_withdraw_initiator : Z;
  total_withdraw_partner : Z;
  cs_expiration : Z;
  partner_signature_request : option bytes;
  partner_signature_confirmation : option bytes;
  cs_transaction : option TransactionExecutionStatus
}.

Definition set_partner_signature_request (v : option bytes)
    (s : CoopSettleState) : CoopSettleState :=
  mkCoopSettleState (total_withdraw_initiator s) (total_withdraw_partner s)
    (cs_expiration s) v (partner_signature_confirmation s) (cs_transaction s).

Definition set_partner_signature_confirmation (v : option bytes)
    (s : CoopSettleState) : CoopSettleState :=
  mkCoopSettleState (total_withdraw_initiator s) (total_withdraw_partner s)
    (cs_expiration s) (partner_signature_request s) v (cs_transaction s).

Definition set_cs_transaction (v : option TransactionExecutionStatus)
    (s : CoopSettleState) : CoopSettleState :=
  mkCoopSettleState (total_withdraw_initiator s) (total_withdraw_partner s)
    (cs_expiration s) (partner_signature_request s) (partner_signature_confirmation s) v.

(** ** Balance proofs *)

Record BalanceProofUnsignedState : Type := mkBalanceProofUnsignedState {
  ubp_nonce : Z;
  ubp_transferred_amount : Z;
  ubp_locked_amount : Z;
  ubp_locksroot : bytes;
  ubp_canonical_identifier : CanonicalIdentifier;
  ubp_balance_hash : bytes
}.

Record BalanceProofSignedState : Type := mkBalanceProofSignedState {
  sbp_nonce : Z;
  sbp_transferred_amount : Z;
  sbp_locked_amount : Z;
  sbp_locksroot : bytes;
  sbp_message_hash : bytes;
  sbp_signature : bytes;
  sbp_sender : bytes;
  sbp_canonical_identifier : CanonicalIdentifier;
  sbp_balance_hash : bytes
}.

(** [Union[BalanceProofSignedState, BalanceProofUnsignedState]] *)
Inductive BalanceProofState : Type :=
  | SignedBP (bp : BalanceProofSignedState)
  | UnsignedBP (bp : BalanceProofUnsignedState).

Definition bp_transferred_amount (b : BalanceProofState) : Z :=
  match b with
  | SignedBP bp => sbp_transferred_amount bp
  | UnsignedBP bp => ubp_transferred_amount bp
  end.

Definition bp_locksroot (b : BalanceProofState) : bytes :=
  match b with
  | SignedBP bp => sbp_locksroot bp
  | UnsignedBP bp => ubp_locksroot bp
  end.

Definition bp_locked_amount (b : BalanceProofState) : Z :=
  match b with
  | SignedBP bp => sbp_locked_amount bp
  | UnsignedBP bp => ubp_locked_amount bp
  end.

Section balance_proofs.
Context `{Crypto}.

(** The checks shared by the two [__post_init__] methods. *)
Definition validate_balance_proof (nonce transferred_amount : Z) (locksroot : bytes) :
    Py unit :=
  _ ← raise_if (nonce <=? 0) (ValueError "nonce cannot be zero or negative");
  _ ← raise_if (UINT64_MAX <? nonce) (ValueError "nonce is too large");
  _ ← raise_if (transferred_amount <? 0)
        (ValueError "transferred_amount cannot be negative");
  _ ← raise_if (UINT256_MAX <? transferred_amount)
        (ValueError "transferred_amount is too large");
  raise_if (negb (bool_decide (length locksroot = 32%nat)))
    (ValueError "locksroot must have length 32").

(** [BalanceProofUnsignedState.__post_init__] *)
Definition new_BalanceProofUnsignedState (nonce transferred_amount locked_amount : Z)
    (locksroot : bytes) (cid : CanonicalIdentifier) : Py BalanceProofUnsignedState :=
  _ ← validate_balance_proof nonce transferred_amount locksroot;
  _ ← CanonicalIdentifier_validate cid;
  h ← hash_balance_data transferred_amount locked_amount locksroot;
  Ok (mkBalanceProofUnsignedState nonce transferred_amount locked_amount
        locksroot cid h).

(** [BalanceProofSignedState.__post_init__] *)
Definition new_BalanceProofSignedState (nonce transferred_amount locked_amount : Z)
    (locksroot message_hash signature sender : bytes) (cid : CanonicalIdentifier) :
    Py BalanceProofSignedState :=
  _ ← validate_balance_proof nonce transferred_amount locksroot;
  _ ← raise_if (negb (bool_decide (length message_hash = 32%nat)))
        (ValueError "message_hash is an invalid hash");
  _ ← raise_if (negb (bool_decide (length signature = 65%nat)))
        (ValueError "signature is an invalid signature");
  _ ← CanonicalIdentifier_validate cid;
  h ← hash_balance_data transferred_amount locked_amount locksroot;
  Ok (mkBalanceProofSignedState nonce transferred_amount locked_amount
        locksroot message_hash signature sender cid h).
End balance_proofs.

(** ** One end of a channel *)

Record NettingChannelEndState : Type := mkEndState {
  address : bytes;
  contract_balance : Z;
  onchain_total_withdraw : Z;
  withdraws_pending : dict Z PendingWithdrawState;
  initiated_coop_settle : option CoopSettleState;
  expired_coop_settles : list CoopSettleState;
  withdraws_expired : list ExpiredWithdrawState;
  secrethashes_to_lockedlocks : dict bytes HashTimeLockState;
  secrethashes_to_unlockedlocks : dict bytes UnlockPartialProofState;
  secrethashes_to_onchain_unlockedlocks : dict bytes UnlockPartialProofState;
  balance_proof : option BalanceProofState;
  pending_locks : PendingLocksState;
  onchain_locksroot : bytes;
  nonce : Z
}.

Definition set_contract_balance (v : Z)
    (s : NettingChannelEndState) : NettingChannelEndState :=
  mkEndState (address s) v (onchain_total_withdraw s) (withdraws_pending s)
    (initiated_coop_settle s) (expired_coop_settles s) (withdraws_expired s)
    (secrethashes_to_lockedlocks s) (secrethashes_to_unlockedlocks s)
    (secrethashes_to_onchain_unlockedlocks s) (balance_proof s) (pending_locks s)
    (onchain_locksroot s) (nonce s).

Definition set_onchain_total_withdraw (v : Z)
    (s : NettingChannelEndState) : NettingChannelEndState :=
  mkEndState (address s) (contract_balance s) v (withdraws_pending s)
    (initiated_coop_settle s) (expired_coop_settles s) (withdraws_expired s)
    (secrethashes_to_lockedlocks s) (secrethashes_to_unlockedlocks s)
    (secrethashes_to_onchain_unlockedlocks s) (balance_proof s) (pending_locks s)
    (onchain_locksroot s) (nonce s).

Definition set_withdraws_pending (v : dict Z PendingWithdrawState)
    (s : NettingChannelEndState) : NettingChannelEndState :=
  mkEndState (address s) (contract_balance s) (onchain_total_withdraw s) v
    (initiated_coop_settle s) (expired_coop_settles s) (withdraws_expired s)
    (secrethashes_to_lockedlocks s) (secrethashes_to_unlockedlocks s)
    (secrethashes_to_onchain_unlockedlocks s) (balance_proof s) (pending_locks s)
    (onchain_locksroot s) (nonce s).

Definition set_initiated_coop_settle (v : option CoopSettleState)
    (s : NettingChannelEndState) : NettingChannelEndState :=
  mkEndState (address s) (contract_balance s) (onchain_total_withdraw s)
    (withdraws_pending s) v (expired_coop_settles s) (withdraws_expired s)
    (secrethashes_to_lockedlocks s) (secrethashes_to_unlockedlocks s)
    (secrethashes_to_onchain_unlockedlocks s) (balance_proof s) (pending_locks s)
    (onchain_locksroot s) (nonce s).

Definition set_withdraws_expired (v : list ExpiredWithdrawState)
    (s : NettingChannelEndState) : NettingChannelEndState :=
  mkEndState (address s) (contract_balance s) (onchain_total_withdraw s)
    (withdraws_pending s) (initiated_coop_settle s) (expired_coop_settles s) v
    (secrethashes_to_lockedlocks s) (secrethashes_to_unlockedlocks s)
    (secrethashes_to_onchain_unlockedlocks s) (balance_proof s) (pending_locks s)
    (onchain_locksroot s) (nonce s).

Definition set_secrethashes_to_lockedlocks (v : dict bytes HashTimeLockState)
    (s : NettingChannelEndState) : NettingChannelEndState :=
  mkEndState (address s) (contract_balance s) (onchain_total_withdraw s)
    (withdraws_pending s) (initiated_coop_settle s) (expired_coop_settles s)
    (withdraws_expired s) v (secrethashes_to_unlockedlocks s)
    (secrethashes_to_onchain_unlockedlocks s) (balance_proof s) (pending_locks s)
    (onchain_locksroot s) (nonce s).

Definition set_secrethashes_to_unlockedlocks (v : dict bytes UnlockPartialProofState)
    (s : NettingChannelEndState) : NettingChannelEndState :=
  mkEndState (address s) (contract_balance s) (onchain_total_withdraw s)
    (withdraws_pending s) (initiated_coop_settle s) (expired_coop_settles s)
    (withdraws_expired s) (secrethashes_to_lockedlocks s) v
    (secrethashes_to_onchain_unlockedlocks s) (balance_proof s) (pending_locks s)
    (onchain_locksroot s) (nonce s).

Definition set_secrethashes_to_onchain_unlockedlocks (v : dict bytes UnlockPartialProofState)
    (s : NettingChannelEndState) : NettingChannelEndState :=
  mkEndState (address s) (contract_balance s) (onchain_total_withdraw s)
    (withdraws_pending s) (initiated_coop_settle s) (expired_coop_settles s)
    (withdraws_expired s) (secrethashes_to_lockedlocks s)
    (secrethashes_to_unlockedlocks s) v (balance_proof s) (pending_locks s)
    (onchain_locksroot s) (nonce s).

Definition set_balance_proof (v : option BalanceProofState)
    (s : NettingChannelEndState) : NettingChannelEndState :=
  mkEndState (address s) (contract_balance s) (onchain_total_withdraw s)
    (withdraws_pending s) (initiated_coop_settle s) (expired_coop_settles s)
    (withdraws_expired s) (secrethashes_to_lockedlocks s)
    (secrethashes_to_unlockedlocks s) (secrethashes_to_onchain_unlockedlocks s) v
    (pending_locks s) (onchain_locksroot s) (nonce s).

Definition set_pending_locks (v : PendingLocksState)
    (s : NettingChannelEndState) : NettingChannelEndState :=
  mkEndState (address s) (contract_balance s) (onchain_total_withdraw s)
    (withdraws_pending s) (initiated_coop_settle s) (expired_coop_settles s)
    (withdraws_expired s) (secrethashes_to_lockedlocks s)
    (secrethashes_to_unlockedlocks s) (secrethashes_to_onchain_unlockedlocks s)
    (balance_proof s) v (onchain_locksroot s) (nonce s).

Definition set_onchain_locksroot (v : bytes)
    (s : NettingChannelEndState) : NettingChannelEndState :=
  mkEndState (address s) (contract_balance s) (onchain_total_withdraw s)
    (withdraws_pending s) (initiated_coop_settle s) (expired_coop_settles s)
    (withdraws_expired s) (secrethashes_to_lockedlocks s)
    (secrethashes_to_unlockedlocks s) (secrethashes_to_onchain_unlockedlocks s)
    (balance_proof s) (pending_locks s) v (nonce s).

Definition set_nonce (v : Z) (s : NettingChannelEndState) : NettingChannelEndState :=
  mkEndState (address s) (contract_balance s) (onchain_total_withdraw s)
    (withdraws_pending s) (initiated_coop_settle s) (expired_coop_settles s)
    (withdraws_expired s) (secrethashes_to_lockedlocks s)
    (secrethashes_to_unlockedlocks s) (secrethashes_to_onchain_unlockedlocks s)
    (balance_proof s) (pending_locks s) (onchain_locksroot s) v.

(** [NettingChannelEndState.offchain_total_withdraw] *)
Definition offchain_total_withdraw (e : NettingChannelEndState) : Z :=
  zmax_default 0 (dict_keys (withdraws_pending e)).

(** [NettingChannelEndState.total_withdraw] *)
Definition total_withdraw (e : NettingChannelEndState) : Z :=
  Z.max (offchain_total_withdraw e) (onchain_total_withdraw e).

(** [NettingChannelEndState.transferred_amount] *)
Definition transferred_amount (e : NettingChannelEndState) : Z :=
  match balance_proof e with
  | Some bp => bp_transferred_amount bp
  | None => 0
  end.

(** [NettingChannelEndState.__post_init__] of a fresh end: all the other
    attributes have their defaults. *)
Definition new_NettingChannelEndState `{Crypto} (addr : bytes) (balance : Z) :
    Py NettingChannelEndState :=
  _ ← raise_if (bool_decide (addr = NULL_ADDRESS_BYTES)) (ValueError "address cannot be null.");
  _ ← raise_if (balance <? 0) (ValueError "contract_balance cannot be negative.");
  Ok (mkEndState addr balance 0 [] None [] [] [] [] [] None [] LOCKSROOT_OF_NO_LOCKS 0).

(** ** A channel *)

Record NettingChannelState : Type := mkChannelState {
  canonical_identifier : CanonicalIdentifier;
  token_address : bytes;
  token_network_registry_address : bytes;
  reveal_timeout : Z;
  settle_timeout : Z;
  fee_schedule : FeeScheduleState;
  our_state : NettingChannelEndState;
  partner_state : NettingChannelEndState;
  open_transaction : SuccessfulTransactionState;
  close_transaction : option TransactionExecutionStatus;
  settle_transaction : option TransactionExecutionStatus;
  update_transaction : option TransactionExecutionStatus
}.

Definition set_reveal_timeout (v : Z) (s : NettingChannelState) : NettingChannelState :=
  mkChannelState (canonical_identifier s) (token_address s)
    (token_network_registry_address s) v (settle_timeout s) (fee_schedule s)
    (our_state s) (partner_state s) (open_transaction s) (close_transaction s)
    (settle_transaction s) (update_transaction s).

Definition set_fee_schedule (v : FeeScheduleState)
    (s : NettingChannelState) : NettingChannelState :=
  mkChannelState (canonical_identifier s) (token_address s)
    (token_network_registry_address s) (reveal_timeout s) (settle_timeout s) v
    (our_state s) (partner_state s) (open_transaction s) (close_transaction s)
    (settle_transaction s) (update_transaction s).

Definition set_our_state (v : NettingChannelEndState)
    (s : NettingChannelState) : NettingChannelState :=
  mkChannelState (canonical_identifier s) (token_address s)
    (token_network_registry_address s) (reveal_timeout s) (settle_timeout s)
    (fee_schedule s) v (partner_state s) (open_transaction s) (close_transaction s)
    (settle_transaction s) (update_transaction s).

Definition set_partner_state (v : NettingChannelEndState)
    (s : NettingChannelState) : NettingChannelState :=
  mkChannelState (canonical_identifier s) (token_address s)
    (token_network_registry_address s) (reveal_timeout s) (settle_timeout s)
    (fee_schedule s) (our_state s) v (open_transaction s) (close_transaction s)
    (settle_transaction s) (update_transaction s).

Definition set_close_transaction (v : option TransactionExecutionStatus)
    (s : NettingChannelState) : NettingChannelState :=
  mkChannelState (canonical_identifier s) (token_address s)
    (token_network_registry_address s) (reveal_timeout s) (settle_timeout s)
    (fee_schedule s) (our_state s) (partner_state s) (open_transaction s) v
    (settle_transaction s) (update_transaction s).

Definition set_settle_transaction (v : option TransactionExecutionStatus)
    (s : NettingChannelState) : NettingChannelState :=
  mkChannelState (canonical_identifier s) (token_address s)
    (token_network_registry_address s) (reveal_timeout s) (settle_timeout s)
    (fee_schedule s) (our_state s) (partner_state s) (open_transaction s)
    (close_transaction s) v (update_transaction s).

Definition set_update_transaction (v : option TransactionExecutionStatus)
    (s : NettingChannelState) : NettingChannelState :=
  mkChannelState (canonical_identifier s) (token_address s)
    (token_network_registry_address s) (reveal_timeout s) (settle_timeout s)
    (fee_schedule s) (our_state s) (partner_state s) (open_transaction s)
    (close_transaction s) (settle_transaction s) v.

(** [NettingChannelState.__post_init__] of a freshly opened channel. *)
Definition new_NettingChannelState (cid : CanonicalIdentifier)
    (token registry : bytes) (reveal settle : Z) (fees : FeeScheduleState)
    (ours partners : NettingChannelEndState) (opened : SuccessfulTransactionState) :
    Py NettingChannelState :=
  _ ← raise_if (bool_decide (address ours = address partners))
        (ValueError "it is illegal to open a channel with itself");
  _ ← raise_if (reveal <=? 0) (ValueError "reveal_timeout must be a positive integer");
  _ ← raise_if (settle <=? 0) (ValueError "settle_timeout must be a positive integer");
  _ ← raise_if ((channel_identifier cid <? 0) || (UINT256_MAX <? channel_identifier cid))
        (ValueError "channel identifier should be a uint256");
  Ok (mkChannelState cid token registry reveal settle fees ours partners opened
        None None None).

(** The properties of [NettingChannelState]. *)
Definition identifier (c : NettingChannelState) : Z :=
  channel_identifier (canonical_identifier c).
Definition channel_token_network_address (c : NettingChannelState) : bytes :=
  token_network_address (canonical_identifier c).
Definition chain_id (c : NettingChannelState) : Z :=
  chain_identifier (canonical_identifier c).
Definition our_total_deposit (c : NettingChannelState) : Z := contract_balance (our_state c).
Definition our_total_withdraw (c : NettingChannelState) : Z := total_withdraw (our_state c).
Definition partner_total_deposit (c : NettingChannelState) : Z :=
  contract_balance (partner_state c).
Definition partner_total_withdraw (c : NettingChannelState) : Z :=
  total_withdraw (partner_state c).

(** Assignment to an attribute of one end, [channel_state.our_state.x = v]. *)
Definition on_our_state (f : NettingChannelEndState -> NettingChannelEndState)
    (c : NettingChannelState) : NettingChannelState :=
  set_our_state (f (our_state c)) c.
Definition on_partner_state (f : NettingChannelEndState -> NettingChannelEndState)
    (c : NettingChannelState) : NettingChannelState :=
  set_partner_state (f (partner_state c)) c.

(** ** Token networks *)

(** [partneraddresses_to_channelidentifiers] is a [defaultdict(list)]: reading
    a missing key creates it with an empty list. *)
Record TokenNetworkState : Type := mkTokenNetworkState {
  tn_address : bytes;
  tn_token_address : bytes;
  channelidentifiers_to_channels : dict Z NettingChannelState;
  partneraddresses_to_channelidentifiers : dict bytes (list Z)
}.

Definition set_channelidentifiers_to_channels (v : dict Z NettingChannelState)
    (s : TokenNetworkState) : TokenNetworkState :=
  mkTokenNetworkState (tn_address s) (tn_token_address s) v
    (partneraddresses_to_channelidentifiers s).

Definition set_partneraddresses_to_channelidentifiers (v : dict bytes (list Z))
    (s : TokenNetworkState) : TokenNetworkState :=
  mkTokenNetworkState (tn_address s) (tn_token_address s)
    (channelidentifiers_to_channels s) v.

Record TokenNetworkRegistryState : Type := mkTokenNetworkRegistryState {
  tnr_address : bytes;
  token_network_list : list TokenNetworkState;
  tokenaddresses_to_tokennetworkaddresses : dict bytes bytes;
  tokennetworkaddresses_to_tokennetworks : dict bytes TokenNetworkState
}.

(** [TokenNetworkRegistryState.add_token_network] *)
Definition add_token_network (r : TokenNetworkRegistryState) (tn : TokenNetworkState) :
    TokenNetworkRegistryState :=
  mkTokenNetworkRegistryState (tnr_address r)
    (token_network_list r ++ [tn])
    (dict_set (tn_token_address tn) (tn_address tn)
       (tokenaddresses_to_tokennetworkaddresses r))
    (dict_set (tn_address tn) tn (tokennetworkaddresses_to_tokennetworks r)).

(** [TokenNetworkRegistryState.__init__] *)
Definition new_TokenNetworkRegistryState (addr : bytes) (tns : list TokenNetworkState)
    (by_address : dict bytes TokenNetworkState) : TokenNetworkRegistryState :=
  let tns' := match tns, by_address with
              | [], _ :: _ => dict_values by_address
              | _, _ => tns
              end in
  foldl add_token_network (mkTokenNetworkRegistryState addr [] [] []) tns'.
