(* ===== verification/Events.v ===== *)
(** Events: what a state change asks the node to do ([transfer/events.py],
    [transfer/mediated_transfer/events.py] and the base classes of
    [transfer/architecture.py]), with the transfer states that they carry
    ([transfer/mediated_transfer/state.py]). *)

From S2P Require Import Prelude PyDict Bytes Crypto State.

(** ** Error messages

    A message is the text of the source, with [{}] where a value is
    interpolated, and the list of the interpolated values. *)
Inductive Message : Type :=
  | Msg (template : string) (args : list MessageArg)
with MessageArg : Type :=
  | AInt (z : Z)
  | ABytes (b : bytes)
  | AText (s : string)
  | AMsg (m : list Message).

(** [SuccessOrError]: the list of its error messages.  The text
    [as_error_message] is the messages joined by a separator, and is kept as
    the list. *)
Definition SuccessOrError : Type := list Message.
Definition Text : Type := list Message.

Definition success : SuccessOrError := [].
Definition error (m : Message) : SuccessOrError := [m].
Definition so_ok (s : SuccessOrError) : bool :=
  match s with [] => true | _ => false end.
Definition so_fail (s : SuccessOrError) : bool := negb (so_ok s).
Definition as_error_message (s : SuccessOrError) : Text := s.

(** A Python string is true when it is not empty. *)
Definition text_truthy (t : option Text) : bool :=
  match t with Some (_ :: _) => true | _ => false end.

Lemma so_ok_nil s : so_ok s = true <-> s = [].
Proof. destruct s; cbn; naive_solver. Qed.

(** ** Transfers *)

Record LockedTransferUnsignedState : Type := mkLockedTransferUnsignedState {
  ltu_payment_identifier : Z;
  ltu_token : bytes;
  ltu_lock : HashTimeLockState;
  ltu_initiator : bytes;
  ltu_target : bytes;
  ltu_balance_proof : BalanceProofUnsignedState;
  ltu_route_states : list RouteState;
  ltu_metadata : option AddressMetadata;
  ltu_secret : option bytes
}.

(** [LockedTransferUnsignedState.__post_init__] *)
Definition new_LockedTransferUnsignedState `{Crypto} (payment_identifier : Z)
    (token : bytes) (lock : HashTimeLockState) (initiator target : bytes)
    (bp : BalanceProofUnsignedState) (route_states : list RouteState)
    (metadata : option AddressMetadata) (secret : option bytes) :
    Py LockedTransferUnsignedState :=
  _ ← raise_if (bool_decide (ubp_locksroot bp = LOCKSROOT_OF_NO_LOCKS))
        (ValueError "balance_proof must not be empty");
  Ok (mkLockedTransferUnsignedState payment_identifier token lock initiator target bp
        route_states metadata secret).

Record LockedTransferSignedState : Type := mkLockedTransferSignedState {
  lts_payment_identifier : Z;
  lts_token : bytes;
  lts_lock : HashTimeLockState;
  lts_initiator : bytes;
  lts_target : bytes;
  lts_message_identifier : Z;
  lts_route_states : list RouteState;
  lts_balance_proof : BalanceProofSignedState;
  lts_metadata : option AddressMetadata;
  lts_secret : option bytes
}.

(** The properties of [LockedTransferSignedState]. *)
Definition lts_payer_address (t : LockedTransferSignedState) : bytes :=
  sbp_sender (lts_balance_proof t).
Definition lts_payer_address_metadata (t : LockedTransferSignedState) :
    option AddressMetadata :=
  get_address_metadata (lts_payer_address t) (lts_route_states t).
Definition lts_initiator_address_metadata (t : LockedTransferSignedState) :
    option AddressMetadata :=
  get_address_metadata (lts_initiator t) (lts_route_states t).

(** ** The events *)

Record SendMessageEvent : Type := mkSendMessageEvent {
  sm_recipient : bytes;
  sm_recipient_metadata : option AddressMetadata;
  sm_canonical_identifier : CanonicalIdentifier;
  sm_message_identifier : Z
}.

(** [SendMessageEvent.queue_identifier] *)
Definition queue_identifier (m : SendMessageEvent) : QueueIdentifier :=
  mkQueueIdentifier (sm_recipient m) (sm_canonical_identifier m).

Record SendWithdrawRequest : Type := mkSendWithdrawRequest {
  swr_message : SendMessageEvent;
  swr_total_withdraw : Z;
  swr_participant : bytes;
  swr_expiration : Z;
  swr_nonce : Z;
  swr_coop_settle : bool
}.

Record SendWithdrawConfirmation : Type := mkSendWithdrawConfirmation {
  swc_message : SendMessageEvent;
  swc_total_withdraw : Z;
  swc_participant : bytes;
  swc_expiration : Z;
  swc_nonce : Z
}.

Record SendWithdrawExpired : Type := mkSendWithdrawExpired {
  swe_message : SendMessageEvent;
  swe_total_withdraw : Z;
  swe_participant : bytes;
  swe_nonce : Z;
  swe_expiration : Z
}.

Record SendProcessed : Type := mkSendProcessed {
  sp_message : SendMessageEvent
}.

Record ContractSendChannelWithdraw : Type := mkContractSendChannelWithdraw {
  ccw_triggered_by_block_hash : bytes;
  ccw_canonical_identifier : CanonicalIdentifier;
  ccw_total_withdraw : Z;
  ccw_expiration : Z;
  ccw_partner_signature : bytes
}.

Record ContractSendChannelCoopSettle : Type := mkContractSendChannelCoopSettle {
  ccs_triggered_by_block_hash : bytes;
  ccs_canonical_identifier : CanonicalIdentifier;
  ccs_our_total_withdraw : Z;
  ccs_partner_total_withdraw : Z;
  ccs_expiration : Z;
  ccs_signature_our_withdraw : bytes;
  ccs_signature_partner_withdraw : bytes
}.

Record ContractSendChannelClose : Type := mkContractSendChannelClose {
  ccc_triggered_by_block_hash : bytes;
  ccc_canonical_identifier : CanonicalIdentifier;
  ccc_balance_proof : option BalanceProofSignedState
}.

Record ContractSendChannelSettle : Type := mkContractSendChannelSettle {
  cse_triggered_by_block_hash : bytes;
  cse_canonical_identifier : CanonicalIdentifier
}.

Record ContractSendChannelUpdateTransfer : Type := mkContractSendChannelUpdateTransfer {
  cut_triggered_by_block_hash : bytes;
  cut_expiration : Z;
  cut_balance_proof : BalanceProofSignedState
}.

Record ContractSendChannelBatchUnlock : Type := mkContractSendChannelBatchUnlock {
  cbu_triggered_by_block_hash : bytes;
  cbu_canonical_identifier : CanonicalIdentifier;
  cbu_sender : bytes
}.

Record ContractSendSecretReveal : Type := mkContractSendSecretReveal {
  csr_triggered_by_block_hash : bytes;
  csr_expiration : Z;
  csr_secret : bytes
}.

Record UpdateServicesAddresses : Type := mkUpdateServicesAddresses {
  usa_service_address : bytes;
  usa_validity : Z
}.

Record EventPaymentSentSuccess : Type := mkEventPaymentSentSuccess {
  pss_token_network_registry_address : bytes;
  pss_token_network_address : bytes;
  pss_identifier : Z;
  pss_amount : Z;
  pss_target : bytes;
  pss_secret : bytes;
  pss_route : list bytes
}.

Record EventPaymentSentFailed : Type := mkEventPaymentSentFailed {
  psf_token_network_registry_address : bytes;
  psf_token_network_address : bytes;
  psf_identifier : Z;
  psf_target : bytes;
  psf_reason : Text
}.

Record EventPaymentReceivedSuccess : Type := mkEventPaymentReceivedSuccess {
  prs_token_network_registry_address : bytes;
  prs_token_network_address : bytes;
  prs_identifier : Z;
  prs_amount : Z;
  prs_initiator : bytes
}.

Record EventInvalidReceivedTransferRefund : Type := mkEventInvalidReceivedTransferRefund {
  irr_payment_identifier : Z;
  irr_reason : Text
}.

Record EventInvalidReceivedLockExpired : Type := mkEventInvalidReceivedLockExpired {
  ile_secrethash : bytes;
  ile_reason : Text
}.

Record EventInvalidReceivedLockedTransfer : Type := mkEventInvalidReceivedLockedTransfer {
  ilt_payment_identifier : Z;
  ilt_reason : Text
}.

Record EventInvalidReceivedUnlock : Type := mkEventInvalidReceivedUnlock {
  iru_secrethash : bytes;
  iru_reason : Text
}.

Record EventInvalidReceivedWithdrawRequest : Type := mkEventInvalidReceivedWithdrawRequest {
  iwr_attempted_withdraw : Z;
  iwr_reason : Text
}.

Record EventInvalidReceivedWithdraw : Type := mkEventInvalidReceivedWithdraw {
  irw_attempted_withdraw : Z;
  irw_reason : Text
}.

Record EventInvalidReceivedWithdrawExpired : Type := mkEventInvalidReceivedWithdrawExpired {
  iwe_attempted_withdraw : Z;
  iwe_reason : Text
}.

Record EventInvalidActionWithdraw : Type := mkEventInvalidActionWithdraw {
  iaw_attempted_withdraw : Z;
  iaw_reason : Text
}.

Record EventInvalidActionCoopSettle : Type := mkEventInvalidActionCoopSettle {
  iac_attempted_withdraw : Z;
  iac_reason : Text
}.

Record EventInvalidActionSetRevealTimeout : Type := mkEventInvalidActionSetRevealTimeout {
  iat_reveal_timeout : Z;
  iat_reason : Text
}.

Record EventInvalidSecretRequest : Type := mkEventInvalidSecretRequest {
  isr_payment_identifier : Z;
  isr_intended_amount : Z;
  isr_actual_amount : Z
}.

Record SendLockExpired : Type := mkSendLockExpired {
  sle_message : SendMessageEvent;
  sle_balance_proof : BalanceProofUnsignedState;
  sle_secrethash : bytes
}.

Record SendLockedTransfer : Type := mkSendLockedTransfer {
  slt_message : SendMessageEvent;
  slt_transfer : LockedTransferUnsignedState
}.

Record SendSecretReveal : Type := mkSendSecretReveal {
  ssr_message : SendMessageEvent;
  ssr_secret : bytes;
  ssr_secrethash : bytes
}.

Record SendUnlock : Type := mkSendUnlock {
  su_message : SendMessageEvent;
  su_payment_identifier : Z;
  su_token_address : bytes;
  su_balance_proof : BalanceProofUnsignedState;
  su_secret : bytes;
  su_secrethash : bytes
}.

Record SendSecretRequest : Type := mkSendSecretRequest {
  ssq_message : SendMessageEvent;
  ssq_payment_identifier : Z;
  ssq_amount : Z;
  ssq_expiration : Z;
  ssq_secrethash : bytes
}.

Record EventUnlockSuccess : Type := mkEventUnlockSuccess {
  eus_identifier : Z;
  eus_secrethash : bytes
}.

Record EventUnlockFailed : Type := mkEventUnlockFailed {
  euf_identifier : Z;
  euf_secrethash : bytes;
  euf_reason : Text
}.

Record EventUnlockClaimSuccess : Type := mkEventUnlockClaimSuccess {
  ecs_identifier : Z;
  ecs_secrethash : bytes
}.

Record EventUnlockClaimFailed : Type := mkEventUnlockClaimFailed {
  ecf_identifier : Z;
  ecf_secrethash : bytes;
  ecf_reason : Text
}.

Record EventUnexpectedSecretReveal : Type := mkEventUnexpectedSecretReveal {
  eur_secrethash : bytes;
  eur_reason : Text
}.

Record EventRouteFailed : Type := mkEventRouteFailed {
  erf_secrethash : bytes;
  erf_route : list bytes;
  erf_token_network_address : bytes
}.

Inductive Event : Type :=
  | ESendWithdrawRequest (e : SendWithdrawRequest)
  | ESendWithdrawConfirmation (e : SendWithdrawConfirmation)
  | ESendWithdrawExpired (e : SendWithdrawExpired)
  | ESendProcessed (e : SendProcessed)
  | EContractSendChannelWithdraw (e : ContractSendChannelWithdraw)
  | EContractSendChannelCoopSettle (e : ContractSendChannelCoopSettle)
  | EContractSendChannelClose (e : ContractSendChannelClose)
  | EContractSendChannelSettle (e : ContractSendChannelSettle)
  | EContractSendChannelUpdateTransfer (e : ContractSendChannelUpdateTransfer)
  | EContractSendChannelBatchUnlock (e : ContractSendChannelBatchUnlock)
  | EContractSendSecretReveal (e : ContractSendSecretReveal)
  | EUpdateServicesAddresses (e : UpdateServicesAddresses)
  | EEventPaymentSentSuccess (e : EventPaymentSentSuccess)
  | EEventPaymentSentFailed (e : EventPaymentSentFailed)
  | EEventPaymentReceivedSuccess (e : EventPaymentReceivedSuccess)
  | EEventInvalidReceivedTransferRefund (e : EventInvalidReceivedTransferRefund)
  | EEventInvalidReceivedLockExpired (e : EventInvalidReceivedLockExpired)
  | EEventInvalidReceivedLockedTransfer (e : EventInvalidReceivedLockedTransfer)
  | EEventInvalidReceivedUnlock (e : EventInvalidReceivedUnlock)
  | EEventInvalidReceivedWithdrawRequest (e : EventInvalidReceivedWithdrawRequest)
  | EEventInvalidReceivedWithdraw (e : EventInvalidReceivedWithdraw)
  | EEventInvalidReceivedWithdrawExpired (e : EventInvalidReceivedWithdrawExpired)
  | EEventInvalidActionWithdraw (e : EventInvalidActionWithdraw)
  | EEventInvalidActionCoopSettle (e : EventInvalidActionCoopSettle)
  | EEventInvalidActionSetRevealTimeout (e : EventInvalidActionSetRevealTimeout)
  | EEventInvalidSecretRequest (e : EventInvalidSecretRequest)
  | ESendLockExpired (e : SendLockExpired)
  | ESendLockedTransfer (e : SendLockedTransfer)
  | ESendSecretReveal (e : SendSecretReveal)
  | ESendUnlock (e : SendUnlock)
  | ESendSecretRequest (e : SendSecretRequest)
  | EEventUnlockSuccess (e : EventUnlockSuccess)
  | EEventUnlockFailed (e : EventUnlockFailed)
  | EEventUnlockClaimSuccess (e : EventUnlockClaimSuccess)
  | EEventUnlockClaimFailed (e : EventUnlockClaimFailed)
  | EEventUnexpectedSecretReveal (e : EventUnexpectedSecretReveal)
  | EEventRouteFailed (e : EventRouteFailed).

(** The subclass relation of the source. *)
Coercion ESendWithdrawRequest : SendWithdrawRequest >-> Event.
Coercion ESendWithdrawConfirmation : SendWithdrawConfirmation >-> Event.
Coercion ESendWithdrawExpired : SendWithdrawExpired >-> Event.
Coercion ESendProcessed : SendProcessed >-> Event.
Coercion EContractSendChannelWithdraw : ContractSendChannelWithdraw >-> Event.
Coercion EContractSendChannelCoopSettle : ContractSendChannelCoopSettle >-> Event.
Coercion EContractSendChannelClose : ContractSendChannelClose >-> Event.
Coercion EContractSendChannelSettle : ContractSendChannelSettle >-> Event.
Coercion EContractSendChannelUpdateTransfer : ContractSendChannelUpdateTransfer >-> Event.
Coercion EContractSendChannelBatchUnlock : ContractSendChannelBatchUnlock >-> Event.
Coercion EContractSendSecretReveal : ContractSendSecretReveal >-> Event.
Coercion EUpdateServicesAddresses : UpdateServicesAddresses >-> Event.
Coercion EEventPaymentSentSuccess : EventPaymentSentSuccess >-> Event.
Coercion EEventPaymentSentFailed : EventPaymentSentFailed >-> Event.
Coercion EEventPaymentReceivedSuccess : EventPaymentReceivedSuccess >-> Event.
Coercion EEventInvalidReceivedTransferRefund : EventInvalidReceivedTransferRefund >-> Event.
Coercion EEventInvalidReceivedLockExpired : EventInvalidReceivedLockExpired >-> Event.
Coercion EEventInvalidReceivedLockedTransfer : EventInvalidReceivedLockedTransfer >-> Event.
Coercion EEventInvalidReceivedUnlock : EventInvalidReceivedUnlock >-> Event.
Coercion EEventInvalidReceivedWithdrawRequest : EventInvalidReceivedWithdrawRequest >-> Event.
Coercion EEventInvalidReceivedWithdraw : EventInvalidReceivedWithdraw >-> Event.
Coercion EEventInvalidReceivedWithdrawExpired : EventInvalidReceivedWithdrawExpired >-> Event.
Coercion EEventInvalidActionWithdraw : EventInvalidActionWithdraw >-> Event.
Coercion EEventInvalidActionCoopSettle : EventInvalidActionCoopSettle >-> Event.
Coercion EEventInvalidActionSetRevealTimeout : EventInvalidActionSetRevealTimeout >-> Event.
Coercion EEventInvalidSecretRequest : EventInvalidSecretRequest >-> Event.
Coercion ESendLockExpired : SendLockExpired >-> Event.
Coercion ESendLockedTransfer : SendLockedTransfer >-> Event.
Coercion ESendSecretReveal : SendSecretReveal >-> Event.
Coercion ESendUnlock : SendUnlock >-> Event.
Coercion ESendSecretRequest : SendSecretRequest >-> Event.
Coercion EEventUnlockSuccess : EventUnlockSuccess >-> Event.
Coercion EEventUnlockFailed : EventUnlockFailed >-> Event.
Coercion EEventUnlockClaimSuccess : EventUnlockClaimSuccess >-> Event.
Coercion EEventUnlockClaimFailed : EventUnlockClaimFailed >-> Event.
Coercion EEventUnexpectedSecretReveal : EventUnexpectedSecretReveal >-> Event.
Coercion EEventRouteFailed : EventRouteFailed >-> Event.

(** The message of an off-chain event, [isinstance(event, SendMessageEvent)]. *)
Definition event_message (e : Event) : option SendMessageEvent :=
  match e with
  | ESendWithdrawRequest e => Some (swr_message e)
  | ESendWithdrawConfirmation e => Some (swc_message e)
  | ESendWithdrawExpired e => Some (swe_message e)
  | ESendProcessed e => Some (sp_message e)
  | ESendLockExpired e => Some (sle_message e)
  | ESendLockedTransfer e => Some (slt_message e)
  | ESendSecretReveal e => Some (ssr_message e)
  | ESendUnlock e => Some (su_message e)
  | ESendSecretRequest e => Some (ssq_message e)
  | _ => None
  end.
