(* ===== verification/StateChanges.v ===== *)
(** State changes: what happens to the node ([transfer/state_change.py] and
    [transfer/mediated_transfer/state_change.py]), with the configuration of
    the mediation fees ([settings.MediationFeeConfig]) that some carry. *)

From S2P Require Import Prelude PyDict Bytes Crypto State Events.

(** ** Mediation fee configuration *)

Definition DEFAULT_MEDIATION_FLAT_FEE : Z := 0.
Definition DEFAULT_MEDIATION_PROPORTIONAL_FEE : Z := 4000.
Definition DEFAULT_MEDIATION_PROPORTIONAL_IMBALANCE_FEE : Z := 3000.

Record MediationFeeConfig : Type := mkMediationFeeConfig {
  token_to_flat_fee : dict bytes Z;
  token_to_proportional_fee : dict bytes Z;
  token_to_proportional_imbalance_fee : dict bytes Z;
  cap_mediation_fees : bool
}.

Definition get_flat_fee (c : MediationFeeConfig) (token : bytes) : Z :=
  default DEFAULT_MEDIATION_FLAT_FEE (dict_get token (token_to_flat_fee c)).
Definition get_proportional_fee (c : MediationFeeConfig) (token : bytes) : Z :=
  default DEFAULT_MEDIATION_PROPORTIONAL_FEE
    (dict_get token (token_to_proportional_fee c)).
Definition get_proportional_imbalance_fee (c : MediationFeeConfig) (token : bytes) : Z :=
  default DEFAULT_MEDIATION_PROPORTIONAL_IMBALANCE_FEE
    (dict_get token (token_to_proportional_imbalance_fee c)).

(** ** The description of a payment *)

Record TransferDescriptionWithSecretState : Type := mkTransferDescription {
  td_token_network_registry_address : bytes;
  td_payment_identifier : Z;
  td_amount : Z;
  td_token_network_address : bytes;
  td_initiator : bytes;
  td_target : bytes;
  td_secret : bytes;
  td_secrethash : bytes;
  td_lock_timeout : option Z
}.

(** ** The state changes *)

Record Block : Type := mkBlock {
  block_number : Z;
  gas_limit : Z;
  block_hash : bytes
}.

Record ActionCancelPayment : Type := mkActionCancelPayment {
  acp_payment_identifier : Z
}.

Record ActionChannelClose : Type := mkActionChannelClose {
  acc_canonical_identifier : CanonicalIdentifier
}.

Record ActionChannelWithdraw : Type := mkActionChannelWithdraw {
  acw_canonical_identifier : CanonicalIdentifier;
  acw_total_withdraw : Z;
  acw_recipient_metadata : option AddressMetadata
}.

Record ActionChannelCoopSettle : Type := mkActionChannelCoopSettle {
  acs_canonical_identifier : CanonicalIdentifier;
  acs_recipient_metadata : option AddressMetadata
}.

Record ContractReceiveChannelNew : Type := mkContractReceiveChannelNew {
  crn_transaction_hash : bytes;
  crn_block_number : Z;
  crn_block_hash : bytes;
  crn_channel_state : NettingChannelState
}.

Record ContractReceiveChannelClosed : Type := mkContractReceiveChannelClosed {
  crc_transaction_hash : bytes;
  crc_block_number : Z;
  crc_block_hash : bytes;
  crc_transaction_from : bytes;
  crc_canonical_identifier : CanonicalIdentifier
}.

Record ContractReceiveChannelDeposit : Type := mkContractReceiveChannelDeposit {
  crd_transaction_hash : bytes;
  crd_block_number : Z;
  crd_block_hash : bytes;
  crd_canonical_identifier : CanonicalIdentifier;
  crd_deposit_transaction : TransactionChannelDeposit;
  crd_fee_config : MediationFeeConfig
}.

Record ContractReceiveChannelWithdraw : Type := mkContractReceiveChannelWithdraw {
  crw_transaction_hash : bytes;
  crw_block_number : Z;
  crw_block_hash : bytes;
  crw_canonical_identifier : CanonicalIdentifier;
  crw_participant : bytes;
  crw_total_withdraw : Z;
  crw_fee_config : MediationFeeConfig
}.

Record ContractReceiveChannelSettled : Type := mkContractReceiveChannelSettled {
  crs_transaction_hash : bytes;
  crs_block_number : Z;
  crs_block_hash : bytes;
  crs_canonical_identifier : CanonicalIdentifier;
  crs_our_onchain_locksroot : bytes;
  crs_our_transferred_amount : Z;
  crs_partner_onchain_locksroot : bytes;
  crs_partner_transferred_amount : Z
}.

Record ActionChannelSetRevealTimeout : Type := mkActionChannelSetRevealTimeout {
  art_canonical_identifier : CanonicalIdentifier;
  art_reveal_timeout : Z
}.

Record ContractReceiveNewTokenNetworkRegistry : Type := mkContractReceiveNewTokenNetworkRegistry {
  cntr_transaction_hash : bytes;
  cntr_block_number : Z;
  cntr_block_hash : bytes;
  cntr_token_network_registry : TokenNetworkRegistryState
}.

Record ContractReceiveNewTokenNetwork : Type := mkContractReceiveNewTokenNetwork {
  cntn_transaction_hash : bytes;
  cntn_block_number : Z;
  cntn_block_hash : bytes;
  cntn_token_network_registry_address : bytes;
  cntn_token_network : TokenNetworkState
}.

Record ContractReceiveSecretReveal : Type := mkContractReceiveSecretReveal {
  crsr_transaction_hash : bytes;
  crsr_block_number : Z;
  crsr_block_hash : bytes;
  crsr_secret_registry_address : bytes;
  crsr_secrethash : bytes;
  crsr_secret : bytes
}.

Record ContractReceiveChannelBatchUnlock : Type := mkContractReceiveChannelBatchUnlock {
  crb_transaction_hash : bytes;
  crb_block_number : Z;
  crb_block_hash : bytes;
  crb_canonical_identifier : CanonicalIdentifier;
  crb_receiver : bytes;
  crb_sender : bytes;
  crb_locksroot : bytes;
  crb_unlocked_amount : Z;
  crb_returned_tokens : Z
}.

Record ContractReceiveRouteNew : Type := mkContractReceiveRouteNew {
  crrn_transaction_hash : bytes;
  crrn_block_number : Z;
  crrn_block_hash : bytes;
  crrn_canonical_identifier : CanonicalIdentifier;
  crrn_participant1 : bytes;
  crrn_participant2 : bytes
}.

Record ContractReceiveUpdateTransfer : Type := mkContractReceiveUpdateTransfer {
  cru_transaction_hash : bytes;
  cru_block_number : Z;
  cru_block_hash : bytes;
  cru_canonical_identifier : CanonicalIdentifier;
  cru_nonce : Z
}.

Record ReceiveUnlock : Type := mkReceiveUnlock {
  ru_sender : bytes;
  ru_balance_proof : BalanceProofSignedState;
  ru_message_identifier : Z;
  ru_secret : bytes;
  ru_secrethash : bytes
}.

Record ReceiveDelivered : Type := mkReceiveDelivered {
  rd_sender : bytes;
  rd_message_identifier : Z
}.

Record ReceiveProcessed : Type := mkReceiveProcessed {
  rp_sender : bytes;
  rp_message_identifier : Z
}.

Record ReceiveWithdrawRequest : Type := mkReceiveWithdrawRequest {
  rwr_sender : bytes;
  rwr_message_identifier : Z;
  rwr_canonical_identifier : CanonicalIdentifier;
  rwr_total_withdraw : Z;
  rwr_nonce : Z;
  rwr_expiration : Z;
  rwr_signature : bytes;
  rwr_participant : bytes;
  rwr_coop_settle : bool;
  rwr_sender_metadata : option AddressMetadata
}.

Record ReceiveWithdrawConfirmation : Type := mkReceiveWithdrawConfirmation {
  rwc_sender : bytes;
  rwc_message_identifier : Z;
  rwc_canonical_identifier : CanonicalIdentifier;
  rwc_total_withdraw : Z;
  rwc_nonce : Z;
  rwc_expiration : Z;
  rwc_signature : bytes;
  rwc_participant : bytes
}.

Record ReceiveWithdrawExpired : Type := mkReceiveWithdrawExpired {
  rwe_sender : bytes;
  rwe_message_identifier : Z;
  rwe_canonical_identifier : CanonicalIdentifier;
  rwe_total_withdraw : Z;
  rwe_expiration : Z;
  rwe_nonce : Z;
  rwe_participant : bytes
}.

Record UpdateServicesAddressesStateChange : Type := mkUpdateServicesAddressesStateChange {
  ussc_service : bytes;
  ussc_valid_till : Z
}.

Record ActionInitInitiator : Type := mkActionInitInitiator {
  aii_transfer : TransferDescriptionWithSecretState;
  aii_routes : list RouteState
}.

Record ActionInitMediator : Type := mkActionInitMediator {
  aim_sender : bytes;
  aim_balance_proof : BalanceProofSignedState;
  aim_from_hop : HopState;
  aim_candidate_route_states : list RouteState;
  aim_from_transfer : LockedTransferSignedState
}.

Record ActionInitTarget : Type := mkActionInitTarget {
  ait_sender : bytes;
  ait_balance_proof : BalanceProofSignedState;
  ait_from_hop : HopState;
  ait_transfer : LockedTransferSignedState;
  ait_received_valid_secret : bool
}.

Record ActionTransferReroute : Type := mkActionTransferReroute {
  atr_sender : bytes;
  atr_balance_proof : BalanceProofSignedState;
  atr_transfer : LockedTransferSignedState;
  atr_secret : bytes;
  atr_secrethash : bytes
}.

Record ReceiveTransferCancelRoute : Type := mkReceiveTransferCancelRoute {
  rtc_sender : bytes;
  rtc_balance_proof : BalanceProofSignedState;
  rtc_transfer : LockedTransferSignedState
}.

Record ReceiveLockExpired : Type := mkReceiveLockExpired {
  rle_sender : bytes;
  rle_balance_proof : BalanceProofSignedState;
  rle_secrethash : bytes;
  rle_message_identifier : Z
}.

Record ReceiveSecretRequest : Type := mkReceiveSecretRequest {
  rsq_sender : bytes;
  rsq_payment_identifier : Z;
  rsq_amount : Z;
  rsq_expiration : Z;
  rsq_secrethash : bytes;
  rsq_revealsecret : option SendSecretReveal
}.

Record ReceiveSecretReveal : Type := mkReceiveSecretReveal {
  rsr_sender : bytes;
  rsr_secret : bytes;
  rsr_secrethash : bytes
}.

Record ReceiveTransferRefund : Type := mkReceiveTransferRefund {
  rtr_sender : bytes;
  rtr_balance_proof : BalanceProofSignedState;
  rtr_transfer : LockedTransferSignedState
}.

Inductive StateChange : Type :=
  | SBlock (s : Block)
  | SActionCancelPayment (s : ActionCancelPayment)
  | SActionChannelClose (s : ActionChannelClose)
  | SActionChannelWithdraw (s : ActionChannelWithdraw)
  | SActionChannelCoopSettle (s : ActionChannelCoopSettle)
  | SContractReceiveChannelNew (s : ContractReceiveChannelNew)
  | SContractReceiveChannelClosed (s : ContractReceiveChannelClosed)
  | SContractReceiveChannelDeposit (s : ContractReceiveChannelDeposit)
  | SContractReceiveChannelWithdraw (s : ContractReceiveChannelWithdraw)
  | SContractReceiveChannelSettled (s : ContractReceiveChannelSettled)
  | SActionChannelSetRevealTimeout (s : ActionChannelSetRevealTimeout)
  | SContractReceiveNewTokenNetworkRegistry (s : ContractReceiveNewTokenNetworkRegistry)
  | SContractReceiveNewTokenNetwork (s : ContractReceiveNewTokenNetwork)
  | SContractReceiveSecretReveal (s : ContractReceiveSecretReveal)
  | SContractReceiveChannelBatchUnlock (s : ContractReceiveChannelBatchUnlock)
  | SContractReceiveRouteNew (s : ContractReceiveRouteNew)
  | SContractReceiveUpdateTransfer (s : ContractReceiveUpdateTransfer)
  | SReceiveUnlock (s : ReceiveUnlock)
  | SReceiveDelivered (s : ReceiveDelivered)
  | SReceiveProcessed (s : ReceiveProcessed)
  | SReceiveWithdrawRequest (s : ReceiveWithdrawRequest)
  | SReceiveWithdrawConfirmation (s : ReceiveWithdrawConfirmation)
  | SReceiveWithdrawExpired (s : ReceiveWithdrawExpired)
  | SUpdateServicesAddressesStateChange (s : UpdateServicesAddressesStateChange)
  | SActionInitInitiator (s : ActionInitInitiator)
  | SActionInitMediator (s : ActionInitMediator)
  | SActionInitTarget (s : ActionInitTarget)
  | SActionTransferReroute (s : ActionTransferReroute)
  | SReceiveTransferCancelRoute (s : ReceiveTransferCancelRoute)
  | SReceiveLockExpired (s : ReceiveLockExpired)
  | SReceiveSecretRequest (s : ReceiveSecretRequest)
  | SReceiveSecretReveal (s : ReceiveSecretReveal)
  | SReceiveTransferRefund (s : ReceiveTransferRefund).

(** The balance proof of a [BalanceProofStateChange]. *)
Definition change_balance_proof (sc : StateChange) : option BalanceProofSignedState :=
  match sc with
  | SActionInitMediator a => Some (aim_balance_proof a)
  | SActionInitTarget a => Some (ait_balance_proof a)
  | SActionTransferReroute a => Some (atr_balance_proof a)
  | SReceiveTransferCancelRoute a => Some (rtc_balance_proof a)
  | SReceiveLockExpired a => Some (rle_balance_proof a)
  | SReceiveTransferRefund a => Some (rtr_balance_proof a)
  | SReceiveUnlock a => Some (ru_balance_proof a)
  | _ => None
  end.
