(* ===== verification/Channel.v ===== *)
(** The queries of a channel ([transfer/channel.py], the functions that read
    the state): lock and secret lookups, balances, capacity, nonces, the
    status of a channel and the usability of a channel for a new transfer. *)

From S2P Require Import Prelude PyDict Bytes Crypto PyFloat MediationFee State Events.
From S2P Require Import StateChanges.

Definition DEFAULT_NUMBER_OF_BLOCK_CONFIRMATIONS : Z := 5.

Inductive ChannelUsability : Type :=
  | USABLE
  | NOT_OPENED
  | INVALID_SETTLE_TIMEOUT
  | CHANNEL_REACHED_PENDING_LIMIT
  | CHANNEL_DOESNT_HAVE_ENOUGH_DISTRIBUTABLE
  | CHANNEL_BALANCE_PROOF_WOULD_OVERFLOW
  | LOCKTIMEOUT_MISMATCH.

#[export] Instance ChannelUsability_eq_dec : EqDecision ChannelUsability.
Proof. solve_decision. Defined.

(** ** Expirations *)

(** [get_safe_initial_expiration]; a [lock_timeout] of 0 counts as absent. *)
Definition get_safe_initial_expiration (block_number reveal_timeout : Z)
    (lock_timeout : option Z) : Z :=
  let expiration :=
    match lock_timeout with
    | Some t => if t =? 0 then block_number + reveal_timeout * 2 else block_number + t
    | None => block_number + reveal_timeout * 2
    end in
  expiration - 1.

Definition get_sender_expiration_threshold (expiration : Z) : Z :=
  expiration + DEFAULT_NUMBER_OF_BLOCK_CONFIRMATIONS * 2.

Definition get_receiver_expiration_threshold (expiration : Z) : Z :=
  expiration + DEFAULT_NUMBER_OF_BLOCK_CONFIRMATIONS.

Definition is_withdraw_expired (block_number expiration_threshold : Z) : bool :=
  expiration_threshold <=? block_number.

(** ** Locks and secrets of one end *)

Section locks.
Implicit Types (end_state : NettingChannelEndState) (secrethash : bytes).

Definition is_lock_pending end_state secrethash : bool :=
  dict_mem secrethash (secrethashes_to_lockedlocks end_state)
  || dict_mem secrethash (secrethashes_to_unlockedlocks end_state)
  || dict_mem secrethash (secrethashes_to_onchain_unlockedlocks end_state).

Definition is_lock_locked end_state secrethash : bool :=
  dict_mem secrethash (secrethashes_to_lockedlocks end_state).

Definition is_lock_expired end_state (lock : HashTimeLockState)
    (block_number lock_expiration_threshold : Z) : SuccessOrError :=
  if dict_mem (lock_secrethash lock) (secrethashes_to_onchain_unlockedlocks end_state)
  then error (Msg "lock has been unlocked on-chain" [])
  else if block_number <? lock_expiration_threshold
  then error (Msg "current block number ({}) is not larger than lock.expiration + confirmation blocks ({})"
                [AInt block_number; AInt lock_expiration_threshold])
  else success.

Definition is_secret_known end_state secrethash : bool :=
  dict_mem secrethash (secrethashes_to_unlockedlocks end_state)
  || dict_mem secrethash (secrethashes_to_onchain_unlockedlocks end_state).

Definition is_secret_known_offchain end_state secrethash : bool :=
  dict_mem secrethash (secrethashes_to_unlockedlocks end_state).

Definition is_secret_known_onchain end_state secrethash : bool :=
  dict_mem secrethash (secrethashes_to_onchain_unlockedlocks end_state).

Definition get_secret end_state secrethash : option bytes :=
  match dict_get secrethash (secrethashes_to_unlockedlocks end_state) with
  | Some p => Some (unlock_secret p)
  | None =>
      match dict_get secrethash (secrethashes_to_onchain_unlockedlocks end_state) with
      | Some p => Some (unlock_secret p)
      | None => None
      end
  end.

Definition get_lock end_state secrethash : option HashTimeLockState :=
  match dict_get secrethash (secrethashes_to_lockedlocks end_state) with
  | Some l => Some l
  | None =>
      match dict_get secrethash (secrethashes_to_unlockedlocks end_state) with
      | Some p => Some (unlock_lock p)
      | None =>
          match dict_get secrethash (secrethashes_to_onchain_unlockedlocks end_state) with
          | Some p => Some (unlock_lock p)
          | None => None
          end
      end
  end.

Definition get_amount_unclaimed_onchain end_state : Z :=
  zsum (fun u => lock_amount (unlock_lock u))
    (dict_values (secrethashes_to_onchain_unlockedlocks end_state)).

Definition get_amount_locked end_state : Z :=
  let total_pending :=
    zsum lock_amount (dict_values (secrethashes_to_lockedlocks end_state)) in
  let total_unclaimed :=
    zsum (fun u => lock_amount (unlock_lock u))
      (dict_values (secrethashes_to_unlockedlocks end_state)) in
  total_pending + total_unclaimed + get_amount_unclaimed_onchain end_state.

Definition get_next_nonce end_state : Z := nonce end_state + 1.
Definition get_current_nonce end_state : Z := nonce end_state.

Definition get_number_of_pending_transfers end_state : Z :=
  Z.of_nat (length (pending_locks end_state)).
End locks.

Definition is_transfer_expired (transfer : LockedTransferSignedState)
    (affected_channel : NettingChannelState) (block_number : Z) : bool :=
  so_ok (is_lock_expired (our_state affected_channel) (lts_lock transfer) block_number
           (get_sender_expiration_threshold (lock_expiration (lts_lock transfer)))).

Definition lock_exists_in_either_channel_side (c : NettingChannelState)
    (secrethash : bytes) : bool :=
  match get_lock (our_state c) secrethash with
  | Some _ => true
  | None => bool_decide (is_Some (get_lock (partner_state c) secrethash))
  end.

(** ** Balances *)

Definition get_balance_aux (sender receiver : NettingChannelEndState)
    (subtract_withdraws : bool) : Z :=
  let max_withdraw := Z.max (offchain_total_withdraw sender) (onchain_total_withdraw sender) in
  let withdraw := if subtract_withdraws then max_withdraw else 0 in
  contract_balance sender - withdraw - transferred_amount sender
    + transferred_amount receiver.

Definition get_balance (sender receiver : NettingChannelEndState) : Z :=
  get_balance_aux sender receiver true.

Definition get_max_withdraw_amount (sender receiver : NettingChannelEndState) : Z :=
  get_balance_aux sender receiver false.

Definition get_capacity (c : NettingChannelState) : Z :=
  our_total_deposit c - our_total_withdraw c
    + partner_total_deposit c - partner_total_withdraw c.

(** [get_status] *)
Definition transaction_status (t : TransactionExecutionStatus)
    (finished running : ChannelState) : ChannelState :=
  if bool_decide (tx_result t = Some SUCCESS) then finished
  else if bool_decide (finished_block_number t = None) then running
  else STATE_UNUSABLE.

Definition get_status (c : NettingChannelState) : ChannelState :=
  match settle_transaction c with
  | Some t => transaction_status t STATE_SETTLED STATE_SETTLING
  | None =>
      match close_transaction c with
      | Some t => transaction_status t STATE_CLOSED STATE_CLOSING
      | None => STATE_OPENED
      end
  end.

Section queries.
Context `{Crypto}.

(** [get_current_balanceproof]: locksroot, nonce, transferred and locked
    amount. *)
Definition get_current_balanceproof (end_state : NettingChannelEndState) :
    bytes * Z * Z * Z :=
  match balance_proof end_state with
  | Some bp =>
      (bp_locksroot bp, nonce end_state, bp_transferred_amount bp,
       get_amount_locked end_state)
  | None => (LOCKSROOT_OF_NO_LOCKS, 0, 0, 0)
  end.

Definition get_distributable (sender receiver : NettingChannelEndState) : Z :=
  let '(_, _, transferred, locked) := get_current_balanceproof sender in
  let distributable := get_balance sender receiver - get_amount_locked sender in
  let overflow_limit := Z.max (UINT256_MAX - transferred - locked) 0 in
  Z.min overflow_limit distributable.

Definition is_valid_amount (end_state : NettingChannelEndState) (amount : Z) : bool :=
  let '(_, _, current_transferred, current_locked) := get_current_balanceproof end_state in
  current_transferred + current_locked + amount <=? UINT256_MAX.

Definition is_channel_usable_for_new_transfer (c : NettingChannelState)
    (transfer_amount : Z) (lock_timeout : option Z) : ChannelUsability :=
  let pending_transfers := get_number_of_pending_transfers (our_state c) in
  let distributable := get_distributable (our_state c) (partner_state c) in
  let lock_timeout_valid :=
    match lock_timeout with
    | None => true
    | Some t => (t <=? settle_timeout c) && (reveal_timeout c <? t)
    end in
  let is_valid_settle_timeout := reveal_timeout c * 2 <=? settle_timeout c in
  if negb (bool_decide (get_status c = STATE_OPENED)) then NOT_OPENED
  else if negb is_valid_settle_timeout then INVALID_SETTLE_TIMEOUT
  else if MAXIMUM_PENDING_TRANSFERS <=? pending_transfers
  then CHANNEL_REACHED_PENDING_LIMIT
  else if distributable <? transfer_amount
  then CHANNEL_DOESNT_HAVE_ENOUGH_DISTRIBUTABLE
  else if negb (is_valid_amount (our_state c) transfer_amount)
  then CHANNEL_BALANCE_PROOF_WOULD_OVERFLOW
  else if negb lock_timeout_valid then LOCKTIMEOUT_MISMATCH
  else USABLE.

Definition is_channel_usable_for_mediation (c : NettingChannelState)
    (transfer_amount lock_timeout : Z) : bool :=
  bool_decide (is_channel_usable_for_new_transfer c transfer_amount (Some lock_timeout)
               = USABLE).

(** ** Pending locks *)

(** [compute_locks_with]: [None] when the lock is already registered. *)
Definition compute_locks_with (locks : PendingLocksState) (lock : HashTimeLockState) :
    option PendingLocksState :=
  if negb (bool_decide (lock_encoded lock ∈ locks))
  then Some (locks ++ [lock_encoded lock])
  else None.

(** [compute_locks_without]: [None] when the lock is unknown. *)
Definition compute_locks_without (locks : PendingLocksState) (encoded : bytes) :
    option PendingLocksState :=
  if bool_decide (encoded ∈ locks) then Some (remove_first encoded locks) else None.

Definition compute_locksroot (locks : PendingLocksState) : bytes :=
  keccak (mjoin locks).
End queries.
