(* ===== verification/ChannelValidation.v ===== *)
(** The validation of messages and actions against a channel
    ([transfer/channel.py], the [is_valid_...] functions). *)

From S2P Require Import Prelude PyDict Bytes Crypto PyFloat MediationFee State Events.
From S2P Require Import StateChanges Channel.

(** [PendingLocksStateOrError] *)
Definition PendingLocksStateOrError : Type :=
  bool * option Text * option PendingLocksState.

Definition invalid_with (m : Message) : PendingLocksStateOrError := (false, Some [m], None).

Definition is_valid_channel_total_withdraw (channel_total_withdraw : Z) : bool :=
  channel_total_withdraw <=? UINT256_MAX.

Definition is_balance_proof_safe_for_onchain_operations (bp : BalanceProofSignedState) : bool :=
  sbp_transferred_amount bp + sbp_locked_amount bp <=? UINT256_MAX.

Section validation.
Context `{Crypto}.

(** ** Signatures *)

Definition is_valid_signature (data signature sender_address : bytes) : SuccessOrError :=
  match recover data signature with
  | None => error (Msg "Signature invalid, could not be recovered." [])
  | Some signer_address =>
      if bool_decide (sender_address = signer_address) then success
      else error (Msg "Signature was valid but the expected address does not match." [])
  end.

Definition is_valid_balanceproof_signature (bp : BalanceProofSignedState)
    (sender_address : bytes) : Py SuccessOrError :=
  balance_hash ← hash_balance_data (sbp_transferred_amount bp) (sbp_locked_amount bp)
                   (sbp_locksroot bp);
  let data_that_was_signed :=
    pack_balance_proof (sbp_nonce bp) balance_hash (sbp_message_hash bp)
      (mkCanonicalIdentifier
         (chain_identifier (sbp_canonical_identifier bp))
         (token_network_address (sbp_canonical_identifier bp))
         (channel_identifier (sbp_canonical_identifier bp))) in
  Ok (is_valid_signature data_that_was_signed (sbp_signature bp) sender_address).

(** [is_valid_withdraw], of a request or of a confirmation. *)
Definition is_valid_withdraw (cid : CanonicalIdentifier) (participant : bytes)
    (total_withdraw expiration : Z) (signature sender : bytes) : Py SuccessOrError :=
  packed ← pack_withdraw cid participant total_withdraw expiration;
  Ok (is_valid_signature packed signature sender).

(** ** Balance proofs *)

Definition is_balance_proof_usable_onchain (received : BalanceProofSignedState)
    (c : NettingChannelState) (sender_state : NettingChannelEndState) :
    Py SuccessOrError :=
  let expected_nonce := get_next_nonce sender_state in
  is_valid_signature ← is_valid_balanceproof_signature received (address sender_state);
  let cid := sbp_canonical_identifier received in
  Ok (
    if negb (bool_decide (get_status c = STATE_OPENED)) then
      error (Msg "The channel is already closed." [])
    else if negb (channel_identifier cid =? identifier c) then
      error (Msg "channel_identifier does not match. expected: {} got: {}."
               [AInt (identifier c); AInt (channel_identifier cid)])
    else if negb (bool_decide (token_network_address cid = channel_token_network_address c)) then
      error (Msg "token_network_address does not match. expected: {} got: {}."
               [ABytes (channel_token_network_address c); ABytes (token_network_address cid)])
    else if negb (chain_identifier cid =? chain_id c) then
      error (Msg "chain_id does not match channel's chain_id. expected: {} got: {}."
               [AInt (chain_id c); AInt (chain_identifier cid)])
    else if negb (is_balance_proof_safe_for_onchain_operations received) then
      error (Msg "Balance proof total transferred amount would overflow onchain. max: {} result would be: {}"
               [AInt UINT256_MAX;
                AInt (sbp_transferred_amount received + sbp_locked_amount received)])
    else if negb (sbp_nonce received =? expected_nonce) then
      error (Msg "Nonce did not change sequentially, expected: {} got: {}."
               [AInt expected_nonce; AInt (sbp_nonce received)])
    else is_valid_signature).

(** ** Locked transfers *)

Definition valid_lockedtransfer_check (c : NettingChannelState)
    (sender_state receiver_state : NettingChannelEndState) (message_name : string)
    (received : BalanceProofSignedState) (lock : HashTimeLockState) :
    Py PendingLocksStateOrError :=
  let '(_, _, current_transferred_amount, current_locked_amount) :=
    get_current_balanceproof sender_state in
  let pending := compute_locks_with (pending_locks sender_state) lock in
  let distributable := get_distributable sender_state receiver_state in
  let expected_locked_amount := current_locked_amount + lock_amount lock in
  is_valid_balance_proof ← is_balance_proof_usable_onchain received c sender_state;
  Ok (
    if so_fail is_valid_balance_proof then
      invalid_with (Msg "Invalid {} message. {}"
                      [AText message_name; AMsg (as_error_message is_valid_balance_proof)])
    else
      match pending with
      | None => invalid_with (Msg "Invalid {} message. Same lock handled twice."
                                [AText message_name])
      | Some pending_locks' =>
          if MAXIMUM_PENDING_TRANSFERS <? Z.of_nat (length pending_locks') then
            invalid_with (Msg "Invalid {} message. Adding the transfer would exceed the allowed limit of {} pending transfers per channel."
                            [AText message_name; AInt MAXIMUM_PENDING_TRANSFERS])
          else
            let locksroot_with_lock := compute_locksroot pending_locks' in
            if negb (bool_decide (sbp_locksroot received = locksroot_with_lock)) then
              invalid_with (Msg "Invalid {} message. Balance proof's locksroot didn't match, expected: {} got: {}."
                              [AText message_name; ABytes locksroot_with_lock;
                               ABytes (sbp_locksroot received)])
            else if negb (sbp_transferred_amount received =? current_transferred_amount) then
              invalid_with (Msg "Invalid {} message. Balance proof's transferred_amount changed, expected: {} got: {}."
                              [AText message_name; AInt current_transferred_amount;
                               AInt (sbp_transferred_amount received)])
            else if negb (sbp_locked_amount received =? expected_locked_amount) then
              invalid_with (Msg "Invalid {} message. Balance proof's locked_amount is invalid, expected: {} got: {}."
                              [AText message_name; AInt expected_locked_amount;
                               AInt (sbp_locked_amount received)])
            else if distributable <? lock_amount lock then
              invalid_with (Msg "Invalid {} message. Lock amount larger than the available distributable, lock amount: {} maximum distributable: {}"
                              [AText message_name; AInt (lock_amount lock);
                               AInt distributable])
            else (true, None, Some pending_locks')
      end).

Definition is_valid_lockedtransfer (transfer_state : LockedTransferSignedState)
    (c : NettingChannelState) (sender_state receiver_state : NettingChannelEndState) :
    Py PendingLocksStateOrError :=
  valid_lockedtransfer_check c sender_state receiver_state "LockedTransfer"
    (lts_balance_proof transfer_state) (lts_lock transfer_state).

(** ** Expired locks *)

Definition is_valid_lock_expired (state_change : ReceiveLockExpired)
    (c : NettingChannelState) (sender_state receiver_state : NettingChannelEndState)
    (block_number : Z) : Py PendingLocksStateOrError :=
  let secrethash := rle_secrethash state_change in
  let received := rle_balance_proof state_change in
  let lock :=
    match dict_get secrethash (secrethashes_to_lockedlocks (partner_state c)) with
    | Some l => Some l
    | None =>
        match dict_get secrethash (secrethashes_to_unlockedlocks (partner_state c)) with
        | Some p => Some (unlock_lock p)
        | None => None
        end
    end in
  let secret_registered_on_chain :=
    dict_mem secrethash (secrethashes_to_onchain_unlockedlocks (partner_state c)) in
  let '(_, _, current_transferred_amount, current_locked_amount) :=
    get_current_balanceproof sender_state in
  is_valid_balance_proof ← is_balance_proof_usable_onchain received c sender_state;
  Ok (
    if secret_registered_on_chain then
      invalid_with (Msg "Invalid LockExpired message. Lock was unlocked on-chain." [])
    else
      match lock with
      | None =>
          invalid_with (Msg "Invalid LockExpired message. Lock with secrethash {} is not known."
                          [ABytes secrethash])
      | Some lock =>
          if so_fail is_valid_balance_proof then
            invalid_with (Msg "Invalid LockExpired message. {}"
                            [AMsg (as_error_message is_valid_balance_proof)])
          else
            match compute_locks_without (pending_locks sender_state) (lock_encoded lock) with
            | None => invalid_with (Msg "Invalid LockExpired message. Same lock handled twice." [])
            | Some pending_locks' =>
                let expected_locked_amount := current_locked_amount - lock_amount lock in
                let locksroot_without_lock := compute_locksroot pending_locks' in
                let check_lock_expired :=
                  is_lock_expired receiver_state lock block_number
                    (get_receiver_expiration_threshold (lock_expiration lock)) in
                if so_fail check_lock_expired then
                  invalid_with (Msg "Invalid LockExpired message. {}"
                                  [AMsg (as_error_message check_lock_expired)])
                else if negb (bool_decide (sbp_locksroot received = locksroot_without_lock)) then
                  invalid_with (Msg "Invalid LockExpired message. Balance proof's locksroot didn't match, expected: {} got: {}."
                                  [ABytes locksroot_without_lock; ABytes (sbp_locksroot received)])
                else if negb (sbp_transferred_amount received =? current_transferred_amount) then
                  invalid_with (Msg "Invalid LockExpired message. Balance proof's transferred_amount changed, expected: {} got: {}."
                                  [AInt current_transferred_amount;
                                   AInt (sbp_transferred_amount received)])
                else if negb (sbp_locked_amount received =? expected_locked_amount) then
                  invalid_with (Msg "Invalid LockExpired message. Balance proof's locked_amount is invalid, expected: {} got: {}."
                                  [AInt expected_locked_amount; AInt (sbp_locked_amount received)])
                else (true, None, Some pending_locks')
            end
      end).

(** ** Refunds *)

Definition refund_transfer_matches_transfer (refund_transfer : LockedTransferSignedState)
    (transfer : LockedTransferUnsignedState) : bool :=
  let refund_transfer_sender := sbp_sender (lts_balance_proof refund_transfer) in
  if bool_decide (refund_transfer_sender = ltu_target transfer) then false
  else
    (ltu_payment_identifier transfer =? lts_payment_identifier refund_transfer)
    && (lock_amount (ltu_lock transfer) =? lock_amount (lts_lock refund_transfer))
    && bool_decide (lock_secrethash (ltu_lock transfer) = lock_secrethash (lts_lock refund_transfer))
    && bool_decide (ltu_target transfer = lts_target refund_transfer)
    && (lock_expiration (ltu_lock transfer) =? lock_expiration (lts_lock refund_transfer))
    && bool_decide (ltu_token transfer = lts_token refund_transfer).

Definition is_valid_refund (refund : ReceiveTransferRefund) (c : NettingChannelState)
    (sender_state receiver_state : NettingChannelEndState)
    (received_transfer : LockedTransferUnsignedState) : Py PendingLocksStateOrError :=
  '(is_valid_locked_transfer, msg, pending_locks') ←
    valid_lockedtransfer_check c sender_state receiver_state "RefundTransfer"
      (lts_balance_proof (rtr_transfer refund)) (lts_lock (rtr_transfer refund));
  Ok (
    if negb (is_valid_locked_transfer : bool) then (false, msg, None)
    else if negb (refund_transfer_matches_transfer (rtr_transfer refund) received_transfer)
    then (false, Some [Msg "Refund transfer did not match the received transfer" []], None)
    else (true, Some [], pending_locks')).

(** ** Unlocks *)

Definition is_valid_unlock (unlock : ReceiveUnlock) (c : NettingChannelState)
    (sender_state : NettingChannelEndState) : Py PendingLocksStateOrError :=
  let received := ru_balance_proof unlock in
  match get_lock sender_state (ru_secrethash unlock) with
  | None =>
      Ok (invalid_with (Msg "Invalid Unlock message. There is no corresponding lock for {}"
                          [ABytes (ru_secrethash unlock)]))
  | Some lock =>
      match compute_locks_without (pending_locks sender_state) (lock_encoded lock) with
      | None =>
          Ok (invalid_with (Msg "Invalid unlock message. The lock is unknown {}"
                              [ABytes (lock_encoded lock)]))
      | Some pending_locks' =>
          let locksroot_without_lock := compute_locksroot pending_locks' in
          let '(_, _, current_transferred_amount, current_locked_amount) :=
            get_current_balanceproof sender_state in
          let expected_transferred_amount := current_transferred_amount + lock_amount lock in
          let expected_locked_amount := current_locked_amount - lock_amount lock in
          is_valid_balance_proof ← is_balance_proof_usable_onchain received c sender_state;
          Ok (
            if so_fail is_valid_balance_proof then
              invalid_with (Msg "Invalid Unlock message. {}"
                              [AMsg (as_error_message is_valid_balance_proof)])
            else if negb (bool_decide (sbp_locksroot received = locksroot_without_lock)) then
              invalid_with (Msg "Invalid Unlock message. Balance proof's locksroot didn't match, expected: {} got: {}."
                              [ABytes locksroot_without_lock; ABytes (sbp_locksroot received)])
            else if negb (sbp_transferred_amount received =? expected_transferred_amount) then
              invalid_with (Msg "Invalid Unlock message. Balance proof's wrong transferred_amount, expected: {} got: {}."
                              [AInt expected_transferred_amount;
                               AInt (sbp_transferred_amount received)])
            else if negb (sbp_locked_amount received =? expected_locked_amount) then
              invalid_with (Msg "Invalid Unlock message. Balance proof's wrong locked_amount, expected: {} got: {}."
                              [AInt expected_locked_amount; AInt (sbp_locked_amount received)])
            else (true, None, Some pending_locks'))
      end
  end.

(** ** Withdraws *)

Definition is_valid_total_withdraw (c : NettingChannelState) (our_total : Z)
    (allow_zero : bool) : SuccessOrError :=
  let balance := get_balance (our_state c) (partner_state c) in
  let withdraw_overflow :=
    negb (is_valid_channel_total_withdraw (our_total + partner_total_withdraw c)) in
  let withdraw_amount := our_total - our_total_withdraw c in
  if negb (bool_decide (get_status c = STATE_OPENED)) then
    error (Msg "Invalid withdraw, the channel is not opened" [])
  else if withdraw_amount <? 0 then
    error (Msg "Total withdraw {} decreased" [AInt our_total])
  else if negb allow_zero && (withdraw_amount =? 0) then
    error (Msg "Total withdraw {} did not increase" [AInt our_total])
  else if balance <? withdraw_amount then
    error (Msg "Insufficient balance: {}. Requested {} for withdraw"
             [AInt balance; AInt withdraw_amount])
  else if withdraw_overflow then
    error (Msg "The new total_withdraw {} will cause an overflow" [AInt our_total])
  else success.

Definition is_valid_action_coopsettle (c : NettingChannelState) (total_withdraw : Z) :
    SuccessOrError :=
  let result := is_valid_total_withdraw c total_withdraw true in
  if so_fail result then result
  else if 0 <? get_number_of_pending_transfers (our_state c) then
    error (Msg "Coop-Settle not allowed: We still have pending locks" [])
  else if 0 <? get_number_of_pending_transfers (partner_state c) then
    error (Msg "Coop-Settle not allowed: Partner still has pending locks" [])
  else if 0 <? offchain_total_withdraw (our_state c) then
    error (Msg "Coop-Settle not allowed: We still have pending withdraws" [])
  else if 0 <? offchain_total_withdraw (partner_state c) then
    error (Msg "Coop-Settle not allowed: Partner still has pending withdraws" [])
  else success.

(** The conditions of [is_valid_withdraw_request] on the fields of the
    message; [None] when only the signature is left to check. *)
Definition withdraw_request_error (c : NettingChannelState)
    (req : ReceiveWithdrawRequest) : option SuccessOrError :=
  let expected_nonce := get_next_nonce (partner_state c) in
  let balance := get_balance (partner_state c) (our_state c) in
  let withdraw_amount := rwr_total_withdraw req - partner_total_withdraw c in
  let withdraw_overflow :=
    negb (is_valid_channel_total_withdraw (rwr_total_withdraw req + our_total_withdraw c)) in
  if negb (bool_decide (canonical_identifier c = rwr_canonical_identifier req)) then
    Some (error (Msg "Invalid canonical identifier provided in withdraw request" []))
  else if negb (bool_decide (rwr_participant req = address (partner_state c))) then
    Some (error (Msg "Invalid participant, it must be the partner address" []))
  else if negb (bool_decide (rwr_sender req = address (partner_state c))) then
    Some (error (Msg "Invalid sender, withdraw request must be sent by the partner." []))
  else if withdraw_amount <? 0 then
    Some (error (Msg "Total withdraw {} decreased" [AInt (rwr_total_withdraw req)]))
  else if balance <? withdraw_amount then
    Some (error (Msg "Insufficient balance: {}. Requested {} for withdraw"
                   [AInt balance; AInt withdraw_amount]))
  else if negb (rwr_nonce req =? expected_nonce) then
    Some (error (Msg "Nonce did not change sequentially, expected: {} got: {}."
                   [AInt expected_nonce; AInt (rwr_nonce req)]))
  else if withdraw_overflow then
    Some (error (Msg "The new total_withdraw {} will cause an overflow"
                   [AInt (rwr_total_withdraw req)]))
  else None.

(** [is_valid_withdraw_request]: the signature is checked first, whatever the
    fields are. *)
Definition is_valid_withdraw_request (c : NettingChannelState)
    (req : ReceiveWithdrawRequest) : Py SuccessOrError :=
  is_valid ← is_valid_withdraw (rwr_canonical_identifier req) (rwr_participant req)
               (rwr_total_withdraw req) (rwr_expiration req) (rwr_signature req)
               (rwr_sender req);
  Ok (match withdraw_request_error c req with Some e => e | None => is_valid end).

(** The expiration of the withdraw that a confirmation refers to: a pending
    withdraw, else the first expired one with the same amount. *)
Definition find_withdraw_expiration (e : NettingChannelEndState) (total : Z) : option Z :=
  match dict_get total (withdraws_pending e) with
  | Some w => Some (pw_expiration w)
  | None =>
      ew_expiration <$>
        head (filter (fun w => ew_total_withdraw w = total) (withdraws_expired e))
  end.

(** The conditions of [is_valid_withdraw_confirmation] before the check of
    the signature. *)
Definition withdraw_confirmation_error (c : NettingChannelState)
    (conf : ReceiveWithdrawConfirmation) : option SuccessOrError :=
  let expected_nonce := get_next_nonce (partner_state c) in
  match find_withdraw_expiration (our_state c) (rwc_total_withdraw conf) with
  | None =>
      Some (error (Msg "Received withdraw confirmation {} was not found in withdraw states"
                     [AInt (rwc_total_withdraw conf)]))
  | Some withdraw_expiration =>
      let withdraw_overflow :=
        negb (is_valid_channel_total_withdraw
                (rwc_total_withdraw conf + partner_total_withdraw c)) in
      if negb (bool_decide (canonical_identifier c = rwc_canonical_identifier conf)) then
        Some (error (Msg "Invalid canonical identifier provided in withdraw request" []))
      else if negb (rwc_total_withdraw conf =? our_total_withdraw c) then
        Some (error (Msg "Total withdraw confirmation {} does not match our total withdraw {}"
                       [AInt (rwc_total_withdraw conf); AInt (our_total_withdraw c)]))
      else if negb (rwc_nonce conf =? expected_nonce) then
        Some (error (Msg "Nonce did not change sequentially, expected: {} got: {}."
                       [AInt expected_nonce; AInt (rwc_nonce conf)]))
      else if negb (rwc_expiration conf =? withdraw_expiration) then
        Some (error (Msg "Invalid expiration {}, withdraw confirmation must use the same confirmation as the request, otherwise the signatures will not match on-chain."
                       [AInt (rwc_expiration conf)]))
      else if negb (bool_decide (rwc_participant conf = address (our_state c))) then
        Some (error (Msg "Invalid participant {}, it must be the same as the sender address {}"
                       [ABytes (rwc_participant conf); ABytes (address (our_state c))]))
      else if negb (bool_decide (rwc_sender conf = address (partner_state c))) then
        Some (error (Msg "Invalid sender, withdraw confirmation must be sent by the partner." []))
      else if withdraw_overflow then
        Some (error (Msg "The new total_withdraw {} will cause an overflow"
                       [AInt (rwc_total_withdraw conf)]))
      else None
  end.

Definition is_valid_withdraw_confirmation (c : NettingChannelState)
    (conf : ReceiveWithdrawConfirmation) : Py SuccessOrError :=
  match withdraw_confirmation_error c conf with
  | Some e => Ok e
  | None =>
      is_valid_withdraw (rwc_canonical_identifier conf) (rwc_participant conf)
        (rwc_total_withdraw conf) (rwc_expiration conf) (rwc_signature conf)
        (rwc_sender conf)
  end.

Definition is_valid_withdraw_expired (c : NettingChannelState)
    (sc : ReceiveWithdrawExpired) (withdraw_state : PendingWithdrawState)
    (block_number : Z) : SuccessOrError :=
  let expected_nonce := get_next_nonce (partner_state c) in
  let withdraw_expired :=
    is_withdraw_expired block_number
      (get_receiver_expiration_threshold (pw_expiration withdraw_state)) in
  if negb withdraw_expired then
    error (Msg "WithdrawExpired for withdraw that has not yet expired {}."
             [AInt (rwe_total_withdraw sc)])
  else if negb (bool_decide (canonical_identifier c = rwe_canonical_identifier sc)) then
    error (Msg "Invalid canonical identifier provided in WithdrawExpired" [])
  else if negb (bool_decide (rwe_sender sc = address (partner_state c))) then
    error (Msg "Expired withdraw not from partner." [])
  else if negb (rwe_total_withdraw sc =? pw_total_withdraw withdraw_state) then
    error (Msg "WithdrawExpired and local withdraw amounts do not match. Received {}, local amount {}"
             [AInt (rwe_total_withdraw sc); AInt (pw_total_withdraw withdraw_state)])
  else if negb (rwe_nonce sc =? expected_nonce) then
    error (Msg "Nonce did not change sequentially, expected: {} got: {}."
             [AInt expected_nonce; AInt (rwe_nonce sc)])
  else success.
End validation.
