(* ===== verification/ChannelOps.v ===== *)
(** The operations that change a channel ([transfer/channel.py]): the messages
    that this node sends, the secrets it learns, and the off-chain messages
    that it receives from its partner.

    A function that mutates the channel returns the new channel; a function
    that draws message identifiers returns the advanced generator. *)

From S2P Require Import Prelude PyDict Bytes Crypto PyFloat MediationFee State Events.
From S2P Require Import StateChanges Channel ChannelValidation.

(** [TransitionResult] *)
Record TransitionResult (A : Type) : Type := mkTransitionResult {
  new_state : A;
  events : list Event
}.
Arguments mkTransitionResult {_} _ _.
Arguments new_state {_} _.
Arguments events {_} _.

(** ** Removing locks *)

Definition del_unclaimed_lock (e : NettingChannelEndState) (secrethash : bytes) :
    NettingChannelEndState :=
  let e1 :=
    if dict_mem secrethash (secrethashes_to_lockedlocks e)
    then set_secrethashes_to_lockedlocks
           (dict_del secrethash (secrethashes_to_lockedlocks e)) e
    else e in
  if dict_mem secrethash (secrethashes_to_unlockedlocks e1)
  then set_secrethashes_to_unlockedlocks
         (dict_del secrethash (secrethashes_to_unlockedlocks e1)) e1
  else e1.

Definition del_lock (e : NettingChannelEndState) (secrethash : bytes) :
    Py NettingChannelEndState :=
  _ ← py_assert (is_lock_pending e secrethash) "Lock must be pending";
  let e1 := del_unclaimed_lock e secrethash in
  Ok (if dict_mem secrethash (secrethashes_to_onchain_unlockedlocks e1)
      then set_secrethashes_to_onchain_unlockedlocks
             (dict_del secrethash (secrethashes_to_onchain_unlockedlocks e1)) e1
      else e1).

(** ** On-chain status *)

(** [not t.finished_block_number]: unset, or block zero. *)
Definition block_falsy (b : option Z) : bool :=
  match b with None => true | Some n => n =? 0 end.

(** The body shared by [set_closed], [set_settled] and [set_coop_settled]. *)
Definition finish_transaction (t : option TransactionExecutionStatus) (block_number : Z) :
    option TransactionExecutionStatus :=
  match t with
  | None => Some (mkTransactionExecutionStatus None (Some block_number) (Some SUCCESS))
  | Some tx =>
      if block_falsy (finished_block_number tx)
      then Some (mkTransactionExecutionStatus (started_block_number tx)
                   (Some block_number) (Some SUCCESS))
      else Some tx
  end.

Definition set_closed (c : NettingChannelState) (block_number : Z) : NettingChannelState :=
  set_close_transaction (finish_transaction (close_transaction c) block_number) c.

Definition set_settled (c : NettingChannelState) (block_number : Z) : NettingChannelState :=
  set_settle_transaction (finish_transaction (settle_transaction c) block_number) c.

Definition set_coop_settled (e : NettingChannelEndState) (block_number : Z) :
    Py NettingChannelEndState :=
  cs ← assert_some (initiated_coop_settle e)
         "This should only be called on a state where a CoopSettle is initiated";
  Ok (set_initiated_coop_settle
        (Some (set_cs_transaction (finish_transaction (cs_transaction cs) block_number) cs)) e).

Definition update_contract_balance (e : NettingChannelEndState) (balance : Z) :
    NettingChannelEndState :=
  if contract_balance e <? balance then set_contract_balance balance e else e.

Section operations.
Context `{Crypto}.

(** ** Locked transfers *)

Definition create_sendlockedtransfer (c : NettingChannelState)
    (initiator target : bytes) (amount message_identifier payment_identifier
    expiration : Z) (secret : option bytes) (secrethash : bytes)
    (route_states : list RouteState) (recipient_metadata previous_metadata : option AddressMetadata) :
    Py (SendLockedTransfer * PendingLocksState) :=
  let our := our_state c in
  _ ← py_assert (amount <=? get_distributable our (partner_state c))
        "caller must make sure there is enough balance";
  _ ← py_assert (bool_decide (get_status c = STATE_OPENED))
        "caller must make sure the channel is open";
  lock ← new_HashTimeLockState amount expiration secrethash;
  pending_locks' ← assert_some (compute_locks_with (pending_locks our) lock)
                     "lock is already registered";
  let locksroot := compute_locksroot pending_locks' in
  let transferred := transferred_amount our in
  _ ← py_assert (transferred + amount <=? UINT256_MAX)
        "caller must make sure the result wont overflow";
  let locked := get_amount_locked our + amount in
  let nonce' := get_next_nonce our in
  bp ← new_BalanceProofUnsignedState nonce' transferred locked locksroot
         (canonical_identifier c);
  locked_transfer ← new_LockedTransferUnsignedState payment_identifier (token_address c)
                      lock initiator target bp route_states previous_metadata secret;
  let recipient := address (partner_state c) in
  let recipient_metadata' :=
    match recipient_metadata with
    | Some m => Some m
    | None => get_address_metadata recipient route_states
    end in
  Ok (mkSendLockedTransfer
        (mkSendMessageEvent recipient recipient_metadata' (canonical_identifier c)
           message_identifier)
        locked_transfer,
      pending_locks').

Definition send_lockedtransfer (c : NettingChannelState)
    (initiator target : bytes) (amount message_identifier payment_identifier
    expiration : Z) (secret : option bytes) (secrethash : bytes)
    (route_states : list RouteState) (recipient_metadata previous_metadata : option AddressMetadata) :
    Py (NettingChannelState * SendLockedTransfer) :=
  '(event, pending_locks') ←
    create_sendlockedtransfer c initiator target amount message_identifier
      payment_identifier expiration secret secrethash route_states
      recipient_metadata previous_metadata;
  let transfer := slt_transfer event in
  let lock := ltu_lock transfer in
  let e1 := set_balance_proof (Some (UnsignedBP (ltu_balance_proof transfer))) (our_state c) in
  let e2 := set_nonce (ubp_nonce (ltu_balance_proof transfer)) e1 in
  let e3 := set_pending_locks pending_locks' e2 in
  let e4 := set_secrethashes_to_lockedlocks
              (dict_set (lock_secrethash lock) lock (secrethashes_to_lockedlocks e3)) e3 in
  Ok (set_our_state e4 c, event).

(** ** Unlocks *)

Definition create_unlock (c : NettingChannelState)
    (message_identifier payment_identifier : Z) (secret : bytes)
    (lock : HashTimeLockState) (block_number : Z)
    (recipient_metadata : option AddressMetadata) :
    Py (NettingChannelState * (SendUnlock * PendingLocksState)) :=
  let our := our_state c in
  _ ← py_assert (is_lock_pending our (lock_secrethash lock))
        "caller must make sure the lock is known";
  _ ← py_assert (bool_decide (get_status c = STATE_OPENED))
        "caller must make sure the channel is open";
  let expired := is_lock_expired our lock block_number (lock_expiration lock) in
  _ ← py_assert (so_fail expired) "caller must make sure the lock is not expired";
  our_bp ← assert_some (balance_proof our)
             "the lock is pending, it must be in the pending locks";
  let transferred := lock_amount lock + bp_transferred_amount our_bp in
  pending_locks' ← assert_some (compute_locks_without (pending_locks our) (lock_encoded lock))
                     "the lock is pending, it must be in the pending locks";
  let locksroot := compute_locksroot pending_locks' in
  let locked := get_amount_locked our - lock_amount lock in
  let nonce' := get_next_nonce our in
  let c' := on_our_state (set_nonce nonce') c in
  bp ← new_BalanceProofUnsignedState nonce' transferred locked locksroot
         (canonical_identifier c);
  Ok (c',
      (mkSendUnlock
         (mkSendMessageEvent (address (partner_state c)) recipient_metadata
            (canonical_identifier c) message_identifier)
         payment_identifier (token_address c) bp secret (sha256_secrethash secret),
       pending_locks')).

Definition send_unlock (c : NettingChannelState)
    (message_identifier payment_identifier : Z) (secret secrethash : bytes)
    (block_number : Z) (recipient_metadata : option AddressMetadata) :
    Py (NettingChannelState * SendUnlock) :=
  lock ← assert_some (get_lock (our_state c) secrethash)
           "caller must ensure the lock exists";
  '(c1, (unlock, pending_locks')) ←
    create_unlock c message_identifier payment_identifier secret lock block_number
      recipient_metadata;
  let e1 := set_balance_proof (Some (UnsignedBP (su_balance_proof unlock))) (our_state c1) in
  let e2 := set_pending_locks pending_locks' e1 in
  e3 ← del_lock e2 (lock_secrethash lock);
  Ok (set_our_state e3 c1, unlock).

(** ** Closing *)

(** A balance proof of the partner must be signed. *)
Definition assert_signed (bp : option BalanceProofState) (msg : string) :
    Py (option BalanceProofSignedState) :=
  match bp with
  | None => Ok None
  | Some (SignedBP b) => Ok (Some b)
  | Some (UnsignedBP _) => Raise (AssertionError msg)
  end.

Definition events_for_close (c : NettingChannelState) (block_number : Z)
    (block_hash : bytes) : Py (NettingChannelState * list Event) :=
  if bool_decide (get_status c ∈ CHANNEL_STATES_PRIOR_TO_CLOSED) then
    let c' := set_close_transaction
                (Some (mkTransactionExecutionStatus (Some block_number) None None)) c in
    bp ← assert_signed (balance_proof (partner_state c')) "BP is not signed";
    Ok (c', [EContractSendChannelClose
               (mkContractSendChannelClose block_hash (canonical_identifier c') bp)])
  else Ok (c, []).

(** ** Withdraw requests *)

Definition send_withdraw_request (c : NettingChannelState) (total expiration : Z)
    (prng : Random) (recipient_metadata : option AddressMetadata) (coop_settle : bool) :
    NettingChannelState * list Event * Random :=
  if negb (bool_decide (get_status c ∈ CHANNEL_STATES_PRIOR_TO_CLOSED)) then (c, [], prng)
  else
    let nonce' := get_next_nonce (our_state c) in
    let withdraw_state := mkPendingWithdrawState total expiration nonce' recipient_metadata in
    let e1 := set_nonce nonce' (our_state c) in
    let e2 := set_withdraws_pending
                (dict_set (pw_total_withdraw withdraw_state) withdraw_state
                   (withdraws_pending e1)) e1 in
    let c' := set_our_state e2 c in
    let '(mid, prng') := message_identifier_from_prng prng in
    let withdraw_event :=
      mkSendWithdrawRequest
        (mkSendMessageEvent (address (partner_state c')) recipient_metadata
           (mkCanonicalIdentifier (chain_id c') (channel_token_network_address c')
              (identifier c')) mid)
        (pw_total_withdraw withdraw_state) (address (our_state c'))
        (pw_expiration withdraw_state) (nonce (our_state c')) coop_settle in
    (c', [ESendWithdrawRequest withdraw_event], prng').

(** One iteration of [events_for_expired_withdraws], for an expired
    withdraw. *)
Definition expire_withdraw (c : NettingChannelState) (w : PendingWithdrawState)
    (prng : Random) : Py (NettingChannelState * SendWithdrawExpired * Random) :=
  let nonce' := get_next_nonce (our_state c) in
  let e1 := set_nonce nonce' (our_state c) in
  let e2 :=
    match initiated_coop_settle e1 with
    | Some coop =>
        if (total_withdraw_initiator coop =? pw_total_withdraw w)
             && (cs_expiration coop =? pw_expiration w)
        then set_initiated_coop_settle None e1
        else e1
    | None => e1
    end in
  let e3 := set_withdraws_expired
              (withdraws_expired e2 ++
                 [mkExpiredWithdrawState (pw_total_withdraw w) (pw_expiration w)
                    (pw_nonce w) (pw_recipient_metadata w)]) e2 in
  withdraws ← dict_del_checked (pw_total_withdraw w) (withdraws_pending e3);
  let e4 := set_withdraws_pending withdraws e3 in
  let '(mid, prng') := message_identifier_from_prng prng in
  Ok (set_our_state e4 c,
      mkSendWithdrawExpired
        (mkSendMessageEvent (address (partner_state c)) (pw_recipient_metadata w)
           (canonical_identifier c) mid)
        (pw_total_withdraw w) (address (our_state c)) nonce' (pw_expiration w),
      prng').

(** The loop over the withdraws that were pending at its start; it stops at
    the first one that is not expired. *)
Fixpoint expire_withdraws (c : NettingChannelState) (ws : list PendingWithdrawState)
    (block_number : Z) (prng : Random) : Py (NettingChannelState * list Event * Random) :=
  match ws with
  | [] => Ok (c, [], prng)
  | w :: ws' =>
      if is_withdraw_expired block_number
           (get_sender_expiration_threshold (pw_expiration w))
      then
        '(c1, ev, prng1) ← expire_withdraw c w prng;
        '(c2, evs, prng2) ← expire_withdraws c1 ws' block_number prng1;
        Ok (c2, ESendWithdrawExpired ev :: evs, prng2)
      else Ok (c, [], prng)
  end.

Definition events_for_expired_withdraws (c : NettingChannelState) (block_number : Z)
    (prng : Random) : Py (NettingChannelState * list Event * Random) :=
  expire_withdraws c (dict_values (withdraws_pending (our_state c))) block_number prng.

(** ** Lock expiration *)

Definition create_sendexpiredlock (sender_end_state : NettingChannelEndState)
    (locked_lock : HashTimeLockState) (prng : Random) (cid : CanonicalIdentifier)
    (recipient : bytes) (recipient_metadata : option AddressMetadata) :
    Py (option (SendLockExpired * PendingLocksState) * Random) :=
  let locked := get_amount_locked sender_end_state in
  let updated_locked := locked - lock_amount locked_lock in
  old_bp ← assert_some (balance_proof sender_end_state)
             "there should be a balance proof because a lock is expiring";
  let transferred := bp_transferred_amount old_bp in
  match compute_locks_without (pending_locks sender_end_state) (lock_encoded locked_lock) with
  | None => Ok (None, prng)
  | Some pending_locks' =>
      let nonce' := get_next_nonce sender_end_state in
      let locksroot := compute_locksroot pending_locks' in
      bp ← new_BalanceProofUnsignedState nonce' transferred updated_locked locksroot cid;
      let '(mid, prng') := message_identifier_from_prng prng in
      Ok (Some (mkSendLockExpired
                  (mkSendMessageEvent recipient recipient_metadata
                     (ubp_canonical_identifier bp) mid)
                  bp (lock_secrethash locked_lock),
                pending_locks'), prng')
  end.

Definition send_lock_expired (c : NettingChannelState) (locked_lock : HashTimeLockState)
    (prng : Random) (recipient_metadata : option AddressMetadata) :
    Py (NettingChannelState * list SendLockExpired * Random) :=
  _ ← py_assert (bool_decide (get_status c = STATE_OPENED))
        "caller must make sure the channel is open";
  '(result, prng') ←
    create_sendexpiredlock (our_state c) locked_lock prng
      (mkCanonicalIdentifier (chain_id c) (channel_token_network_address c) (identifier c))
      (address (partner_state c)) recipient_metadata;
  match result with
  | Some (message, pending_locks') =>
      let e1 := set_pending_locks pending_locks' (our_state c) in
      let e2 := set_balance_proof (Some (UnsignedBP (sle_balance_proof message))) e1 in
      let e3 := set_nonce (ubp_nonce (sle_balance_proof message)) e2 in
      let e4 := del_unclaimed_lock e3 (lock_secrethash locked_lock) in
      Ok (set_our_state e4 c, [message], prng')
  | None => Ok (c, [], prng')
  end.

(** ** Secrets *)

Definition register_secret_endstate (e : NettingChannelEndState) (secret secrethash : bytes) :
    NettingChannelEndState :=
  match dict_get secrethash (secrethashes_to_lockedlocks e) with
  | Some pending_lock =>
      let e1 := set_secrethashes_to_lockedlocks
                  (dict_del secrethash (secrethashes_to_lockedlocks e)) e in
      set_secrethashes_to_unlockedlocks
        (dict_set secrethash (mkUnlockPartialProofState pending_lock secret)
           (secrethashes_to_unlockedlocks e1)) e1
  | None => e
  end.

Definition register_onchain_secret_endstate (e : NettingChannelEndState)
    (secret secrethash : bytes) (secret_reveal_block_number : Z) (delete_lock : bool) :
    Py NettingChannelEndState :=
  let pending_lock :=
    match dict_get secrethash (secrethashes_to_unlockedlocks e) with
    | Some p => Some (unlock_lock p)
    | None => dict_get secrethash (secrethashes_to_lockedlocks e)
    end in
  match pending_lock with
  | None => Ok e
  | Some lock =>
      if lock_expiration lock <? secret_reveal_block_number then Ok e
      else
        e1 ← (if delete_lock then del_lock e secrethash else Ok e);
        Ok (set_secrethashes_to_onchain_unlockedlocks
              (dict_set secrethash (mkUnlockPartialProofState lock secret)
                 (secrethashes_to_onchain_unlockedlocks e1)) e1)
  end.

Definition register_offchain_secret (c : NettingChannelState) (secret secrethash : bytes) :
    NettingChannelState :=
  let c1 := set_our_state (register_secret_endstate (our_state c) secret secrethash) c in
  set_partner_state (register_secret_endstate (partner_state c1) secret secrethash) c1.

Definition register_onchain_secret (c : NettingChannelState) (secret secrethash : bytes)
    (secret_reveal_block_number : Z) (delete_lock : bool) : Py NettingChannelState :=
  our ← register_onchain_secret_endstate (our_state c) secret secrethash
          secret_reveal_block_number delete_lock;
  partner ← register_onchain_secret_endstate (partner_state c) secret secrethash
              secret_reveal_block_number delete_lock;
  Ok (set_partner_state partner (set_our_state our c)).

(** ** Received transfers, unlocks, expirations and refunds *)

(** [EventsOrError] *)
Definition EventsOrError : Type := bool * list Event * option Text.

Definition send_processed (recipient : bytes) (metadata : option AddressMetadata)
    (message_identifier : Z) : Event :=
  ESendProcessed (mkSendProcessed
    (mkSendMessageEvent recipient metadata CANONICAL_IDENTIFIER_UNORDERED_QUEUE
       message_identifier)).

(** The assignments to the partner's state after a valid message with a
    balance proof. *)
Definition accept_balance_proof (bp : BalanceProofSignedState)
    (pending : PendingLocksState) (e : NettingChannelEndState) : NettingChannelEndState :=
  let e1 := set_balance_proof (Some (SignedBP bp)) e in
  let e2 := set_nonce (sbp_nonce bp) e1 in
  set_pending_locks pending e2.

Definition add_locked_lock (lock : HashTimeLockState) (e : NettingChannelEndState) :
    NettingChannelEndState :=
  set_secrethashes_to_lockedlocks
    (dict_set (lock_secrethash lock) lock (secrethashes_to_lockedlocks e)) e.

Definition handle_refundtransfer (received_transfer : LockedTransferUnsignedState)
    (c : NettingChannelState) (refund : ReceiveTransferRefund) :
    Py (NettingChannelState * EventsOrError) :=
  '(is_valid, msg, pending) ←
    is_valid_refund refund c (partner_state c) (our_state c) received_transfer;
  if (is_valid : bool) then
    pending_locks' ← assert_some pending "is_valid_refund should return pending locks if valid";
    let transfer := rtr_transfer refund in
    let partner := add_locked_lock (lts_lock transfer)
                     (accept_balance_proof (lts_balance_proof transfer) pending_locks'
                        (partner_state c)) in
    let recipient_metadata :=
      get_address_metadata (address (partner_state c)) (ltu_route_states received_transfer) in
    Ok (set_partner_state partner c,
        (true,
         [send_processed (sbp_sender (lts_balance_proof transfer)) recipient_metadata
            (lts_message_identifier transfer)], msg))
  else
    _ ← py_assert (text_truthy msg) "is_valid_refund should return error msg if not valid";
    Ok (c, (false,
            [EEventInvalidReceivedTransferRefund
               (mkEventInvalidReceivedTransferRefund
                  (ltu_payment_identifier received_transfer) (default [] msg))], msg)).

Definition handle_receive_lock_expired (c : NettingChannelState)
    (state_change : ReceiveLockExpired) (block_number : Z)
    (recipient_metadata : option AddressMetadata) :
    Py (TransitionResult NettingChannelState) :=
  '(is_valid, msg, pending) ←
    is_valid_lock_expired state_change c (partner_state c) (our_state c) block_number;
  if (is_valid : bool) then
    pending_locks' ← assert_some pending
                       "is_valid_lock_expired should return pending locks if valid";
    let bp := rle_balance_proof state_change in
    let partner := del_unclaimed_lock
                     (accept_balance_proof bp pending_locks' (partner_state c))
                     (rle_secrethash state_change) in
    Ok (mkTransitionResult (set_partner_state partner c)
          [send_processed (sbp_sender bp) recipient_metadata
             (rle_message_identifier state_change)])
  else
    _ ← py_assert (text_truthy msg) "is_valid_lock_expired should return error msg if not valid";
    Ok (mkTransitionResult c
          [EEventInvalidReceivedLockExpired
             (mkEventInvalidReceivedLockExpired (rle_secrethash state_change)
                (default [] msg))]).

Definition handle_receive_lockedtransfer (c : NettingChannelState)
    (mediated_transfer : LockedTransferSignedState)
    (recipient_metadata : option AddressMetadata) :
    Py (NettingChannelState * EventsOrError) :=
  '(is_valid, msg, pending) ←
    is_valid_lockedtransfer mediated_transfer c (partner_state c) (our_state c);
  if (is_valid : bool) then
    pending_locks' ← assert_some pending
                       "is_valid_lock_expired should return pending locks if valid";
    let bp := lts_balance_proof mediated_transfer in
    let partner := add_locked_lock (lts_lock mediated_transfer)
                     (accept_balance_proof bp pending_locks' (partner_state c)) in
    Ok (set_partner_state partner c,
        (true,
         [send_processed (sbp_sender bp) recipient_metadata
            (lts_message_identifier mediated_transfer)], msg))
  else
    _ ← py_assert (text_truthy msg) "is_valid_lock_expired should return error msg if not valid";
    Ok (c, (false,
            [EEventInvalidReceivedLockedTransfer
               (mkEventInvalidReceivedLockedTransfer
                  (lts_payment_identifier mediated_transfer) (default [] msg))], msg)).

Definition handle_unlock (c : NettingChannelState) (unlock : ReceiveUnlock)
    (recipient_metadata : option AddressMetadata) :
    Py (NettingChannelState * EventsOrError) :=
  '(is_valid, msg, pending) ← is_valid_unlock unlock c (partner_state c);
  if (is_valid : bool) then
    pending_locks' ← assert_some pending "is_valid_unlock should return pending locks if valid";
    let bp := ru_balance_proof unlock in
    partner ← del_lock (accept_balance_proof bp pending_locks' (partner_state c))
                (ru_secrethash unlock);
    Ok (set_partner_state partner c,
        (true,
         [send_processed (sbp_sender bp) recipient_metadata (ru_message_identifier unlock)],
         msg))
  else
    _ ← py_assert (text_truthy msg) "is_valid_unlock should return error msg if not valid";
    Ok (c, (false,
            [EEventInvalidReceivedUnlock
               (mkEventInvalidReceivedUnlock (ru_secrethash unlock) (default [] msg))], msg)).
End operations.
