(* ===== verification/ChannelTransition.v ===== *)
(** The state machine of a channel ([transfer/channel.py]): the handler of
    every state change, [sanity_check] and [state_transition]. *)

From S2P Require Import Prelude PyDict Bytes Crypto PyFloat MediationFee State Events.
From S2P Require Import StateChanges Channel ChannelValidation ChannelOps.

(** What a handler returns: the new channel ([None] removes it) with the
    events, and the advanced generator. *)
Definition ChannelResult : Type := TransitionResult (option NettingChannelState) * Random.

Section handlers.
Context `{Crypto} `{FloatPow}.

Definition keep (c : NettingChannelState) (evs : list Event) (prng : Random) : ChannelResult :=
  (mkTransitionResult (Some c) evs, prng).

(** ** Actions of the user *)

Definition handle_action_close (action : ActionChannelClose) (c : NettingChannelState)
    (block_number : Z) (block_hash : bytes) (prng : Random) : Py ChannelResult :=
  _ ← py_assert (identifier c =? channel_identifier (acc_canonical_identifier action))
        "caller must make sure the ids match";
  '(c', evs) ← events_for_close c block_number block_hash;
  Ok (keep c' evs prng).

Definition handle_action_coop_settle (action : ActionChannelCoopSettle)
    (c : NettingChannelState) (prng : Random) (block_number : Z) : Py ChannelResult :=
  let our_max_total_withdraw := get_max_withdraw_amount (our_state c) (partner_state c) in
  let partner_max_total_withdraw := get_max_withdraw_amount (partner_state c) (our_state c) in
  let valid_coop_settle := is_valid_action_coopsettle c our_max_total_withdraw in
  if so_ok valid_coop_settle then
    let expiration := get_safe_initial_expiration block_number (reveal_timeout c) None in
    let coop_settle := mkCoopSettleState our_max_total_withdraw partner_max_total_withdraw
                         expiration None None None in
    let c1 := on_our_state (set_initiated_coop_settle (Some coop_settle)) c in
    let '(c2, evs, prng') :=
      send_withdraw_request c1 (total_withdraw_initiator coop_settle)
        (cs_expiration coop_settle) prng (acs_recipient_metadata action) true in
    Ok (keep c2 evs prng')
  else
    _ ← py_assert (text_truthy (Some (as_error_message valid_coop_settle)))
          "is_valid_action_coopsettle should return error msg if not valid";
    Ok (keep c [EEventInvalidActionCoopSettle
                  (mkEventInvalidActionCoopSettle our_max_total_withdraw
                     (as_error_message valid_coop_settle))] prng).

Definition handle_action_withdraw (action : ActionChannelWithdraw)
    (c : NettingChannelState) (prng : Random) (block_number : Z) : Py ChannelResult :=
  let is_valid_withdraw := is_valid_total_withdraw c (acw_total_withdraw action) false in
  if so_ok is_valid_withdraw then
    let expiration := get_safe_initial_expiration block_number (reveal_timeout c) None in
    let '(c', evs, prng') :=
      send_withdraw_request c (acw_total_withdraw action) expiration prng
        (acw_recipient_metadata action) false in
    Ok (keep c' evs prng')
  else
    _ ← py_assert (text_truthy (Some (as_error_message is_valid_withdraw)))
          "is_valid_total_withdraw should return error msg if not valid";
    Ok (keep c [EEventInvalidActionWithdraw
                  (mkEventInvalidActionWithdraw (acw_total_withdraw action)
                     (as_error_message is_valid_withdraw))] prng).

Definition handle_action_set_reveal_timeout (action : ActionChannelSetRevealTimeout)
    (c : NettingChannelState) (prng : Random) : Py ChannelResult :=
  let is_valid_reveal_timeout :=
    (7 <=? art_reveal_timeout action)
    && (art_reveal_timeout action * 2 <=? settle_timeout c) in
  Ok (if is_valid_reveal_timeout
      then keep (set_reveal_timeout (art_reveal_timeout action) c) [] prng
      else keep c [EEventInvalidActionSetRevealTimeout
                     (mkEventInvalidActionSetRevealTimeout (art_reveal_timeout action)
                        [Msg "Settle timeout should be at least twice as large as reveal timeout" []])]
             prng).

(** ** Withdraw messages of the partner *)

(** [events_for_coop_settle]; the coop settle state is the one that this node
    initiated. *)
Definition events_for_coop_settle (c : NettingChannelState) (coop : CoopSettleState)
    (block_number : Z) (block_hash : bytes) : Py (NettingChannelState * list Event) :=
  match partner_signature_request coop, partner_signature_confirmation coop with
  | Some signature_request, Some signature_confirmation =>
      if block_number - reveal_timeout c <=? cs_expiration coop then
        initiated ← assert_some (initiated_coop_settle (our_state c))
                      "CoopSettleState should be present in our state if we initiated it";
        let ev := mkContractSendChannelCoopSettle block_hash (canonical_identifier c)
                    (total_withdraw_initiator coop) (total_withdraw_partner coop)
                    (cs_expiration coop) signature_confirmation signature_request in
        let initiated' := set_cs_transaction
                            (Some (mkTransactionExecutionStatus (Some block_number) None None))
                            initiated in
        Ok (on_our_state (set_initiated_coop_settle (Some initiated')) c,
            [EContractSendChannelCoopSettle ev])
      else Ok (c, [])
  | _, _ => Ok (c, [])
  end.

Definition invalid_withdraw_request (c : NettingChannelState) (total : Z)
    (reason : SuccessOrError) (prng : Random) : Py ChannelResult :=
  _ ← py_assert (text_truthy (Some (as_error_message reason)))
        "is_valid_withdraw_request should return error msg if not valid";
  Ok (keep c [EEventInvalidReceivedWithdrawRequest
                (mkEventInvalidReceivedWithdrawRequest total (as_error_message reason))] prng).

(** The end of [_handle_receive_withdraw_request]: our nonce is increased and
    the confirmation is sent after the other events. *)
Definition confirm_withdraw_request (action : ReceiveWithdrawRequest)
    (c : NettingChannelState) (evs : list Event) (prng : Random) : ChannelResult :=
  let c' := on_our_state (set_nonce (get_next_nonce (our_state c))) c in
  let send_withdraw :=
    mkSendWithdrawConfirmation
      (mkSendMessageEvent (address (partner_state c')) (rwr_sender_metadata action)
         (canonical_identifier c') (rwr_message_identifier action))
      (rwr_total_withdraw action) (address (partner_state c'))
      (rwr_expiration action) (nonce (our_state c')) in
  keep c' (evs ++ [ESendWithdrawConfirmation send_withdraw]) prng.

(** The body of [_handle_receive_withdraw_request] once the request is valid.
    The partner's pending withdraw and nonce are updated before the
    conditions of a cooperative settlement are checked, and
    [events.extend(events)] doubles the list of events. *)
Definition accept_withdraw_request (action : ReceiveWithdrawRequest)
    (c : NettingChannelState) (block_number : Z) (block_hash : bytes)
    (prng : Random) : Py ChannelResult :=
  let withdraw_state := mkPendingWithdrawState (rwr_total_withdraw action)
                          (rwr_expiration action) (rwr_nonce action)
                          (rwr_sender_metadata action) in
  let c1 := on_partner_state (fun e =>
              set_nonce (rwr_nonce action)
                (set_withdraws_pending
                   (dict_set (pw_total_withdraw withdraw_state) withdraw_state
                      (withdraws_pending e)) e)) c in
  let our_initiated := initiated_coop_settle (our_state c1) in
  let total := rwr_total_withdraw action in
  if bool_decide (is_Some our_initiated) || rwr_coop_settle action then
    let partner_max_total_withdraw :=
      get_max_withdraw_amount (partner_state c1) (our_state c1) in
    if negb (partner_max_total_withdraw =? total) then
      invalid_withdraw_request c1 total
        (error (Msg "Partner did not withdraw with maximum balance (should={})."
                  [AInt partner_max_total_withdraw])) prng
    else if 0 <? get_number_of_pending_transfers (partner_state c1) then
      invalid_withdraw_request c1 total (error (Msg "Partner has pending transfers." [])) prng
    else
      match our_initiated with
      | Some coop =>
          if negb (cs_expiration coop =? rwr_expiration action) then
            invalid_withdraw_request c1 total
              (error (Msg "Partner requested withdraw while we initiated a coop-settle: Partner's withdraw has differing expiration." []))
              prng
          else
            _ ← py_assert (total_withdraw_partner coop =? total)
                  "The expected total withdraw of the partner doesn't match the withdraw-request";
            let coop' := set_partner_signature_request (Some (rwr_signature action)) coop in
            let c2 := on_our_state (set_initiated_coop_settle (Some coop')) c1 in
            '(c3, coop_settle_events) ←
              events_for_coop_settle c2 coop' block_number block_hash;
            Ok (confirm_withdraw_request action c3 coop_settle_events prng)
      | None =>
          let our_max_total_withdraw :=
            get_max_withdraw_amount (our_state c1) (partner_state c1) in
          if 0 <? get_number_of_pending_transfers (our_state c1) then
            invalid_withdraw_request c1 total
              (error (Msg "Partner initiated coop-settle, but we have pending transfers." []))
              prng
          else
            let partner_initiated :=
              mkCoopSettleState total our_max_total_withdraw (rwr_expiration action)
                (Some (rwr_signature action)) None None in
            let c2 := on_partner_state
                        (set_initiated_coop_settle (Some partner_initiated)) c1 in
            let '(c3, evs, prng') :=
              send_withdraw_request c2 our_max_total_withdraw
                (cs_expiration partner_initiated) prng (rwr_sender_metadata action) false in
            Ok (confirm_withdraw_request action c3 (evs ++ evs) prng')
      end
  else Ok (confirm_withdraw_request action c1 [] prng).

Definition handle_receive_withdraw_request (action : ReceiveWithdrawRequest)
    (c : NettingChannelState) (block_number : Z) (block_hash : bytes)
    (prng : Random) : Py ChannelResult :=
  is_valid ← is_valid_withdraw_request c action;
  if so_fail is_valid
  then invalid_withdraw_request c (rwr_total_withdraw action) is_valid prng
  else accept_withdraw_request action c block_number block_hash prng.

(** The body of [_handle_receive_withdraw_confirmation] once the confirmation
    is valid. *)
Definition accept_withdraw_confirmation (action : ReceiveWithdrawConfirmation)
    (c : NettingChannelState) (block_number : Z) (block_hash : bytes)
    (prng : Random) : Py ChannelResult :=
  let recipient_metadata :=
    match dict_get (rwc_total_withdraw action) (withdraws_pending (our_state c)) with
    | Some w => pw_recipient_metadata w
    | None => None
    end in
  let c1 := on_partner_state (set_nonce (rwc_nonce action)) c in
  let processed := send_processed (address (partner_state c1)) recipient_metadata
                     (rwc_message_identifier action) in
  match initiated_coop_settle (our_state c1), initiated_coop_settle (partner_state c1) with
  | Some coop, partner_initiated =>
      _ ← py_assert (bool_decide (partner_initiated = None))
            "Only one party can initiate a coop settle";
      let coop' := set_partner_signature_confirmation (Some (rwc_signature action)) coop in
      let c2 := on_our_state (set_initiated_coop_settle (Some coop')) c1 in
      '(c3, coop_settle_events) ← events_for_coop_settle c2 coop' block_number block_hash;
      Ok (keep c3 (processed :: coop_settle_events) prng)
  | None, None =>
      let withdraw_on_chain :=
        if block_number - reveal_timeout c1 <=? rwc_expiration action
        then [EContractSendChannelWithdraw
                (mkContractSendChannelWithdraw block_hash (rwc_canonical_identifier action)
                   (rwc_total_withdraw action) (rwc_expiration action)
                   (rwc_signature action))]
        else [] in
      Ok (keep c1 (processed :: withdraw_on_chain) prng)
  | None, Some _ => Ok (keep c1 [processed] prng)
  end.

Definition handle_receive_withdraw_confirmation (action : ReceiveWithdrawConfirmation)
    (c : NettingChannelState) (block_number : Z) (block_hash : bytes)
    (prng : Random) : Py ChannelResult :=
  is_valid ← is_valid_withdraw_confirmation c action;
  if so_ok is_valid
  then accept_withdraw_confirmation action c block_number block_hash prng
  else
    _ ← py_assert (text_truthy (Some (as_error_message is_valid)))
          "is_valid_withdraw_confirmation should return error msg if not valid";
    Ok (keep c [EEventInvalidReceivedWithdraw
                  (mkEventInvalidReceivedWithdraw (rwc_total_withdraw action)
                     (as_error_message is_valid))] prng).

Definition handle_receive_withdraw_expired (action : ReceiveWithdrawExpired)
    (c : NettingChannelState) (block_number : Z) (prng : Random) : Py ChannelResult :=
  match dict_get (rwe_total_withdraw action) (withdraws_pending (partner_state c)) with
  | None =>
      Ok (keep c [EEventInvalidReceivedWithdrawExpired
                    (mkEventInvalidReceivedWithdrawExpired (rwe_total_withdraw action)
                       [Msg "Withdraw expired of {} did not correspond to previous withdraw request"
                          [AInt (rwe_total_withdraw action)]])] prng)
  | Some withdraw_state =>
      let is_valid := is_valid_withdraw_expired c action withdraw_state block_number in
      if so_ok is_valid then
        withdraws ← dict_del_checked (pw_total_withdraw withdraw_state)
                      (withdraws_pending (partner_state c));
        let p1 := set_withdraws_pending withdraws (partner_state c) in
        let p2 := set_nonce (rwe_nonce action) p1 in
        let p3 :=
          match initiated_coop_settle p2 with
          | Some coop =>
              if (total_withdraw_initiator coop =? pw_total_withdraw withdraw_state)
                   && (cs_expiration coop =? pw_expiration withdraw_state)
              then set_initiated_coop_settle None p2
              else p2
          | None => p2
          end in
        Ok (keep (set_partner_state p3 c)
              [send_processed (address p3) (pw_recipient_metadata withdraw_state)
                 (rwe_message_identifier action)] prng)
      else
        _ ← py_assert (text_truthy (Some (as_error_message is_valid)))
              "is_valid_withdraw_expired should return error msg if not valid";
        Ok (keep c [EEventInvalidReceivedWithdrawExpired
                      (mkEventInvalidReceivedWithdrawExpired (rwe_total_withdraw action)
                         (as_error_message is_valid))] prng)
  end.

(** ** Blocks and contract events *)

Definition handle_block (action : Block) (c : NettingChannelState) (block_nr : Z)
    (prng : Random) : Py ChannelResult :=
  _ ← py_assert (block_number action =? block_nr) "Block number mismatch";
  '(c1, evs1, prng1) ←
    (if bool_decide (get_status c = STATE_OPENED)
     then events_for_expired_withdraws c block_nr prng
     else Ok (c, [], prng));
  '(c2, evs2) ←
    (if bool_decide (get_status c1 = STATE_CLOSED) then
       close_tx ← assert_some (close_transaction c1)
                    "channel get_status is STATE_CLOSED, but close_transaction is not set";
       _ ← py_assert (negb (block_falsy (finished_block_number close_tx)))
             "channel get_status is STATE_CLOSED, but close_transaction block number is missing";
       let closed_block_number := default 0 (finished_block_number close_tx) in
       let settlement_end := closed_block_number + settle_timeout c1 in
       if settlement_end <? block_number action then
         Ok (set_settle_transaction
               (Some (mkTransactionExecutionStatus (Some (block_number action)) None None)) c1,
             [EContractSendChannelSettle
                (mkContractSendChannelSettle (block_hash action) (canonical_identifier c1))])
       else Ok (c1, [])
     else Ok (c1, []));
  Ok (keep c2 (evs1 ++ evs2) prng1).

Definition handle_channel_closed (action : ContractReceiveChannelClosed)
    (c : NettingChannelState) (prng : Random) : Py ChannelResult :=
  let just_closed :=
    (channel_identifier (crc_canonical_identifier action) =? identifier c)
    && bool_decide (get_status c ∈ CHANNEL_STATES_PRIOR_TO_CLOSED) in
  if just_closed then
    let c1 := set_closed c (crc_block_number action) in
    let bp := balance_proof (partner_state c1) in
    let call_update :=
      bool_decide (crc_transaction_from action <> address (our_state c1))
      && bool_decide (is_Some bp)
      && match update_transaction c1 with None => true | Some _ => false end in
    if call_update then
      let expiration := crc_block_number action + settle_timeout c1 in
      signed ← assert_signed bp "";
      signed_bp ← assert_some signed "";
      let update := mkContractSendChannelUpdateTransfer (crc_block_hash action)
                      expiration signed_bp in
      let c2 := set_update_transaction
                  (Some (mkTransactionExecutionStatus (Some (crc_block_number action)) None None))
                  c1 in
      Ok (keep c2 [EContractSendChannelUpdateTransfer update] prng)
    else Ok (keep c1 [] prng)
  else Ok (keep c [] prng).

Definition handle_channel_updated_transfer (action : ContractReceiveUpdateTransfer)
    (c : NettingChannelState) (block_number : Z) (prng : Random) : Py ChannelResult :=
  Ok (if channel_identifier (cru_canonical_identifier action) =? identifier c
      then keep (set_update_transaction
                   (Some (mkTransactionExecutionStatus None (Some block_number) (Some SUCCESS)))
                   c) [] prng
      else keep c [] prng).

(** The comparison of an initiated coop settle with a settlement. *)
Definition coop_settle_matches (first second : Z) (coop : CoopSettleState) : bool :=
  (total_withdraw_initiator coop =? first) && (total_withdraw_partner coop =? second).

Definition handle_channel_settled (action : ContractReceiveChannelSettled)
    (c : NettingChannelState) (prng : Random) : Py ChannelResult :=
  if channel_identifier (crs_canonical_identifier action) =? identifier c then
    let c1 := set_settled c (crs_block_number action) in
    let our_locksroot := crs_our_onchain_locksroot action in
    let partner_locksroot := crs_partner_onchain_locksroot action in
    let initiator_lock_check := bool_decide (our_locksroot = LOCKSROOT_OF_NO_LOCKS) in
    let partner_lock_check := bool_decide (partner_locksroot = LOCKSROOT_OF_NO_LOCKS) in
    let should_clear_channel := initiator_lock_check && partner_lock_check in
    '(c2, ours_matched) ←
      match initiated_coop_settle (our_state c1) with
      | Some coop =>
          if coop_settle_matches (crs_our_transferred_amount action)
               (crs_partner_transferred_amount action) coop
             && initiator_lock_check && partner_lock_check
          then e ← set_coop_settled (our_state c1) (crs_block_number action);
               Ok (set_our_state e c1, true)
          else Ok (c1, false)
      | None => Ok (c1, false)
      end;
    '(c3, partner_matched) ←
      match initiated_coop_settle (partner_state c2) with
      | Some coop =>
          if coop_settle_matches (crs_partner_transferred_amount action)
               (crs_our_transferred_amount action) coop
             && initiator_lock_check && partner_lock_check
          then e ← set_coop_settled (partner_state c2) (crs_block_number action);
               Ok (set_partner_state e c2, true)
          else Ok (c2, false)
      | None => Ok (c2, false)
      end;
    let c4 :=
      if (ours_matched : bool) || partner_matched
      then on_our_state (set_onchain_total_withdraw (crs_our_transferred_amount action))
             (on_partner_state
                (set_onchain_total_withdraw (crs_partner_transferred_amount action)) c3)
      else c3 in
    if should_clear_channel then Ok (mkTransitionResult None [], prng)
    else
      let c5 := on_partner_state (set_onchain_locksroot partner_locksroot)
                  (on_our_state (set_onchain_locksroot our_locksroot) c4) in
      Ok (keep c5 [EContractSendChannelBatchUnlock
                     (mkContractSendChannelBatchUnlock (crs_block_hash action)
                        (canonical_identifier c5) (address (partner_state c5)))] prng)
  else Ok (keep c [] prng).

Definition update_fee_schedule_after_balance_change (c : NettingChannelState)
    (fee_config : MediationFeeConfig) : Py NettingChannelState :=
  let proportional_imbalance_fee :=
    get_proportional_imbalance_fee fee_config (token_address c) in
  imbalance_penalty ← calculate_imbalance_fees (get_capacity c) proportional_imbalance_fee;
  schedule ← new_FeeScheduleState (cap_fees (fee_schedule c)) (flat (fee_schedule c))
               (proportional (fee_schedule c)) imbalance_penalty;
  Ok (set_fee_schedule schedule c).

Definition handle_channel_deposit (action : ContractReceiveChannelDeposit)
    (c : NettingChannelState) (prng : Random) : Py ChannelResult :=
  let participant := participant_address (crd_deposit_transaction action) in
  let balance := td_contract_balance (crd_deposit_transaction action) in
  let c1 :=
    if bool_decide (participant = address (our_state c))
    then on_our_state (fun e => update_contract_balance e balance) c
    else if bool_decide (participant = address (partner_state c))
    then on_partner_state (fun e => update_contract_balance e balance) c
    else c in
  c2 ← update_fee_schedule_after_balance_change c1 (crd_fee_config action);
  Ok (keep c2 [] prng).

(** The on-chain withdraw of one end. *)
Definition apply_onchain_withdraw (total : Z) (e : NettingChannelEndState) :
    NettingChannelEndState :=
  let e1 :=
    if dict_mem total (withdraws_pending e)
    then set_withdraws_pending (dict_del total (withdraws_pending e)) e
    else e in
  set_onchain_total_withdraw total e1.

Definition handle_channel_withdraw (action : ContractReceiveChannelWithdraw)
    (c : NettingChannelState) (prng : Random) : Py ChannelResult :=
  if negb (bool_decide (crw_participant action = address (our_state c)
                        \/ crw_participant action = address (partner_state c)))
  then Ok (keep c [] prng)
  else
    let c1 :=
      if bool_decide (crw_participant action = address (our_state c))
      then on_our_state (apply_onchain_withdraw (crw_total_withdraw action)) c
      else on_partner_state (apply_onchain_withdraw (crw_total_withdraw action)) c in
    c2 ← update_fee_schedule_after_balance_change c1 (crw_fee_config action);
    Ok (keep c2 [] prng).

Definition handle_channel_batch_unlock (action : ContractReceiveChannelBatchUnlock)
    (c : NettingChannelState) (prng : Random) : Py ChannelResult :=
  Ok (if bool_decide (get_status c = STATE_SETTLED) then
        let c1 :=
          if bool_decide (crb_sender action = address (our_state c))
          then on_our_state (set_onchain_locksroot LOCKSROOT_OF_NO_LOCKS) c
          else if bool_decide (crb_sender action = address (partner_state c))
          then on_partner_state (set_onchain_locksroot LOCKSROOT_OF_NO_LOCKS) c
          else c in
        let no_unlock_left_to_do :=
          bool_decide (onchain_locksroot (our_state c1) = LOCKSROOT_OF_NO_LOCKS)
          && bool_decide (onchain_locksroot (partner_state c1) = LOCKSROOT_OF_NO_LOCKS) in
        if no_unlock_left_to_do then (mkTransitionResult None [], prng)
        else keep c1 [] prng
      else keep c [] prng).

(** ** Dispatch *)

(** [handle_state_transitions]: the single dispatch on the type of the state
    change; the default handler changes nothing. *)
Definition handle_state_transitions (action : StateChange) (c : NettingChannelState)
    (block_nr : Z) (block_hsh : bytes) (prng : Random) : Py ChannelResult :=
  match action with
  | SActionChannelClose a => handle_action_close a c block_nr block_hsh prng
  | SActionChannelCoopSettle a => handle_action_coop_settle a c prng block_nr
  | SActionChannelWithdraw a => handle_action_withdraw a c prng block_nr
  | SActionChannelSetRevealTimeout a => handle_action_set_reveal_timeout a c prng
  | SReceiveWithdrawRequest a => handle_receive_withdraw_request a c block_nr block_hsh prng
  | SReceiveWithdrawConfirmation a =>
      handle_receive_withdraw_confirmation a c block_nr block_hsh prng
  | SReceiveWithdrawExpired a => handle_receive_withdraw_expired a c block_nr prng
  | SBlock a => handle_block a c block_nr prng
  | SContractReceiveChannelClosed a => handle_channel_closed a c prng
  | SContractReceiveUpdateTransfer a => handle_channel_updated_transfer a c block_nr prng
  | SContractReceiveChannelSettled a => handle_channel_settled a c prng
  | SContractReceiveChannelDeposit a => handle_channel_deposit a c prng
  | SContractReceiveChannelWithdraw a => handle_channel_withdraw a c prng
  | SContractReceiveChannelBatchUnlock a => handle_channel_batch_unlock a c prng
  | _ => Ok (keep c [] prng)
  end.

(** ** Sanity check *)

(** The loop over our pending withdraws. *)
Fixpoint check_withdraws (coop_settle : bool) (previous : Z)
    (ws : dict Z PendingWithdrawState) : Py unit :=
  match ws with
  | [] => Ok tt
  | (total, w) :: ws' =>
      _ ← (if coop_settle then Ok tt
           else py_assert (previous <? pw_total_withdraw w) "total_withdraw must be ordered");
      _ ← py_assert (total =? pw_total_withdraw w) "Total withdraw mismatch";
      check_withdraws coop_settle (pw_total_withdraw w) ws'
  end.

(** Every lock of the indexing structures is a pending lock. *)
Definition check_locks_synchronized (e : NettingChannelEndState) : Py unit :=
  let msg := "The lock mappings and the pending locks must be synchronized, otherwise there is a bug"%string in
  let check l := py_assert (bool_decide (lock_encoded l ∈ pending_locks e)) msg in
  _ ← py_forall check (dict_values (secrethashes_to_lockedlocks e));
  _ ← py_forall (fun u => check (unlock_lock u)) (dict_values (secrethashes_to_unlockedlocks e));
  py_forall (fun u => check (unlock_lock u))
    (dict_values (secrethashes_to_onchain_unlockedlocks e)).

Definition sanity_check (c : NettingChannelState) : Py unit :=
  let partner := partner_state c in
  let our := our_state c in
  let coop_settle :=
    bool_decide (is_Some (initiated_coop_settle our))
    || bool_decide (is_Some (initiated_coop_settle partner)) in
  _ ← check_withdraws coop_settle 0 (withdraws_pending our);
  let our_balance := get_balance our partner in
  let partner_balance := get_balance partner our in
  let msg := "The balance can never be negative, that would be equivalent to a loan or a double spend."%string in
  _ ← py_assert (0 <=? our_balance) msg;
  _ ← py_assert (0 <=? partner_balance) msg;
  _ ← py_assert (our_balance + partner_balance =? get_capacity c)
        "The whole deposit of the channel has to be accounted for.";
  let our_locked := get_amount_locked our in
  let partner_locked := get_amount_locked partner in
  let '(our_bp_locksroot, _, _, our_bp_locked_amount) := get_current_balanceproof our in
  let '(partner_bp_locksroot, _, _, partner_bp_locked_amount) :=
    get_current_balanceproof partner in
  let msg := "The sum of the lock's amounts, and the value of the balance proof locked_amount must be equal, otherwise settle will not reserve the proper amount of tokens."%string in
  _ ← py_assert (partner_locked =? partner_bp_locked_amount) msg;
  _ ← py_assert (our_locked =? our_bp_locked_amount) msg;
  _ ← py_assert (get_distributable our partner + our_locked <=? our_balance)
        "distributable + locked must not exceed balance (own)";
  _ ← py_assert (get_distributable partner our + partner_locked <=? partner_balance)
        "distributable + locked must not exceed balance (partner)";
  let msg := "The balance proof locks root must match the existing locks, otherwise it is not possible to prove on-chain that a given lock was pending."%string in
  _ ← py_assert (bool_decide (compute_locksroot (pending_locks our) = our_bp_locksroot)) msg;
  _ ← py_assert (bool_decide (compute_locksroot (pending_locks partner) = partner_bp_locksroot)) msg;
  _ ← check_locks_synchronized partner;
  check_locks_synchronized our.

Definition state_transition (c : NettingChannelState) (state_change : StateChange)
    (block_nr : Z) (block_hsh : bytes) (prng : Random) : Py ChannelResult :=
  iteration ← handle_state_transitions state_change c block_nr block_hsh prng;
  _ ← match new_state iteration.1 with
      | Some c' => sanity_check c'
      | None => Ok tt
      end;
  Ok iteration.
End handlers.
