(* ===== verification/ChannelLocks.v ===== *)
(** The locks of one end of a channel.

    The code keeps a lock in one of three dictionaries (locked, unlocked
    off-chain, unlocked on-chain) and its encoding in the list of the pending
    locks.  [lock_index] is the abstract view: one finite map from secrethash
    to lock.  [locks_inv] says that the dictionaries and the list of encodings
    describe the same locks; the lemmas of this file say what every operation
    does to the abstract view. *)

From stdpp Require Import gmap.
From coqutil Require Import Byte.
From S2P Require Import Prelude PyDict Bytes Crypto PyFloat MediationFee State Events.
From S2P Require Import StateChanges Channel ChannelValidation ChannelOps.

(** ** Encoded locks *)

(** The bounds that [Lock.__post_init__] checks. *)
Record lock_valid (l : HashTimeLockState) : Prop := {
  lock_valid_amount : 0 <= lock_amount l <= UINT256_MAX;
  lock_valid_expiration : 0 <= lock_expiration l <= UINT256_MAX;
  lock_valid_secrethash : length (lock_secrethash l) = 32%nat
}.

Lemma new_HashTimeLockState_Ok amount expiration secrethash l :
  new_HashTimeLockState amount expiration secrethash = Ok l <->
  l = mkHashTimeLockState amount expiration secrethash /\ lock_valid l.
Proof.
  unfold new_HashTimeLockState, Lock.new. split.
  - intros Hok. py_inv. subst. bool_hyps. split; [done|]. split; cbn; lia || done.
  - intros [-> [Ha He Hs]]. cbn in *.
    destruct (Z.ltb_spec amount 0), (Z.ltb_spec UINT256_MAX amount),
      (Z.ltb_spec expiration 0), (Z.ltb_spec UINT256_MAX expiration); try lia.
    by rewrite bool_decide_eq_true_2.
Qed.

(** The secrethash can be read back from the encoding. *)
Lemma lock_encoded_secrethash l : drop 64 (lock_encoded l) = lock_secrethash l.
Proof.
  unfold lock_encoded, Lock.as_bytes. cbn [Lock.expiration Lock.amount Lock.secrethash].
  rewrite app_assoc, drop_app_length'; [done|].
  rewrite length_app, !length_be_encode. lia.
Qed.

Lemma length_lock_encoded l : lock_valid l -> length (lock_encoded l) = 96%nat.
Proof.
  intros [_ _ Hs]. unfold lock_encoded, Lock.as_bytes. cbn [Lock.expiration Lock.amount Lock.secrethash].
  rewrite !length_app, !length_be_encode, Hs. lia.
Qed.

(** ** The abstract map of the locks *)

Definition lock_index (e : NettingChannelEndState) : dict bytes HashTimeLockState :=
  secrethashes_to_lockedlocks e
    ++ dict_map_values unlock_lock (secrethashes_to_unlockedlocks e)
    ++ dict_map_values unlock_lock (secrethashes_to_onchain_unlockedlocks e).

(** The dictionaries and the encoded locks describe the same set of locks. *)
Record locks_inv_on (idx : dict bytes HashTimeLockState) (pending : PendingLocksState) : Prop := {
  index_wf : dict_wf idx;
  index_valid : Forall (fun kl => lock_secrethash kl.2 = kl.1 /\ lock_valid kl.2) idx;
  index_pending : pending ≡ₚ map lock_encoded (dict_values idx)
}.

Definition locks_inv (e : NettingChannelEndState) : Prop :=
  locks_inv_on (lock_index e) (pending_locks e).

#[export] Instance locks_inv_on_proper :
  Proper ((≡ₚ) ==> (≡ₚ) ==> iff) locks_inv_on.
Proof.
  assert (forall i i' p p', i ≡ₚ i' -> p ≡ₚ p' -> locks_inv_on i p -> locks_inv_on i' p') as Hone.
  { intros i i' p p' Hi Hp [Hwf Hv Hpe]. split.
    - unfold dict_wf, dict_keys. by rewrite <- (Permutation_map fst Hi).
    - by rewrite <- Hi.
    - rewrite <- Hp, Hpe. unfold dict_values. by rewrite (Permutation_map snd Hi). }
  intros i i' Hi p p' Hp. split; apply Hone; done.
Qed.

(** The locked amount is the sum over the abstract map. *)
Definition index_amount (idx : dict bytes HashTimeLockState) : Z :=
  zsum lock_amount (dict_values idx).

#[export] Instance index_amount_proper : Proper ((≡ₚ) ==> (=)) index_amount.
Proof. intros i i' Hi. unfold index_amount, dict_values. by rewrite (Permutation_map snd Hi). Qed.

Lemma index_amount_cons k l idx : index_amount ((k, l) :: idx) = lock_amount l + index_amount idx.
Proof. reflexivity. Qed.

Lemma get_amount_locked_index e : get_amount_locked e = index_amount (lock_index e).
Proof.
  unfold get_amount_locked, get_amount_unclaimed_onchain, index_amount, lock_index.
  rewrite !dict_values_app, !zsum_app, !dict_values_map_values, !(zsum_map unlock_lock). lia.
Qed.

Lemma get_lock_index e sh : get_lock e sh = dict_get sh (lock_index e).
Proof.
  unfold get_lock, lock_index. rewrite !dict_get_app, !dict_get_map_values.
  destruct (dict_get sh (secrethashes_to_lockedlocks e)); [done|].
  destruct (dict_get sh (secrethashes_to_unlockedlocks e)); [done|]. cbn.
  by destruct (dict_get sh (secrethashes_to_onchain_unlockedlocks e)).
Qed.

Lemma is_lock_pending_index e sh : is_lock_pending e sh = dict_mem sh (lock_index e).
Proof.
  unfold is_lock_pending, dict_mem, lock_index.
  rewrite !dict_get_app, !dict_get_map_values.
  destruct (dict_get sh (secrethashes_to_lockedlocks e)); [done|].
  destruct (dict_get sh (secrethashes_to_unlockedlocks e)); [done|]. cbn.
  by destruct (dict_get sh (secrethashes_to_onchain_unlockedlocks e)).
Qed.

(** ** What an invariant gives *)

Section facts.
Context (idx : dict bytes HashTimeLockState) (pending : PendingLocksState).
Context (Hinv : locks_inv_on idx pending).

Lemma index_get_valid sh l :
  dict_get sh idx = Some l -> lock_secrethash l = sh /\ lock_valid l.
Proof.
  intros H%dict_get_In. destruct Hinv as [_ Hv _].
  rewrite Forall_forall in Hv. exact (Hv _ H).
Qed.

Lemma index_amount_nonneg : 0 <= index_amount idx.
Proof.
  apply zsum_nonneg. intros l [k Hk]%dict_values_elem.
  destruct Hinv as [_ Hv _]. rewrite Forall_forall in Hv.
  destruct (Hv _ Hk) as [_ [Ha _ _]]. cbn in Ha. lia.
Qed.

Lemma index_amount_ge sh l : dict_get sh idx = Some l -> lock_amount l <= index_amount idx.
Proof.
  intros Hg. apply zsum_elem.
  - intros l' [k Hk]%dict_values_elem.
    destruct Hinv as [_ Hv _]. rewrite Forall_forall in Hv.
    destruct (Hv _ Hk) as [_ [Ha _ _]]. cbn in Ha. lia.
  - apply dict_values_elem. eauto using dict_get_In.
Qed.

Lemma index_encoded_pending sh l : dict_get sh idx = Some l -> lock_encoded l ∈ pending.
Proof.
  intros Hg. destruct Hinv as [_ _ Hp]. rewrite Hp.
  apply list_elem_of_fmap. exists l. split; [done|].
  apply dict_values_elem. eauto using dict_get_In.
Qed.

(** A lock with a new secrethash has a new encoding. *)
Lemma index_fresh_encoded l :
  dict_get (lock_secrethash l) idx = None -> lock_encoded l ∉ pending.
Proof.
  intros Hg. destruct Hinv as [_ Hv Hp]. rewrite Hp.
  intros (l' & Heq & [k Hk]%dict_values_elem)%list_elem_of_fmap.
  rewrite Forall_forall in Hv. destruct (Hv _ Hk) as [Hs _]. cbn in Hs.
  apply (f_equal (drop 64)) in Heq. rewrite !lock_encoded_secrethash in Heq.
  apply dict_get_None in Hg. apply Hg. rewrite Heq, Hs.
  apply list_elem_of_fmap. by exists (k, l').
Qed.

(** Adding a lock to the map and its encoding to the list. *)
Lemma index_add l :
  dict_get (lock_secrethash l) idx = None -> lock_valid l ->
  locks_inv_on ((lock_secrethash l, l) :: idx) (pending ++ [lock_encoded l]).
Proof.
  intros Hf Hl. destruct Hinv as [Hwf Hv Hp]. split.
  - unfold dict_wf. cbn. constructor; [by apply dict_get_None|done].
  - constructor; [done|done].
  - cbn. rewrite Hp. symmetry. apply Permutation_cons_append.
Qed.

(** Removing a lock from the map and its encoding from the list. *)
Lemma index_remove idx' sh l :
  idx ≡ₚ (sh, l) :: idx' ->
  locks_inv_on idx' (remove_first (lock_encoded l) pending).
Proof.
  intros Hperm. destruct Hinv as [Hwf Hv Hp].
  unfold dict_wf, dict_keys in Hwf. rewrite (Permutation_map fst Hperm) in Hwf.
  cbn in Hwf. apply NoDup_cons in Hwf as [_ Hwf].
  rewrite Hperm in Hv. apply Forall_cons in Hv as [_ Hv].
  split; [done..|].
  apply (Permutation_cons_inv (a := lock_encoded l)).
  unfold dict_values in Hp. rewrite (Permutation_map snd Hperm) in Hp. cbn in Hp.
  rewrite remove_first_perm; [done|]. rewrite Hp. left.
Qed.

Lemma index_pending_nil : pending = [] <-> idx = [].
Proof.
  destruct Hinv as [_ _ Hp]. split; intros ->.
  - apply Permutation_nil in Hp. unfold dict_values in Hp.
    by apply map_eq_nil, map_eq_nil in Hp.
  - cbn in Hp. by apply Permutation_sym, Permutation_nil in Hp.
Qed.
End facts.

(** ** The operations on the abstract map *)

(** Assignment to the three dictionaries of the locks. *)
Definition with_locks (locked : dict bytes HashTimeLockState)
    (unlocked onchain : dict bytes UnlockPartialProofState) (e : NettingChannelEndState) :
    NettingChannelEndState :=
  set_secrethashes_to_onchain_unlockedlocks onchain
    (set_secrethashes_to_unlockedlocks unlocked (set_secrethashes_to_lockedlocks locked e)).

Lemma lock_index_with_locks a b c e :
  lock_index (with_locks a b c e) =
  a ++ dict_map_values unlock_lock b ++ dict_map_values unlock_lock c.
Proof. reflexivity. Qed.

Lemma with_locks_id e :
  with_locks (secrethashes_to_lockedlocks e) (secrethashes_to_unlockedlocks e)
    (secrethashes_to_onchain_unlockedlocks e) e = e.
Proof. by destruct e. Qed.

(** The guards [if secrethash in ...: del ...] only skip deletions that would
    do nothing. *)
Lemma del_unclaimed_lock_eq e sh :
  del_unclaimed_lock e sh =
  with_locks (dict_del sh (secrethashes_to_lockedlocks e))
    (dict_del sh (secrethashes_to_unlockedlocks e))
    (secrethashes_to_onchain_unlockedlocks e) e.
Proof.
  destruct e as [? ? ? ? ? ? ? locked unlocked onchain ? ? ? ?].
  unfold del_unclaimed_lock, dict_mem, with_locks. cbn.
  destruct (dict_get sh locked) eqn:E1; cbn; destruct (dict_get sh unlocked) eqn:E2; cbn;
    rewrite ?(dict_del_absent sh _ E1), ?(dict_del_absent sh _ E2); done.
Qed.

Lemma del_lock_eq e sh :
  is_lock_pending e sh = true ->
  del_lock e sh =
  Ok (with_locks (dict_del sh (secrethashes_to_lockedlocks e))
        (dict_del sh (secrethashes_to_unlockedlocks e))
        (dict_del sh (secrethashes_to_onchain_unlockedlocks e)) e).
Proof.
  intros Hp. unfold del_lock. rewrite Hp, del_unclaimed_lock_eq. cbn. f_equal.
  unfold dict_mem, with_locks. cbn.
  destruct (dict_get sh (secrethashes_to_onchain_unlockedlocks e)) eqn:E; [done|].
  by rewrite (dict_del_absent sh (secrethashes_to_onchain_unlockedlocks e)).
Qed.

(** [del_lock] deletes the secrethash from the map. *)
Lemma lock_index_del_lock e sh a b c :
  dict_wf (lock_index e) ->
  a = dict_del sh (secrethashes_to_lockedlocks e) ->
  b = dict_del sh (secrethashes_to_unlockedlocks e) ->
  c = dict_del sh (secrethashes_to_onchain_unlockedlocks e) ->
  a ++ dict_map_values unlock_lock b ++ dict_map_values unlock_lock c
  = dict_del sh (lock_index e).
Proof.
  intros Hwf -> -> ->. unfold lock_index in *. rewrite dict_del_app by done.
  apply dict_wf_app in Hwf as (_ & Hwf & _).
  by rewrite (dict_del_app sh _ _ Hwf), !dict_del_map_values.
Qed.

(** [_del_unclaimed_lock] does the same unless the lock was unlocked on-chain. *)
Lemma lock_index_del_unclaimed e sh :
  dict_wf (lock_index e) ->
  dict_mem sh (secrethashes_to_onchain_unlockedlocks e) = false ->
  lock_index (del_unclaimed_lock e sh) = dict_del sh (lock_index e).
Proof.
  intros Hwf Hn%dict_mem_false. rewrite del_unclaimed_lock_eq, lock_index_with_locks.
  apply lock_index_del_lock; [done..|]. by rewrite dict_del_absent.
Qed.

Lemma lock_index_add e l :
  dict_get (lock_secrethash l) (lock_index e) = None ->
  lock_index (add_locked_lock l e) ≡ₚ (lock_secrethash l, l) :: lock_index e.
Proof.
  unfold lock_index, add_locked_lock. cbn. rewrite dict_get_app.
  destruct (dict_get _ (secrethashes_to_lockedlocks e)) eqn:E; [done|]. intros _.
  by rewrite (dict_set_fresh_perm _ _ _ E).
Qed.

(** Registering a secret moves a lock between the dictionaries. *)
Lemma register_secret_endstate_index e secret sh :
  locks_inv e ->
  lock_index (register_secret_endstate e secret sh) ≡ₚ lock_index e.
Proof.
  intros [Hwf _ _]. unfold register_secret_endstate.
  destruct (dict_get sh (secrethashes_to_lockedlocks e)) as [l|] eqn:E; [|done].
  unfold lock_index in *. cbn.
  apply dict_wf_app in Hwf as (_ & Hwf & Hd). specialize (Hd sh (mk_is_Some _ _ E)).
  rewrite dict_get_app, dict_get_map_values in Hd.
  destruct (dict_get sh (secrethashes_to_unlockedlocks e)) eqn:E2; [done|].
  rewrite dict_set_map_values, dict_set_fresh_perm by (by rewrite dict_get_map_values, E2).
  rewrite (dict_del_perm _ _ _ E) at 2. cbn.
  by rewrite (Permutation_middle (dict_del sh _)).
Qed.

Lemma register_onchain_secret_endstate_index e secret sh block :
  locks_inv e ->
  exists e', register_onchain_secret_endstate e secret sh block true = Ok e'
    /\ lock_index e' ≡ₚ lock_index e
    /\ exists a b c, e' = with_locks a b c e.
Proof.
  intros Hinv. pose proof (index_wf _ _ Hinv) as Hwf.
  unfold register_onchain_secret_endstate.
  assert (exists e', Ok e = Ok e' /\ lock_index e' ≡ₚ lock_index e
            /\ exists a b c, e' = with_locks a b c e) as Hsame.
  { exists e. split_and!; [done..|]. eexists _, _, _. symmetry. apply with_locks_id. }
  assert (match dict_get sh (secrethashes_to_unlockedlocks e) with
          | Some p => Some (unlock_lock p)
          | None => dict_get sh (secrethashes_to_lockedlocks e)
          end = if dict_mem sh (secrethashes_to_onchain_unlockedlocks e) then None
                else dict_get sh (lock_index e)) as ->.
  { unfold lock_index, dict_mem in *. rewrite !dict_get_app, !dict_get_map_values in *.
    apply dict_wf_app in Hwf as (_ & Hwf & Hd). specialize (Hd sh).
    apply dict_wf_app in Hwf as (_ & _ & Hd'). specialize (Hd' sh).
    rewrite dict_get_app, !dict_get_map_values in *.
    destruct (dict_get sh (secrethashes_to_lockedlocks e)),
      (dict_get sh (secrethashes_to_unlockedlocks e)),
      (dict_get sh (secrethashes_to_onchain_unlockedlocks e)); cbn in *; try done;
      discriminate (Hd (mk_is_Some _ _ eq_refl)) || discriminate (Hd' (mk_is_Some _ _ eq_refl)). }
  destruct (dict_mem sh (secrethashes_to_onchain_unlockedlocks e)) eqn:Hon; [done|].
  destruct (dict_get sh (lock_index e)) as [l|] eqn:Hl; [|done].
  case_if; [done|].
  rewrite del_lock_eq by (rewrite is_lock_pending_index; apply dict_mem_true; eauto).
  cbn. eexists. split_and!; [done| |].
  - unfold lock_index at 1, with_locks. cbn.
    apply dict_mem_false in Hon. rewrite (dict_del_absent sh _ Hon).
    rewrite dict_set_map_values, dict_set_fresh_perm
      by (rewrite dict_get_map_values; by rewrite Hon).
    rewrite (dict_del_perm _ _ _ Hl). cbn.
    rewrite <- (lock_index_del_lock e sh _ _ _ Hwf eq_refl eq_refl eq_refl).
    rewrite (dict_del_absent sh _ Hon), !app_assoc. by rewrite <- Permutation_middle.
  - eexists _, _, _. reflexivity.
Qed.

(** ** The locks refine a finite map *)

#[export] Instance byte_countable : Countable Byte.byte.
Proof.
  apply (inj_countable' (fun b => Byte.to_N b)
           (fun n => match Byte.of_N n with Some b => b | None => Byte.x00 end)).
  intros b. by rewrite Byte.of_to_N.
Defined.

Definition lock_map (e : NettingChannelEndState) : gmap bytes HashTimeLockState :=
  dict_abs (lock_index e).

Lemma dict_abs_perm (d1 d2 : dict bytes HashTimeLockState) :
  dict_wf d1 -> d1 ≡ₚ d2 -> dict_abs d1 = dict_abs d2.
Proof.
  intros Hwf Hp. apply map_eq. intros k. rewrite <- !dict_get_abs. by apply dict_get_perm.
Qed.

(** C36: the three dictionaries of the locks implement one finite map from
    secrethash to lock.  Looking up and testing a lock are lookups in the map;
    a new transfer inserts into it; [del_lock] deletes from it, and asserts
    that the key is there; registering a secret, off-chain or on-chain, leaves
    the map as it is. *)
Theorem locks_refine_finite_map e (Hinv : locks_inv e) :
  (forall sh, get_lock e sh = lock_map e !! sh)
  /\ (forall sh, is_lock_pending e sh = bool_decide (is_Some (lock_map e !! sh)))
  /\ (forall l, lock_map e !! lock_secrethash l = None ->
        lock_map (add_locked_lock l e) = <[lock_secrethash l := l]> (lock_map e))
  /\ (forall sh, is_Some (lock_map e !! sh) ->
        exists e', del_lock e sh = Ok e' /\ lock_map e' = delete sh (lock_map e))
  /\ (forall sh, lock_map e !! sh = None ->
        del_lock e sh = Raise (AssertionError "Lock must be pending"))
  /\ (forall secret sh, lock_map (register_secret_endstate e secret sh) = lock_map e)
  /\ (forall secret sh block, exists e',
        register_onchain_secret_endstate e secret sh block true = Ok e'
        /\ lock_map e' = lock_map e).
Proof.
  pose proof (index_wf _ _ Hinv) as Hwf. unfold lock_map.
  assert (forall sh, is_lock_pending e sh = bool_decide (is_Some (dict_abs (lock_index e) !! sh)))
    as Hpend.
  { intros sh. rewrite is_lock_pending_index, <- dict_get_abs. unfold dict_mem.
    by destruct (dict_get sh (lock_index e)). }
  assert (forall e', lock_index e' ≡ₚ lock_index e ->
            dict_abs (lock_index e') = dict_abs (lock_index e)) as Hperm.
  { intros e' Hp. symmetry. apply dict_abs_perm; [done|]. by symmetry. }
  split_and!; intros.
  - by rewrite get_lock_index, dict_get_abs.
  - apply Hpend.
  - rewrite <- dict_get_abs in *.
    etransitivity; [symmetry; apply dict_abs_perm, Permutation_sym, lock_index_add; try done|done].
    unfold dict_wf. cbn. constructor; [by apply dict_get_None|done].
  - rewrite del_lock_eq by (rewrite Hpend; by apply bool_decide_eq_true).
    eexists. split; [done|]. rewrite lock_index_with_locks.
    rewrite (lock_index_del_lock e sh) by done. by apply refine_del.
  - unfold del_lock. rewrite Hpend, bool_decide_eq_false_2; [done|].
    rewrite H. by intros [].
  - by apply Hperm, register_secret_endstate_index.
  - destruct (register_onchain_secret_endstate_index e secret sh block Hinv) as (e' & Hrun & Hp & _).
    exists e'. split; [done|]. by apply Hperm.
Qed.

(** C37: a lock can be read back from its encoding, so that two valid locks
    with the same encoding are equal; and an encoding of 96 bytes is the one of
    the lock that is read from it. *)
Theorem lock_encoding_roundtrip l (Hv : lock_valid l) :
  Lock.from_bytes (lock_encoded l)
    = Ok (Lock.mk (lock_amount l) (lock_expiration l) (lock_secrethash l))
  /\ (forall l', lock_valid l' -> lock_encoded l' = lock_encoded l -> l' = l)
  /\ (forall b x, length b = 96%nat -> Lock.from_bytes b = Ok x -> Lock.as_bytes x = b).
Proof.
  assert (forall l, lock_valid l -> Lock.from_bytes (lock_encoded l)
            = Ok (Lock.mk (lock_amount l) (lock_expiration l) (lock_secrethash l))) as Hrt.
  { clear l Hv. intros l Hv. unfold Lock.from_bytes. rewrite lock_encoded_secrethash.
    unfold lock_encoded, Lock.as_bytes. cbn [Lock.expiration Lock.amount Lock.secrethash].
    rewrite take_app_length', drop_app_length', take_app_length' by (by rewrite length_be_encode).
    destruct Hv as [Ha He Hs]. rewrite UINT256_MAX_eq in Ha, He.
    rewrite !be_encode_inv by (cbn; lia).
    pose proof (proj2 (new_HashTimeLockState_Ok (lock_amount l) (lock_expiration l)
      (lock_secrethash l) l)) as Hnew. unfold new_HashTimeLockState in Hnew.
    destruct (Lock.new _ _ _) as [x|] eqn:E.
    - unfold Lock.new in E. py_inv. by subst.
    - discriminate Hnew. split; [by destruct l|]. split; rewrite ?UINT256_MAX_eq; done. }
  split_and!; [by apply Hrt| |].
  - intros l' Hv' Heq. apply Hrt in Hv, Hv'. rewrite Heq, Hv in Hv'. clear -Hv'.
    destruct l as [a e h], l' as [a' e' h'].
    cbn [lock_amount lock_expiration lock_secrethash] in Hv'. congruence.
  - intros b x Hlen Hok. unfold Lock.from_bytes, Lock.new in Hok. py_inv. subst x. bool_hyps.
    unfold Lock.as_bytes. cbn.
    assert (forall s, length s = 32%nat -> be_encode 32 (int_from_bytes s) = s) as Hback.
    { intros s Hs. pose proof (int_from_bytes_to_bytes s) as Hb. unfold int_to_bytes in Hb.
      rewrite Hs in Hb. case_if; by simplify_eq. }
    rewrite !Hback by (rewrite ?length_take, ?length_drop; lia).
    rewrite <- (take_drop 32 b) at 4. f_equal.
    rewrite <- (take_drop 32 (drop 32 b)) at 2. by rewrite drop_drop.
Qed.
