(* ===== verification/ChannelInvariant.v ===== *)
(** The invariant of a channel.

    [end_inv] is the invariant of one end: its locks are synchronized with the
    encoded locks ([locks_inv]), and the balance proof describes exactly these
    locks.  [channel_inv] adds what relates the two ends.  It implies every
    assertion of [sanity_check] ([sanity_check_ok]).

    The invariant has two strengths.  [channel_inv] asks for balances that are
    not negative, which is what [sanity_check] asserts.  [solvent_inv] asks for
    balances that cover the pending locks, so that every lock can be
    unlocked. *)

From Stdlib Require Import Sorted.
From S2P Require Import Prelude PyDict Bytes Crypto PyFloat MediationFee State Events.
From S2P Require Import StateChanges Channel ChannelValidation ChannelOps ChannelTransition.
From S2P Require Import ChannelLocks.

(** ** Withdraws *)

(** The dictionary of the pending withdraws is keyed by the total amount. *)
Record withdraws_inv (ws : dict Z PendingWithdrawState) : Prop := {
  withdraws_wf : dict_wf ws;
  withdraws_keyed : Forall (fun kw => pw_total_withdraw kw.2 = kw.1 /\ 0 <= kw.1) ws
}.

(** Our own withdraws increase in the order in which they were requested; a
    withdraw of zero only belongs to a cooperative settlement. *)
Record our_withdraws_inv (e : NettingChannelEndState) : Prop := {
  our_withdraws_sorted : StronglySorted Z.lt (dict_keys (withdraws_pending e));
  our_withdraws_zero :
    0 ∈ dict_keys (withdraws_pending e) -> is_Some (initiated_coop_settle e)
}.

Lemma zmax_default_le d l m :
  d <= m -> (forall x, x ∈ l -> x <= m) -> zmax_default d l <= m.
Proof.
  intros Hd Hl. destruct l as [|x l]; [done|].
  apply Hl, zmax_default_In. done.
Qed.

Lemma offchain_total_withdraw_nonneg e :
  withdraws_inv (withdraws_pending e) -> 0 <= offchain_total_withdraw e.
Proof.
  intros [_ Hk]. unfold offchain_total_withdraw.
  destruct (decide (dict_keys (withdraws_pending e) = [])) as [->|Hne]; [done|].
  apply (zmax_default_In 0) in Hne. apply list_elem_of_fmap in Hne as (kw & -> & Hin).
  rewrite Forall_forall in Hk. apply Hk in Hin. lia.
Qed.

(** Fewer pending withdraws, smaller total. *)
Lemma offchain_total_withdraw_mono e e' :
  withdraws_inv (withdraws_pending e) ->
  dict_keys (withdraws_pending e') ⊆ dict_keys (withdraws_pending e) ->
  offchain_total_withdraw e' <= offchain_total_withdraw e.
Proof.
  intros Hw Hs. pose proof (offchain_total_withdraw_nonneg e Hw).
  apply zmax_default_le; [done|]. intros x Hx. apply zmax_default_ge. by apply Hs.
Qed.

Lemma withdraws_inv_get ws k w :
  withdraws_inv ws -> dict_get k ws = Some w -> pw_total_withdraw w = k /\ 0 <= k.
Proof.
  intros [_ Hk] Hg%dict_get_In. rewrite Forall_forall in Hk. exact (Hk _ Hg).
Qed.

Lemma withdraws_inv_del ws k : withdraws_inv ws -> withdraws_inv (dict_del k ws).
Proof.
  intros [Hwf Hk]. split; [auto with raiden|].
  rewrite Forall_forall in *. intros [k' w'] ?%dict_del_elem. by apply Hk.
Qed.

Lemma withdraws_inv_set ws w :
  withdraws_inv ws -> 0 <= pw_total_withdraw w ->
  withdraws_inv (dict_set (pw_total_withdraw w) w ws).
Proof.
  intros [Hwf Hk] Hw. split; [auto with raiden|].
  rewrite Forall_forall in *. intros [k' w'] [[-> ->]|Hin]%dict_set_elem; [done|].
  by apply Hk.
Qed.

Lemma StronglySorted_remove_first (R : Z -> Z -> Prop) x l :
  StronglySorted R l -> StronglySorted R (remove_first x l).
Proof.
  induction 1 as [|y l Hl IH Hy]; cbn; [constructor|].
  case_decide; [done|]. constructor; [done|].
  rewrite Forall_forall in *. intros z Hz%elem_of_remove_first. by apply Hy.
Qed.

#[export] Hint Resolve withdraws_inv_del : raiden.

Section invariant.
Context `{Crypto}.

(** ** The balance proof of one end *)
Definition bp_inv (e : NettingChannelEndState) : Prop :=
  match balance_proof e with
  | None => pending_locks e = []
  | Some bp =>
      bp_locksroot bp = compute_locksroot (pending_locks e)
      /\ bp_locked_amount bp = get_amount_locked e
      /\ 0 <= bp_transferred_amount bp
      /\ bp_transferred_amount bp + bp_locked_amount bp <= UINT256_MAX
  end.

Record end_inv (e : NettingChannelEndState) : Prop := {
  end_locks : locks_inv e;
  end_bp : bp_inv e;
  end_withdraws : withdraws_inv (withdraws_pending e);
  end_onchain_withdraw : 0 <= onchain_total_withdraw e;
  end_nonce : 0 <= nonce e
}.

(** A balance proof of the partner carries a signature, ours does not. *)
Definition bp_signed (e : NettingChannelEndState) : Prop :=
  match balance_proof e with Some (UnsignedBP _) => False | _ => True end.

(** A close transaction that succeeded has a block number. *)
Definition close_inv (c : NettingChannelState) : Prop :=
  match close_transaction c with
  | Some t => tx_result t = Some SUCCESS -> block_falsy (finished_block_number t) = false
  | None => True
  end.

(** The part of a balance that must not be withdrawn: nothing, or the pending
    locks. *)
Definition reserved (locks : bool) (e : NettingChannelEndState) : Z :=
  if locks then get_amount_locked e else 0.

Record channel_inv_with (k : bool) (c : NettingChannelState) : Prop := {
  inv_our : end_inv (our_state c);
  inv_partner : end_inv (partner_state c);
  inv_our_withdraws : our_withdraws_inv (our_state c);
  inv_partner_signed : bp_signed (partner_state c);
  inv_our_balance : reserved k (our_state c) <= get_balance (our_state c) (partner_state c);
  inv_partner_balance :
    reserved k (partner_state c) <= get_balance (partner_state c) (our_state c);
  inv_close : close_inv c;
  inv_identifier : 0 <= identifier c <= UINT256_MAX;
  inv_addresses : address (our_state c) <> address (partner_state c)
}.

Definition channel_inv : NettingChannelState -> Prop := channel_inv_with false.

(** Every pending lock is covered by the balance of its sender. *)
Definition solvent_inv : NettingChannelState -> Prop := channel_inv_with true.

(** ** Consequences *)

Lemma locked_nonneg e : locks_inv e -> 0 <= get_amount_locked e.
Proof. intros Hl. rewrite get_amount_locked_index. eauto using index_amount_nonneg. Qed.

Lemma reserved_nonneg k e : locks_inv e -> 0 <= reserved k e.
Proof. intros Hl. destruct k; [by apply locked_nonneg|done]. Qed.

Lemma locked_ge e sh l :
  locks_inv e -> get_lock e sh = Some l -> lock_amount l <= get_amount_locked e.
Proof.
  rewrite get_amount_locked_index, get_lock_index. intros. eauto using index_amount_ge.
Qed.

Lemma no_pending_no_locked e : locks_inv e -> pending_locks e = [] -> get_amount_locked e = 0.
Proof.
  intros Hl Hp. rewrite get_amount_locked_index.
  apply (index_pending_nil _ _ Hl) in Hp. by rewrite Hp.
Qed.

(** The current balance proof is the one of the current locks. *)
Lemma current_balanceproof_eq e :
  locks_inv e -> bp_inv e ->
  exists n, get_current_balanceproof e =
    (compute_locksroot (pending_locks e), n, transferred_amount e, get_amount_locked e).
Proof.
  unfold bp_inv, get_current_balanceproof, transferred_amount. intros Hl Hbp.
  destruct (balance_proof e) as [bp|].
  - destruct Hbp as (-> & _). eauto.
  - rewrite Hbp, (no_pending_no_locked e Hl Hbp). eauto.
Qed.

Lemma transferred_bounds e :
  locks_inv e -> bp_inv e ->
  0 <= transferred_amount e /\ transferred_amount e + get_amount_locked e <= UINT256_MAX.
Proof.
  unfold bp_inv, transferred_amount. intros Hl Hbp.
  destruct (balance_proof e) as [bp|].
  - destruct Hbp as (_ & <- & ? & ?). done.
  - rewrite (no_pending_no_locked e Hl Hbp). pose proof UINT256_MAX_pos. lia.
Qed.

Lemma get_distributable_eq sender receiver :
  locks_inv sender -> bp_inv sender ->
  get_distributable sender receiver =
  Z.min (UINT256_MAX - transferred_amount sender - get_amount_locked sender)
    (get_balance sender receiver - get_amount_locked sender).
Proof.
  intros Hl Hb. unfold get_distributable.
  destruct (current_balanceproof_eq sender Hl Hb) as [n ->].
  pose proof (transferred_bounds sender Hl Hb). lia.
Qed.

(** The balances of the two ends always add up to the capacity: the
    transferred amounts cancel. *)
Lemma balances_capacity c :
  get_balance (our_state c) (partner_state c) + get_balance (partner_state c) (our_state c)
  = get_capacity c.
Proof.
  unfold get_balance, get_balance_aux, get_capacity, our_total_deposit, our_total_withdraw,
    partner_total_deposit, partner_total_withdraw, total_withdraw. lia.
Qed.

(** ** The sanity check *)

Lemma check_withdraws_ok b previous ws :
  Forall (fun kw => pw_total_withdraw kw.2 = kw.1 /\ 0 <= kw.1) ws ->
  (b = false -> StronglySorted Z.lt (previous :: dict_keys ws)) ->
  check_withdraws b previous ws = Ok tt.
Proof.
  revert previous. induction ws as [|[k w] ws IH]; intros previous Hk Hs; [done|].
  apply Forall_cons in Hk as [[Heq _] Hk]. cbn [check_withdraws snd fst] in *.
  rewrite Heq, Z.eqb_refl.
  destruct b; cbn.
  - by apply IH.
  - specialize (Hs eq_refl). cbn in Hs.
    apply StronglySorted_inv in Hs as [Hs Hlt].
    apply Forall_inv in Hlt. destruct (Z.ltb_spec previous k); [|lia]. cbn. by apply IH.
Qed.

Lemma check_our_withdraws_ok e b :
  withdraws_inv (withdraws_pending e) -> our_withdraws_inv e ->
  (is_Some (initiated_coop_settle e) -> b = true) ->
  check_withdraws b 0 (withdraws_pending e) = Ok tt.
Proof.
  intros [_ Hk] [Hs Hz] Hb. apply check_withdraws_ok; [done|].
  intros ->. constructor; [done|]. rewrite Forall_forall. intros k Hin.
  assert (k <> 0) by (intros ->; specialize (Hb (Hz Hin)); done).
  apply list_elem_of_fmap in Hin as (kw & -> & Hin). rewrite Forall_forall in Hk.
  apply Hk in Hin. lia.
Qed.

Lemma check_locks_synchronized_ok e : locks_inv e -> check_locks_synchronized e = Ok tt.
Proof.
  intros Hl. destruct Hl as [_ _ Hp].
  assert (forall l, l ∈ dict_values (lock_index e) ->
            bool_decide (lock_encoded l ∈ pending_locks e) = true) as Hin.
  { intros l Hl. apply bool_decide_eq_true. rewrite Hp. apply list_elem_of_fmap. eauto. }
  unfold lock_index in Hin.
  rewrite !dict_values_app, !dict_values_map_values in Hin.
  unfold check_locks_synchronized. cbn.
  assert (forall A (f : A -> HashTimeLockState) (d : dict bytes A) msg,
            (forall u, u ∈ dict_values d ->
               bool_decide (lock_encoded (f u) ∈ pending_locks e) = true) ->
            py_forall (fun u => py_assert (bool_decide (lock_encoded (f u) ∈ pending_locks e)) msg)
              (dict_values d) = Ok tt) as Hall.
  { intros A f d msg Hd. apply py_forall_Ok. intros u Hu. by rewrite Hd. }
  rewrite (Hall _ id); [|intros; apply Hin, elem_of_app; by left]. cbn.
  assert (forall u, u ∈ dict_values (secrethashes_to_unlockedlocks e)
                    \/ u ∈ dict_values (secrethashes_to_onchain_unlockedlocks e) ->
            bool_decide (lock_encoded (unlock_lock u) ∈ pending_locks e) = true) as Hu.
  { intros u Hu. apply Hin. rewrite !elem_of_app, !list_elem_of_fmap. naive_solver. }
  by rewrite !(Hall _ unlock_lock) by auto.
Qed.

(** Every assertion of [sanity_check] follows from the invariant. *)
Lemma sanity_check_ok k c : channel_inv_with k c -> sanity_check c = Ok tt.
Proof.
  intros [[Hol Hob How _ _] [Hpl Hpb _ _ _] Hw _ Hb1 Hb2 _ _ _].
  pose proof (reserved_nonneg k _ Hol). pose proof (reserved_nonneg k _ Hpl).
  unfold sanity_check. cbv zeta.
  destruct (current_balanceproof_eq _ Hol Hob) as [n1 ->].
  destruct (current_balanceproof_eq _ Hpl Hpb) as [n2 ->].
  rewrite check_our_withdraws_ok; [|done|done|].
  2: { intros Hs. by rewrite bool_decide_eq_true_2. }
  rewrite balances_capacity, !get_distributable_eq by done.
  rewrite !Z.eqb_refl, !bool_decide_eq_true_2 by done.
  rewrite !(fun x => proj2 (Z.leb_le _ x)) by lia.
  by rewrite !check_locks_synchronized_ok.
Qed.
End invariant.

(** ** Replacing the balance proof of one end *)

(** The assignments that follow a new balance proof, ours or the partner's. *)
Definition with_bp (bp : BalanceProofState) (n : Z) (pending : PendingLocksState)
    (e : NettingChannelEndState) : NettingChannelEndState :=
  set_pending_locks pending (set_nonce n (set_balance_proof (Some bp) e)).

(** The attributes that no transfer changes. *)
Record same_funds (e e' : NettingChannelEndState) : Prop := {
  sf_address : address e' = address e;
  sf_contract_balance : contract_balance e' = contract_balance e;
  sf_onchain_withdraw : onchain_total_withdraw e' = onchain_total_withdraw e;
  sf_withdraws : withdraws_pending e' = withdraws_pending e;
  sf_coop_settle : initiated_coop_settle e' = initiated_coop_settle e
}.

Lemma get_balance_sender e e' r :
  same_funds e e' ->
  get_balance e' r = get_balance e r - (transferred_amount e' - transferred_amount e).
Proof.
  intros [_ H1 H2 H3 _]. unfold get_balance, get_balance_aux, offchain_total_withdraw.
  rewrite H1, H2, H3. lia.
Qed.

Lemma get_balance_receiver s e e' :
  get_balance s e' = get_balance s e + (transferred_amount e' - transferred_amount e).
Proof. unfold get_balance, get_balance_aux. lia. Qed.

Section balance_proof_update.
Context `{Crypto}.

(** A new balance proof that moves [paid] tokens from the locked to the
    transferred amount and matches the new locks. *)
Record bp_updates (e : NettingChannelEndState) (bp : BalanceProofState)
    (pending : PendingLocksState) (paid locked : Z) : Prop := {
  bu_locksroot : bp_locksroot bp = compute_locksroot pending;
  bu_transferred : bp_transferred_amount bp = transferred_amount e + paid;
  bu_locked : bp_locked_amount bp = locked;
  bu_bound : bp_transferred_amount bp + bp_locked_amount bp <= UINT256_MAX
}.

(** The postcondition shared by all updates of one end. *)
Record end_updated (e e' : NettingChannelEndState) (bp : BalanceProofState) (n : Z)
    (paid : Z) (idx : dict bytes HashTimeLockState) : Prop := {
  eu_inv : end_inv e';
  eu_funds : same_funds e e';
  eu_transferred : transferred_amount e' = transferred_amount e + paid;
  eu_index : lock_index e' ≡ₚ idx;
  eu_locked : get_amount_locked e' = index_amount idx;
  eu_nonce : nonce e' = n;
  eu_bp : balance_proof e' = Some bp
}.

Lemma end_updated_intro e e' bp n pending paid idx :
  end_inv e -> same_funds e e' -> 0 <= paid -> 0 <= n ->
  balance_proof e' = Some bp -> nonce e' = n -> pending_locks e' = pending ->
  lock_index e' ≡ₚ idx -> locks_inv_on idx pending ->
  bp_updates e bp pending paid (index_amount idx) ->
  end_updated e e' bp n paid idx.
Proof.
  intros [Hl Hb Hw Ho Hn] Hf Hpaid Hn' Hbp Hne Hpe Hidx Hlocks [B1 B2 B3 B4].
  pose proof (transferred_bounds e Hl Hb).
  assert (get_amount_locked e' = index_amount idx) as Hlocked
    by (by rewrite get_amount_locked_index, Hidx).
  split; try done.
  - split.
    + unfold locks_inv. by rewrite Hpe, Hidx.
    + unfold bp_inv. rewrite Hbp, Hpe, Hlocked. split_and!; [done..|lia|done].
    + by rewrite (sf_withdraws _ _ Hf).
    + by rewrite (sf_onchain_withdraw _ _ Hf).
    + by rewrite Hne.
  - unfold transferred_amount at 1. by rewrite Hbp, B2.
Qed.

(** A transfer adds a lock. *)
Lemma end_add_lock e bp n l :
  end_inv e -> lock_valid l -> 0 <= n ->
  get_lock e (lock_secrethash l) = None ->
  bp_updates e bp (pending_locks e ++ [lock_encoded l]) 0
    (get_amount_locked e + lock_amount l) ->
  end_updated e
    (add_locked_lock l (with_bp bp n (pending_locks e ++ [lock_encoded l]) e))
    bp n 0 ((lock_secrethash l, l) :: lock_index e).
Proof.
  intros He Hl Hn Hf Hbu. rewrite get_lock_index in Hf.
  eapply end_updated_intro; try done.
  - exact (lock_index_add (with_bp bp n _ e) l Hf).
  - by apply index_add; [apply end_locks|..].
  - rewrite get_amount_locked_index in Hbu.
    by rewrite index_amount_cons, Z.add_comm.
Qed.

Lemma index_amount_del e sh l :
  get_lock e sh = Some l ->
  index_amount (dict_del sh (lock_index e)) = get_amount_locked e - lock_amount l.
Proof.
  rewrite get_lock_index, get_amount_locked_index. intros Hg%dict_del_perm.
  rewrite (index_amount_proper _ _ Hg), index_amount_cons. lia.
Qed.

(** An unlock or an expiration removes a lock.  [dels] says how the three
    dictionaries changed. *)
Lemma end_del_lock e a b c bp n sh l paid :
  end_inv e -> 0 <= n -> 0 <= paid -> get_lock e sh = Some l ->
  bp_updates e bp (remove_first (lock_encoded l) (pending_locks e)) paid
    (get_amount_locked e - lock_amount l) ->
  a ++ dict_map_values unlock_lock b ++ dict_map_values unlock_lock c
    = dict_del sh (lock_index e) ->
  end_updated e
    (with_locks a b c (with_bp bp n (remove_first (lock_encoded l) (pending_locks e)) e))
    bp n paid (dict_del sh (lock_index e)).
Proof.
  intros He Hn Hp Hg Hbu Hdel.
  eapply end_updated_intro; try done.
  - by rewrite lock_index_with_locks, Hdel.
  - eapply (index_remove (lock_index e)); [by apply end_locks|].
    rewrite get_lock_index in Hg. by apply dict_del_perm.
  - by rewrite (index_amount_del e sh l).
Qed.

(** The effect of an update on the balances: [paid] tokens move to the other
    end, and what is not locked any more can be distributed again. *)
Lemma end_updated_balances e e' r bp n paid idx :
  end_inv e -> end_updated e e' bp n paid idx ->
  get_balance e' r = get_balance e r - paid
  /\ get_balance r e' = get_balance r e + paid
  /\ get_distributable e' r
     = get_distributable e r - paid + (get_amount_locked e - index_amount idx).
Proof.
  intros He [Hi Hf Ht _ Hl _ _].
  pose proof (get_balance_sender e e' r Hf) as Hs.
  split_and!; [lia|rewrite (get_balance_receiver _ e); lia|].
  rewrite !get_distributable_eq by (apply He || apply Hi). rewrite Hs, Hl. lia.
Qed.

(** ** Updating one end of a channel *)

Lemma channel_inv_our_update k c e' bp n paid idx :
  channel_inv_with k c -> end_updated (our_state c) e' bp n paid idx -> 0 <= paid ->
  (if k then index_amount idx else 0) + paid <= get_balance (our_state c) (partner_state c) ->
  channel_inv_with k (set_our_state e' c).
Proof.
  intros [] [Hi Hf Ht _ Hl _ _] Hp Hb.
  split; cbn; try done.
  - destruct inv_our_withdraws0 as [Hs Hz].
    split; rewrite (sf_withdraws _ _ Hf); [done|]. by rewrite (sf_coop_settle _ _ Hf).
  - rewrite (get_balance_sender (our_state c)) by done. unfold reserved.
    destruct k; rewrite ?Hl; lia.
  - rewrite (get_balance_receiver _ (our_state c)). lia.
  - by rewrite (sf_address _ _ Hf).
Qed.

Lemma channel_inv_partner_update k c e' bp n paid idx :
  channel_inv_with k c -> end_updated (partner_state c) e' (SignedBP bp) n paid idx ->
  0 <= paid ->
  (if k then index_amount idx else 0) + paid <= get_balance (partner_state c) (our_state c) ->
  channel_inv_with k (set_partner_state e' c).
Proof.
  intros [] [Hi Hf Ht _ Hl _ Hbp] Hp Hb.
  split; cbn; try done.
  - unfold bp_signed. by rewrite Hbp.
  - rewrite (get_balance_receiver _ (partner_state c)). lia.
  - rewrite (get_balance_sender (partner_state c)) by done. unfold reserved.
    destruct k; rewrite ?Hl; lia.
  - by rewrite (sf_address _ _ Hf).
Qed.

(** The stronger invariant implies the weaker. *)
Lemma channel_inv_with_weaken k c : channel_inv_with k c -> channel_inv c.
Proof.
  intros [Ho Hp]. pose proof (reserved_nonneg k _ (end_locks _ Ho)).
  pose proof (reserved_nonneg k _ (end_locks _ Hp)).
  split; try done; unfold reserved at 1; lia.
Qed.

(** Moving a lock between the dictionaries changes nothing else. *)
Lemma end_inv_with_locks e a b c :
  end_inv e -> lock_index (with_locks a b c e) ≡ₚ lock_index e ->
  end_inv (with_locks a b c e)
  /\ get_amount_locked (with_locks a b c e) = get_amount_locked e.
Proof.
  intros [Hl Hb Hw Ho Hn] Hp.
  assert (get_amount_locked (with_locks a b c e) = get_amount_locked e) as Heq
    by (by rewrite !get_amount_locked_index, Hp).
  split; [|done]. split; try done.
  - unfold locks_inv. by rewrite Hp.
  - unfold bp_inv in *. cbn. by rewrite Heq.
Qed.
End balance_proof_update.
