(* ===== verification/ChannelSend.v ===== *)
(** Sending: locked transfers, unlocks and lock expirations.

    For each operation, a lemma [..._run] computes the result of the Python
    function under the conditions that its assertions state, and the theorem
    about the operation says what the new channel is worth. *)

From S2P Require Import Prelude PyDict Bytes Crypto PyFloat MediationFee State Events.
From S2P Require Import StateChanges Channel ChannelValidation ChannelOps ChannelTransition.
From S2P Require Import ChannelLocks ChannelInvariant.

Section laws.
Context `{CryptoLaws}.

Lemma length_compute_locksroot p : length (compute_locksroot p) = 32%nat.
Proof. apply keccak_length. Qed.

(** The locksroot of a list with a lock is not the one of the empty list. *)
Lemma compute_locksroot_app_lock p l :
  lock_valid l -> compute_locksroot (p ++ [lock_encoded l]) <> LOCKSROOT_OF_NO_LOCKS.
Proof.
  intros Hl Heq%keccak_empty. unfold PendingLocksState, bytes in *. apply (f_equal length) in Heq.
  rewrite join_app, length_app in Heq. cbn in Heq.
  rewrite app_nil_r, length_lock_encoded in Heq by done. lia.
Qed.

Lemma new_unsigned_bp_run n t l root cid :
  0 < n <= UINT64_MAX -> 0 <= t -> 0 <= l -> t + l <= UINT256_MAX ->
  length root = 32%nat -> 0 <= channel_identifier cid <= UINT256_MAX ->
  exists h, new_BalanceProofUnsignedState n t l root cid
            = Ok (mkBalanceProofUnsignedState n t l root cid h).
Proof.
  intros Hn Ht Hl Hs Hr Hc.
  destruct (hash_balance_data_defined t l root) as [h Hh]; [lia|lia|done|].
  exists h. unfold new_BalanceProofUnsignedState, validate_balance_proof,
    CanonicalIdentifier_validate.
  rewrite Hh, bool_decide_eq_true_2 by done.
  rewrite !(fun x => proj2 (Z.leb_gt _ x)), !(fun x => proj2 (Z.ltb_ge _ x)) by lia.
  reflexivity.
Qed.
End laws.

Section send.
Context `{CryptoLaws}.
Implicit Types (c : NettingChannelState) (sh : bytes).

(** ** Locked transfers *)

(** What the caller of [send_lockedtransfer] makes sure of. *)
Record can_send_lock (c : NettingChannelState) (l : HashTimeLockState) : Prop := {
  csl_open : get_status c = STATE_OPENED;
  csl_valid : lock_valid l;
  csl_amount : lock_amount l <= get_distributable (our_state c) (partner_state c);
  csl_fresh : is_lock_pending (our_state c) (lock_secrethash l) = false;
  csl_nonce : nonce (our_state c) < UINT64_MAX
}.

Lemma not_pending_no_lock e sh : is_lock_pending e sh = false <-> get_lock e sh = None.
Proof. by rewrite is_lock_pending_index, get_lock_index, dict_mem_false. Qed.

Definition sent_lock (c : NettingChannelState) (l : HashTimeLockState)
    (bp : BalanceProofUnsignedState) : NettingChannelState :=
  set_our_state
    (add_locked_lock l
       (with_bp (UnsignedBP bp) (get_next_nonce (our_state c))
          (pending_locks (our_state c) ++ [lock_encoded l]) (our_state c))) c.

Lemma send_lockedtransfer_run k c l initiator target mid pid secret routes rmd pmd :
  channel_inv_with k c -> can_send_lock c l ->
  exists h ev,
    let bp := mkBalanceProofUnsignedState (get_next_nonce (our_state c))
                (transferred_amount (our_state c))
                (get_amount_locked (our_state c) + lock_amount l)
                (compute_locksroot (pending_locks (our_state c) ++ [lock_encoded l]))
                (canonical_identifier c) h in
    send_lockedtransfer c initiator target (lock_amount l) mid pid (lock_expiration l)
      secret (lock_secrethash l) routes rmd pmd = Ok (sent_lock c l bp, ev)
    /\ ltu_balance_proof (slt_transfer ev) = bp /\ ltu_lock (slt_transfer ev) = l
    /\ bp_updates (our_state c) (UnsignedBP bp)
         (pending_locks (our_state c) ++ [lock_encoded l]) 0
         (get_amount_locked (our_state c) + lock_amount l).
Proof.
  intros Hc [Ho Hv Ha Hf Hn].
  destruct (inv_our k c Hc) as [Hl Hb _ _ Hnn].
  pose proof (transferred_bounds _ Hl Hb). pose proof (locked_nonneg _ Hl).
  pose proof Ha as Ha'. rewrite get_distributable_eq in Ha' by done.
  destruct (lock_valid_amount l Hv).
  destruct (new_unsigned_bp_run (get_next_nonce (our_state c))
              (transferred_amount (our_state c))
              (get_amount_locked (our_state c) + lock_amount l)
              (compute_locksroot (pending_locks (our_state c) ++ [lock_encoded l]))
              (canonical_identifier c)) as [h Hbp];
    [unfold get_next_nonce; lia|lia..|apply length_compute_locksroot|exact (inv_identifier k c Hc)|].
  exists h. eexists. split_and!.
  - unfold send_lockedtransfer, create_sendlockedtransfer.
    rewrite (proj2 (Z.leb_le _ _) Ha), bool_decide_eq_true_2 by done. cbn.
    rewrite (proj2 (new_HashTimeLockState_Ok _ _ _ l)) by (by destruct l). cbn.
    unfold compute_locks_with.
    rewrite (bool_decide_eq_false_2 (lock_encoded l ∈ _)).
    2: { apply not_pending_no_lock in Hf. rewrite get_lock_index in Hf.
         by apply (index_fresh_encoded _ _ Hl). }
    cbn. rewrite (proj2 (Z.leb_le (_ + _) _)) by lia. cbn.
    rewrite Hbp. cbn. unfold new_LockedTransferUnsignedState.
    rewrite bool_decide_eq_false_2 by (by apply compute_locksroot_app_lock).
    cbn. unfold sent_lock, add_locked_lock, with_bp. cbn. reflexivity.
  - done.
  - done.
  - split; cbn; lia || done.
Qed.

(** The assertions and validations of [send_lockedtransfer] establish all of
    [can_send_lock] but the freshness of the secrethash. *)
Lemma send_lockedtransfer_can c initiator target amount mid pid expiration secret sh
    routes rmd pmd r :
  send_lockedtransfer c initiator target amount mid pid expiration secret sh routes rmd pmd
    = Ok r ->
  is_lock_pending (our_state c) sh = false ->
  can_send_lock c (mkHashTimeLockState amount expiration sh).
Proof.
  unfold send_lockedtransfer, create_sendlockedtransfer, new_BalanceProofUnsignedState,
    validate_balance_proof. intros Hok Hf. py_inv. bool_hyps.
  match goal with Hl : new_HashTimeLockState _ _ _ = Ok _ |- _ =>
    apply new_HashTimeLockState_Ok in Hl as [-> Hv] end.
  split; try done. unfold get_next_nonce in *. lia.
Qed.

Lemma sent_lock_updated k c l bp :
  channel_inv_with k c -> can_send_lock c l ->
  bp_updates (our_state c) (UnsignedBP bp)
    (pending_locks (our_state c) ++ [lock_encoded l]) 0
    (get_amount_locked (our_state c) + lock_amount l) ->
  end_updated (our_state c) (our_state (sent_lock c l bp)) (UnsignedBP bp)
    (get_next_nonce (our_state c)) 0 ((lock_secrethash l, l) :: lock_index (our_state c)).
Proof.
  intros Hc [_ Hv _ Hf _] Hbu. pose proof (end_nonce _ (inv_our k c Hc)).
  apply end_add_lock; try done.
  - apply Hc.
  - unfold get_next_nonce. lia.
  - by apply not_pending_no_lock.
Qed.

(** ** Unlocks *)

(** What the caller of [send_unlock] makes sure of: the lock is pending and
    its secret was registered on-chain or it has not expired. *)
Record can_unlock (c : NettingChannelState) (sh : bytes) (l : HashTimeLockState)
    (block_number : Z) : Prop := {
  cul_open : get_status c = STATE_OPENED;
  cul_lock : get_lock (our_state c) sh = Some l;
  cul_unexpired : is_secret_known_onchain (our_state c) sh = true
                  \/ block_number < lock_expiration l;
  cul_nonce : nonce (our_state c) < UINT64_MAX
}.

(** The new state of an end after the removal of a lock. *)
Definition removed_lock (e : NettingChannelEndState) (sh : bytes) (l : HashTimeLockState)
    (bp : BalanceProofState) (n : Z) : NettingChannelEndState :=
  with_locks (dict_del sh (secrethashes_to_lockedlocks e))
    (dict_del sh (secrethashes_to_unlockedlocks e))
    (dict_del sh (secrethashes_to_onchain_unlockedlocks e))
    (with_bp bp n (remove_first (lock_encoded l) (pending_locks e)) e).

Lemma removed_lock_updated e sh l bp n paid :
  end_inv e -> 0 <= n -> 0 <= paid -> get_lock e sh = Some l ->
  bp_updates e bp (remove_first (lock_encoded l) (pending_locks e)) paid
    (get_amount_locked e - lock_amount l) ->
  end_updated e (removed_lock e sh l bp n) bp n paid (dict_del sh (lock_index e)).
Proof.
  intros He Hn Hp Hg Hbu. apply end_del_lock; try done.
  apply lock_index_del_lock; try done. apply (index_wf _ _ (end_locks _ He)).
Qed.

Lemma compute_locks_without_pending e sh l :
  locks_inv e -> get_lock e sh = Some l ->
  compute_locks_without (pending_locks e) (lock_encoded l)
  = Some (remove_first (lock_encoded l) (pending_locks e)).
Proof.
  intros Hl Hg. rewrite get_lock_index in Hg. unfold compute_locks_without.
  by rewrite bool_decide_eq_true_2 by (by apply (index_encoded_pending _ _ Hl sh)).
Qed.

(** The facts about a pending lock that the operations on it need. *)
Lemma pending_lock_facts e sh l :
  end_inv e -> get_lock e sh = Some l ->
  lock_secrethash l = sh /\ lock_valid l /\ is_lock_pending e sh = true
  /\ 0 <= lock_amount l <= get_amount_locked e
  /\ exists bp, balance_proof e = Some bp.
Proof.
  intros [Hl Hb _ _ _] Hg. pose proof Hg as Hi. rewrite get_lock_index in Hi.
  destruct (index_get_valid _ _ Hl _ _ Hi) as [Hs Hv].
  pose proof (lock_valid_amount l Hv). pose proof (locked_ge e sh l Hl Hg).
  split_and!; try done; try lia.
  - rewrite is_lock_pending_index. apply dict_mem_true. eauto.
  - destruct (balance_proof e) as [bp|] eqn:E; [eauto|]. exfalso.
    unfold bp_inv in Hb. rewrite E in Hb.
    apply (index_pending_nil _ _ Hl) in Hb. by rewrite Hb in Hi.
Qed.

Lemma send_unlock_run k c sh l mid pid secret block rmd :
  channel_inv_with k c -> can_unlock c sh l block ->
  exists h ev,
    let our := our_state c in
    let bp := mkBalanceProofUnsignedState (get_next_nonce our)
                (lock_amount l + transferred_amount our)
                (get_amount_locked our - lock_amount l)
                (compute_locksroot (remove_first (lock_encoded l) (pending_locks our)))
                (canonical_identifier c) h in
    send_unlock c mid pid secret sh block rmd
      = Ok (set_our_state (removed_lock our sh l (UnsignedBP bp) (get_next_nonce our)) c, ev)
    /\ su_balance_proof ev = bp /\ su_secret ev = secret
    /\ end_updated our (removed_lock our sh l (UnsignedBP bp) (get_next_nonce our))
         (UnsignedBP bp) (get_next_nonce our) (lock_amount l)
         (dict_del sh (lock_index our)).
Proof.
  intros Hc [Ho Hg Hx Hn]. pose proof (inv_our k c Hc) as He.
  destruct He as [Hl Hb Hw How Hnn] eqn:EHe. clear EHe.
  destruct (pending_lock_facts _ sh l He Hg) as (Hsh & Hv & Hp & Ha & bp0 & Hbp0).
  pose proof (transferred_bounds _ Hl Hb).
  destruct (new_unsigned_bp_run (get_next_nonce (our_state c))
              (lock_amount l + transferred_amount (our_state c))
              (get_amount_locked (our_state c) - lock_amount l)
              (compute_locksroot (remove_first (lock_encoded l) (pending_locks (our_state c))))
              (canonical_identifier c)) as [h Hbp];
    [unfold get_next_nonce; lia|lia..|apply length_compute_locksroot|exact (inv_identifier k c Hc)|].
  exists h. eexists. split_and!.
  - unfold send_unlock, create_unlock. rewrite Hg. cbn.
    rewrite Hsh, Hp, bool_decide_eq_true_2 by done. cbn.
    assert (so_fail (is_lock_expired (our_state c) l block (lock_expiration l)) = true) as ->.
    { unfold is_lock_expired. rewrite Hsh. unfold is_secret_known_onchain in Hx.
      destruct (dict_mem sh _); [done|]. destruct Hx as [|Hx]; [done|].
      by rewrite (proj2 (Z.ltb_lt _ _) Hx). }
    cbn. rewrite Hbp0. cbn.
    rewrite (compute_locks_without_pending _ sh) by done. cbn.
    assert (bp_transferred_amount bp0 = transferred_amount (our_state c)) as ->
      by (unfold transferred_amount; by rewrite Hbp0).
    rewrite Hbp. cbn.
    rewrite del_lock_eq by exact Hp. cbn. reflexivity.
  - done.
  - done.
  - apply removed_lock_updated; try done; [unfold get_next_nonce; lia|lia|].
    split; cbn; lia || done.
Qed.

Lemma send_unlock_can c mid pid secret sh block rmd r :
  send_unlock c mid pid secret sh block rmd = Ok r -> locks_inv (our_state c) ->
  exists l, can_unlock c sh l block.
Proof.
  unfold send_unlock, create_unlock, new_BalanceProofUnsignedState, validate_balance_proof,
    is_lock_expired.
  intros Hok Hl. py_inv. bool_hyps.
  match goal with Hg : get_lock _ _ = Some ?l |- _ => exists l; rename Hg into Hlock end.
  destruct (index_get_valid _ _ Hl sh x) as [Hs _]; [by rewrite <- get_lock_index|].
  rewrite Hs in *. split; try done.
  - unfold is_secret_known_onchain. repeat case_if; bool_hyps; auto.
  - unfold get_next_nonce in *. lia.
Qed.

(** ** Expirations *)

Lemma send_lock_expired_run k c l prng rmd :
  channel_inv_with k c -> get_status c = STATE_OPENED ->
  get_lock (our_state c) (lock_secrethash l) = Some l ->
  is_secret_known_onchain (our_state c) (lock_secrethash l) = false ->
  nonce (our_state c) < UINT64_MAX ->
  exists h ev,
    let our := our_state c in
    let sh := lock_secrethash l in
    let bp := mkBalanceProofUnsignedState (get_next_nonce our)
                (transferred_amount our) (get_amount_locked our - lock_amount l)
                (compute_locksroot (remove_first (lock_encoded l) (pending_locks our)))
                (canonical_identifier c) h in
    send_lock_expired c l prng rmd
      = Ok (set_our_state (removed_lock our sh l (UnsignedBP bp) (get_next_nonce our)) c,
            [ev], (message_identifier_from_prng prng).2)
    /\ sle_balance_proof ev = bp /\ sle_secrethash ev = sh
    /\ end_updated our (removed_lock our sh l (UnsignedBP bp) (get_next_nonce our))
         (UnsignedBP bp) (get_next_nonce our) 0 (dict_del sh (lock_index our)).
Proof.
  intros Hc Ho Hg Hx Hn. pose proof (inv_our k c Hc) as He.
  destruct He as [Hl Hb Hw How Hnn] eqn:EHe. clear EHe.
  destruct (pending_lock_facts _ _ l He Hg) as (_ & Hv & Hp & Ha & bp0 & Hbp0).
  pose proof (transferred_bounds _ Hl Hb).
  destruct (new_unsigned_bp_run (get_next_nonce (our_state c))
              (transferred_amount (our_state c))
              (get_amount_locked (our_state c) - lock_amount l)
              (compute_locksroot (remove_first (lock_encoded l) (pending_locks (our_state c))))
              (canonical_identifier c)) as [h Hbp];
    [unfold get_next_nonce; lia|lia..|apply length_compute_locksroot|exact (inv_identifier k c Hc)|].
  assert (mkCanonicalIdentifier (chain_id c) (channel_token_network_address c) (identifier c)
          = canonical_identifier c) as Hcid
    by (unfold chain_id, channel_token_network_address, identifier;
        by destruct (canonical_identifier c)).
  exists h. eexists. split_and!.
  - unfold send_lock_expired, create_sendexpiredlock.
    rewrite Hcid, Hbp0, bool_decide_eq_true_2 by done. cbn.
    rewrite (compute_locks_without_pending _ (lock_secrethash l)) by done. cbn.
    assert (bp_transferred_amount bp0 = transferred_amount (our_state c)) as ->
      by (unfold transferred_amount; by rewrite Hbp0).
    rewrite Hbp. cbn. rewrite del_unclaimed_lock_eq.
    unfold removed_lock.
    rewrite (dict_del_absent _ (secrethashes_to_onchain_unlockedlocks (our_state c)))
      by (by apply dict_mem_false). reflexivity.
  - done.
  - done.
  - apply removed_lock_updated; try done; [unfold get_next_nonce; lia|].
    split; cbn; lia || done.
Qed.

(** ** What sending does to the invariant *)

Lemma sent_lock_inv k c l bp :
  channel_inv_with k c -> can_send_lock c l ->
  bp_updates (our_state c) (UnsignedBP bp)
    (pending_locks (our_state c) ++ [lock_encoded l]) 0
    (get_amount_locked (our_state c) + lock_amount l) ->
  channel_inv_with k (sent_lock c l bp).
Proof.
  intros Hc Hcan Hbu. pose proof (sent_lock_updated k c l bp Hc Hcan Hbu) as Hu.
  eapply channel_inv_our_update; [done|exact Hu|done|].
  destruct (inv_our k c Hc) as [Hl Hb _ _ _]. pose proof (csl_amount c l Hcan) as Ha.
  rewrite get_distributable_eq in Ha by done.
  destruct k; [|pose proof (inv_our_balance _ c Hc); cbn in *; lia].
  rewrite index_amount_cons, <- get_amount_locked_index. lia.
Qed.

Lemma removed_our_inv c sh l bp n paid :
  solvent_inv c -> get_lock (our_state c) sh = Some l -> 0 <= paid <= lock_amount l ->
  end_updated (our_state c) (removed_lock (our_state c) sh l bp n) bp n paid
    (dict_del sh (lock_index (our_state c))) ->
  solvent_inv (set_our_state (removed_lock (our_state c) sh l bp n) c).
Proof.
  intros Hc Hg Hp Hu. eapply channel_inv_our_update; [done|exact Hu|lia|].
  pose proof (inv_our_balance _ c Hc) as Hb. cbn in Hb.
  rewrite (index_amount_del _ sh l) by done. lia.
Qed.

Lemma unlock_amount_nonneg k c e sh l :
  channel_inv_with k c -> e = our_state c \/ e = partner_state c ->
  get_lock e sh = Some l -> 0 <= lock_amount l.
Proof.
  intros Hc He Hg. assert (end_inv e) as Hi by (destruct He as [->| ->]; apply Hc).
  destruct (pending_lock_facts _ _ _ Hi Hg) as (_ & _ & _ & ? & _). lia.
Qed.

(** Sending a locked transfer.  When the lock fits into the distributable
    amount of an open channel and its secrethash is new, [send_lockedtransfer]
    returns; the new channel keeps the invariant, both balances are unchanged,
    the distributable amount shrinks by exactly the amount of the lock, the
    lock is pending under its secrethash, the nonce is the next one, and the
    message carries the balance proof that the channel now stores. *)
Theorem send_lockedtransfer_correct c l initiator target mid pid secret routes rmd pmd
    (Hc : solvent_inv c) (Hcan : can_send_lock c l) :
  exists c' ev,
    send_lockedtransfer c initiator target (lock_amount l) mid pid (lock_expiration l)
      secret (lock_secrethash l) routes rmd pmd = Ok (c', ev)
    /\ solvent_inv c'
    /\ partner_state c' = partner_state c
    /\ get_balance (our_state c') (partner_state c') = get_balance (our_state c) (partner_state c)
    /\ get_balance (partner_state c') (our_state c') = get_balance (partner_state c) (our_state c)
    /\ get_distributable (our_state c') (partner_state c')
       = get_distributable (our_state c) (partner_state c) - lock_amount l
    /\ get_lock (our_state c') (lock_secrethash l) = Some l
    /\ nonce (our_state c') = nonce (our_state c) + 1
    /\ balance_proof (our_state c') = Some (UnsignedBP (ltu_balance_proof (slt_transfer ev))).
Proof.
  destruct (send_lockedtransfer_run true c l initiator target mid pid secret routes rmd pmd Hc Hcan)
    as (h & ev & Hrun & Hev & _ & Hbu). cbn in Hrun, Hev.
  eexists _, ev. split; [exact Hrun|].
  set (bp := mkBalanceProofUnsignedState _ _ _ _ _ h) in *. clearbody bp.
  pose proof (sent_lock_inv true c l _ Hc Hcan Hbu) as Hc'.
  pose proof (sent_lock_updated true c l _ Hc Hcan Hbu) as Hu.
  destruct (end_updated_balances _ _ (partner_state c) _ _ _ _ (inv_our _ c Hc) Hu)
    as (B1 & B2 & B3).
  rewrite index_amount_cons, <- get_amount_locked_index in B3.
  pose proof Hu as [Hi _ _ Hidx _ Hn Hbp].
  split_and!; try done; try (cbn in *; lia).
  - rewrite get_lock_index, (dict_get_perm _ _ _ (index_wf _ _ (end_locks _ Hi)) Hidx). cbn.
    by rewrite decide_True.
  - by rewrite Hbp, Hev.
Qed.

(** The lock that was removed is gone and the others are still there. *)
Lemma removed_lock_lookup e e' bp n paid sh :
  end_inv e -> end_updated e e' bp n paid (dict_del sh (lock_index e)) ->
  get_lock e' sh = None /\ forall sh', sh' <> sh -> get_lock e' sh' = get_lock e sh'.
Proof.
  intros He [Hi _ _ Hidx _ _ _]. pose proof (index_wf _ _ (end_locks _ Hi)) as Hwf'.
  pose proof (index_wf _ _ (end_locks _ He)) as Hwf.
  split; [|intros sh' Hne]; rewrite !get_lock_index, (dict_get_perm _ _ _ Hwf' Hidx).
  - by apply dict_get_del_eq.
  - by apply dict_get_del_ne.
Qed.

(** Unlocking.  When a lock of ours is pending on an open channel, and it
    has not expired or its secret is known on-chain, [send_unlock] returns and
    pays the partner: our balance shrinks and the partner's grows by exactly
    the amount of the lock, the lock is not pending any more, every other
    lock stays, what we can still distribute is unchanged, and the message
    carries the secret and the balance proof that the channel now stores. *)
Theorem send_unlock_correct c sh l mid pid secret block rmd
    (Hc : solvent_inv c) (Hcan : can_unlock c sh l block) :
  exists c' ev,
    send_unlock c mid pid secret sh block rmd = Ok (c', ev)
    /\ solvent_inv c'
    /\ get_balance (our_state c') (partner_state c')
       = get_balance (our_state c) (partner_state c) - lock_amount l
    /\ get_balance (partner_state c') (our_state c')
       = get_balance (partner_state c) (our_state c) + lock_amount l
    /\ get_distributable (our_state c') (partner_state c')
       = get_distributable (our_state c) (partner_state c)
    /\ get_lock (our_state c') sh = None
    /\ (forall sh', sh' <> sh -> get_lock (our_state c') sh' = get_lock (our_state c) sh')
    /\ nonce (our_state c') = nonce (our_state c) + 1
    /\ su_secret ev = secret
    /\ balance_proof (our_state c') = Some (UnsignedBP (su_balance_proof ev)).
Proof.
  destruct (send_unlock_run true c sh l mid pid secret block rmd Hc Hcan)
    as (h & ev & Hrun & Hev & Hsec & Hu). cbn in Hrun, Hev, Hu.
  pose proof (cul_lock _ _ _ _ Hcan) as Hg.
  pose proof (unlock_amount_nonneg true c _ sh l Hc (or_introl eq_refl) Hg) as Ha.
  eexists _, ev. split; [exact Hrun|].
  set (bp := mkBalanceProofUnsignedState _ _ _ _ _ h) in *. clearbody bp.
  pose proof (removed_our_inv c sh l _ _ _ Hc Hg (conj Ha (Z.le_refl _)) Hu) as Hc'.
  destruct (removed_lock_lookup _ _ _ _ _ sh (inv_our _ c Hc) Hu) as [Hnone Hother].
  destruct (end_updated_balances _ _ (partner_state c) _ _ _ _ (inv_our _ c Hc) Hu)
    as (B1 & B2 & B3).
  rewrite (index_amount_del _ _ l) in B3 by done.
  split_and!; [exact Hc'|exact B1|exact B2|exact_lia B3|exact Hnone|exact Hother|reflexivity
    |exact Hsec|].
  by rewrite Hev.
Qed.

(** Expiring.  When a lock of ours expires that was not unlocked
    on-chain, [send_lock_expired] gives the locked amount back: the balances
    are unchanged and the distributable amount grows by the amount of the
    lock, which is not pending any more. *)
Theorem send_lock_expired_correct c l prng rmd
    (Hc : solvent_inv c) (Ho : get_status c = STATE_OPENED)
    (Hg : get_lock (our_state c) (lock_secrethash l) = Some l)
    (Hon : is_secret_known_onchain (our_state c) (lock_secrethash l) = false)
    (Hn : nonce (our_state c) < UINT64_MAX) :
  exists c' ev prng',
    send_lock_expired c l prng rmd = Ok (c', [ev], prng')
    /\ solvent_inv c'
    /\ get_balance (our_state c') (partner_state c') = get_balance (our_state c) (partner_state c)
    /\ get_balance (partner_state c') (our_state c') = get_balance (partner_state c) (our_state c)
    /\ get_distributable (our_state c') (partner_state c')
       = get_distributable (our_state c) (partner_state c) + lock_amount l
    /\ get_lock (our_state c') (lock_secrethash l) = None
    /\ nonce (our_state c') = nonce (our_state c) + 1
    /\ balance_proof (our_state c') = Some (UnsignedBP (sle_balance_proof ev)).
Proof.
  destruct (send_lock_expired_run true c l prng rmd Hc Ho Hg Hon Hn)
    as (h & ev & Hrun & Hev & _ & Hu). cbn in Hrun, Hev, Hu.
  pose proof (unlock_amount_nonneg true c _ _ l Hc (or_introl eq_refl) Hg) as Ha.
  eexists _, ev, _. split; [exact Hrun|].
  set (bp := mkBalanceProofUnsignedState _ _ _ _ _ h) in *. clearbody bp.
  pose proof (removed_our_inv c _ l _ _ _ Hc Hg (conj (Z.le_refl 0) Ha) Hu) as Hc'.
  destruct (removed_lock_lookup _ _ _ _ _ _ (inv_our _ c Hc) Hu) as [Hnone _].
  destruct (end_updated_balances _ _ (partner_state c) _ _ _ _ (inv_our _ c Hc) Hu)
    as (B1 & B2 & B3).
  rewrite (index_amount_del _ _ l) in B3 by done.
  split_and!; [exact Hc'|exact_lia B1|exact_lia B2|exact_lia B3|exact Hnone|reflexivity|].
  by rewrite Hev.
Qed.

(** A channel that [is_channel_usable_for_new_transfer] reports as usable
    accepts the transfer: the assertions of [send_lockedtransfer] hold, and
    the limit of pending transfers is kept. *)
Theorem usable_channel_accepts_transfer c l timeout initiator target mid pid secret routes rmd pmd
    (Hc : channel_inv c)
    (Hu : is_channel_usable_for_new_transfer c (lock_amount l) timeout = USABLE)
    (Hv : lock_valid l) (Hf : is_lock_pending (our_state c) (lock_secrethash l) = false)
    (Hn : nonce (our_state c) < UINT64_MAX) :
  exists c' ev,
    send_lockedtransfer c initiator target (lock_amount l) mid pid (lock_expiration l)
      secret (lock_secrethash l) routes rmd pmd = Ok (c', ev)
    /\ channel_inv c'
    /\ get_number_of_pending_transfers (our_state c') <= MAXIMUM_PENDING_TRANSFERS.
Proof.
  unfold is_channel_usable_for_new_transfer in Hu.
  repeat case_if; bool_hyps; try done. clear Hu.
  assert (can_send_lock c l) as Hcan by (split; done || lia).
  destruct (send_lockedtransfer_run false c l initiator target mid pid secret routes rmd pmd Hc Hcan)
    as (h & ev & Hrun & _ & _ & Hbu). cbn in Hrun.
  eexists _, ev. split; [exact Hrun|]. split; [by apply sent_lock_inv|].
  unfold get_number_of_pending_transfers in *. cbn. rewrite length_app. cbn. lia.
Qed.
End send.
