(* ===== verification/ChannelReceive.v ===== *)
(** Receiving: the validation of the partner's messages and what an accepted
    message does to the channel. *)

From S2P Require Import Prelude PyDict Bytes Crypto PyFloat MediationFee State Events.
From S2P Require Import StateChanges Channel ChannelValidation ChannelOps ChannelTransition.
From S2P Require Import ChannelLocks ChannelInvariant ChannelSend.

(** ** What the validations check *)

Section validation.
Context `{Crypto}.
Implicit Types (c : NettingChannelState) (s r : NettingChannelEndState).

(** A balance proof that was built by [BalanceProofSignedState.__post_init__]. *)
Definition received_bp (bp : BalanceProofSignedState) : Prop :=
  new_BalanceProofSignedState (sbp_nonce bp) (sbp_transferred_amount bp)
    (sbp_locked_amount bp) (sbp_locksroot bp) (sbp_message_hash bp) (sbp_signature bp)
    (sbp_sender bp) (sbp_canonical_identifier bp) = Ok bp.

(** The balance proof can be used in the contract, is signed by [s] and is
    the next one of [s]. *)
Record bp_usable (c : NettingChannelState) (s : NettingChannelEndState)
    (bp : BalanceProofSignedState) : Prop := {
  bpu_open : get_status c = STATE_OPENED;
  bpu_channel : sbp_canonical_identifier bp = canonical_identifier c;
  bpu_bound : sbp_transferred_amount bp + sbp_locked_amount bp <= UINT256_MAX;
  bpu_nonce : sbp_nonce bp = get_next_nonce s;
  bpu_signature : is_valid_balanceproof_signature bp (address s) = Ok success
}.

Lemma usable_onchain_total bp c s :
  received_bp bp -> exists v, is_balance_proof_usable_onchain bp c s = Ok v.
Proof.
  unfold received_bp, new_BalanceProofSignedState, is_balance_proof_usable_onchain,
    is_valid_balanceproof_signature.
  intros Hok. py_inv. match goal with Hh : hash_balance_data _ _ _ = Ok _ |- _ => rewrite Hh end.
  cbn. eauto.
Qed.

Lemma usable_onchain_success bp c s :
  is_balance_proof_usable_onchain bp c s = Ok [] <-> bp_usable c s bp.
Proof.
  unfold is_balance_proof_usable_onchain, is_balance_proof_safe_for_onchain_operations,
    channel_token_network_address, chain_id, identifier.
  destruct bp as [n t l root mh sg sd [chain tn id] bh],
    (canonical_identifier c) as [chain' tn' id'] eqn:Ecid; cbn in *.
  split.
  - intros Hok. py_inv. repeat case_if; bool_hyps; try done. subst.
    split; cbn; done.
  - intros [Ho Hc Hb Hn Hs]. cbn in *. rewrite Ecid in Hc. injection Hc as -> -> ->.
    rewrite Hs. cbn. rewrite !bool_decide_eq_true_2, !Z.eqb_refl by done. cbn.
    rewrite (proj2 (Z.leb_le _ _) Hb), Hn, Z.eqb_refl. done.
Qed.

(** The new balance proof carries exactly the expected locks and amounts. *)
Record bp_carries (s : NettingChannelEndState) (bp : BalanceProofSignedState)
    (pending : PendingLocksState) (paid locked : Z) : Prop := {
  bpc_locksroot : sbp_locksroot bp = compute_locksroot pending;
  bpc_transferred : sbp_transferred_amount bp = transferred_amount s + paid;
  bpc_locked : sbp_locked_amount bp = get_amount_locked s + locked
}.

Record transfer_acceptable (c : NettingChannelState) (s r : NettingChannelEndState)
    (bp : BalanceProofSignedState) (l : HashTimeLockState) : Prop := {
  ta_usable : bp_usable c s bp;
  ta_new : lock_encoded l ∉ pending_locks s;
  ta_limit : Z.of_nat (length (pending_locks s)) < MAXIMUM_PENDING_TRANSFERS;
  ta_carries : bp_carries s bp (pending_locks s ++ [lock_encoded l]) 0 (lock_amount l);
  ta_amount : lock_amount l <= get_distributable s r
}.

Lemma valid_lockedtransfer_check_spec c s r name bp l m p :
  locks_inv s -> bp_inv s ->
  valid_lockedtransfer_check c s r name bp l = Ok (true, m, p) <->
  transfer_acceptable c s r bp l /\ m = None
  /\ p = Some (pending_locks s ++ [lock_encoded l]).
Proof.
  intros Hl Hb. unfold valid_lockedtransfer_check, compute_locks_with, invalid_with.
  destruct (current_balanceproof_eq s Hl Hb) as [n ->].
  split.
  - intros Hok. py_inv. match goal with H : is_balance_proof_usable_onchain _ _ _ = Ok ?v |- _ =>
      destruct v; [apply usable_onchain_success in H|discriminate] end.
    cbn in *. case_bool_decide; cbn in *; [done|].
    repeat case_if; bool_hyps; simplify_eq.
    rewrite length_app in *. cbn in *.
    split_and!; try done. split; try done; try lia. split; try done; lia.
  - intros ([Hu Hn Hlim [C1 C2 C3] Ha] & -> & ->).
    rewrite (proj2 (usable_onchain_success bp c s) Hu). cbn.
    rewrite bool_decide_eq_false_2 by done. cbn.
    rewrite length_app, C1, C2, C3, Z.add_0_r, !Z.eqb_refl, bool_decide_eq_true_2 by done. cbn.
    rewrite !(fun x => proj2 (Z.ltb_ge _ x)) by (cbn; lia). done.
Qed.

Lemma valid_lockedtransfer_check_total c s r name bp l :
  received_bp bp ->
  exists ok m p, valid_lockedtransfer_check c s r name bp l = Ok (ok, m, p)
    /\ (ok = false -> text_truthy m = true).
Proof.
  intros (v & Hv)%(fun x => usable_onchain_total bp c s x).
  unfold valid_lockedtransfer_check. destruct (get_current_balanceproof s) as [[[? ?] ?] ?].
  rewrite Hv. cbn. destruct v; cbn; [|by eexists _, _, _].
  destruct (compute_locks_with _ _); [|by eexists _, _, _].
  repeat case_if; by eexists _, _, _.
Qed.

Record unlock_acceptable (c : NettingChannelState) (s : NettingChannelEndState)
    (sh : bytes) (l : HashTimeLockState) (bp : BalanceProofSignedState) : Prop := {
  ua_lock : get_lock s sh = Some l;
  ua_usable : bp_usable c s bp;
  ua_carries : bp_carries s bp (remove_first (lock_encoded l) (pending_locks s))
                 (lock_amount l) (- lock_amount l)
}.

Lemma is_valid_unlock_spec u c s m p :
  locks_inv s -> bp_inv s ->
  is_valid_unlock u c s = Ok (true, m, p) <->
  m = None /\ exists l, unlock_acceptable c s (ru_secrethash u) l (ru_balance_proof u)
    /\ p = Some (remove_first (lock_encoded l) (pending_locks s)).
Proof.
  intros Hl Hb. unfold is_valid_unlock, invalid_with.
  destruct (current_balanceproof_eq s Hl Hb) as [n ->].
  split.
  - intros Hok. destruct (get_lock s (ru_secrethash u)) as [l|] eqn:Hg; [|done].
    rewrite (compute_locks_without_pending _ _ _ Hl Hg) in Hok. py_inv.
    match goal with H : is_balance_proof_usable_onchain _ _ _ = Ok ?v |- _ =>
      destruct v; [apply usable_onchain_success in H|discriminate] end.
    cbn in *. repeat case_if; bool_hyps; simplify_eq.
    split; [done|]. exists l. split; [|done]. split; try done; split; try done; lia.
  - intros (-> & l & [Hg Hu [C1 C2 C3]] & ->). rewrite Hg.
    rewrite (compute_locks_without_pending _ _ _ Hl Hg).
    rewrite (proj2 (usable_onchain_success _ c s) Hu). cbn.
    rewrite C1, C2, C3, <- Z.add_opp_r, !Z.eqb_refl, bool_decide_eq_true_2 by done. done.
Qed.

Record expiration_acceptable (c : NettingChannelState) (s r : NettingChannelEndState)
    (sh : bytes) (l : HashTimeLockState) (bp : BalanceProofSignedState)
    (block_number : Z) : Prop := {
  ea_lock : get_lock s sh = Some l;
  ea_offchain : is_secret_known_onchain s sh = false;
  ea_receiver : is_secret_known_onchain r sh = false;
  ea_expired : get_receiver_expiration_threshold (lock_expiration l) <= block_number;
  ea_usable : bp_usable c s bp;
  ea_carries : bp_carries s bp (remove_first (lock_encoded l) (pending_locks s))
                 0 (- lock_amount l)
}.

(** The lookup of [is_valid_lock_expired] in the first two dictionaries. *)
Lemma unclaimed_lock_lookup s sh :
  dict_mem sh (secrethashes_to_onchain_unlockedlocks s) = false ->
  match dict_get sh (secrethashes_to_lockedlocks s) with
  | Some l => Some l
  | None =>
      match dict_get sh (secrethashes_to_unlockedlocks s) with
      | Some p => Some (unlock_lock p)
      | None => None
      end
  end = get_lock s sh.
Proof. intros Hn%dict_mem_false. unfold get_lock. by rewrite Hn. Qed.

Lemma is_valid_lock_expired_spec x c r block m p :
  locks_inv (partner_state c) -> bp_inv (partner_state c) ->
  is_valid_lock_expired x c (partner_state c) r block = Ok (true, m, p) <->
  m = None /\ exists l,
    expiration_acceptable c (partner_state c) r (rle_secrethash x) l (rle_balance_proof x) block
    /\ p = Some (remove_first (lock_encoded l) (pending_locks (partner_state c))).
Proof.
  intros Hl Hb. unfold is_valid_lock_expired, is_lock_expired, invalid_with.
  destruct (current_balanceproof_eq (partner_state c) Hl Hb) as [n ->].
  split.
  - intros Hok. py_inv. case_if; [done|]. rewrite unclaimed_lock_lookup in * by done.
    destruct (get_lock (partner_state c) (rle_secrethash x)) as [l|] eqn:Hg; [|done].
    match goal with H : is_balance_proof_usable_onchain _ _ _ = Ok ?v |- _ =>
      destruct v; [apply usable_onchain_success in H|discriminate] end.
    rewrite (compute_locks_without_pending _ _ _ Hl Hg) in *. cbn in *.
    destruct (index_get_valid _ _ Hl (rle_secrethash x) l) as [Hsh _];
      [by rewrite <- get_lock_index|]. rewrite Hsh in *.
    repeat case_if; bool_hyps; simplify_eq; cbn in *; try done.
    split; [done|]. exists l. split; [|done]. split; try done; split; try done; lia.
  - intros (-> & l & [Hg Hoff Hr Hx Hu [C1 C2 C3]] & ->).
    unfold is_secret_known_onchain in *. rewrite Hoff, unclaimed_lock_lookup by done.
    rewrite (proj2 (usable_onchain_success _ c _) Hu), Hg. cbn.
    rewrite (compute_locks_without_pending _ _ _ Hl Hg).
    destruct (index_get_valid _ _ Hl (rle_secrethash x) l) as [Hsh _];
      [by rewrite <- get_lock_index|]. rewrite Hsh, Hr, (proj2 (Z.ltb_ge _ _) Hx). cbn.
    rewrite C1, C2, C3, Z.add_0_r, <- Z.add_opp_r, !Z.eqb_refl, bool_decide_eq_true_2 by done.
    done.
Qed.
End validation.

(** ** The state after an accepted message *)

Section receive.
Context `{CryptoLaws}.
Implicit Types (c : NettingChannelState) (bp : BalanceProofSignedState).

(** The partner's end after an accepted transfer and after the removal of a
    lock. *)
Definition received_lock c (l : HashTimeLockState) bp : NettingChannelState :=
  set_partner_state
    (add_locked_lock l
       (accept_balance_proof bp (pending_locks (partner_state c) ++ [lock_encoded l])
          (partner_state c))) c.

Definition received_removal c (sh : bytes) (l : HashTimeLockState) bp : NettingChannelState :=
  set_partner_state
    (removed_lock (partner_state c) sh l (SignedBP bp) (sbp_nonce bp)) c.

Lemma bp_carries_updates e bp c pending paid locked total :
  bp_usable c e bp -> bp_carries e bp pending paid locked ->
  total = get_amount_locked e + locked ->
  bp_updates e (SignedBP bp) pending paid total.
Proof. intros [_ _ Hb _ _] [C1 C2 C3] ->. split; cbn; lia || done. Qed.

Lemma received_lock_updated k c l bp :
  channel_inv_with k c -> lock_valid l ->
  is_lock_pending (partner_state c) (lock_secrethash l) = false ->
  transfer_acceptable c (partner_state c) (our_state c) bp l ->
  end_updated (partner_state c) (partner_state (received_lock c l bp)) (SignedBP bp)
    (get_next_nonce (partner_state c)) 0
    ((lock_secrethash l, l) :: lock_index (partner_state c)).
Proof.
  intros Hc Hv Hf [Hu _ _ Hca _]. pose proof (end_nonce _ (inv_partner k c Hc)).
  rewrite <- (bpu_nonce _ _ _ Hu). apply end_add_lock; try done.
  - apply Hc.
  - rewrite (bpu_nonce _ _ _ Hu). unfold get_next_nonce. lia.
  - by apply not_pending_no_lock.
  - eapply bp_carries_updates; done.
Qed.

Lemma received_removal_updated k c sh l bp paid :
  channel_inv_with k c -> get_lock (partner_state c) sh = Some l -> 0 <= paid ->
  bp_usable c (partner_state c) bp ->
  bp_carries (partner_state c) bp
    (remove_first (lock_encoded l) (pending_locks (partner_state c))) paid (- lock_amount l) ->
  end_updated (partner_state c) (partner_state (received_removal c sh l bp)) (SignedBP bp)
    (get_next_nonce (partner_state c)) paid (dict_del sh (lock_index (partner_state c))).
Proof.
  intros Hc Hg Hp Hu Hca. pose proof (end_nonce _ (inv_partner k c Hc)).
  rewrite <- (bpu_nonce _ _ _ Hu).
  apply removed_lock_updated; try done.
  - apply Hc.
  - rewrite (bpu_nonce _ _ _ Hu). unfold get_next_nonce. lia.
  - eapply bp_carries_updates; [done..|lia].
Qed.

(** A received transfer either is acceptable and adds its lock, or leaves the
    channel as it is. *)
Lemma handle_receive_lockedtransfer_run k c t md :
  channel_inv_with k c -> received_bp (lts_balance_proof t) ->
  (transfer_acceptable c (partner_state c) (our_state c) (lts_balance_proof t) (lts_lock t)
   /\ handle_receive_lockedtransfer c t md
      = Ok (received_lock c (lts_lock t) (lts_balance_proof t),
            (true, [send_processed (sbp_sender (lts_balance_proof t)) md
                      (lts_message_identifier t)], None)))
  \/ (~ transfer_acceptable c (partner_state c) (our_state c) (lts_balance_proof t) (lts_lock t)
      /\ exists m, handle_receive_lockedtransfer c t md
         = Ok (c, (false, [EEventInvalidReceivedLockedTransfer
              (mkEventInvalidReceivedLockedTransfer (lts_payment_identifier t) m)], Some m))).
Proof.
  intros Hc Hbp. destruct (inv_partner k c Hc) as [Hl Hb _ _ _].
  destruct (valid_lockedtransfer_check_total c (partner_state c) (our_state c)
              "LockedTransfer" _ (lts_lock t) Hbp) as (ok & m & p & Hrun & Hm).
  unfold handle_receive_lockedtransfer, is_valid_lockedtransfer. destruct ok.
  - left. pose proof Hrun as Hs. apply valid_lockedtransfer_check_spec in Hs as (Ha & -> & ->);
      [|done..]. split; [done|]. by rewrite Hrun.
  - right. split.
    + intros Ha. enough (valid_lockedtransfer_check c (partner_state c) (our_state c)
        "LockedTransfer" (lts_balance_proof t) (lts_lock t)
        = Ok (true, None, Some (pending_locks (partner_state c) ++ [lock_encoded (lts_lock t)])))
        by congruence. by apply valid_lockedtransfer_check_spec.
    + rewrite Hrun. cbn. rewrite Hm by done. cbn. destruct m as [m|]; [|by discriminate (Hm eq_refl)].
      eauto.
Qed.

Lemma is_valid_unlock_total u c s :
  received_bp (ru_balance_proof u) ->
  exists ok m p, is_valid_unlock u c s = Ok (ok, m, p) /\ (ok = false -> text_truthy m = true).
Proof.
  intros (v & Hv)%(fun x => usable_onchain_total _ c s x).
  unfold is_valid_unlock. destruct (get_current_balanceproof s) as [[[? ?] ?] ?].
  destruct (get_lock _ _); [|by eexists _, _, _].
  destruct (compute_locks_without _ _); [|by eexists _, _, _].
  rewrite Hv. cbn. repeat case_if; by eexists _, _, _.
Qed.

Lemma handle_unlock_run k c u md :
  channel_inv_with k c -> received_bp (ru_balance_proof u) ->
  (exists l,
     unlock_acceptable c (partner_state c) (ru_secrethash u) l (ru_balance_proof u)
     /\ handle_unlock c u md
        = Ok (received_removal c (ru_secrethash u) l (ru_balance_proof u),
              (true, [send_processed (sbp_sender (ru_balance_proof u)) md
                        (ru_message_identifier u)], None)))
  \/ ((forall l, ~ unlock_acceptable c (partner_state c) (ru_secrethash u) l (ru_balance_proof u))
      /\ exists m, handle_unlock c u md
         = Ok (c, (false, [EEventInvalidReceivedUnlock
              (mkEventInvalidReceivedUnlock (ru_secrethash u) m)], Some m))).
Proof.
  intros Hc Hbp. pose proof (inv_partner k c Hc) as He. pose proof He as [Hl Hb _ _ _].
  destruct (is_valid_unlock_total u c (partner_state c) Hbp) as (ok & m & p & Hrun & Hm).
  unfold handle_unlock. destruct ok.
  - left. pose proof Hrun as Hs. apply is_valid_unlock_spec in Hs as (-> & l & Ha & ->); [|done..].
    exists l. split; [done|]. rewrite Hrun. cbn.
    destruct (pending_lock_facts _ _ _ He (ua_lock _ _ _ _ _ Ha)) as (_ & _ & Hp & _).
    rewrite del_lock_eq by exact Hp. reflexivity.
  - right. split.
    + intros l Ha. enough (is_valid_unlock u c (partner_state c) = Ok (true, None,
        Some (remove_first (lock_encoded l) (pending_locks (partner_state c))))) by congruence.
      apply is_valid_unlock_spec; eauto.
    + rewrite Hrun. cbn. rewrite Hm by done. cbn. destruct m as [m|]; [|by discriminate (Hm eq_refl)].
      eauto.
Qed.

Lemma is_valid_lock_expired_total x c s r block :
  received_bp (rle_balance_proof x) ->
  exists ok m p, is_valid_lock_expired x c s r block = Ok (ok, m, p)
    /\ (ok = false -> text_truthy m = true).
Proof.
  intros (v & Hv)%(fun x => usable_onchain_total _ c s x).
  unfold is_valid_lock_expired. destruct (get_current_balanceproof s) as [[[? ?] ?] ?].
  rewrite Hv. cbn. case_if; [by eexists _, _, _|].
  match goal with |- context [match ?o with Some lock => _ | None => invalid_with _ end] =>
    destruct o as [l|]; [|by eexists _, _, _] end.
  case_if; [by eexists _, _, _|].
  destruct (compute_locks_without _ _); [|by eexists _, _, _].
  repeat case_if; by eexists _, _, _.
Qed.

Lemma handle_receive_lock_expired_run k c x block md :
  channel_inv_with k c -> received_bp (rle_balance_proof x) ->
  (exists l,
     expiration_acceptable c (partner_state c) (our_state c) (rle_secrethash x) l
       (rle_balance_proof x) block
     /\ handle_receive_lock_expired c x block md
        = Ok (mkTransitionResult
                (received_removal c (rle_secrethash x) l (rle_balance_proof x))
                [send_processed (sbp_sender (rle_balance_proof x)) md
                   (rle_message_identifier x)]))
  \/ ((forall l, ~ expiration_acceptable c (partner_state c) (our_state c) (rle_secrethash x) l
                     (rle_balance_proof x) block)
      /\ exists m, handle_receive_lock_expired c x block md
         = Ok (mkTransitionResult c [EEventInvalidReceivedLockExpired
              (mkEventInvalidReceivedLockExpired (rle_secrethash x) m)])).
Proof.
  intros Hc Hbp. pose proof (inv_partner k c Hc) as [Hl Hb _ _ _].
  destruct (is_valid_lock_expired_total x c (partner_state c) (our_state c) block Hbp)
    as (ok & m & p & Hrun & Hm).
  unfold handle_receive_lock_expired. destruct ok.
  - left. pose proof Hrun as Hs.
    apply is_valid_lock_expired_spec in Hs as (-> & l & Ha & ->); [|done..].
    exists l. split; [done|]. rewrite Hrun. cbn. rewrite del_unclaimed_lock_eq.
    unfold received_removal, removed_lock.
    rewrite (dict_del_absent _ (secrethashes_to_onchain_unlockedlocks (partner_state c)))
      by (apply dict_mem_false, (ea_offchain _ _ _ _ _ _ _ Ha)). reflexivity.
  - right. split.
    + intros l Ha.
      enough (is_valid_lock_expired x c (partner_state c) (our_state c) block = Ok (true, None,
        Some (remove_first (lock_encoded l) (pending_locks (partner_state c))))) by congruence.
      apply is_valid_lock_expired_spec; eauto.
    + rewrite Hrun. cbn. rewrite Hm by done. cbn. destruct m as [m|]; [|by discriminate (Hm eq_refl)].
      eauto.
Qed.

(** A refund is a transfer of the partner that also mirrors ours. *)
Lemma handle_refundtransfer_run k c t r :
  channel_inv_with k c -> received_bp (lts_balance_proof (rtr_transfer r)) ->
  let bp := lts_balance_proof (rtr_transfer r) in
  let l := lts_lock (rtr_transfer r) in
  (transfer_acceptable c (partner_state c) (our_state c) bp l
   /\ refund_transfer_matches_transfer (rtr_transfer r) t = true
   /\ exists m evs, handle_refundtransfer t c r = Ok (received_lock c l bp, (true, evs, m)))
  \/ (~ (transfer_acceptable c (partner_state c) (our_state c) bp l
         /\ refund_transfer_matches_transfer (rtr_transfer r) t = true)
      /\ exists m evs, handle_refundtransfer t c r = Ok (c, (false, evs, m))).
Proof.
  intros Hc Hbp. destruct (inv_partner k c Hc) as [Hl Hb _ _ _].
  destruct (valid_lockedtransfer_check_total c (partner_state c) (our_state c)
              "RefundTransfer" _ (lts_lock (rtr_transfer r)) Hbp) as (ok & m & p & Hrun & Hm).
  unfold handle_refundtransfer, is_valid_refund. rewrite Hrun.
  assert (ok = true <-> transfer_acceptable c (partner_state c) (our_state c)
            (lts_balance_proof (rtr_transfer r)) (lts_lock (rtr_transfer r))) as Hok.
  { split.
    - intros ->. by apply valid_lockedtransfer_check_spec in Hrun as (Ha & _).
    - intros Ha. destruct ok; [done|].
      pose proof (proj2 (valid_lockedtransfer_check_spec c (partner_state c) (our_state c)
        "RefundTransfer" _ _ _ _ Hl Hb) (conj Ha (conj eq_refl eq_refl))). congruence. }
  destruct ok; cbn.
  - apply valid_lockedtransfer_check_spec in Hrun as (Ha & -> & ->); [|done..].
    destruct (refund_transfer_matches_transfer (rtr_transfer r) t) eqn:Em; cbn.
    + left. split_and!; [done..|]. by eexists _, _.
    + right. split; [naive_solver|]. by eexists _, _.
  - right. split; [naive_solver|]. rewrite Hm by done. cbn. by eexists _, _.
Qed.

(** ** Secrets *)

Lemma channel_inv_our_relock k c a b d :
  channel_inv_with k c ->
  lock_index (with_locks a b d (our_state c)) ≡ₚ lock_index (our_state c) ->
  channel_inv_with k (set_our_state (with_locks a b d (our_state c)) c).
Proof.
  intros [] Hp. destruct (end_inv_with_locks _ a b d inv_our Hp) as [He Hl].
  split; try done; cbn.
  - by destruct inv_our_withdraws.
  - unfold reserved. rewrite Hl. exact inv_our_balance.
Qed.

Lemma channel_inv_partner_relock k c a b d :
  channel_inv_with k c ->
  lock_index (with_locks a b d (partner_state c)) ≡ₚ lock_index (partner_state c) ->
  channel_inv_with k (set_partner_state (with_locks a b d (partner_state c)) c).
Proof.
  intros [] Hp. destruct (end_inv_with_locks _ a b d inv_partner Hp) as [He Hl].
  split; try done; cbn. unfold reserved. rewrite Hl. exact inv_partner_balance.
Qed.

Lemma register_secret_with_locks e secret sh :
  exists a b d, register_secret_endstate e secret sh = with_locks a b d e.
Proof.
  unfold register_secret_endstate. destruct (dict_get _ _) as [l|].
  - exists (dict_del sh (secrethashes_to_lockedlocks e)),
      (dict_set sh (mkUnlockPartialProofState l secret) (secrethashes_to_unlockedlocks e)),
      (secrethashes_to_onchain_unlockedlocks e). reflexivity.
  - eexists _, _, _. symmetry. apply with_locks_id.
Qed.

Lemma register_offchain_secret_inv k c secret sh :
  channel_inv_with k c -> channel_inv_with k (register_offchain_secret c secret sh).
Proof.
  intros Hc. unfold register_offchain_secret.
  destruct (register_secret_with_locks (our_state c) secret sh) as (a & b & d & E1).
  destruct (register_secret_with_locks (partner_state c) secret sh) as (a' & b' & d' & E2).
  rewrite E1. set (c1 := set_our_state _ c).
  assert (channel_inv_with k c1) as Hc1.
  { apply channel_inv_our_relock; [done|]. rewrite <- E1.
    apply register_secret_endstate_index, Hc. }
  change (partner_state c1) with (partner_state c). rewrite E2.
  apply (channel_inv_partner_relock k c1); [done|].
  change (partner_state c1) with (partner_state c). rewrite <- E2.
  apply register_secret_endstate_index, Hc.
Qed.

Lemma register_onchain_secret_inv k c secret sh block :
  channel_inv_with k c ->
  exists c', register_onchain_secret c secret sh block true = Ok c' /\ channel_inv_with k c'.
Proof.
  intros Hc. unfold register_onchain_secret.
  destruct (register_onchain_secret_endstate_index (our_state c) secret sh block)
    as (e1 & -> & P1 & a & b & d & ->); [apply Hc|]. cbn.
  destruct (register_onchain_secret_endstate_index (partner_state c) secret sh block)
    as (e2 & -> & P2 & a' & b' & d' & ->); [apply Hc|]. cbn.
  eexists. split; [done|].
  apply (channel_inv_partner_relock k (set_our_state (with_locks a b d (our_state c)) c)); [|done].
  by apply channel_inv_our_relock.
Qed.

(** ** What receiving does to the invariant *)

Lemma received_lock_inv k c l bp :
  channel_inv_with k c -> lock_valid l ->
  is_lock_pending (partner_state c) (lock_secrethash l) = false ->
  transfer_acceptable c (partner_state c) (our_state c) bp l ->
  channel_inv_with k (received_lock c l bp).
Proof.
  intros Hc Hv Hf Ha. pose proof (received_lock_updated k c l bp Hc Hv Hf Ha) as Hu.
  eapply channel_inv_partner_update; [done|exact Hu|done|].
  destruct (inv_partner k c Hc) as [Hl Hb _ _ _]. pose proof (ta_amount _ _ _ _ _ Ha) as Hd.
  rewrite get_distributable_eq in Hd by done.
  destruct k; [|pose proof (inv_partner_balance _ c Hc); cbn in *; lia].
  rewrite index_amount_cons, <- get_amount_locked_index. lia.
Qed.

Lemma received_removal_inv c sh l bp paid :
  solvent_inv c -> get_lock (partner_state c) sh = Some l -> 0 <= paid <= lock_amount l ->
  bp_usable c (partner_state c) bp ->
  bp_carries (partner_state c) bp
    (remove_first (lock_encoded l) (pending_locks (partner_state c))) paid (- lock_amount l) ->
  solvent_inv (received_removal c sh l bp).
Proof.
  intros Hc Hg Hp Hu Hca.
  pose proof (received_removal_updated true c sh l bp paid Hc Hg (proj1 Hp) Hu Hca) as Hup.
  eapply channel_inv_partner_update; [done|exact Hup|lia|].
  pose proof (inv_partner_balance _ c Hc) as Hb. cbn in Hb.
  rewrite (index_amount_del _ sh l) by done. lia.
Qed.

(** C5: receiving a locked transfer.  For every well-formed message with a new
    secrethash the handler returns.  Exactly the acceptable messages are
    accepted: the balance proof is then stored with the lock, the balances do
    not change and the partner can distribute less by the amount of the lock.
    Every other message leaves the channel unchanged. *)
Theorem handle_receive_lockedtransfer_correct c t md
    (Hc : solvent_inv c) (Hbp : received_bp (lts_balance_proof t))
    (Hv : lock_valid (lts_lock t))
    (Hf : is_lock_pending (partner_state c) (lock_secrethash (lts_lock t)) = false) :
  exists c' ok evs m,
    handle_receive_lockedtransfer c t md = Ok (c', (ok, evs, m))
    /\ solvent_inv c' /\ our_state c' = our_state c
    /\ (ok = true <-> transfer_acceptable c (partner_state c) (our_state c)
                        (lts_balance_proof t) (lts_lock t))
    /\ (ok = false -> c' = c)
    /\ (ok = true ->
        get_lock (partner_state c') (lock_secrethash (lts_lock t)) = Some (lts_lock t)
        /\ balance_proof (partner_state c') = Some (SignedBP (lts_balance_proof t))
        /\ nonce (partner_state c') = nonce (partner_state c) + 1
        /\ get_balance (partner_state c') (our_state c')
           = get_balance (partner_state c) (our_state c)
        /\ get_distributable (partner_state c') (our_state c')
           = get_distributable (partner_state c) (our_state c) - lock_amount (lts_lock t)).
Proof.
  destruct (handle_receive_lockedtransfer_run true c t md Hc Hbp)
    as [[Ha Hrun]|(Hna & m & Hrun)].
  2: { exists c. eexists _, _, _. split; [exact Hrun|]. split_and!; try done. }
  eexists _, _, _, _. split; [exact Hrun|].
  pose proof (received_lock_inv true c _ _ Hc Hv Hf Ha) as Hc'.
  pose proof (received_lock_updated true c _ _ Hc Hv Hf Ha) as Hu.
  destruct (end_updated_balances _ _ (our_state c) _ _ _ _ (inv_partner _ c Hc) Hu)
    as (B1 & B2 & B3).
  rewrite index_amount_cons, <- get_amount_locked_index in B3.
  pose proof Hu as [Hi _ _ Hidx _ Hn Hb].
  split_and!; try done. intros _. split_and!; try done; try (cbn in *; lia).
  rewrite get_lock_index, (dict_get_perm _ _ _ (index_wf _ _ (end_locks _ Hi)) Hidx). cbn.
  by rewrite decide_True.
Qed.

(** What the removal of a lock of the partner does. *)
Lemma received_removal_effect c sh l bp paid :
  solvent_inv c -> get_lock (partner_state c) sh = Some l -> 0 <= paid <= lock_amount l ->
  bp_usable c (partner_state c) bp ->
  bp_carries (partner_state c) bp
    (remove_first (lock_encoded l) (pending_locks (partner_state c))) paid (- lock_amount l) ->
  let c' := received_removal c sh l bp in
  solvent_inv c' /\ our_state c' = our_state c
  /\ get_lock (partner_state c') sh = None
  /\ (forall sh', sh' <> sh -> get_lock (partner_state c') sh' = get_lock (partner_state c) sh')
  /\ nonce (partner_state c') = nonce (partner_state c) + 1
  /\ get_balance (our_state c') (partner_state c')
     = get_balance (our_state c) (partner_state c) + paid
  /\ get_balance (partner_state c') (our_state c')
     = get_balance (partner_state c) (our_state c) - paid
  /\ get_distributable (partner_state c') (our_state c')
     = get_distributable (partner_state c) (our_state c) - paid + lock_amount l.
Proof.
  intros Hc Hg Hp Hu Hca. cbv zeta.
  pose proof (received_removal_inv c sh l bp paid Hc Hg Hp Hu Hca) as Hc'.
  pose proof (received_removal_updated true c sh l bp paid Hc Hg (proj1 Hp) Hu Hca) as Hup.
  destruct (removed_lock_lookup _ _ _ _ _ sh (inv_partner _ c Hc) Hup) as [Hnone Hother].
  destruct (end_updated_balances _ _ (our_state c) _ _ _ _ (inv_partner _ c Hc) Hup)
    as (B1 & B2 & B3).
  rewrite (index_amount_del _ _ l) in B3 by done.
  split_and!; [exact Hc'|reflexivity|exact Hnone|exact Hother| |exact B2|exact B1|exact_lia B3].
  apply (eu_nonce _ _ _ _ _ _ Hup).
Qed.

(** C27: receiving an unlock.  In a channel with the invariant the handler
    returns for every message with a well-formed balance proof.  Exactly the
    messages with the next signed balance proof that pays the amount of a pending
    lock of the partner are accepted; they remove the lock and move this amount
    from the partner's balance to ours.  Every other message leaves the channel
    unchanged. *)
Theorem handle_unlock_correct c u md
    (Hc : solvent_inv c) (Hbp : received_bp (ru_balance_proof u)) :
  exists c' ok evs m,
    handle_unlock c u md = Ok (c', (ok, evs, m))
    /\ solvent_inv c'
    /\ (ok = true <-> exists l, unlock_acceptable c (partner_state c) (ru_secrethash u) l
                                 (ru_balance_proof u))
    /\ (ok = false -> c' = c)
    /\ (ok = true -> exists l,
        get_lock (partner_state c) (ru_secrethash u) = Some l
        /\ get_lock (partner_state c') (ru_secrethash u) = None
        /\ get_balance (our_state c') (partner_state c')
           = get_balance (our_state c) (partner_state c) + lock_amount l
        /\ get_balance (partner_state c') (our_state c')
           = get_balance (partner_state c) (our_state c) - lock_amount l).
Proof.
  destruct (handle_unlock_run true c u md Hc Hbp) as [(l & Ha & Hrun)|(Hna & m & Hrun)].
  2: { exists c. eexists _, _, _. split; [exact Hrun|]. split_and!; try done.
       split; [done|]. by intros [l Ha%Hna]. }
  eexists _, _, _, _. split; [exact Hrun|]. pose proof Ha as [Hg Hu Hca].
  pose proof (unlock_amount_nonneg true c _ _ l Hc (or_intror eq_refl) Hg) as Hnn.
  destruct (received_removal_effect c _ l _ (lock_amount l) Hc Hg (conj Hnn (Z.le_refl _)) Hu Hca)
    as (Hc' & Ho & Hnone & _ & _ & B1 & B2 & _).
  split_and!; try done.
  - split; eauto.
  - intros _. exists l. by split_and!.
Qed.

(** Receiving a lock expiration.  Exactly the expirations of locks of the
    partner that are past the receiver's threshold and were not unlocked
    on-chain, with a balance proof that drops only this lock, are accepted.
    They give the amount of the lock back to the partner and change no
    balance; every other message leaves the channel unchanged. *)
Theorem handle_receive_lock_expired_correct c x block md
    (Hc : solvent_inv c) (Hbp : received_bp (rle_balance_proof x)) :
  exists c' evs,
    handle_receive_lock_expired c x block md = Ok (mkTransitionResult c' evs)
    /\ solvent_inv c'
    /\ ((exists l,
           expiration_acceptable c (partner_state c) (our_state c) (rle_secrethash x) l
             (rle_balance_proof x) block
           /\ get_lock (partner_state c') (rle_secrethash x) = None
           /\ get_balance (our_state c') (partner_state c')
              = get_balance (our_state c) (partner_state c)
           /\ get_distributable (partner_state c') (our_state c')
              = get_distributable (partner_state c) (our_state c) + lock_amount l)
        \/ ((forall l, ~ expiration_acceptable c (partner_state c) (our_state c)
                           (rle_secrethash x) l (rle_balance_proof x) block)
            /\ c' = c)).
Proof.
  destruct (handle_receive_lock_expired_run true c x block md Hc Hbp)
    as [(l & Ha & Hrun)|(Hna & m & Hrun)]; rewrite Hrun; eexists _, _; (split; [done|]).
  2: { split; [done|]. by right. }
  pose proof Ha as [Hg _ _ _ Hu Hca].
  pose proof (unlock_amount_nonneg true c _ _ l Hc (or_intror eq_refl) Hg) as Hnn.
  destruct (received_removal_effect c _ l _ 0 Hc Hg (conj (Z.le_refl 0) Hnn) Hu Hca)
    as (Hc' & Ho & Hnone & _ & _ & B1 & B2 & B3).
  split; [done|]. left. exists l. split_and!; try done; lia.
Qed.
End receive.
