(* ===== verification/ChannelMachine.v ===== *)
(** The state machine of a channel keeps the invariant: no state change makes
    an assertion of [sanity_check] fail. *)

From Stdlib Require Import Sorted.
From S2P Require Import Prelude PyDict Bytes Crypto PyFloat MediationFee State Events.
From S2P Require Import StateChanges Channel ChannelValidation ChannelOps ChannelTransition.
From S2P Require Import ChannelLocks ChannelInvariant ChannelSend ChannelReceive.

(** ** Frames *)

(** [e'] has the address, the locks and the balance proof of [e]. *)
Record same_locks (e e' : NettingChannelEndState) : Prop := {
  sl_address : address e' = address e;
  sl_locked : secrethashes_to_lockedlocks e' = secrethashes_to_lockedlocks e;
  sl_unlocked : secrethashes_to_unlockedlocks e' = secrethashes_to_unlockedlocks e;
  sl_onchain :
    secrethashes_to_onchain_unlockedlocks e' = secrethashes_to_onchain_unlockedlocks e;
  sl_bp : balance_proof e' = balance_proof e;
  sl_pending : pending_locks e' = pending_locks e
}.

Lemma get_balance_eq s r :
  get_balance s r
  = contract_balance s - total_withdraw s - transferred_amount s + transferred_amount r.
Proof. reflexivity. Qed.

Lemma same_locks_transferred e e' : same_locks e e' -> transferred_amount e' = transferred_amount e.
Proof. intros [_ _ _ _ Hb _]. unfold transferred_amount. by rewrite Hb. Qed.

Lemma same_locks_locked e e' : same_locks e e' -> get_amount_locked e' = get_amount_locked e.
Proof.
  intros [_ H1 H2 H3 _ _]. unfold get_amount_locked, get_amount_unclaimed_onchain.
  by rewrite H1, H2, H3.
Qed.

Lemma same_locks_reserved k e e' : same_locks e e' -> reserved k e' = reserved k e.
Proof. intros Hs. destruct k; [by apply same_locks_locked|done]. Qed.

Section frames.
Context `{Crypto} (k : bool).

Lemma end_inv_frame e e' :
  end_inv e -> same_locks e e' -> withdraws_inv (withdraws_pending e') ->
  0 <= onchain_total_withdraw e' -> 0 <= nonce e' -> end_inv e'.
Proof.
  intros [Hl Hb _ _ _] Hs Hw Ho Hn. pose proof Hs as [_ H1 H2 H3 H4 H5].
  split; try done.
  - unfold locks_inv, lock_index. by rewrite H1, H2, H3, H5.
  - unfold bp_inv. rewrite H4, H5. by rewrite (same_locks_locked e e').
Qed.

Lemma channel_inv_our_funds c e' :
  channel_inv_with k c -> same_locks (our_state c) e' -> withdraws_inv (withdraws_pending e') ->
  our_withdraws_inv e' -> 0 <= onchain_total_withdraw e' -> 0 <= nonce e' ->
  reserved k (our_state c) <= get_balance e' (partner_state c) ->
  channel_inv_with k (set_our_state e' c).
Proof.
  intros [] Hs Hw How Ho Hn Hb. split; cbn; try done.
  - by apply (end_inv_frame (our_state c)).
  - by rewrite (same_locks_reserved _ _ _ Hs).
  - rewrite (get_balance_receiver _ (our_state c)), (same_locks_transferred _ _ Hs). lia.
  - by rewrite (sl_address _ _ Hs).
Qed.

Lemma channel_inv_partner_funds c e' :
  channel_inv_with k c -> same_locks (partner_state c) e' -> withdraws_inv (withdraws_pending e') ->
  0 <= onchain_total_withdraw e' -> 0 <= nonce e' ->
  reserved k (partner_state c) <= get_balance e' (our_state c) ->
  channel_inv_with k (set_partner_state e' c).
Proof.
  intros [] Hs Hw Ho Hn Hb. split; cbn; try done.
  - by apply (end_inv_frame (partner_state c)).
  - unfold bp_signed. by rewrite (sl_bp _ _ Hs).
  - rewrite (get_balance_receiver _ (partner_state c)), (same_locks_transferred _ _ Hs). lia.
  - by rewrite (same_locks_reserved _ _ _ Hs).
  - by rewrite (sl_address _ _ Hs).
Qed.

(** [c'] differs from [c] in its timeouts, fees and transactions only. *)
Record channel_frame (c c' : NettingChannelState) : Prop := {
  cf_identifier : canonical_identifier c' = canonical_identifier c;
  cf_our : our_state c' = our_state c;
  cf_partner : partner_state c' = partner_state c
}.

Lemma channel_inv_frame c c' :
  channel_inv_with k c -> channel_frame c c' -> close_inv c' -> channel_inv_with k c'.
Proof.
  intros [] [H1 H2 H3] Hc. split; unfold identifier in *; rewrite ?H1, ?H2, ?H3; done.
Qed.

(** The sum of the balances is not negative, hence neither is the capacity. *)
Lemma capacity_nonneg c : channel_inv_with k c -> 0 <= get_capacity c.
Proof.
  intros [Ho Hp]. pose proof (reserved_nonneg k _ (end_locks _ Ho)).
  pose proof (reserved_nonneg k _ (end_locks _ Hp)). rewrite <- balances_capacity. lia.
Qed.

(** Deposits and removed withdraws increase the balance. *)
Lemma balance_ge m s s' r :
  same_locks s s' -> contract_balance s <= contract_balance s' ->
  total_withdraw s' <= total_withdraw s -> m <= get_balance s r -> m <= get_balance s' r.
Proof.
  intros Hs Hc Ht Hb. rewrite get_balance_eq in *. rewrite (same_locks_transferred _ _ Hs). lia.
Qed.

Lemma our_withdraws_inv_del e e' key :
  our_withdraws_inv e -> withdraws_pending e' = dict_del key (withdraws_pending e) ->
  initiated_coop_settle e' = initiated_coop_settle e -> our_withdraws_inv e'.
Proof.
  intros [Hs Hz] Hw Hi. split; rewrite Hw, ?Hi.
  - rewrite dict_keys_del. by apply StronglySorted_remove_first.
  - intros Hin%dict_keys_del_subset. by apply Hz.
Qed.

(** Keys above all the others are appended in order. *)
Lemma StronglySorted_app_last (l : list Z) x :
  StronglySorted Z.lt l -> (forall y, y ∈ l -> y < x) -> StronglySorted Z.lt (l ++ [x]).
Proof.
  induction 1 as [|y l Hl IH Hy]; intros Hx; cbn; [repeat constructor|].
  constructor.
  - apply IH. intros z Hz. apply Hx. by right.
  - apply Forall_app. split; [done|]. constructor; [|done]. apply Hx. left.
Qed.
End frames.

(** ** Requesting a withdraw *)

Section withdraw.
Context `{Crypto} (k : bool).

(** The conditions under which our next withdraw request keeps the order of
    the requests and is covered by the balance. *)
Record withdraw_requestable (c : NettingChannelState) (total : Z) : Prop := {
  wr_nonneg : 0 <= total;
  wr_above : forall key, key ∈ dict_keys (withdraws_pending (our_state c)) ->
    key < total \/ (key = total /\ key = 0);
  wr_zero : total = 0 -> is_Some (initiated_coop_settle (our_state c));
  wr_balance : total + reserved k (our_state c)
               <= get_max_withdraw_amount (our_state c) (partner_state c)
}.

Lemma our_withdraws_inv_set e total w :
  withdraws_inv (withdraws_pending e) -> our_withdraws_inv e ->
  (forall key, key ∈ dict_keys (withdraws_pending e) ->
     key < total \/ (key = total /\ key = 0)) ->
  (total = 0 -> is_Some (initiated_coop_settle e)) ->
  StronglySorted Z.lt (dict_keys (dict_set total w (withdraws_pending e)))
  /\ (0 ∈ dict_keys (dict_set total w (withdraws_pending e)) ->
      is_Some (initiated_coop_settle e)).
Proof.
  intros Hw [Hs Hz] Habove Hzero.
  destruct (dict_get total (withdraws_pending e)) as [w0|] eqn:E.
  - rewrite dict_keys_set_present by eauto. done.
  - rewrite dict_set_fresh by done. rewrite dict_keys_app. cbn.
    apply dict_get_None in E. split.
    + apply StronglySorted_app_last; [done|]. intros key Hk.
      destruct (Habove key Hk) as [|[-> _]]; [done|by destruct E].
    + rewrite elem_of_app, list_elem_of_singleton. intros [|]; auto.
Qed.

Lemma send_withdraw_request_inv c total expiration prng md b :
  channel_inv_with k c -> withdraw_requestable c total ->
  channel_inv_with k (send_withdraw_request c total expiration prng md b).1.1.
Proof.
  intros Hc [Hnn Habove Hzero Hbal]. pose proof (inv_our k c Hc) as [Hl Hb Hw Ho Hn].
  unfold send_withdraw_request. case_if; [done|].
  destruct (message_identifier_from_prng prng). cbn.
  apply channel_inv_our_funds; cbn; try done.
  - exact (withdraws_inv_set _ (mkPendingWithdrawState _ _ _ _) Hw Hnn).
  - destruct (our_withdraws_inv_set (our_state c) total
      (mkPendingWithdrawState total expiration (get_next_nonce (our_state c)) md) Hw
      (inv_our_withdraws k c Hc) Habove Hzero). by split.
  - unfold get_next_nonce. lia.
  - pose proof (inv_our_balance k c Hc) as Hb0.
    unfold get_max_withdraw_amount, get_balance_aux in Hbal.
    rewrite get_balance_eq in *. unfold total_withdraw in *.
    set (e' := set_withdraws_pending _ _).
    assert (offchain_total_withdraw e' <= Z.max total (offchain_total_withdraw (our_state c))) as Hoff.
    { pose proof (offchain_total_withdraw_nonneg _ Hw). apply zmax_default_le; [lia|].
      intros key [->|Hk]%dict_keys_set_elem; [lia|].
      apply (zmax_default_ge 0) in Hk. unfold offchain_total_withdraw. lia. }
    change (onchain_total_withdraw e') with (onchain_total_withdraw (our_state c)).
    change (contract_balance e') with (contract_balance (our_state c)).
    change (transferred_amount e') with (transferred_amount (our_state c)). lia.
Qed.
End withdraw.

(** ** The handlers *)

Section handlers.
Context `{Crypto} `{FloatPow} (k : bool).
Implicit Types (c : NettingChannelState) (prng : Random).

(** The handler returned a channel with the invariant, or removed it. *)
Definition handled (r : Py ChannelResult) : Prop :=
  exists res, r = Ok res /\ forall c', new_state res.1 = Some c' -> channel_inv_with k c'.

Lemma handled_keep c evs prng : channel_inv_with k c -> handled (Ok (keep c evs prng)).
Proof. intros Hc. eexists. split; [done|]. by intros c' [= <-]. Qed.

Lemma handled_removed evs prng : handled (Ok (mkTransitionResult None evs, prng)).
Proof. eexists. split; [done|]. done. Qed.

Hint Resolve handled_keep handled_removed : raiden.

Lemma our_total_withdraw_ge c key :
  key ∈ dict_keys (withdraws_pending (our_state c)) -> key <= our_total_withdraw c.
Proof.
  intros Hk%(zmax_default_ge 0). unfold our_total_withdraw, total_withdraw,
    offchain_total_withdraw. lia.
Qed.

Lemma total_withdraw_nonneg e : end_inv e -> 0 <= total_withdraw e.
Proof. intros [_ _ _ Ho _]. unfold total_withdraw. lia. Qed.

Lemma max_withdraw_balance s r :
  get_max_withdraw_amount s r = get_balance s r + total_withdraw s.
Proof.
  unfold get_max_withdraw_amount, get_balance, get_balance_aux, total_withdraw. lia.
Qed.

(** What [is_valid_total_withdraw] guarantees. *)
Lemma is_valid_total_withdraw_ok c total zero :
  so_ok (is_valid_total_withdraw c total zero) = true <->
  get_status c = STATE_OPENED
  /\ (our_total_withdraw c < total \/ (zero = true /\ total = our_total_withdraw c))
  /\ total <= get_max_withdraw_amount (our_state c) (partner_state c)
  /\ total + partner_total_withdraw c <= UINT256_MAX.
Proof.
  rewrite max_withdraw_balance. fold (our_total_withdraw c).
  unfold is_valid_total_withdraw, is_valid_channel_total_withdraw. split.
  - repeat case_if; bool_hyps; try done. intros _.
    destruct zero; cbn in *; bool_hyps; split_and!; try done; lia.
  - intros (Ho & Hz & Hb & Hm). rewrite bool_decide_eq_true_2 by done. cbn.
    rewrite (proj2 (Z.ltb_ge _ _)), (proj2 (Z.ltb_ge _ _)), (proj2 (Z.leb_le _ _)) by lia. cbn.
    destruct zero; cbn; [done|]. destruct (Z.eqb_spec (total - our_total_withdraw c) 0); [|done].
    exfalso. destruct Hz as [|[? _]]; [lia|done].
Qed.

(** When the invariant reserves the pending locks, our withdraw leaves them. *)
Definition reserve_kept (c : NettingChannelState) (total : Z) : Prop :=
  k = true ->
  total + get_amount_locked (our_state c)
    <= get_max_withdraw_amount (our_state c) (partner_state c).

Lemma reserve_kept_le c total :
  reserve_kept c total -> total <= get_max_withdraw_amount (our_state c) (partner_state c) ->
  total + reserved k (our_state c) <= get_max_withdraw_amount (our_state c) (partner_state c).
Proof. unfold reserve_kept, reserved. destruct k; [auto|lia]. Qed.

Lemma handle_action_withdraw_handled a c prng nr :
  channel_inv_with k c -> reserve_kept c (acw_total_withdraw a) ->
  handled (handle_action_withdraw a c prng nr).
Proof.
  intros Hc Hk. unfold handle_action_withdraw. cbv zeta.
  destruct (so_ok (is_valid_total_withdraw _ _ _)) eqn:Hv.
  2: { destruct (is_valid_total_withdraw _ _ _); cbn in *; [done|]. eauto with raiden. }
  apply is_valid_total_withdraw_ok in Hv as (Ho & Hz & Hb & _).
  destruct Hz as [Hz|[? _]]; [|done].
  pose proof (total_withdraw_nonneg _ (inv_our k c Hc)). unfold our_total_withdraw in *.
  opose proof (send_withdraw_request_inv k c (acw_total_withdraw a)
    (get_safe_initial_expiration nr (reveal_timeout c) None) prng
    (acw_recipient_metadata a) false Hc _) as Hinv.
  - split; [lia| |lia|by apply reserve_kept_le].
    intros key Hkey%our_total_withdraw_ge. unfold our_total_withdraw in *. lia.
  - destruct (send_withdraw_request _ _ _ _ _ _) as [[c' evs] prng'].
    apply handled_keep. exact Hinv.
Qed.

Lemma handle_action_coop_settle_handled a c prng nr :
  channel_inv_with k c -> handled (handle_action_coop_settle a c prng nr).
Proof.
  intros Hc. unfold handle_action_coop_settle. cbv zeta.
  destruct (so_ok (is_valid_action_coopsettle _ _)) eqn:Hv.
  2: { destruct (is_valid_action_coopsettle _ _); cbn in *; [done|]. eauto with raiden. }
  unfold is_valid_action_coopsettle, so_fail in Hv.
  destruct (so_ok (is_valid_total_withdraw _ _ _)) eqn:Hv'; cbn in Hv; [|by rewrite Hv' in Hv].
  repeat case_if; bool_hyps; try done. clear Hv.
  apply is_valid_total_withdraw_ok in Hv' as (_ & Hz & _ & _).
  pose proof (inv_our k c Hc) as [Hl Hb Hw Ho Hn].
  set (coop := mkCoopSettleState _ _ _ _ _ _).
  set (c1 := on_our_state (set_initiated_coop_settle (Some coop)) c).
  assert (channel_inv_with k c1) as Hc1.
  { apply channel_inv_our_funds; try done.
    - split; cbn; [apply Hc|done].
    - apply (inv_our_balance k c Hc). }
  opose proof (send_withdraw_request_inv k c1 (total_withdraw_initiator coop) (cs_expiration coop)
    prng (acs_recipient_metadata a) true Hc1 _) as Hinv.
  - pose proof (total_withdraw_nonneg _ (inv_our k c Hc)). unfold our_total_withdraw in *.
    assert (reserved k (our_state c1) = 0) as Hres.
    { destruct k; [|done]. apply (no_pending_no_locked (our_state c) Hl).
      unfold get_number_of_pending_transfers in *. destruct (pending_locks (our_state c)); cbn in *; [done|lia]. }
    split; [cbn; lia| |done|by rewrite Hres, Z.add_0_r].
    intros key Hk.
    change (key ∈ dict_keys (withdraws_pending (our_state c))) in Hk.
    assert (0 <= key <= 0); [|cbn; lia].
    split; [|apply (zmax_default_ge 0) in Hk; unfold offchain_total_withdraw in *; lia].
    apply list_elem_of_fmap in Hk as (kw & -> & Hin). destruct Hw as [_ Hw].
    rewrite Forall_forall in Hw. apply Hw in Hin. lia.
  - destruct (send_withdraw_request _ _ _ _ _ _) as [[c' evs] prng'].
    apply handled_keep. exact Hinv.
Qed.

Lemma handle_action_set_reveal_timeout_handled a c prng :
  channel_inv_with k c -> handled (handle_action_set_reveal_timeout a c prng).
Proof.
  intros Hc. unfold handle_action_set_reveal_timeout. case_if; [|auto with raiden].
  apply handled_keep. apply (channel_inv_frame k c); [done..|]. apply Hc.
Qed.

(** A close transaction that is only started says nothing about its block. *)
Lemma close_inv_started c n :
  close_inv (set_close_transaction (Some (mkTransactionExecutionStatus (Some n) None None)) c).
Proof. done. Qed.

Lemma partner_bp_signed c msg :
  channel_inv_with k c -> exists bp, assert_signed (balance_proof (partner_state c)) msg = Ok bp
    /\ (is_Some (balance_proof (partner_state c)) -> is_Some bp).
Proof.
  intros [_ _ _ Hs _ _ _ _ _]. unfold bp_signed, assert_signed in *.
  destruct (balance_proof (partner_state c)) as [[|]|]; [|done|]; eexists; split; try done; eauto.
Qed.

Lemma handle_action_close_handled a c nr hsh prng :
  channel_inv_with k c -> identifier c = channel_identifier (acc_canonical_identifier a) ->
  handled (handle_action_close a c nr hsh prng).
Proof.
  intros Hc Hid. unfold handle_action_close, events_for_close.
  rewrite Hid, Z.eqb_refl. cbn. case_if; cbn; [|auto with raiden].
  destruct (partner_bp_signed c "BP is not signed" Hc) as (bp & -> & _). cbn.
  apply handled_keep. by apply (channel_inv_frame k c).
Qed.

Lemma handle_receive_withdraw_expired_handled a c nr prng :
  channel_inv_with k c -> handled (handle_receive_withdraw_expired a c nr prng).
Proof.
  intros Hc. unfold handle_receive_withdraw_expired.
  destruct (dict_get _ (withdraws_pending (partner_state c))) as [w|] eqn:Hg; [|auto with raiden].
  pose proof (inv_partner k c Hc) as [Hl Hb Hw Ho Hn].
  destruct (withdraws_inv_get _ _ _ Hw Hg) as [Hkey _].
  destruct (so_ok (is_valid_withdraw_expired c a w nr)) eqn:Hv.
  2: { destruct (is_valid_withdraw_expired c a w nr); cbn in *; [done|]. eauto with raiden. }
  assert (rwe_nonce a = get_next_nonce (partner_state c)) as Hnonce.
  { unfold is_valid_withdraw_expired in Hv. repeat case_if; bool_hyps; done. }
  unfold dict_del_checked. rewrite Hkey, (proj2 (dict_mem_true _ _)) by eauto. cbn.
  apply handled_keep.
  set (p := set_nonce _ _).
  assert (channel_inv_with k (set_partner_state p c)) as Hinv.
  { apply channel_inv_partner_funds; cbn; try done; [auto with raiden|unfold get_next_nonce in *; lia|].
    apply (balance_ge _ (partner_state c)); try done; [|apply Hc].
    assert (offchain_total_withdraw p <= offchain_total_withdraw (partner_state c))
      by (apply offchain_total_withdraw_mono, dict_keys_del_subset; done).
    unfold total_withdraw. cbn. lia. }
  destruct (initiated_coop_settle _); [|exact Hinv]. case_if; [|exact Hinv].
  destruct Hinv as [H1 H2 H3 H4 H5 H6 H7 H8 H9].
  refine (channel_inv_partner_funds k (set_partner_state p c) _ _ _ _ _ _ _); try done; apply H2.
Qed.

(** ** Blocks *)

Lemma expire_withdraw_inv c w ws prng :
  channel_inv_with k c ->
  withdraws_pending (our_state c) = (pw_total_withdraw w, w) :: ws ->
  exists c' ev prng', expire_withdraw c w prng = Ok (c', ev, prng')
    /\ channel_inv_with k c' /\ withdraws_pending (our_state c') = ws
    /\ close_transaction c' = close_transaction c.
Proof.
  intros Hc Hws. pose proof (inv_our k c Hc) as [Hl Hb Hw Ho Hn].
  unfold expire_withdraw. set (e1 := set_nonce _ _). cbv zeta.
  set (e2 := match initiated_coop_settle e1 with Some _ => _ | None => _ end).
  assert (same_locks (our_state c) e2 /\ withdraws_pending e2 = withdraws_pending (our_state c)
          /\ onchain_total_withdraw e2 = onchain_total_withdraw (our_state c)
          /\ contract_balance e2 = contract_balance (our_state c)
          /\ nonce e2 = get_next_nonce (our_state c)) as (F1 & F2 & F3 & F4 & F5).
  { subst e2 e1. destruct (initiated_coop_settle _); [|done]. case_if; done. }
  unfold dict_del_checked, dict_mem. cbn. rewrite F2, Hws. cbn.
  rewrite !decide_True by done. cbn.
  eexists _, _, _. split; [done|]. split; [|done].
  rewrite Hws in Hw. destruct Hw as [Hwf Hk]. destruct (inv_our_withdraws k c Hc) as [Hs _].
  rewrite Hws in Hs. cbn in Hs. apply StronglySorted_inv in Hs as [Hs Hlt].
  apply Forall_cons in Hk as [[_ Hk0] Hk]. apply NoDup_cons in Hwf as [_ Hwf]. cbn in Hk0.
  apply channel_inv_our_funds; cbn; try done.
  - split; cbn; apply F1.
  - split; cbn; [done|]. intros H0in. rewrite Forall_forall in Hlt.
    apply Hlt in H0in. lia.
  - by rewrite F3.
  - rewrite F5. unfold get_next_nonce. lia.
  - eapply (balance_ge _ (our_state c)); [split; cbn; apply F1|cbn; lia| |apply Hc].
    unfold total_withdraw. cbn. rewrite F3.
    enough (offchain_total_withdraw (set_withdraws_pending ws e2)
            <= offchain_total_withdraw (our_state c))
      by (unfold offchain_total_withdraw in *; cbn in *; lia).
    apply offchain_total_withdraw_mono; [apply Hc|]. rewrite Hws. cbn. set_solver.
Qed.

Lemma expire_withdraws_inv ws : forall c nr prng,
  channel_inv_with k c ->
  withdraws_pending (our_state c) = map (fun w => (pw_total_withdraw w, w)) ws ->
  exists c' evs prng', expire_withdraws c ws nr prng = Ok (c', evs, prng')
    /\ channel_inv_with k c' /\ close_transaction c' = close_transaction c.
Proof.
  induction ws as [|w ws IH]; intros c nr prng Hc Hws; cbn; [by eexists _, _, _|].
  case_if; [|by eexists _, _, _].
  destruct (expire_withdraw_inv c w _ prng Hc Hws) as (c1 & ev & prng1 & -> & Hc1 & Hws1 & Hcl1).
  cbn. destruct (IH c1 nr prng1 Hc1 Hws1) as (c2 & evs & prng2 & -> & Hc2 & Hcl2). cbn.
  eexists _, _, _. split; [done|]. split; [done|]. by rewrite Hcl2.
Qed.

(** The snapshot that the loop iterates over is the dictionary itself. *)
Lemma withdraws_snapshot ws :
  withdraws_inv ws -> ws = map (fun w => (pw_total_withdraw w, w)) (dict_values ws).
Proof.
  intros [_ Hk]. unfold dict_values. rewrite map_map. symmetry.
  induction Hk as [|[key w] ws [Heq _] _ IH]; [done|]. cbn in *. by rewrite IH, Heq.
Qed.

Lemma handle_block_handled a c nr prng :
  channel_inv_with k c -> block_number a = nr -> handled (handle_block a c nr prng).
Proof.
  intros Hc Hnr. unfold handle_block. rewrite Hnr, Z.eqb_refl. cbn.
  assert (exists c1 evs1 prng1,
    (if bool_decide (get_status c = STATE_OPENED) then events_for_expired_withdraws c nr prng
     else Ok (c, [], prng)) = Ok (c1, evs1, prng1) /\ channel_inv_with k c1)
    as (c1 & evs1 & prng1 & -> & Hc1).
  { case_if; [|by eexists _, _, _].
    destruct (expire_withdraws_inv (dict_values (withdraws_pending (our_state c))) c nr prng)
      as (c1 & evs & prng1 & Hrun & Hc1 & _); [done| |by eexists _, _, _].
    apply withdraws_snapshot, Hc. }
  cbn. case_bool_decide as Hst; cbn; [|auto with raiden].
  pose proof (inv_close k c1 Hc1) as Hcl. unfold close_inv in Hcl.
  unfold get_status, transaction_status in Hst.
  destruct (settle_transaction c1); [repeat case_if; done|].
  destruct (close_transaction c1) as [t|] eqn:Et; [|done]. cbn.
  case_bool_decide as Hres; [|repeat case_if; done].
  rewrite (Hcl Hres). cbn. case_if; cbn; [|auto with raiden].
  apply handled_keep. apply (channel_inv_frame k c1); [done..|]. unfold close_inv. cbn. by rewrite Et.
Qed.

(** ** Contract events *)

Lemma handle_channel_closed_handled a c prng :
  channel_inv_with k c -> crc_block_number a <> 0 -> handled (handle_channel_closed a c prng).
Proof.
  intros Hc Hb. unfold handle_channel_closed. case_if; [|auto with raiden].
  set (c1 := set_closed c (crc_block_number a)).
  assert (close_inv c1) as Hcl.
  { pose proof (inv_close k c Hc) as Hcl. unfold close_inv in *. cbn. unfold finish_transaction.
    destruct (close_transaction c) as [t|]; [|cbn; by destruct (Z.eqb_spec (crc_block_number a) 0)].
    destruct (block_falsy (finished_block_number t)) eqn:Ef; [|done].
    cbn. by destruct (Z.eqb_spec (crc_block_number a) 0). }
  assert (channel_inv_with k c1) as Hc1 by (by apply (channel_inv_frame k c)).
  case_if; [|auto with raiden].
  destruct (partner_bp_signed c1 "" Hc1) as (bp & -> & Hbp). cbn. bool_hyps.
  destruct Hbp as [bp' ->]; [done|]. cbn.
  apply handled_keep. by apply (channel_inv_frame k c1).
Qed.

Lemma handle_channel_updated_transfer_handled a c nr prng :
  channel_inv_with k c -> handled (handle_channel_updated_transfer a c nr prng).
Proof.
  intros Hc. unfold handle_channel_updated_transfer. case_if; [|auto with raiden].
  apply handled_keep. apply (channel_inv_frame k c); [done..|apply Hc].
Qed.

(** The attributes of the coop settle, the on-chain locksroot and the settle
    transaction do not matter for the partner's and our own invariant as long
    as an initiated coop settle stays initiated. *)
Lemma channel_inv_our_coop c v :
  channel_inv_with k c -> channel_inv_with k (on_our_state (set_initiated_coop_settle (Some v)) c).
Proof.
  intros Hc. pose proof (inv_our k c Hc) as [Hl Hb Hw Ho Hn].
  apply channel_inv_our_funds; try done.
  - split; cbn; [apply Hc|done].
  - apply (inv_our_balance k c Hc).
Qed.

Lemma channel_inv_partner_coop c v :
  channel_inv_with k c -> channel_inv_with k (on_partner_state (set_initiated_coop_settle v) c).
Proof.
  intros Hc. pose proof (inv_partner k c Hc) as [Hl Hb Hw Ho Hn].
  apply channel_inv_partner_funds; try done. apply (inv_partner_balance k c Hc).
Qed.

Lemma channel_inv_our_locksroot c v :
  channel_inv_with k c -> channel_inv_with k (on_our_state (set_onchain_locksroot v) c).
Proof.
  intros Hc. pose proof (inv_our k c Hc) as [Hl Hb Hw Ho Hn].
  apply channel_inv_our_funds; try done.
  - split; cbn; apply Hc.
  - apply (inv_our_balance k c Hc).
Qed.

Lemma channel_inv_partner_locksroot c v :
  channel_inv_with k c -> channel_inv_with k (on_partner_state (set_onchain_locksroot v) c).
Proof.
  intros Hc. pose proof (inv_partner k c Hc) as [Hl Hb Hw Ho Hn].
  apply channel_inv_partner_funds; try done. apply (inv_partner_balance k c Hc).
Qed.

Lemma handle_channel_batch_unlock_handled a c prng :
  channel_inv_with k c -> handled (handle_channel_batch_unlock a c prng).
Proof.
  intros Hc. unfold handle_channel_batch_unlock. case_if; [|auto with raiden].
  set (c1 := if bool_decide (crb_sender a = address (our_state c)) then _ else _).
  assert (channel_inv_with k c1).
  { subst c1. repeat case_if; auto using channel_inv_our_locksroot, channel_inv_partner_locksroot. }
  case_if; auto with raiden.
Qed.

(** A settlement without locks removes the channel; otherwise only the
    on-chain locksroots change. *)
Lemma handle_channel_settled_handled a c prng :
  channel_inv_with k c -> handled (handle_channel_settled a c prng).
Proof.
  intros Hc. unfold handle_channel_settled. case_if; [|auto with raiden].
  set (c1 := set_settled c (crs_block_number a)).
  assert (channel_inv_with k c1) as Hc1 by (apply (channel_inv_frame k c); [done..|apply Hc]).
  cbv zeta.
  destruct (bool_decide (crs_our_onchain_locksroot a = _)) eqn:E1,
    (bool_decide (crs_partner_onchain_locksroot a = _)) eqn:E2.
  1: { unfold set_coop_settled.
       destruct (initiated_coop_settle (our_state c1)) as [v|] eqn:Eo; cbn; [case_if|]; cbn;
         destruct (initiated_coop_settle (partner_state _)) as [v'|] eqn:Ep;
         try case_if; cbn; eauto with raiden. }
  all: destruct (initiated_coop_settle (our_state c1)); rewrite ?andb_false_r; cbn;
    destruct (initiated_coop_settle (partner_state c)); rewrite ?andb_false_r; cbn;
    apply handled_keep, channel_inv_partner_locksroot, channel_inv_our_locksroot, Hc1.
Qed.

(** The channel whose fee schedule is computed anew after a deposit or an
    on-chain withdraw, and the configuration of the fees. *)
Definition balance_changed (c : NettingChannelState) (sc : StateChange) :
    option (NettingChannelState * MediationFeeConfig) :=
  match sc with
  | SContractReceiveChannelDeposit a =>
      let participant := participant_address (crd_deposit_transaction a) in
      let balance := td_contract_balance (crd_deposit_transaction a) in
      Some (if bool_decide (participant = address (our_state c))
            then on_our_state (fun e => update_contract_balance e balance) c
            else if bool_decide (participant = address (partner_state c))
            then on_partner_state (fun e => update_contract_balance e balance) c
            else c, crd_fee_config a)
  | SContractReceiveChannelWithdraw a =>
      if bool_decide (crw_participant a = address (our_state c))
      then Some (on_our_state (apply_onchain_withdraw (crw_total_withdraw a)) c, crw_fee_config a)
      else if bool_decide (crw_participant a = address (partner_state c))
      then Some (on_partner_state (apply_onchain_withdraw (crw_total_withdraw a)) c,
                 crw_fee_config a)
      else None
  | _ => None
  end.

(** The imbalance penalty of the new capacity cannot be computed: the channel
    has an imbalance fee, and the floating point arithmetic of the penalty
    raises [e]. *)
Definition fee_error (c : NettingChannelState) (sc : StateChange) (e : exn) : Prop :=
  exists c1 cfg, balance_changed c sc = Some (c1, cfg)
    /\ get_proportional_imbalance_fee cfg (token_address c1) <> 0
    /\ update_fee_schedule_after_balance_change c1 cfg = Raise e.

(** Without an imbalance fee the schedule is always computed. *)
Lemma update_fee_schedule_inv c cfg :
  channel_inv_with k c ->
  (exists c', update_fee_schedule_after_balance_change c cfg = Ok c' /\ channel_inv_with k c')
  \/ (get_proportional_imbalance_fee cfg (token_address c) <> 0
      /\ exists e, update_fee_schedule_after_balance_change c cfg = Raise e).
Proof.
  intros Hc. pose proof (capacity_nonneg k c Hc) as Hcap.
  destruct (update_fee_schedule_after_balance_change c cfg) as [c'|e] eqn:E;
    unfold update_fee_schedule_after_balance_change in E.
  - left. exists c'. split; [done|]. py_inv. subst c'.
    apply (channel_inv_frame k c); [done..|apply Hc].
  - right. split; [|by exists e]. intros Hz. rewrite Hz in E.
    unfold calculate_imbalance_fees in E. rewrite (proj2 (Z.leb_le _ _) Hcap) in E. done.
Qed.

Lemma update_contract_balance_frame e b :
  same_locks e (update_contract_balance e b)
  /\ withdraws_pending (update_contract_balance e b) = withdraws_pending e
  /\ onchain_total_withdraw (update_contract_balance e b) = onchain_total_withdraw e
  /\ initiated_coop_settle (update_contract_balance e b) = initiated_coop_settle e
  /\ nonce (update_contract_balance e b) = nonce e
  /\ contract_balance (update_contract_balance e b) = Z.max (contract_balance e) b.
Proof.
  unfold update_contract_balance. destruct (Z.ltb_spec (contract_balance e) b);
    split_and!; try split; try reflexivity; cbn; lia.
Qed.

Lemma channel_inv_our_deposit c b :
  channel_inv_with k c -> channel_inv_with k (on_our_state (fun e => update_contract_balance e b) c).
Proof.
  intros Hc. pose proof (inv_our k c Hc) as [Hl Hb Hw Ho Hn].
  destruct (update_contract_balance_frame (our_state c) b) as (F1 & F2 & F3 & F4 & F5 & F6).
  apply channel_inv_our_funds; rewrite ?F2, ?F3, ?F5; try done.
  - destruct (inv_our_withdraws k c Hc). by split; rewrite F2, ?F4.
  - apply (balance_ge _ (our_state c)); [done|lia| |apply Hc].
    unfold total_withdraw, offchain_total_withdraw. by rewrite F2, F3.
Qed.

Lemma channel_inv_partner_deposit c b :
  channel_inv_with k c -> channel_inv_with k (on_partner_state (fun e => update_contract_balance e b) c).
Proof.
  intros Hc. pose proof (inv_partner k c Hc) as [Hl Hb Hw Ho Hn].
  destruct (update_contract_balance_frame (partner_state c) b) as (F1 & F2 & F3 & F4 & F5 & F6).
  apply channel_inv_partner_funds; rewrite ?F2, ?F3, ?F5; try done.
  apply (balance_ge _ (partner_state c)); [done|lia| |apply Hc].
  unfold total_withdraw, offchain_total_withdraw. by rewrite F2, F3.
Qed.

Lemma handle_channel_deposit_handled a c prng :
  channel_inv_with k c ->
  handled (handle_channel_deposit a c prng)
  \/ exists e, fee_error c (SContractReceiveChannelDeposit a) e
      /\ handle_channel_deposit a c prng = Raise e.
Proof.
  intros Hc. unfold handle_channel_deposit, fee_error, balance_changed. cbv zeta.
  set (c1 := if bool_decide (_ = address (our_state c)) then _ else _).
  assert (channel_inv_with k c1) as Hc1.
  { subst c1. repeat case_if; auto using channel_inv_our_deposit, channel_inv_partner_deposit. }
  destruct (update_fee_schedule_inv c1 (crd_fee_config a) Hc1)
    as [(c2 & -> & Hc2)|(Hfee & e & He)]; cbn; [auto with raiden|].
  right. exists e. rewrite He. eauto 6.
Qed.

(** An on-chain withdraw of one end that its balance covers. *)
Lemma apply_onchain_withdraw_frame total e :
  withdraws_inv (withdraws_pending e) ->
  same_locks e (apply_onchain_withdraw total e)
  /\ withdraws_pending (apply_onchain_withdraw total e) = dict_del total (withdraws_pending e)
  /\ onchain_total_withdraw (apply_onchain_withdraw total e) = total
  /\ initiated_coop_settle (apply_onchain_withdraw total e) = initiated_coop_settle e
  /\ nonce (apply_onchain_withdraw total e) = nonce e
  /\ contract_balance (apply_onchain_withdraw total e) = contract_balance e.
Proof.
  intros Hw. unfold apply_onchain_withdraw, dict_mem.
  destruct (dict_get total (withdraws_pending e)) eqn:E; split_and!; try split; try reflexivity.
  cbn. by rewrite dict_del_absent.
Qed.

Lemma onchain_withdraw_balance total e r :
  withdraws_inv (withdraws_pending e) ->
  total + reserved k e <= get_max_withdraw_amount e r -> reserved k e <= get_balance e r ->
  reserved k e <= get_balance (apply_onchain_withdraw total e) r.
Proof.
  intros Hw Ht Hb.
  destruct (apply_onchain_withdraw_frame total e Hw) as (F1 & F2 & F3 & F4 & F5 & F6).
  assert (offchain_total_withdraw (apply_onchain_withdraw total e) <= offchain_total_withdraw e).
  { apply offchain_total_withdraw_mono; [done|]. rewrite F2. apply dict_keys_del_subset. }
  rewrite max_withdraw_balance in Ht. rewrite get_balance_eq in *.
  rewrite (same_locks_transferred _ _ F1), F6. unfold total_withdraw in *. rewrite F3. lia.
Qed.

(** The participant of a withdraw could withdraw this amount. *)
Definition withdraw_covered (c : NettingChannelState) (a : ContractReceiveChannelWithdraw) : Prop :=
  0 <= crw_total_withdraw a
  /\ (crw_participant a = address (our_state c) ->
      crw_total_withdraw a + reserved k (our_state c)
        <= get_max_withdraw_amount (our_state c) (partner_state c))
  /\ (crw_participant a = address (partner_state c) ->
      crw_total_withdraw a + reserved k (partner_state c)
        <= get_max_withdraw_amount (partner_state c) (our_state c)).

(** The channel after an on-chain withdraw that was covered. *)
Lemma withdrawn_inv a c c1 cfg :
  channel_inv_with k c -> withdraw_covered c a ->
  balance_changed c (SContractReceiveChannelWithdraw a) = Some (c1, cfg) ->
  channel_inv_with k c1.
Proof.
  intros Hc (Hnn & Hour & Hpartner). unfold balance_changed.
  case_bool_decide as Hp; [|case_bool_decide as Hq]; intros [= <- <-].
  - destruct (inv_our k c Hc) as [_ _ Hw _ Hn].
    destruct (apply_onchain_withdraw_frame (crw_total_withdraw a) _ Hw)
      as (F1 & F2 & F3 & F4 & F5 & F6).
    apply channel_inv_our_funds; rewrite ?F2, ?F3, ?F5; auto with raiden.
    + eapply our_withdraws_inv_del; [apply Hc|done..].
    + apply onchain_withdraw_balance; [done|auto|apply Hc].
  - destruct (inv_partner k c Hc) as [_ _ Hw _ Hn].
    destruct (apply_onchain_withdraw_frame (crw_total_withdraw a) _ Hw)
      as (F1 & F2 & F3 & F4 & F5 & F6).
    apply channel_inv_partner_funds; rewrite ?F2, ?F3, ?F5; auto with raiden.
    apply onchain_withdraw_balance; [done|auto|apply Hc].
Qed.

(** The handler in terms of the changed channel. *)
Lemma handle_channel_withdraw_eq a c prng :
  handle_channel_withdraw a c prng
  = match balance_changed c (SContractReceiveChannelWithdraw a) with
    | None => Ok (keep c [] prng)
    | Some (c1, cfg) =>
        c2 ← update_fee_schedule_after_balance_change c1 cfg; Ok (keep c2 [] prng)
    end.
Proof.
  unfold handle_channel_withdraw, balance_changed.
  repeat case_bool_decide; try tauto; done.
Qed.

Lemma handle_channel_withdraw_handled a c prng :
  channel_inv_with k c -> withdraw_covered c a ->
  handled (handle_channel_withdraw a c prng)
  \/ exists e, fee_error c (SContractReceiveChannelWithdraw a) e
      /\ handle_channel_withdraw a c prng = Raise e.
Proof.
  intros Hc Hcov. rewrite handle_channel_withdraw_eq.
  destruct (balance_changed c _) as [[c1 cfg]|] eqn:Eb; [|auto with raiden].
  pose proof (withdrawn_inv a c c1 cfg Hc Hcov Eb) as Hc1.
  destruct (update_fee_schedule_inv c1 cfg Hc1) as [(c2 & -> & Hc2)|(Hfee & e & He)]; cbn;
    [auto with raiden|].
  right. exists e. rewrite He. split; [|done]. exists c1, cfg. done.
Qed.

(** ** All state changes *)

(** What the blockchain and the caller guarantee about a state change. *)
Definition env_ok (c : NettingChannelState) (sc : StateChange) (block_nr : Z) : Prop :=
  match sc with
  | SActionChannelClose a => identifier c = channel_identifier (acc_canonical_identifier a)
  | SActionChannelWithdraw a => reserve_kept c (acw_total_withdraw a)
  | SBlock a => block_number a = block_nr
  | SContractReceiveChannelClosed a => crc_block_number a <> 0
  | SContractReceiveChannelWithdraw a => withdraw_covered c a
  | _ => True
  end.

(** The two messages whose signature is checked with [pack_withdraw]. *)
Definition withdraw_message (sc : StateChange) : bool :=
  match sc with
  | SReceiveWithdrawRequest _ | SReceiveWithdrawConfirmation _ => true
  | _ => false
  end.

Lemma handle_state_transitions_handled sc c nr hsh prng :
  channel_inv_with k c -> env_ok c sc nr ->
  handled (handle_state_transitions sc c nr hsh prng)
  \/ (withdraw_message sc = true
      /\ handle_state_transitions sc c nr hsh prng = Raise NotImplementedError)
  \/ exists e, fee_error c sc e /\ handle_state_transitions sc c nr hsh prng = Raise e.
Proof.
  intros Hc He. destruct sc; cbn in *;
    eauto 3 using handle_action_close_handled, handle_action_coop_settle_handled,
      handle_action_withdraw_handled, handle_action_set_reveal_timeout_handled,
      handle_receive_withdraw_expired_handled, handle_block_handled,
      handle_channel_closed_handled, handle_channel_updated_transfer_handled,
      handle_channel_settled_handled, handle_channel_batch_unlock_handled, handled_keep.
  - destruct (handle_channel_deposit_handled ltac:(eassumption) c prng Hc) as [Hd|Hd];
      [left|right; right]; exact Hd.
  - destruct (handle_channel_withdraw_handled ltac:(eassumption) c prng Hc He) as [Hd|Hd];
      [left|right; right]; exact Hd.
  - by right; left.
  - unfold handle_receive_withdraw_confirmation, is_valid_withdraw_confirmation.
    destruct (withdraw_confirmation_error c _) as [err|] eqn:Ee; [|by right; left].
    left. cbn. assert (so_ok err = false) as ->.
    { unfold withdraw_confirmation_error in Ee. case_match; repeat case_if; by simplify_eq. }
    unfold withdraw_confirmation_error in Ee.
    case_match; repeat case_if; simplify_eq; cbn; auto with raiden.
Qed.
End handlers.
