(* ===== verification/ChannelSystem.v ===== *)
(** The operations of a channel as a transition system.

    [channel_step] has a rule for every function through which the node
    changes a channel: the state machine itself, the messages it sends, the
    messages it receives and the secrets it learns.  [reachable] channels start
    from a freshly opened channel. *)

From stdpp Require Import relations.
From S2P Require Import Prelude PyDict Bytes Crypto PyFloat MediationFee State Events.
From S2P Require Import StateChanges Channel ChannelValidation ChannelOps ChannelTransition.
From S2P Require Import ChannelLocks ChannelInvariant ChannelSend ChannelReceive ChannelMachine.

(** ** A fresh channel *)

Section fresh.
Context `{Crypto}.

Lemma new_end_inv a b e :
  new_NettingChannelEndState a b = Ok e ->
  end_inv e /\ our_withdraws_inv e /\ balance_proof e = None /\ address e = a
  /\ get_amount_locked e = 0 /\ contract_balance e = b /\ total_withdraw e = 0 /\ 0 <= b.
Proof.
  unfold new_NettingChannelEndState. intros Hok. py_inv. subst. bool_hyps.
  split_and!; try done.
  - split; cbn; try done; split; cbn; constructor || done.
  - split; [constructor|]. by intros ?%elem_of_nil.
Qed.

Lemma new_channel_inv k cid token registry reveal settle fees a1 b1 a2 b2 e1 e2 opened c :
  new_NettingChannelEndState a1 b1 = Ok e1 ->
  new_NettingChannelEndState a2 b2 = Ok e2 ->
  new_NettingChannelState cid token registry reveal settle fees e1 e2 opened = Ok c ->
  channel_inv_with k c.
Proof.
  intros (I1 & W1 & B1 & A1 & L1 & C1 & T1 & P1)%new_end_inv
    (I2 & W2 & B2 & A2 & L2 & C2 & T2 & P2)%new_end_inv.
  unfold new_NettingChannelState. intros Hok. py_inv. subst c. bool_hyps.
  assert (forall e, balance_proof e = None -> transferred_amount e = 0) as Ht
    by (intros e Hb; unfold transferred_amount; by rewrite Hb).
  split; cbn; try done.
  - unfold bp_signed. by rewrite B2.
  - rewrite get_balance_eq, C1, T1, !Ht by done. unfold reserved. rewrite L1. destruct k; lia.
  - rewrite get_balance_eq, C2, T2, !Ht by done. unfold reserved. rewrite L2. destruct k; lia.
Qed.
End fresh.

Section preservation.
Context `{CryptoLaws} `{FloatPow}.
Implicit Types (c : NettingChannelState).

(** ** The transition system *)

Inductive channel_step : NettingChannelState -> NettingChannelState -> Prop :=
  (** A state change of the node; withdraws leave the pending locks. *)
  | step_state_change c sc nr hsh prng r c' :
      env_ok true c sc nr ->
      state_transition c sc nr hsh prng = Ok r -> new_state r.1 = Some c' ->
      channel_step c c'
  (** The node uses a secrethash once per channel. *)
  | step_send_transfer c initiator target amount mid pid expiration secret sh routes rmd pmd c' ev :
      is_lock_pending (our_state c) sh = false ->
      send_lockedtransfer c initiator target amount mid pid expiration secret sh routes rmd pmd
        = Ok (c', ev) ->
      channel_step c c'
  | step_send_unlock c mid pid secret sh block rmd c' ev :
      send_unlock c mid pid secret sh block rmd = Ok (c', ev) ->
      channel_step c c'
  (** Only a lock that was not unlocked on-chain expires. *)
  | step_send_expired c l prng rmd c' evs prng' :
      get_lock (our_state c) (lock_secrethash l) = Some l ->
      is_secret_known_onchain (our_state c) (lock_secrethash l) = false ->
      nonce (our_state c) < UINT64_MAX ->
      send_lock_expired c l prng rmd = Ok (c', evs, prng') ->
      channel_step c c'
  | step_secret_offchain c secret sh :
      channel_step c (register_offchain_secret c secret sh)
  | step_secret_onchain c secret sh block c' :
      register_onchain_secret c secret sh block true = Ok c' ->
      channel_step c c'
  | step_receive_transfer c t md c' res :
      received_bp (lts_balance_proof t) -> lock_valid (lts_lock t) ->
      is_lock_pending (partner_state c) (lock_secrethash (lts_lock t)) = false ->
      handle_receive_lockedtransfer c t md = Ok (c', res) ->
      channel_step c c'
  | step_receive_refund c t r c' res :
      received_bp (lts_balance_proof (rtr_transfer r)) ->
      lock_valid (lts_lock (rtr_transfer r)) ->
      is_lock_pending (partner_state c) (lock_secrethash (lts_lock (rtr_transfer r))) = false ->
      handle_refundtransfer t c r = Ok (c', res) ->
      channel_step c c'
  | step_receive_unlock c u md c' res :
      received_bp (ru_balance_proof u) ->
      handle_unlock c u md = Ok (c', res) ->
      channel_step c c'
  | step_receive_expired c x block md res :
      received_bp (rle_balance_proof x) ->
      handle_receive_lock_expired c x block md = Ok res ->
      channel_step c (new_state res).

Lemma state_transition_handled k sc c nr hsh prng :
  channel_inv_with k c -> env_ok k c sc nr ->
  handled k (state_transition c sc nr hsh prng)
  \/ (withdraw_message sc = true
      /\ state_transition c sc nr hsh prng = Raise NotImplementedError)
  \/ exists e, fee_error c sc e /\ state_transition c sc nr hsh prng = Raise e.
Proof.
  intros Hc He. unfold state_transition.
  destruct (handle_state_transitions_handled k sc c nr hsh prng Hc He)
    as [(res & -> & Hinv)|[[Hw ->]|(e & Hf & ->)]]; [left|by right; left|right; right; by exists e].
  cbn.
  exists res. split; [|done]. destruct (new_state res.1) as [c'|] eqn:Ec; [|done].
  by rewrite (sanity_check_ok k c' (Hinv c' eq_refl)).
Qed.

Lemma channel_step_inv c c' : solvent_inv c -> channel_step c c' -> solvent_inv c'.
Proof.
  intros Hc Hstep. destruct Hstep as
    [c sc nr hsh prng r c' He Hrun Hnew
    |c initiator target amount mid pid expiration secret sh routes rmd pmd c' ev Hf Hrun
    |c mid pid secret sh block rmd c' ev Hrun
    |c l prng rmd c' evs prng' Hg Hon Hn Hrun
    |c secret sh|c secret sh block c' Hrun
    |c t md c' res Hbp Hv Hf Hrun|c t r c' res Hbp Hv Hf Hrun
    |c u md c' res Hbp Hrun|c x block md res Hbp Hrun].
  - destruct (state_transition_handled true sc c nr hsh prng Hc He)
      as [(res & Hres & Hinv)|[[_ Hres]|(e & _ & Hres)]]; rewrite Hrun in Hres; simplify_eq. by apply Hinv.
  - pose proof (send_lockedtransfer_can _ _ _ _ _ _ _ _ _ _ _ _ _ Hrun Hf) as Hcan.
    destruct (send_lockedtransfer_run true c _ initiator target mid pid secret routes rmd pmd Hc Hcan)
      as (h & ev' & Hrun' & _ & _ & Hbu). cbn in Hrun'. rewrite Hrun in Hrun'. simplify_eq.
    by apply sent_lock_inv.
  - destruct (send_unlock_can _ _ _ _ _ _ _ _ Hrun) as [l Hcan]; [apply Hc|].
    destruct (send_unlock_run true c sh l mid pid secret block rmd Hc Hcan)
      as (h & ev' & Hrun' & _ & _ & Hu). cbn in Hrun'. rewrite Hrun in Hrun'. simplify_eq.
    pose proof (unlock_amount_nonneg true c _ sh l Hc (or_introl eq_refl) (cul_lock _ _ _ _ Hcan)).
    apply (removed_our_inv c sh l _ _ (lock_amount l)); [done|apply Hcan|lia|done].
  - assert (get_status c = STATE_OPENED) as Ho.
    { unfold send_lock_expired in Hrun. apply bind_Ok in Hrun as (? & Ha & _).
      apply py_assert_Ok in Ha. by apply bool_decide_eq_true in Ha. }
    destruct (send_lock_expired_run true c l prng rmd Hc Ho Hg Hon Hn)
      as (h & ev' & Hrun' & _ & _ & Hu). cbn in Hrun'. rewrite Hrun in Hrun'. simplify_eq.
    pose proof (unlock_amount_nonneg true c _ _ l Hc (or_introl eq_refl) Hg).
    apply (removed_our_inv c _ l _ _ 0); [done..|lia|done].
  - by apply register_offchain_secret_inv.
  - destruct (register_onchain_secret_inv true c secret sh block Hc) as (c1 & Hrun' & Hc1).
    rewrite Hrun in Hrun'. by simplify_eq.
  - destruct (handle_receive_lockedtransfer_run true c t md Hc Hbp)
      as [[Ha Hrun']|(_ & m & Hrun')]; rewrite Hrun in Hrun'; simplify_eq; [|done].
    by apply received_lock_inv.
  - destruct (handle_refundtransfer_run true c t r Hc Hbp)
      as [(Ha & _ & m & evs & Hrun')|(_ & m & evs & Hrun')];
      rewrite Hrun in Hrun'; simplify_eq; [|done].
    by apply received_lock_inv.
  - destruct (handle_unlock_run true c u md Hc Hbp)
      as [(l & [Hg Hu Hca] & Hrun')|(_ & m & Hrun')]; rewrite Hrun in Hrun'; simplify_eq; [|done].
    pose proof (unlock_amount_nonneg true c _ _ l Hc (or_intror eq_refl) Hg).
    apply (received_removal_inv c _ l _ (lock_amount l)); done || lia.
  - destruct (handle_receive_lock_expired_run true c x block md Hc Hbp)
      as [(l & [Hg _ _ _ Hu Hca] & Hrun')|(_ & m & Hrun')];
      rewrite Hrun in Hrun'; simplify_eq; [|done].
    pose proof (unlock_amount_nonneg true c _ _ l Hc (or_intror eq_refl) Hg).
    apply (received_removal_inv c _ l _ 0); done || lia.
Qed.

(** A freshly opened channel, with the validations of its constructors. *)
Definition opened (c : NettingChannelState) : Prop :=
  exists cid token registry reveal settle fees a1 b1 a2 b2 e1 e2 tx,
    new_NettingChannelEndState a1 b1 = Ok e1 /\ new_NettingChannelEndState a2 b2 = Ok e2
    /\ new_NettingChannelState cid token registry reveal settle fees e1 e2 tx = Ok c.

Definition reachable (c : NettingChannelState) : Prop :=
  exists c0, opened c0 /\ rtc channel_step c0 c.

Lemma opened_inv k c : opened c -> channel_inv_with k c.
Proof.
  intros (cid & token & registry & reveal & settle & fees & a1 & b1 & a2 & b2 & e1 & e2 & tx
          & E1 & E2 & E3). eauto using new_channel_inv.
Qed.

Lemma steps_inv c c' : rtc channel_step c c' -> solvent_inv c -> solvent_inv c'.
Proof. induction 1; eauto using channel_step_inv. Qed.

(** C1: safety of a channel.  In every channel that can be reached from a
    freshly opened one by the steps of [channel_step], all the assertions of
    [sanity_check] hold, the two balances are never negative, they add up to
    the deposits minus the withdraws, and each of them covers the pending locks
    of its end.  The steps are the state changes, the messages that are sent and
    received and the secrets that are learned, where a withdraw that the user
    asks for or that the blockchain confirms leaves the pending locks covered,
    a [Block] carries the number of the dispatched block, the block of a close
    is not zero, a locked transfer has a secrethash that is not yet pending in
    the channel, only a lock without a secret registered on-chain is expired
    (before the nonces are exhausted),
    and received balance proofs and locks have the ranges of their encoding. *)
Theorem reachable_channel_sound c (Hr : reachable c) :
  sanity_check c = Ok tt
  /\ 0 <= get_amount_locked (our_state c) <= get_balance (our_state c) (partner_state c)
  /\ 0 <= get_amount_locked (partner_state c) <= get_balance (partner_state c) (our_state c)
  /\ get_balance (our_state c) (partner_state c) + get_balance (partner_state c) (our_state c)
     = contract_balance (our_state c) + contract_balance (partner_state c)
       - total_withdraw (our_state c) - total_withdraw (partner_state c).
Proof.
  destruct Hr as (c0 & Ho & Hs).
  pose proof (steps_inv c0 c Hs (opened_inv true c0 Ho)) as Hc.
  split; [by apply (sanity_check_ok true)|].
  pose proof (inv_our_balance _ c Hc). pose proof (inv_partner_balance _ c Hc).
  split_and!; try done; try (apply locked_nonneg, Hc).
  rewrite balances_capacity. unfold get_capacity, our_total_deposit, our_total_withdraw,
    partner_total_deposit, partner_total_withdraw. lia.
Qed.

(** C2: [state_transition] never fails its own sanity check.  From a channel
    with the invariant, a state change returns a channel with the invariant or
    removes the channel, when a close action names this channel, a [Block] has
    the number of the dispatched block, the block of a close on-chain is not
    zero and the total of an on-chain withdraw is not negative and covered by
    the participant's balance.  It raises in two cases only: the [NotImplementedError] of
    [pack_withdraw], for the two messages that check a withdraw signature, and
    for a deposit or an on-chain withdraw of a channel with an imbalance fee,
    the exception that the computation of the fee of the new capacity raises. *)
Theorem state_transition_safe c sc nr hsh prng
    (Hc : channel_inv c) (He : env_ok false c sc nr) :
  (exists res, state_transition c sc nr hsh prng = Ok res
     /\ forall c', new_state res.1 = Some c' -> channel_inv c' /\ sanity_check c' = Ok tt)
  \/ (withdraw_message sc = true
      /\ state_transition c sc nr hsh prng = Raise NotImplementedError)
  \/ (exists e, fee_error c sc e /\ state_transition c sc nr hsh prng = Raise e).
Proof.
  destruct (state_transition_handled false sc c nr hsh prng Hc He) as [(res & Hrun & Hinv)|Hw];
    [left|by right].
  exists res. split; [done|]. intros c' Hc'%Hinv. split; [done|]. by apply (sanity_check_ok false).
Qed.
End preservation.
