(* ===== verification/ChannelProtocol.v ===== *)
(** The two ends of a channel agree.

    The same channel exists twice: in the node that sends a message and in its
    partner.  [mirrored] relates the two copies.  The theorems of this file say
    that what one node sends with [send_lockedtransfer], [send_unlock] or
    [send_lock_expired] is accepted by the validation of the other node, and
    that the two copies are mirrored again afterwards. *)

From S2P Require Import Prelude PyDict Bytes Crypto PyFloat MediationFee State Events.
From S2P Require Import StateChanges Channel ChannelValidation ChannelOps ChannelTransition.
From S2P Require Import ChannelLocks ChannelInvariant ChannelSend ChannelReceive ChannelMachine.

(** [p] is the partner's copy of the end [e]. *)
Record end_mirror (e p : NettingChannelEndState) : Prop := {
  em_address : address p = address e;
  em_contract_balance : contract_balance p = contract_balance e;
  em_withdraw : total_withdraw p = total_withdraw e;
  em_transferred : transferred_amount p = transferred_amount e;
  em_nonce : nonce p = nonce e;
  em_index : lock_index p ≡ₚ lock_index e;
  em_pending : pending_locks p = pending_locks e
}.

Record mirrored (ca cb : NettingChannelState) : Prop := {
  mi_identifier : canonical_identifier cb = canonical_identifier ca;
  mi_sender : end_mirror (our_state ca) (partner_state cb);
  mi_receiver : end_mirror (our_state cb) (partner_state ca)
}.

Section agreement.
Context `{CryptoLaws}.
Implicit Types (ca cb : NettingChannelState) (e p : NettingChannelEndState).

(** The signed balance proof that the partner reads from a message with the
    balance proof [bp]: the same fields, with a signature of the sender. *)
Record delivered (sender : bytes) (bp : BalanceProofUnsignedState)
    (sbp : BalanceProofSignedState) : Prop := {
  dl_received : received_bp sbp;
  dl_nonce : sbp_nonce sbp = ubp_nonce bp;
  dl_transferred : sbp_transferred_amount sbp = ubp_transferred_amount bp;
  dl_locked : sbp_locked_amount sbp = ubp_locked_amount bp;
  dl_locksroot : sbp_locksroot sbp = ubp_locksroot bp;
  dl_identifier : sbp_canonical_identifier sbp = ubp_canonical_identifier bp;
  dl_signature : is_valid_balanceproof_signature sbp sender = Ok success
}.

Lemma mirror_get_lock e p sh :
  locks_inv e -> end_mirror e p -> get_lock p sh = get_lock e sh.
Proof.
  intros Hl Hm. rewrite !get_lock_index. symmetry.
  apply dict_get_perm; [by apply (index_wf _ _ Hl)|]. symmetry. apply Hm.
Qed.

Lemma mirror_locked e p : end_mirror e p -> get_amount_locked p = get_amount_locked e.
Proof. intros Hm. by rewrite !get_amount_locked_index, (em_index _ _ Hm). Qed.

(** Both nodes compute the same balances and the same distributable amount. *)
Lemma mirrored_balance ca cb :
  mirrored ca cb ->
  get_balance (partner_state cb) (our_state cb) = get_balance (our_state ca) (partner_state ca).
Proof.
  intros [_ [_ C1 W1 T1 _ _ _] [_ C2 W2 T2 _ _ _]]. rewrite !get_balance_eq. lia.
Qed.

Lemma mirrored_distributable k ca cb :
  channel_inv_with k ca -> channel_inv_with k cb -> mirrored ca cb ->
  get_distributable (partner_state cb) (our_state cb)
  = get_distributable (our_state ca) (partner_state ca).
Proof.
  intros Ha Hb Hm. rewrite !get_distributable_eq by (apply Ha || apply Hb).
  rewrite (mirrored_balance _ _ Hm), (mirror_locked _ _ (mi_sender _ _ Hm)),
    (em_transferred _ _ (mi_sender _ _ Hm)). done.
Qed.

(** The next balance proof of the sender is usable by the receiver. *)
Lemma delivered_usable ca cb bp sbp :
  mirrored ca cb -> get_status cb = STATE_OPENED ->
  delivered (address (our_state ca)) bp sbp ->
  ubp_nonce bp = get_next_nonce (our_state ca) ->
  ubp_canonical_identifier bp = canonical_identifier ca ->
  ubp_transferred_amount bp + ubp_locked_amount bp <= UINT256_MAX ->
  bp_usable cb (partner_state cb) sbp.
Proof.
  intros [Hid [Ha _ _ _ Hn _ _] _] Ho [_ D1 D2 D3 _ D5 D6] N1 N2 N3.
  split; try done.
  - by rewrite D5, N2.
  - lia.
  - unfold get_next_nonce in *. lia.
  - by rewrite Ha.
Qed.

(** Two updates of mirrored ends by the same balance proof and the same
    locks are mirrored. *)
Lemma updated_mirror e p e' p' bp sbp n paid idx idx' :
  end_mirror e p ->
  end_updated e e' bp n paid idx -> end_updated p p' sbp n paid idx' ->
  idx' ≡ₚ idx -> pending_locks p' = pending_locks e' ->
  end_mirror e' p'.
Proof.
  intros [A1 A2 A3 A4 A5 A6 A7] [_ [F1 F2 F3 F4 _] T1 I1 _ N1 _] [_ [G1 G2 G3 G4 _] T2 I2 _ N2 _]
    Hidx Hp.
  split; try congruence.
  - unfold total_withdraw, offchain_total_withdraw in *. by rewrite G3, G4, F3, F4.
  - by rewrite I2, I1.
Qed.

Lemma updated_mirrored ca cb e' p' bp sbp n paid idx idx' :
  mirrored ca cb ->
  end_updated (our_state ca) e' bp n paid idx ->
  end_updated (partner_state cb) p' sbp n paid idx' ->
  idx' ≡ₚ idx -> pending_locks p' = pending_locks e' ->
  mirrored (set_our_state e' ca) (set_partner_state p' cb).
Proof.
  intros [Hid Hs Hr] Hu Hu' Hidx Hp. split; cbn; [done| |done].
  exact (updated_mirror _ _ _ _ _ _ _ _ _ _ Hs Hu Hu' Hidx Hp).
Qed.

(** A locked transfer that a node can send is accepted by its partner.
    If the copies of the channel are mirrored and the limit of pending
    transfers is not reached, the message of [send_lockedtransfer], signed
    by the sender, passes the validation of the partner, and the copies of
    the channel are mirrored again. *)
Theorem locked_transfer_agreement ca cb l initiator target mid pid secret routes rmd pmd
    (Ha : solvent_inv ca) (Hb : solvent_inv cb) (Hm : mirrored ca cb)
    (Ho : get_status cb = STATE_OPENED) (Hcan : can_send_lock ca l)
    (Hlimit : get_number_of_pending_transfers (our_state ca) < MAXIMUM_PENDING_TRANSFERS) :
  exists ca' ev,
    send_lockedtransfer ca initiator target (lock_amount l) mid pid (lock_expiration l)
      secret (lock_secrethash l) routes rmd pmd = Ok (ca', ev)
    /\ forall t md,
         lts_lock t = l ->
         delivered (address (our_state ca)) (ltu_balance_proof (slt_transfer ev))
           (lts_balance_proof t) ->
         exists cb' evs,
           handle_receive_lockedtransfer cb t md = Ok (cb', (true, evs, None))
           /\ mirrored ca' cb' /\ solvent_inv ca' /\ solvent_inv cb'.
Proof.
  destruct (send_lockedtransfer_run true ca l initiator target mid pid secret routes rmd pmd Ha Hcan)
    as (h & ev & Hrun & Hev & _ & Hbu). cbn in Hrun, Hev.
  eexists _, ev. split; [exact Hrun|]. intros t md <- Hd. rewrite Hev in Hd.
  pose proof (mi_sender _ _ Hm) as Hs. pose proof (inv_our _ ca Ha) as He.
  assert (is_lock_pending (partner_state cb) (lock_secrethash (lts_lock t)) = false) as Hf.
  { apply not_pending_no_lock. rewrite (mirror_get_lock (our_state ca)) by (done || apply He).
    apply not_pending_no_lock, Hcan. }
  assert (transfer_acceptable cb (partner_state cb) (our_state cb)
            (lts_balance_proof t) (lts_lock t)) as Hta.
  { pose proof Hd as [_ D1 D2 D3 D4 D5 D6]. cbn in *.
    split.
    - eapply delivered_usable; try done. exact (bu_bound _ _ _ _ _ Hbu).
    - rewrite (em_pending _ _ Hs). apply (index_fresh_encoded _ _ (end_locks _ He)).
      rewrite <- get_lock_index. apply not_pending_no_lock, Hcan.
    - by rewrite (em_pending _ _ Hs).
    - rewrite (em_pending _ _ Hs). split; [done| |].
      + rewrite (em_transferred _ _ Hs). lia.
      + by rewrite (mirror_locked _ _ Hs).
    - rewrite (mirrored_distributable true ca cb) by done. apply Hcan. }
  destruct (handle_receive_lockedtransfer_run true cb t md Hb (dl_received _ _ _ Hd))
    as [[_ Hrun']|[Hn _]]; [|done].
  eexists _, _. split; [exact Hrun'|].
  pose proof (sent_lock_updated true ca _ _ Ha Hcan Hbu) as Hu.
  pose proof (received_lock_updated true cb _ _ Hb (csl_valid _ _ Hcan) Hf Hta) as Hu'.
  split_and!; [|by apply sent_lock_inv|by apply received_lock_inv; [..|apply Hcan| |]].
  replace (get_next_nonce (partner_state cb)) with (get_next_nonce (our_state ca)) in Hu'
    by (unfold get_next_nonce; by rewrite (em_nonce _ _ Hs)).
  eapply updated_mirrored; [done|exact Hu|exact Hu'| |].
  - by rewrite (em_index _ _ Hs).
  - cbn. by rewrite (em_pending _ _ Hs).
Qed.

(** The balance proof that drops a lock carries the expected amounts for the
    receiver, too. *)
Lemma delivered_removal ca cb l bp sbp paid sender :
  mirrored ca cb -> delivered sender bp sbp ->
  bp_updates (our_state ca) (UnsignedBP bp)
    (remove_first (lock_encoded l) (pending_locks (our_state ca))) paid
    (get_amount_locked (our_state ca) - lock_amount l) ->
  bp_carries (partner_state cb) sbp
    (remove_first (lock_encoded l) (pending_locks (partner_state cb))) paid (- lock_amount l).
Proof.
  intros Hm [_ D1 D2 D3 D4 D5 D6] [B1 B2 B3 B4]. cbn in *.
  pose proof (mi_sender _ _ Hm) as Hs.
  split; rewrite ?(em_pending _ _ Hs), ?(em_transferred _ _ Hs), ?(mirror_locked _ _ Hs); lia || congruence.
Qed.

Lemma bp_updates_of_updated e e' bp n paid idx :
  end_updated e e' bp n paid idx ->
  bp_updates e bp (pending_locks e') paid (index_amount idx).
Proof.
  intros [[_ Hb _ _ _] _ Ht _ Hl _ Hbp]. unfold bp_inv in Hb. unfold transferred_amount at 1 in Ht.
  rewrite Hbp in *. destruct Hb as (B1 & B2 & B3 & B4). split; congruence || lia.
Qed.

(** The state after the removal of the same lock on both sides. *)
Lemma removal_mirrored ca cb sh l bp sbp paid :
  solvent_inv ca -> solvent_inv cb -> mirrored ca cb ->
  get_lock (our_state ca) sh = Some l -> 0 <= paid <= lock_amount l ->
  end_updated (our_state ca)
    (removed_lock (our_state ca) sh l (UnsignedBP bp) (get_next_nonce (our_state ca)))
    (UnsignedBP bp) (get_next_nonce (our_state ca)) paid (dict_del sh (lock_index (our_state ca))) ->
  bp_usable cb (partner_state cb) sbp ->
  bp_carries (partner_state cb) sbp
    (remove_first (lock_encoded l) (pending_locks (partner_state cb))) paid (- lock_amount l) ->
  mirrored
    (set_our_state
       (removed_lock (our_state ca) sh l (UnsignedBP bp) (get_next_nonce (our_state ca))) ca)
    (received_removal cb sh l sbp)
  /\ solvent_inv
      (set_our_state
         (removed_lock (our_state ca) sh l (UnsignedBP bp) (get_next_nonce (our_state ca))) ca)
  /\ solvent_inv (received_removal cb sh l sbp).
Proof.
  intros Ha Hb Hm Hg Hp Hu Hus Hca. pose proof (mi_sender _ _ Hm) as Hs.
  assert (get_lock (partner_state cb) sh = Some l) as Hg'
    by (by rewrite (mirror_get_lock (our_state ca)) by (done || apply Ha)).
  pose proof (received_removal_updated true cb sh l sbp paid Hb Hg' (proj1 Hp) Hus Hca) as Hu'.
  split_and!;
    [|by apply (removed_our_inv ca sh l _ _ paid)|by apply (received_removal_inv cb sh l sbp paid)].
  replace (get_next_nonce (partner_state cb)) with (get_next_nonce (our_state ca)) in Hu'
    by (unfold get_next_nonce; by rewrite (em_nonce _ _ Hs)).
  eapply updated_mirrored; [done|exact Hu|exact Hu'| |].
  - rewrite get_lock_index in Hg, Hg'. apply (Permutation_cons_inv (a := (sh, l))).
    rewrite <- (dict_del_perm _ _ _ Hg), <- (dict_del_perm _ _ _ Hg'). apply Hs.
  - cbn. by rewrite (em_pending _ _ Hs).
Qed.

(** An unlock that a node can send is accepted by its partner, which then
    has the amount of the lock in its balance; the copies of the channel are
    mirrored again. *)
Theorem unlock_agreement ca cb sh l mid pid secret block rmd
    (Ha : solvent_inv ca) (Hb : solvent_inv cb) (Hm : mirrored ca cb)
    (Ho : get_status cb = STATE_OPENED) (Hcan : can_unlock ca sh l block) :
  exists ca' ev,
    send_unlock ca mid pid secret sh block rmd = Ok (ca', ev)
    /\ forall u md,
         ru_secrethash u = sh ->
         delivered (address (our_state ca)) (su_balance_proof ev) (ru_balance_proof u) ->
         exists cb' evs,
           handle_unlock cb u md = Ok (cb', (true, evs, None))
           /\ mirrored ca' cb' /\ solvent_inv ca' /\ solvent_inv cb'
           /\ get_balance (our_state cb') (partner_state cb')
              = get_balance (our_state cb) (partner_state cb) + lock_amount l.
Proof.
  destruct (send_unlock_run true ca sh l mid pid secret block rmd Ha Hcan)
    as (h & ev & Hrun & Hev & _ & Hu). cbn in Hrun, Hev, Hu.
  eexists _, ev. split; [exact Hrun|]. intros u md <- Hd. rewrite Hev in Hd.
  pose proof (cul_lock _ _ _ _ Hcan) as Hg.
  pose proof (unlock_amount_nonneg true ca _ _ l Ha (or_introl eq_refl) Hg) as Hnn.
  pose proof (bp_updates_of_updated _ _ _ _ _ _ Hu) as Hbu. cbn in Hbu.
  rewrite (index_amount_del _ _ l) in Hbu by done.
  assert (bp_usable cb (partner_state cb) (ru_balance_proof u)) as Hus
    by (eapply delivered_usable; try done; exact (bu_bound _ _ _ _ _ Hbu)).
  pose proof (delivered_removal ca cb l _ _ _ _ Hm Hd Hbu) as Hca.
  destruct (removal_mirrored ca cb _ l _ _ _ Ha Hb Hm Hg (conj Hnn (Z.le_refl _)) Hu Hus Hca)
    as (Hm' & Ha' & Hb').
  assert (get_lock (partner_state cb) (ru_secrethash u) = Some l) as Hg'
    by (by rewrite (mirror_get_lock (our_state ca)) by (apply Hm || apply Ha)).
  destruct (handle_unlock_run true cb u md Hb (dl_received _ _ _ Hd))
    as [(l' & [Hl' _ _] & Hrun')|[Hn _]]; [|by destruct (Hn l)]. rewrite Hg' in Hl'. injection Hl' as <-.
  eexists _, _. split; [exact Hrun'|]. split_and!; try done.
  by destruct (received_removal_effect cb _ l _ _ Hb Hg' (conj Hnn (Z.le_refl _)) Hus Hca)
    as (_ & _ & _ & _ & _ & B & _).
Qed.

(** An expiration that a node sends is accepted by its partner once the
    partner's block is past the receiver's threshold, unless one of the
    copies knows the secret from the chain; the copies of the channel are
    mirrored again. *)
Theorem lock_expired_agreement ca cb l prng rmd block
    (Ha : solvent_inv ca) (Hb : solvent_inv cb) (Hm : mirrored ca cb)
    (Hoa : get_status ca = STATE_OPENED) (Ho : get_status cb = STATE_OPENED)
    (Hg : get_lock (our_state ca) (lock_secrethash l) = Some l)
    (Hon : is_secret_known_onchain (our_state ca) (lock_secrethash l) = false)
    (Honp : is_secret_known_onchain (partner_state cb) (lock_secrethash l) = false)
    (Hono : is_secret_known_onchain (our_state cb) (lock_secrethash l) = false)
    (Hn : nonce (our_state ca) < UINT64_MAX)
    (Hblock : get_receiver_expiration_threshold (lock_expiration l) <= block) :
  exists ca' ev prng',
    send_lock_expired ca l prng rmd = Ok (ca', [ev], prng')
    /\ forall x md,
         rle_secrethash x = sle_secrethash ev ->
         delivered (address (our_state ca)) (sle_balance_proof ev) (rle_balance_proof x) ->
         exists cb' evs,
           handle_receive_lock_expired cb x block md = Ok (mkTransitionResult cb' evs)
           /\ get_lock (partner_state cb') (lock_secrethash l) = None
           /\ mirrored ca' cb' /\ solvent_inv ca' /\ solvent_inv cb'.
Proof.
  destruct (send_lock_expired_run true ca l prng rmd Ha Hoa Hg Hon Hn)
    as (h & ev & Hrun & Hev & Hsh & Hu). cbn in Hrun, Hev, Hsh, Hu.
  eexists _, ev, _. split; [exact Hrun|]. intros x md Hx Hd. rewrite Hev in Hd. rewrite Hsh in Hx.
  pose proof (unlock_amount_nonneg true ca _ _ l Ha (or_introl eq_refl) Hg) as Hnn.
  pose proof (bp_updates_of_updated _ _ _ _ _ _ Hu) as Hbu. cbn in Hbu.
  rewrite (index_amount_del _ _ l) in Hbu by done.
  assert (bp_usable cb (partner_state cb) (rle_balance_proof x)) as Hus
    by (eapply delivered_usable; try done; exact (bu_bound _ _ _ _ _ Hbu)).
  pose proof (delivered_removal ca cb l _ _ _ _ Hm Hd Hbu) as Hca.
  destruct (removal_mirrored ca cb _ l _ _ _ Ha Hb Hm Hg (conj (Z.le_refl 0) Hnn) Hu Hus Hca)
    as (Hm' & Ha' & Hb').
  assert (get_lock (partner_state cb) (lock_secrethash l) = Some l) as Hg'
    by (by rewrite (mirror_get_lock (our_state ca)) by (apply Hm || apply Ha)).
  destruct (handle_receive_lock_expired_run true cb x block md Hb (dl_received _ _ _ Hd))
    as [(l' & [Hl' _ _ _ _ _] & Hrun')|[Hno _]]; rewrite Hx in *;
    [|by destruct (Hno l)]. rewrite Hg' in Hl'. injection Hl' as <-.
  eexists _, _. split; [exact Hrun'|]. split_and!; try done.
  by destruct (received_removal_effect cb _ l _ _ Hb Hg' (conj (Z.le_refl 0) Hnn) Hus Hca)
    as (_ & _ & B & _).
Qed.
End agreement.
