(* ===== verification/ChannelLifecycle.v ===== *)
(** The life cycle of a channel: its status only moves forward, and expired
    withdraws are given up in the order in which they were requested. *)

From S2P Require Import Prelude PyDict Bytes Crypto PyFloat MediationFee State Events.
From S2P Require Import StateChanges Channel ChannelValidation ChannelOps ChannelTransition.
From S2P Require Import ChannelLocks ChannelInvariant ChannelSend ChannelReceive ChannelMachine.

(** ** The status *)

(** A transaction that the code has recorded: running, or finished with
    success in a block. *)
Definition tx_recorded (t : option TransactionExecutionStatus) : Prop :=
  match t with
  | None => True
  | Some tx =>
      (tx_result tx = None /\ finished_block_number tx = None)
      \/ (tx_result tx = Some SUCCESS /\ block_falsy (finished_block_number tx) = false)
  end.

Definition txs_recorded (c : NettingChannelState) : Prop :=
  tx_recorded (close_transaction c) /\ tx_recorded (settle_transaction c).

Definition status_rank (s : ChannelState) : Z :=
  match s with
  | STATE_OPENED => 0
  | STATE_CLOSING => 1
  | STATE_CLOSED => 2
  | STATE_SETTLING => 3
  | STATE_SETTLED => 4
  | STATE_UNUSABLE => 5
  end.

(** How far a transaction has come: not sent, running, finished. *)
Definition tx_rank (t : option TransactionExecutionStatus) : Z :=
  match t with
  | None => 0
  | Some tx => if bool_decide (tx_result tx = Some SUCCESS) then 2 else 1
  end.

Lemma status_of_ranks c :
  txs_recorded c ->
  status_rank (get_status c)
  = match settle_transaction c with
    | Some _ => 2 + tx_rank (settle_transaction c)
    | None => tx_rank (close_transaction c)
    end
  /\ get_status c <> STATE_UNUSABLE.
Proof.
  intros [Hc Hs]. unfold get_status, transaction_status, tx_rank, tx_recorded in *.
  destruct (settle_transaction c) as [[s1 f1 r1]|]; [|destruct (close_transaction c) as [[s2 f2 r2]|]];
    cbn in *; repeat case_bool_decide; try done; naive_solver.
Qed.

Lemma tx_rank_bounds t : 0 <= tx_rank t <= 2.
Proof. unfold tx_rank. destruct t; [case_bool_decide|]; lia. Qed.

(** Forward steps of the two transactions move the status forward. *)
Lemma status_forward c c' :
  txs_recorded c -> txs_recorded c' ->
  (settle_transaction c = None -> settle_transaction c' = None ->
   tx_rank (close_transaction c) <= tx_rank (close_transaction c')) ->
  (is_Some (settle_transaction c) ->
   is_Some (settle_transaction c')
   /\ tx_rank (settle_transaction c) <= tx_rank (settle_transaction c')) ->
  status_rank (get_status c) <= status_rank (get_status c').
Proof.
  intros Hc Hc' Hclose Hsettle.
  destruct (status_of_ranks c Hc) as [-> _], (status_of_ranks c' Hc') as [-> _].
  pose proof (tx_rank_bounds (close_transaction c)).
  destruct (settle_transaction c) as [t|] eqn:E.
  - destruct Hsettle as [[t' ->] Hle]; [done|]. lia.
  - destruct (settle_transaction c') as [t'|]; [|by apply Hclose].
    unfold tx_rank at 2. case_bool_decide; lia.
Qed.

Lemma finish_transaction_recorded t n :
  n <> 0 -> tx_recorded t ->
  tx_recorded (finish_transaction t n) /\ tx_rank (finish_transaction t n) = 2.
Proof.
  intros Hn Ht. assert ((n =? 0) = false) as Hz by lia.
  unfold finish_transaction, tx_recorded, tx_rank in *. destruct t as [[s f r]|]; cbn in *.
  - destruct (block_falsy f) eqn:E; cbn; rewrite ?Hz; [by split; [right|]|].
    destruct Ht as [[_ ->]|[-> _]]; [done|]. by split; [right|].
  - rewrite Hz. split; [by right|done].
Qed.

Section lifecycle.
Context `{Crypto} `{FloatPow}.
Implicit Types (c : NettingChannelState).

(** The handler left the two transactions as they were. *)
Definition keeps_txs c (r : Py ChannelResult) : Prop :=
  forall res c', r = Ok res -> new_state res.1 = Some c' ->
    close_transaction c' = close_transaction c /\ settle_transaction c' = settle_transaction c.

Lemma keep_txs c evs prng : keeps_txs c (Ok (keep c evs prng)).
Proof. intros res c' Hr Hc. injection Hr as <-. injection Hc as <-. done. Qed.

Lemma send_withdraw_request_txs c total expiration prng md b :
  let c' := (send_withdraw_request c total expiration prng md b).1.1 in
  close_transaction c' = close_transaction c /\ settle_transaction c' = settle_transaction c.
Proof.
  unfold send_withdraw_request. cbv zeta. destruct (negb _); [done|].
  by destruct (message_identifier_from_prng prng).
Qed.

Lemma expire_withdraws_txs ws : forall c nr prng c' evs prng',
  expire_withdraws c ws nr prng = Ok (c', evs, prng') ->
  close_transaction c' = close_transaction c /\ settle_transaction c' = settle_transaction c.
Proof.
  induction ws as [|w ws IH]; intros c nr prng c' evs prng' Hrun; cbn in Hrun; [by simplify_eq|].
  case_if; [|by simplify_eq].
  destruct (expire_withdraw c w prng) as [[[c1 ev] prng1]|] eqn:E1; [cbn in Hrun|done].
  destruct (expire_withdraws c1 ws nr prng1) as [[[c2 evs2] prng2]|] eqn:E2; [cbn in Hrun|done].
  simplify_eq. destruct (IH _ _ _ _ _ _ E2) as [-> ->].
  unfold expire_withdraw, message_identifier_from_prng in E1. py_inv. by simplify_eq.
Qed.

Lemma update_fee_schedule_txs c cfg c' :
  update_fee_schedule_after_balance_change c cfg = Ok c' ->
  close_transaction c' = close_transaction c /\ settle_transaction c' = settle_transaction c.
Proof. unfold update_fee_schedule_after_balance_change. intros Hok. py_inv. by subst. Qed.

Lemma handle_action_withdraw_txs c a nr prng :
  keeps_txs c (handle_action_withdraw a c prng nr).
Proof.
  intros res c' Hrun Hnew. unfold handle_action_withdraw in Hrun. case_if; [|py_inv; by simplify_eq/=].
  destruct (send_withdraw_request _ _ _ _ _ _) as [[c1 evs] prng1] eqn:E. py_inv. simplify_eq/=.
  rewrite <- (f_equal (fun x => x.1.1) E : (send_withdraw_request _ _ _ _ _ _).1.1 = c').
  apply send_withdraw_request_txs.
Qed.

Lemma handle_action_coop_settle_txs c a nr prng :
  keeps_txs c (handle_action_coop_settle a c prng nr).
Proof.
  intros res c' Hrun Hnew. unfold handle_action_coop_settle in Hrun. case_if; [|py_inv; by simplify_eq/=].
  destruct (send_withdraw_request _ _ _ _ _ _) as [[c1 evs] prng1] eqn:E. py_inv. simplify_eq/=.
  rewrite <- (f_equal (fun x => x.1.1) E : (send_withdraw_request _ _ _ _ _ _).1.1 = c').
  exact (send_withdraw_request_txs (on_our_state _ c) _ _ _ _ _).
Qed.

Lemma handle_receive_withdraw_expired_txs c a nr prng :
  keeps_txs c (handle_receive_withdraw_expired a c nr prng).
Proof.
  intros res c' Hrun Hnew. unfold handle_receive_withdraw_expired in Hrun. case_match; [|by simplify_eq/=].
  case_if; py_inv; by simplify_eq/=.
Qed.

Lemma handle_receive_withdraw_confirmation_txs c a3 nr hsh prng :
  keeps_txs c (handle_receive_withdraw_confirmation a3 c nr hsh prng).
Proof.
  intros res c' Hrun Hnew. unfold handle_receive_withdraw_confirmation, is_valid_withdraw_confirmation, is_valid_withdraw,
    pack_withdraw in Hrun.
  destruct (withdraw_confirmation_error c a3) as [err|] eqn:E; [|done]. cbn in Hrun.
  case_if; [|py_inv; by simplify_eq/=].
  exfalso. unfold withdraw_confirmation_error in E. case_match; repeat case_if; by simplify_eq.
Qed.

(** Blocks of contract events are never block zero. *)
Definition blocks_positive (sc : StateChange) : Prop :=
  match sc with
  | SContractReceiveChannelClosed a => crc_block_number a <> 0
  | SContractReceiveChannelSettled a => crs_block_number a <> 0
  | _ => True
  end.

Definition forward c c' : Prop :=
  txs_recorded c' /\ status_rank (get_status c) <= status_rank (get_status c').

Lemma forward_same c c' :
  txs_recorded c -> close_transaction c' = close_transaction c ->
  settle_transaction c' = settle_transaction c -> forward c c'.
Proof.
  intros Ht Hc Hs. unfold forward, txs_recorded, get_status in *. rewrite Hc, Hs. split; [done|lia].
Qed.

(** A close transaction of an open or closing channel is started again. *)
Lemma handle_action_close_forward c a nr hsh prng res c' :
  txs_recorded c -> handle_action_close a c nr hsh prng = Ok res ->
  new_state res.1 = Some c' -> forward c c'.
Proof.
  intros Ht Hrun Hnew. unfold handle_action_close, events_for_close in Hrun.
  apply bind_Ok in Hrun as ([] & _ & Hrun).
  case_bool_decide as Hst; [|py_inv; simplify_eq/=; by apply forward_same].
  py_inv. destruct x as [c1 evs]. py_inv. simplify_eq/=.
  assert (txs_recorded (set_close_transaction
    (Some (mkTransactionExecutionStatus (Some nr) None None)) c)) as Ht'
    by (split; [by left|apply Ht]).
  split; [done|]. apply status_forward; try done.
  intros Hs _. unfold get_status in Hst. rewrite Hs in Hst.
  change (tx_rank (close_transaction c) <= 1).
  destruct (close_transaction c) as [tx|]; [|done]. unfold transaction_status, tx_rank in *.
  case_bool_decide; [|done].
  exfalso. unfold CHANNEL_STATES_PRIOR_TO_CLOSED in Hst. set_solver.
Qed.

Lemma handle_channel_closed_forward c a prng res c' :
  txs_recorded c -> crc_block_number a <> 0 ->
  handle_channel_closed a c prng = Ok res -> new_state res.1 = Some c' -> forward c c'.
Proof.
  intros Ht Hb Hrun Hnew. unfold handle_channel_closed in Hrun.
  case_if; [|simplify_eq/=; by apply forward_same].
  set (c1 := set_closed c (crc_block_number a)) in *.
  destruct (finish_transaction_recorded (close_transaction c) _ Hb (proj1 Ht)) as [Hr Hrank].
  assert (close_transaction c' = close_transaction c1 /\ settle_transaction c' = settle_transaction c)
    as [E1 E2] by (case_if; py_inv; by simplify_eq/=).
  assert (txs_recorded c') as Ht' by (split; rewrite ?E1, ?E2; [done|apply Ht]).
  split; [done|]. apply status_forward; try done; rewrite ?E1, ?E2; [|done].
  intros _ _. cbn. rewrite Hrank. pose proof (tx_rank_bounds (close_transaction c)). lia.
Qed.

Lemma handle_block_forward c a nr prng res c' :
  txs_recorded c -> handle_block a c nr prng = Ok res -> new_state res.1 = Some c' -> forward c c'.
Proof.
  intros Ht Hrun Hnew. unfold handle_block in Hrun. apply bind_Ok in Hrun as ([] & _ & Hrun).
  apply bind_Ok in Hrun as ([[c1 evs1] prng1] & Hex & Hrun).
  assert (close_transaction c1 = close_transaction c /\ settle_transaction c1 = settle_transaction c)
    as [E1 E2].
  { clear Hrun. case_if; [|by simplify_eq]. eapply expire_withdraws_txs, Hex. }
  case_bool_decide as Hst; [|py_inv; simplify_eq/=; by apply forward_same].
  cbn in Hrun. destruct (close_transaction c1) as [tx|] eqn:Etx; [cbn in Hrun|done].
  destruct (negb _); [cbn in Hrun|done].
  case_if; cbn in Hrun; simplify_eq/=; [|apply forward_same; congruence].
  assert (settle_transaction c = None) as Hs.
  { unfold get_status, transaction_status in Hst. rewrite E2 in Hst.
    destruct (settle_transaction c); [|done]. repeat case_bool_decide; done. }
  split.
  - split; cbn; [rewrite Etx, E1; apply Ht|by left].
  - apply status_forward; try done; [split; cbn; [rewrite Etx, E1; apply Ht|by left]|].
    rewrite Hs. by intros [].
Qed.

Lemma handle_channel_settled_forward c a prng res c' :
  txs_recorded c -> crs_block_number a <> 0 ->
  handle_channel_settled a c prng = Ok res -> new_state res.1 = Some c' -> forward c c'.
Proof.
  intros Ht Hb Hrun Hnew. unfold handle_channel_settled in Hrun.
  case_if; [|simplify_eq/=; by apply forward_same].
  set (c1 := set_settled c (crs_block_number a)) in *.
  destruct (finish_transaction_recorded (settle_transaction c) _ Hb (proj2 Ht)) as [Hr Hrank].
  apply bind_Ok in Hrun as ([c2 o2] & H2 & Hrun). apply bind_Ok in Hrun as ([c3 o3] & H3 & Hrun).
  assert (close_transaction c2 = close_transaction c /\ settle_transaction c2 = settle_transaction c1)
    as [E1 E2] by (repeat case_match; py_inv; by simplify_eq/=).
  assert (close_transaction c3 = close_transaction c /\ settle_transaction c3 = settle_transaction c1)
    as [E3 E4] by (repeat case_match; py_inv; by simplify_eq/=).
  assert (close_transaction c' = close_transaction c /\ settle_transaction c' = settle_transaction c1)
    as [E5 E6].
  { case_if; [by simplify_eq/=|]. simplify_eq/=. by case_if. }
  assert (txs_recorded c') as Ht' by (split; rewrite ?E5, ?E6; [apply Ht|done]).
  split; [done|]. apply status_forward; try done; rewrite ?E5, ?E6.
  - lia.
  - intros _. unfold c1. cbn. rewrite Hrank. pose proof (tx_rank_bounds (settle_transaction c)).
    unfold finish_transaction. destruct (settle_transaction c) as [tx|]; [case_if|]; split; eauto; lia.
Qed.

Lemma handle_action_set_reveal_timeout_txs c a prng :
  keeps_txs c (handle_action_set_reveal_timeout a c prng).
Proof.
  intros res c' Hrun Hnew. unfold handle_action_set_reveal_timeout in Hrun. case_if; by simplify_eq/=.
Qed.

Lemma handle_channel_updated_transfer_txs c a nr prng :
  keeps_txs c (handle_channel_updated_transfer a c nr prng).
Proof.
  intros res c' Hrun Hnew. unfold handle_channel_updated_transfer in Hrun. case_if; by simplify_eq/=.
Qed.

Lemma handle_channel_deposit_txs c a prng :
  keeps_txs c (handle_channel_deposit a c prng).
Proof.
  intros res c' Hrun Hnew. unfold handle_channel_deposit in Hrun. py_inv. simplify_eq/=.
  match goal with Hu : update_fee_schedule_after_balance_change _ _ = Ok _ |- _ =>
    apply update_fee_schedule_txs in Hu as [-> ->] end. repeat case_if; done.
Qed.

Lemma handle_channel_withdraw_txs c a prng :
  keeps_txs c (handle_channel_withdraw a c prng).
Proof.
  intros res c' Hrun Hnew. unfold handle_channel_withdraw in Hrun. case_if; [by simplify_eq/=|]. py_inv. simplify_eq/=.
  match goal with Hu : update_fee_schedule_after_balance_change _ _ = Ok _ |- _ =>
    apply update_fee_schedule_txs in Hu as [-> ->] end. case_if; done.
Qed.

Lemma handle_channel_batch_unlock_txs c a prng :
  keeps_txs c (handle_channel_batch_unlock a c prng).
Proof.
  intros res c' Hrun Hnew. unfold handle_channel_batch_unlock in Hrun. case_if; [|by simplify_eq/=].
  case_if; simplify_eq/=. repeat case_if; done.
Qed.

(** The status of a channel only moves forward, in the order opened,
    closing, closed, settling, settled, whatever the sequence of state
    changes is; and the code never records a failed transaction, so that no
    channel becomes unusable. *)
Theorem status_moves_forward c sc nr hsh prng res c'
    (Ht : txs_recorded c) (Hb : blocks_positive sc)
    (Hrun : state_transition c sc nr hsh prng = Ok res)
    (Hnew : new_state res.1 = Some c') :
  txs_recorded c'
  /\ status_rank (get_status c) <= status_rank (get_status c')
  /\ get_status c' <> STATE_UNUSABLE.
Proof.
  enough (forward c c') as [Ht' Hle]
    by (split_and!; [done|done|by destruct (status_of_ranks c' Ht')]).
  apply bind_Ok in Hrun as (it & Hrun & Hok). apply bind_Ok in Hok as ([] & _ & Hok).
  injection Hok as ->.
  assert (keeps_txs c (handle_state_transitions sc c nr hsh prng) -> forward c c') as Hkeep.
  { intros Hk. destruct (Hk _ _ Hrun Hnew). by apply forward_same. }
  destruct sc; cbn in Hrun, Hkeep;
    eauto 3 using keep_txs, handle_action_withdraw_txs, handle_action_coop_settle_txs,
      handle_receive_withdraw_expired_txs, handle_receive_withdraw_confirmation_txs,
      handle_action_set_reveal_timeout_txs, handle_channel_updated_transfer_txs,
      handle_channel_deposit_txs, handle_channel_withdraw_txs, handle_channel_batch_unlock_txs;
    eauto using handle_action_close_forward, handle_block_forward, handle_channel_closed_forward,
      handle_channel_settled_forward.
  discriminate Hrun.
Qed.

(** ** Expired withdraws *)

Lemma expire_withdraws_spec ws : forall c nr prng,
  channel_inv c ->
  withdraws_pending (our_state c) = map (fun w => (pw_total_withdraw w, w)) ws ->
  exists expired rest c' evs prng',
    ws = expired ++ rest
    /\ Forall (fun w => get_sender_expiration_threshold (pw_expiration w) <= nr) expired
    /\ (forall w, head rest = Some w -> nr < get_sender_expiration_threshold (pw_expiration w))
    /\ expire_withdraws c ws nr prng = Ok (c', evs, prng')
    /\ channel_inv c'
    /\ withdraws_pending (our_state c') = map (fun w => (pw_total_withdraw w, w)) rest
    /\ length evs = length expired
    /\ nonce (our_state c') = nonce (our_state c) + Z.of_nat (length expired).
Proof.
  induction ws as [|w ws IH]; intros c nr prng Hc Hws; cbn.
  - exists [], [], c, [], prng. split_and!; try done. cbn. lia.
  - unfold is_withdraw_expired. destruct (Z.leb_spec (get_sender_expiration_threshold
      (pw_expiration w)) nr) as [Hle|Hgt].
    + destruct (expire_withdraw_inv false c w _ prng Hc Hws)
        as (c1 & ev & prng1 & Hrun & Hc1 & Hws1 & _). rewrite Hrun. cbn.
      destruct (IH c1 nr prng1 Hc1 Hws1)
        as (ex & rest & c2 & evs & prng2 & -> & Hex & Hrest & -> & Hc2 & Hws2 & Hlen & Hn). cbn.
      exists (w :: ex), rest. eexists _, _, _. split_and!; try done.
      * by constructor.
      * cbn. by rewrite Hlen.
      * rewrite Hn. unfold expire_withdraw, message_identifier_from_prng in Hrun. py_inv.
        simplify_eq/=.
        match goal with |- nonce ?e + _ = _ => assert (nonce e = nonce (our_state c) + 1) as -> end.
        { destruct (initiated_coop_settle (our_state c)); [case_if|]; reflexivity. }
        lia.
    + exists [], (w :: ws), c, [], prng. split_and!; try done; cbn; [naive_solver|lia].
Qed.

(** On a new block, an open channel gives up exactly the withdraws whose
    sender threshold has passed, up to the first one that has not expired, in
    the order of the requests.  Each one gets one message, with its own nonce;
    the remaining withdraws and the invariant are kept. *)
Theorem expired_withdraws_given_up c nr prng (Hc : channel_inv c) :
  exists expired rest c' evs prng',
    dict_values (withdraws_pending (our_state c)) = expired ++ rest
    /\ Forall (fun w => get_sender_expiration_threshold (pw_expiration w) <= nr) expired
    /\ (forall w, head rest = Some w -> nr < get_sender_expiration_threshold (pw_expiration w))
    /\ events_for_expired_withdraws c nr prng = Ok (c', evs, prng')
    /\ dict_values (withdraws_pending (our_state c')) = rest
    /\ length evs = length expired
    /\ nonce (our_state c') = nonce (our_state c) + Z.of_nat (length expired)
    /\ channel_inv c'.
Proof.
  destruct (expire_withdraws_spec (dict_values (withdraws_pending (our_state c))) c nr prng Hc)
    as (ex & rest & c' & evs & prng' & H1 & H2 & H3 & H4 & H5 & H6 & H7 & H8).
  { apply withdraws_snapshot, Hc. }
  exists ex, rest, c', evs, prng'. split_and!; try done.
  rewrite H6. unfold dict_values. rewrite map_map. apply map_id.
Qed.
End lifecycle.
