(* ===== verification/ChannelExamples.v ===== *)
(** A concrete channel, on which the theorems about channels are applied.

    Alice and Bob opened a channel with deposits of 100 and 50 tokens.
    [alice0] and [bob0] are their copies of it; [alice1] and [bob1] are the
    copies after a transfer of 10 tokens from Alice to Bob. *)

From stdpp Require Import relations.
From S2P Require Import Prelude PyDict Bytes Crypto PyFloat MediationFee State Events.
From S2P Require Import StateChanges Channel ChannelValidation ChannelOps ChannelTransition.
From S2P Require Import ChannelLocks ChannelInvariant ChannelSend ChannelReceive ChannelMachine.
From S2P Require Import ChannelSystem ChannelProtocol ChannelLifecycle.

#[local] Existing Instance toy_crypto.
#[local] Existing Instance toy_crypto_laws.
#[local] Instance toy_pow : FloatPow := { float_pow := fun x _ => Ok x }.

Definition alice : bytes := be_encode 20 1.
Definition bob : bytes := be_encode 20 2.
Definition example_cid : CanonicalIdentifier := mkCanonicalIdentifier 1 (be_encode 20 3) 7.

Definition example_fees : FeeScheduleState := mkFeeScheduleState true 0 0 None None.

Definition fresh_end (a : bytes) (b : Z) : NettingChannelEndState :=
  mkEndState a b 0 [] None [] [] [] [] [] None [] LOCKSROOT_OF_NO_LOCKS 0.

Definition fresh_channel (ours partners : NettingChannelEndState) : NettingChannelState :=
  mkChannelState example_cid (be_encode 20 4) (be_encode 20 5) 10 50 example_fees ours partners
    (mkSuccessfulTransactionState 1 None) None None None.

Definition alice0 : NettingChannelState := fresh_channel (fresh_end alice 100) (fresh_end bob 50).
Definition bob0 : NettingChannelState := fresh_channel (fresh_end bob 50) (fresh_end alice 100).

Lemma alice0_opened : opened alice0.
Proof.
  exists example_cid, (be_encode 20 4), (be_encode 20 5), 10, 50, example_fees, alice, 100, bob, 50,
    (fresh_end alice 100), (fresh_end bob 50), (mkSuccessfulTransactionState 1 None).
  split_and!; reflexivity.
Qed.

Lemma bob0_opened : opened bob0.
Proof.
  exists example_cid, (be_encode 20 4), (be_encode 20 5), 10, 50, example_fees, bob, 50, alice, 100,
    (fresh_end bob 50), (fresh_end alice 100), (mkSuccessfulTransactionState 1 None).
  split_and!; reflexivity.
Qed.

(** ** A transfer *)

Definition example_secret : bytes := be_encode 32 42.
Definition example_secrethash : bytes := sha256_secrethash example_secret.
Definition example_lock : HashTimeLockState := mkHashTimeLockState 10 40 example_secrethash.

Lemma example_lock_valid : lock_valid example_lock.
Proof.
  split; try (rewrite UINT256_MAX_eq; cbn; lia). reflexivity.
Qed.

Lemma alice0_can_send : can_send_lock alice0 example_lock.
Proof.
  split; try reflexivity; [exact example_lock_valid|..]; vm_compute; discriminate || reflexivity.
Qed.

(** The value of a computation that returns. *)
Definition ok_or {A} (d : A) (m : Py A) : A := match m with Ok a => a | Raise _ => d end.

(** A balance proof of [sender] as the receiver reads it from a message: with
    the signature that [toy_crypto] accepts. *)
Definition sign_bp (sender : bytes) (bp : BalanceProofUnsignedState) : BalanceProofSignedState :=
  mkBalanceProofSignedState (ubp_nonce bp) (ubp_transferred_amount bp) (ubp_locked_amount bp)
    (ubp_locksroot bp) (zero_bytes 32) (sender ++ zero_bytes 45) sender
    (ubp_canonical_identifier bp) (ubp_balance_hash bp).

Definition send_example (c : NettingChannelState) : Py (NettingChannelState * SendLockedTransfer) :=
  send_lockedtransfer c alice bob 10 1 2 40 (Some example_secret) example_secrethash [] None None.

Definition alice1 : NettingChannelState :=
  match send_example alice0 with Ok (c, _) => c | Raise _ => alice0 end.

(** The transfer as Bob receives it. *)
Definition example_transfer : LockedTransferSignedState :=
  match send_example alice0 with
  | Ok (_, ev) =>
      mkLockedTransferSignedState 2 (be_encode 20 4) example_lock alice bob 1 []
        (sign_bp alice (ltu_balance_proof (slt_transfer ev))) None None
  | Raise _ =>
      mkLockedTransferSignedState 0 [] example_lock [] [] 0 []
        (mkBalanceProofSignedState 0 0 0 [] [] [] [] example_cid []) None None
  end.

Definition bob1 : NettingChannelState :=
  match handle_receive_lockedtransfer bob0 example_transfer None with
  | Ok (c, _) => c
  | Raise _ => bob0
  end.

Lemma example_transfer_received : received_bp (lts_balance_proof example_transfer).
Proof. vm_compute. reflexivity. Qed.

Lemma alice1_step : channel_step alice0 alice1.
Proof.
  destruct (send_example alice0) as [[c ev]|] eqn:E; [|by vm_compute in E].
  replace alice1 with c by (unfold alice1; by rewrite E).
  eapply step_send_transfer; [|exact E]. reflexivity.
Qed.

Lemma bob1_step : channel_step bob0 bob1.
Proof.
  destruct (handle_receive_lockedtransfer bob0 example_transfer None) as [[c r]|] eqn:E;
    [|by vm_compute in E].
  replace bob1 with c by (unfold bob1; by rewrite E).
  eapply step_receive_transfer; [| | |exact E].
  - exact example_transfer_received.
  - exact example_lock_valid.
  - reflexivity.
Qed.

Lemma alice0_inv k : channel_inv_with k alice0.
Proof. apply opened_inv, alice0_opened. Qed.
Lemma bob0_inv k : channel_inv_with k bob0.
Proof. apply opened_inv, bob0_opened. Qed.
Lemma alice1_inv : solvent_inv alice1.
Proof. exact (channel_step_inv _ _ (alice0_inv true) alice1_step). Qed.
Lemma bob1_inv : solvent_inv bob1.
Proof. exact (channel_step_inv _ _ (bob0_inv true) bob1_step). Qed.

Lemma mirrored_0 : mirrored alice0 bob0.
Proof. split; try split; reflexivity. Qed.

Lemma mirrored_1 : mirrored alice1 bob1.
Proof. split; try split; vm_compute; reflexivity. Qed.

Lemma alice1_can_unlock : can_unlock alice1 example_secrethash example_lock 20.
Proof. split; try (vm_compute; reflexivity). right. vm_compute. reflexivity. Qed.

(** Alice's unlock and expiration of the lock. *)
Definition unlock_bp : BalanceProofUnsignedState :=
  match send_unlock alice1 3 2 example_secret example_secrethash 20 None with
  | Ok (_, ev) => su_balance_proof ev
  | Raise _ => mkBalanceProofUnsignedState 0 0 0 [] example_cid []
  end.

Definition expired_bp : BalanceProofUnsignedState :=
  match send_lock_expired alice1 example_lock (mkRandom (fun _ => 9) 0) None with
  | Ok (_, [ev], _) => sle_balance_proof ev
  | _ => mkBalanceProofUnsignedState 0 0 0 [] example_cid []
  end.

Definition example_unlock : ReceiveUnlock :=
  mkReceiveUnlock alice (sign_bp alice unlock_bp) 3 example_secret example_secrethash.

Definition example_expired : ReceiveLockExpired :=
  mkReceiveLockExpired alice (sign_bp alice expired_bp) example_secrethash 9.

Lemma example_unlock_received : received_bp (ru_balance_proof example_unlock).
Proof. vm_compute. reflexivity. Qed.

Lemma example_expired_received : received_bp (rle_balance_proof example_expired).
Proof. vm_compute. reflexivity. Qed.

(** ** The theorems on the example *)

Lemma reachable_channel_sound_witness :
  sanity_check alice1 = Ok tt
  /\ get_amount_locked (our_state alice1) <= get_balance (our_state alice1) (partner_state alice1).
Proof.
  destruct (reachable_channel_sound alice1) as (H1 & [_ H2] & _).
  - exists alice0. split; [exact alice0_opened|]. eapply rtc_l; [exact alice1_step|apply rtc_refl].
  - split; [exact H1|exact H2].
Defined.

(** A deposit of Alice in the channel with a pending transfer, with the
    default imbalance fee. *)
Definition example_deposit : StateChange :=
  SContractReceiveChannelDeposit
    (mkContractReceiveChannelDeposit [] 20 [] example_cid
       (mkTransactionChannelDeposit alice 400 20) (mkMediationFeeConfig [] [] [] true)).

Lemma state_transition_safe_witness :
  exists res c', state_transition alice1 example_deposit 20 [] (mkRandom (fun _ => 9) 0) = Ok res
    /\ new_state res.1 = Some c' /\ sanity_check c' = Ok tt
    /\ contract_balance (our_state c') = 400
    /\ imbalance_penalty (fee_schedule c') <> None.
Proof.
  destruct (state_transition_safe alice1 example_deposit 20 [] (mkRandom (fun _ => 9) 0))
    as [(res & Hres & Hok)|[[Hw _]|(e & _ & He)]].
  - exact (channel_inv_with_weaken true _ alice1_inv).
  - exact I.
  - destruct (new_state res.1) as [c'|] eqn:Ec.
    + exists res, c'. split; [exact Hres|]. split; [exact Ec|]. split; [by apply Hok|].
      vm_compute in Hres. injection Hres as <-. vm_compute in Ec. injection Ec as <-.
      split; [reflexivity|]. vm_compute. discriminate.
    + exfalso. vm_compute in Hres. injection Hres as <-. vm_compute in Ec. discriminate Ec.
  - discriminate Hw.
  - exfalso. vm_compute in He. discriminate He.
Defined.

Lemma send_lockedtransfer_correct_witness :
  exists c' ev,
    send_lockedtransfer alice0 alice bob (lock_amount example_lock) 1 2
      (lock_expiration example_lock) (Some example_secret) (lock_secrethash example_lock)
      [] None None = Ok (c', ev)
    /\ get_distributable (our_state c') (partner_state c') = 100 - 10.
Proof.
  destruct (send_lockedtransfer_correct alice0 example_lock alice bob 1 2 (Some example_secret)
    [] None None (alice0_inv true) alice0_can_send)
    as (c' & ev & Hrun & _ & _ & _ & _ & Hd & _).
  exists c', ev. split; [exact Hrun|]. rewrite Hd. vm_compute. reflexivity.
Defined.

Lemma send_unlock_correct_witness :
  exists c' ev,
    send_unlock alice1 3 2 example_secret example_secrethash 20 None = Ok (c', ev)
    /\ get_balance (our_state c') (partner_state c') = 90
    /\ get_balance (partner_state c') (our_state c') = 60.
Proof.
  destruct (send_unlock_correct alice1 example_secrethash example_lock 3 2 example_secret 20 None
    alice1_inv alice1_can_unlock) as (c' & ev & Hrun & _ & B1 & B2 & _).
  exists c', ev. split; [exact Hrun|]. rewrite B1, B2. split; vm_compute; reflexivity.
Defined.

Lemma send_lock_expired_correct_witness :
  exists c' ev prng',
    send_lock_expired alice1 example_lock (mkRandom (fun _ => 9) 0) None = Ok (c', [ev], prng')
    /\ get_distributable (our_state c') (partner_state c') = 100.
Proof.
  destruct (send_lock_expired_correct alice1 example_lock (mkRandom (fun _ => 9) 0) None
    alice1_inv) as (c' & ev & prng' & Hrun & _ & _ & _ & Hd & _);
    [vm_compute; reflexivity..|].
  exists c', ev, prng'. split; [exact Hrun|]. rewrite Hd. vm_compute. reflexivity.
Defined.

Lemma usable_channel_accepts_transfer_witness :
  exists c' ev,
    send_lockedtransfer alice0 alice bob (lock_amount example_lock) 1 2
      (lock_expiration example_lock) (Some example_secret) (lock_secrethash example_lock)
      [] None None = Ok (c', ev).
Proof.
  destruct (usable_channel_accepts_transfer alice0 example_lock (Some 20) alice bob 1 2
    (Some example_secret) [] None None (alice0_inv false)) as (c' & ev & Hrun & _);
    [vm_compute; reflexivity|exact example_lock_valid|vm_compute; reflexivity..|].
  exists c', ev. exact Hrun.
Defined.

Lemma handle_receive_lockedtransfer_correct_witness :
  exists c' evs m,
    handle_receive_lockedtransfer bob0 example_transfer None = Ok (c', (true, evs, m))
    /\ get_distributable (partner_state c') (our_state c') = 90.
Proof.
  destruct (handle_receive_lockedtransfer_correct bob0 example_transfer None (bob0_inv true)
    example_transfer_received example_lock_valid eq_refl)
    as (c' & ok & evs & m & Hrun & _ & _ & _ & Hno & Hyes).
  destruct ok.
  - destruct (Hyes eq_refl) as (_ & _ & _ & _ & Hd). exists c', evs, m. split; [exact Hrun|].
    rewrite Hd. vm_compute. reflexivity.
  - exfalso. vm_compute in Hrun. discriminate Hrun.
Defined.

Lemma handle_unlock_correct_witness :
  exists c' evs m,
    handle_unlock bob1 example_unlock None = Ok (c', (true, evs, m))
    /\ get_balance (our_state c') (partner_state c') = 60.
Proof.
  destruct (handle_unlock_correct bob1 example_unlock None bob1_inv example_unlock_received)
    as (c' & ok & evs & m & Hrun & _ & _ & _ & Hyes).
  destruct ok.
  - destruct (Hyes eq_refl) as (l & Hl & _ & B & _). exists c', evs, m. split; [exact Hrun|].
    rewrite B. vm_compute in Hl. injection Hl as <-. vm_compute. reflexivity.
  - exfalso. vm_compute in Hrun. discriminate Hrun.
Defined.

Lemma handle_receive_lock_expired_correct_witness :
  exists c' evs,
    handle_receive_lock_expired bob1 example_expired 45 None = Ok (mkTransitionResult c' evs)
    /\ solvent_inv c'.
Proof.
  destruct (handle_receive_lock_expired_correct bob1 example_expired 45 None bob1_inv
    example_expired_received) as (c' & evs & Hrun & Hc' & _).
  exists c', evs. split; [exact Hrun|exact Hc'].
Defined.

(** ** A close and a withdraw *)

Definition example_prng : Random := mkRandom (fun _ => 9) 0.

(** The state after a state change that keeps the channel. *)
Definition channel_after (c : NettingChannelState) (r : Py ChannelResult) : NettingChannelState :=
  match r with
  | Ok (res, _) => match new_state res with Some c' => c' | None => c end
  | Raise _ => c
  end.

Definition example_close : StateChange := SActionChannelClose (mkActionChannelClose example_cid).

Lemma status_moves_forward_witness :
  let c' := channel_after alice1 (state_transition alice1 example_close 20 [] example_prng) in
  get_status alice1 = STATE_OPENED /\ get_status c' = STATE_CLOSING
  /\ status_rank (get_status alice1) <= status_rank (get_status c').
Proof.
  cbv zeta. split; [vm_compute; reflexivity|]. split; [vm_compute; reflexivity|].
  destruct (state_transition alice1 example_close 20 [] example_prng) as [[res prng]|e] eqn:E;
    [|exfalso; vm_compute in E; discriminate E].
  assert (exists c', new_state res = Some c') as [c' Hc'].
  { vm_compute in E. injection E as <- _. eexists. reflexivity. }
  unfold channel_after. rewrite Hc'.
  eapply (status_moves_forward alice1 example_close 20 [] example_prng).
  - split; exact I.
  - exact I.
  - exact E.
  - exact Hc'.
Defined.

(** Alice requests a withdraw of 30 tokens at block 20; it expires at block 39. *)
Definition example_withdraw : StateChange :=
  SActionChannelWithdraw (mkActionChannelWithdraw example_cid 30 None).

Definition alice2 : NettingChannelState :=
  channel_after alice0 (state_transition alice0 example_withdraw 20 [] example_prng).

Lemma alice2_inv : channel_inv alice2.
Proof.
  destruct (state_transition_handled false example_withdraw alice0 20 [] example_prng
    (alice0_inv false)) as [([res prng] & Hrun & Hinv)|[[Hw _]|(e & _ & He)]];
    [done| |done|by vm_compute in He].
  unfold alice2. rewrite Hrun. cbn in *. destruct (new_state res); [by apply Hinv|].
  exact (alice0_inv false).
Qed.

Lemma expired_withdraws_given_up_witness :
  exists c' evs prng',
    events_for_expired_withdraws alice2 60 example_prng = Ok (c', evs, prng')
    /\ length evs = 1%nat /\ withdraws_pending (our_state c') = [].
Proof.
  destruct (expired_withdraws_given_up alice2 60 example_prng alice2_inv)
    as (ex & rest & c' & evs & prng' & H1 & H2 & H3 & H4 & H5 & H6 & _).
  exists c', evs, prng'. split; [exact H4|]. vm_compute in H1.
  destruct ex as [|w ex].
  - exfalso. destruct rest as [|w rest]; [discriminate H1|]. injection H1 as <- _.
    specialize (H3 _ eq_refl). vm_compute in H3. discriminate H3.
  - injection H1 as _ H1. symmetry in H1. apply app_eq_nil in H1 as [-> ->].
    split; [exact H6|]. unfold dict_values in H5. apply map_eq_nil in H5. exact H5.
Defined.

Lemma locks_refine_finite_map_witness :
  get_lock (our_state alice1) example_secrethash
  = lock_map (our_state alice1) !! example_secrethash.
Proof.
  apply (locks_refine_finite_map (our_state alice1)).
  exact (end_locks _ (inv_our _ _ alice1_inv)).
Defined.

Lemma lock_encoding_roundtrip_witness :
  Lock.from_bytes (lock_encoded example_lock) = Ok (Lock.mk 10 40 example_secrethash).
Proof. apply (lock_encoding_roundtrip example_lock). exact example_lock_valid. Defined.
