(* ===== verification/ChannelFindings.v ===== *)
(** Behaviour of the channel code that differs from its documentation or from
    what its own assertions ask for. *)

From S2P Require Import Prelude PyDict Bytes Crypto PyFloat MediationFee State Events.
From S2P Require Import StateChanges Channel ChannelValidation ChannelOps ChannelTransition.
From S2P Require Import ChannelLocks ChannelInvariant ChannelSend ChannelReceive ChannelMachine.
From S2P Require Import ChannelSystem ChannelProtocol ChannelExamples.

Section findings.
Context `{Crypto} `{FloatPow}.

(** No withdraw request of the partner can be handled: whatever the
    channel and the message are, [state_transition] raises the
    [NotImplementedError] of [utils.packing.pack_withdraw]. *)
Lemma withdraw_request_not_implemented c req nr hsh prng :
  state_transition c (SReceiveWithdrawRequest req) nr hsh prng = Raise NotImplementedError.
Proof. reflexivity. Qed.

(** A confirmation of a withdraw that has expired is rejected.  The
    comment of [is_valid_withdraw_confirmation] says that it is accepted, and
    the expired withdraws are kept for it, but the amount must be our total
    withdraw, which only counts pending and on-chain withdraws. *)
Theorem expired_withdraw_confirmation_rejected c conf
    (Hc : channel_inv c)
    (Hnot : rwc_total_withdraw conf ∉ dict_keys (withdraws_pending (our_state c)))
    (Habove : onchain_total_withdraw (our_state c) < rwc_total_withdraw conf) :
  exists err, is_valid_withdraw_confirmation c conf = Ok err /\ so_ok err = false.
Proof.
  assert (rwc_total_withdraw conf <> our_total_withdraw c) as Hne.
  { pose proof (end_onchain_withdraw _ (inv_our _ c Hc)).
    unfold our_total_withdraw, total_withdraw, offchain_total_withdraw. intros Heq.
    destruct (decide (dict_keys (withdraws_pending (our_state c)) = [])) as [Hnil|Hnn].
    - rewrite Hnil in Heq. cbn in Heq. lia.
    - apply Hnot. replace (rwc_total_withdraw conf)
        with (zmax_default 0 (dict_keys (withdraws_pending (our_state c)))) by lia.
      by apply zmax_default_In. }
  unfold is_valid_withdraw_confirmation, withdraw_confirmation_error.
  destruct (find_withdraw_expiration _ _); [|by eexists].
  case_if; [by eexists|]. apply Z.eqb_neq in Hne. rewrite Hne. cbn. by eexists.
Qed.
End findings.

#[local] Existing Instance toy_crypto.
#[local] Existing Instance toy_pow.

(** Alice withdraws all of her balance while 10 tokens are locked, and unlocks
    the lock afterwards. *)
Definition alice_withdrawn : NettingChannelState :=
  channel_after alice1
    (state_transition alice1 (SActionChannelWithdraw (mkActionChannelWithdraw example_cid 100 None))
       20 [] example_prng).

Definition alice_overdrawn : NettingChannelState :=
  match send_unlock alice_withdrawn 3 2 example_secret example_secrethash 20 None with
  | Ok (c, _) => c
  | Raise _ => alice_withdrawn
  end.

(** C38: [is_valid_total_withdraw] compares the withdraw with the balance and
    not with the distributable amount.  From a reachable channel, a withdraw
    of tokens that are locked in a pending transfer is accepted and passes the
    sanity check; after the unlock of this transfer our balance is negative,
    and the next state change fails the assertion of [sanity_check]. *)
Theorem locked_tokens_can_be_withdrawn :
  reachable alice1
  /\ is_ok (state_transition alice1
       (SActionChannelWithdraw (mkActionChannelWithdraw example_cid 100 None)) 20 [] example_prng)
     = true
  /\ withdraws_pending (our_state alice_withdrawn) <> []
  /\ is_ok (send_unlock alice_withdrawn 3 2 example_secret example_secrethash 20 None) = true
  /\ get_balance (our_state alice_overdrawn) (partner_state alice_overdrawn) = -10
  /\ state_transition alice_overdrawn (SBlock (mkBlock 21 0 [])) 21 [] example_prng
     = Raise (AssertionError "The balance can never be negative, that would be equivalent to a loan or a double spend.").
Proof.
  split_and!; [|vm_compute; reflexivity || discriminate..].
  exists alice0. split; [exact alice0_opened|]. eapply relations.rtc_l; [exact alice1_step|].
  apply relations.rtc_refl.
Qed.

(** Alice asks for a cooperative settlement of the fresh channel; Bob's node
    has accepted the request as valid. *)
Definition coop_settle_request : ReceiveWithdrawRequest :=
  mkReceiveWithdrawRequest alice 11 example_cid 100 1 60 (zero_bytes 65) alice true None.

(** When the partner initiates a cooperative settlement, the withdraw
    request that this node sends in return is emitted twice, since the list of
    the events is extended with itself. *)
Lemma coop_settle_answer_is_sent_twice :
  exists c' request confirmation prng',
    accept_withdraw_request coop_settle_request bob0 20 [] example_prng
    = Ok (keep c' [ESendWithdrawRequest request; ESendWithdrawRequest request;
                   ESendWithdrawConfirmation confirmation] prng').
Proof. eexists _, _, _, _. vm_compute. reflexivity. Qed.

Lemma expired_withdraw_confirmation_rejected_witness :
  exists err, is_valid_withdraw_confirmation alice0
    (mkReceiveWithdrawConfirmation bob 12 example_cid 30 1 60 (zero_bytes 65) alice) = Ok err
    /\ so_ok err = false.
Proof.
  apply (expired_withdraw_confirmation_rejected alice0
    (mkReceiveWithdrawConfirmation bob 12 example_cid 30 1 60 (zero_bytes 65) alice)).
  - exact (alice0_inv false).
  - vm_compute. intros Hin. inversion Hin.
  - vm_compute. reflexivity.
Defined.
