(* ===== verification/TokenNetwork.v ===== *)
(** A token network ([transfer/token_network.py]): the channels of this node
    in one token network, indexed by their identifier, and the identifiers of
    the channels with each partner. *)

From S2P Require Import Prelude PyDict Bytes Crypto PyFloat MediationFee State Events.
From S2P Require Import StateChanges Channel ChannelValidation ChannelOps ChannelTransition.

(** ** Containers *)

(** [l.remove(x)] *)
Definition list_remove (x : Z) (l : list Z) : Py (list Z) :=
  if bool_decide (x ∈ l) then Ok (remove_first x l)
  else Raise (ValueError "list.remove(x): x not in list").

(** [d[k]] of a [defaultdict(list)]: a missing key is created. *)
Definition defaultdict_get (k : bytes) (d : dict bytes (list Z)) : list Z * dict bytes (list Z) :=
  match dict_get k d with
  | Some l => (l, d)
  | None => ([], dict_set k [] d)
  end.

Section token_network.
Context `{Crypto} `{FloatPow}.

(** The new token network, the events and the advanced generator. *)
Definition TokenNetworkResult : Type := TransitionResult TokenNetworkState * Random.

(** [subdispatch_to_channel_by_id].  The channel is changed in place: the
    dictionary refers to the new state of the channel. *)
Definition subdispatch_to_channel_by_id (tn : TokenNetworkState) (sc : StateChange)
    (channel_id : Z) (nr : Z) (hsh : bytes) (prng : Random) : Py TokenNetworkResult :=
  match dict_get channel_id (channelidentifiers_to_channels tn) with
  | None => Ok (mkTransitionResult tn [], prng)
  | Some channel_state =>
      '(result, prng') ← state_transition channel_state sc nr hsh prng;
      let partner := address (partner_state channel_state) in
      let '(partner_to_channelids, by_partner) :=
        defaultdict_get partner (partneraddresses_to_channelidentifiers tn) in
      match new_state result with
      | None =>
          ids ← dict_del_checked channel_id (channelidentifiers_to_channels tn);
          remaining ← list_remove channel_id partner_to_channelids;
          Ok (mkTransitionResult
                (set_partneraddresses_to_channelidentifiers
                   (dict_set partner remaining by_partner)
                   (set_channelidentifiers_to_channels ids tn)) (events result), prng')
      | Some c' =>
          Ok (mkTransitionResult
                (set_partneraddresses_to_channelidentifiers by_partner
                   (set_channelidentifiers_to_channels
                      (dict_set channel_id c' (channelidentifiers_to_channels tn)) tn))
                (events result), prng')
      end
  end.

(** [handle_channelnew]: a channel that is already known is ignored. *)
Definition handle_channelnew (tn : TokenNetworkState) (action : ContractReceiveChannelNew) :
    TransitionResult TokenNetworkState :=
  let channel_state := crn_channel_state action in
  let channel_id := identifier channel_state in
  let partner := address (partner_state channel_state) in
  if dict_mem channel_id (channelidentifiers_to_channels tn) then mkTransitionResult tn []
  else
    let '(ids, by_partner) :=
      defaultdict_get partner (partneraddresses_to_channelidentifiers tn) in
    mkTransitionResult
      (set_partneraddresses_to_channelidentifiers (dict_set partner (ids ++ [channel_id]) by_partner)
         (set_channelidentifiers_to_channels
            (dict_set channel_id channel_state (channelidentifiers_to_channels tn)) tn)) [].

(** [handle_batch_unlock].  The identifier is removed from the partner's list
    before the channel is deleted. *)
Definition handle_batch_unlock (tn : TokenNetworkState)
    (action : ContractReceiveChannelBatchUnlock) (nr : Z) (hsh : bytes) (prng : Random) :
    Py TokenNetworkResult :=
  let channel_id := channel_identifier (crb_canonical_identifier action) in
  match dict_get channel_id (channelidentifiers_to_channels tn) with
  | None => Ok (mkTransitionResult tn [], prng)
  | Some channel_state =>
      '(result, prng') ←
        state_transition channel_state (SContractReceiveChannelBatchUnlock action) nr hsh prng;
      match new_state result with
      | None =>
          let partner := address (partner_state channel_state) in
          let '(ids, by_partner) :=
            defaultdict_get partner (partneraddresses_to_channelidentifiers tn) in
          remaining ← list_remove (identifier channel_state) ids;
          channels ← dict_del_checked (identifier channel_state)
                       (channelidentifiers_to_channels tn);
          Ok (mkTransitionResult
                (set_partneraddresses_to_channelidentifiers
                   (dict_set partner remaining by_partner)
                   (set_channelidentifiers_to_channels channels tn)) (events result), prng')
      | Some c' =>
          Ok (mkTransitionResult
                (set_channelidentifiers_to_channels
                   (dict_set channel_id c' (channelidentifiers_to_channels tn)) tn)
                (events result), prng')
      end
  end.

(** The [channel_identifier] of the state changes that
    [subdispatch_to_channel_by_id] handles. *)
Definition subdispatch_channel_id (sc : StateChange) : option Z :=
  match sc with
  | SActionChannelClose a => Some (channel_identifier (acc_canonical_identifier a))
  | SActionChannelWithdraw a => Some (channel_identifier (acw_canonical_identifier a))
  | SActionChannelCoopSettle a => Some (channel_identifier (acs_canonical_identifier a))
  | SActionChannelSetRevealTimeout a => Some (channel_identifier (art_canonical_identifier a))
  | SContractReceiveChannelDeposit a => Some (channel_identifier (crd_canonical_identifier a))
  | SContractReceiveChannelWithdraw a => Some (channel_identifier (crw_canonical_identifier a))
  | SContractReceiveChannelClosed a => Some (channel_identifier (crc_canonical_identifier a))
  | SContractReceiveChannelSettled a => Some (channel_identifier (crs_canonical_identifier a))
  | SContractReceiveUpdateTransfer a => Some (channel_identifier (cru_canonical_identifier a))
  | SReceiveWithdrawRequest a => Some (channel_identifier (rwr_canonical_identifier a))
  | SReceiveWithdrawConfirmation a => Some (channel_identifier (rwc_canonical_identifier a))
  | SReceiveWithdrawExpired a => Some (channel_identifier (rwe_canonical_identifier a))
  | _ => None
  end.

(** [token_network.state_transition] *)
Definition token_network_transition (tn : TokenNetworkState) (sc : StateChange)
    (nr : Z) (hsh : bytes) (prng : Random) : Py TokenNetworkResult :=
  match sc with
  | SContractReceiveChannelNew a => Ok (handle_channelnew tn a, prng)
  | SContractReceiveChannelBatchUnlock a => handle_batch_unlock tn a nr hsh prng
  | _ =>
      match subdispatch_channel_id sc with
      | Some channel_id => subdispatch_to_channel_by_id tn sc channel_id nr hsh prng
      | None => Ok (mkTransitionResult tn [], prng)
      end
  end.
End token_network.
