(* ===== verification/TokenNetworkProofs.v ===== *)
(** Correctness of a token network: its two indices agree, its channels keep
    their invariant, and a channel changes only by the state changes that name
    it. *)

From S2P Require Import Prelude PyDict Bytes Crypto PyFloat MediationFee State Events.
From S2P Require Import StateChanges Channel ChannelValidation ChannelOps ChannelTransition.
From S2P Require Import ChannelLocks ChannelInvariant ChannelSend ChannelReceive ChannelMachine.
From S2P Require Import ChannelSystem TokenNetwork.

(** ** A channel keeps its identity *)

Record same_ids (c c' : NettingChannelState) : Prop := {
  si_identifier : canonical_identifier c' = canonical_identifier c;
  si_our : address (our_state c') = address (our_state c);
  si_partner : address (partner_state c') = address (partner_state c)
}.

Lemma same_ids_refl c : same_ids c c.
Proof. done. Qed.

Lemma same_ids_trans c1 c2 c3 : same_ids c1 c2 -> same_ids c2 c3 -> same_ids c1 c3.
Proof. intros [] []. split; congruence. Qed.

Section identity.
Context `{Crypto} `{FloatPow}.
Implicit Types (c : NettingChannelState).

Definition keeps_ids c (r : Py ChannelResult) : Prop :=
  forall res c', r = Ok res -> new_state res.1 = Some c' -> same_ids c c'.

Lemma keep_ids c c1 evs prng : same_ids c c1 -> keeps_ids c (Ok (keep c1 evs prng)).
Proof. intros Hs res c' Hr Hc. injection Hr as <-. by injection Hc as <-. Qed.

Lemma raise_ids c e : keeps_ids c (Raise e).
Proof. done. Qed.

Lemma bind_ids {A} c (m : Py A) (f : A -> Py ChannelResult) :
  (forall a, m = Ok a -> keeps_ids c (f a)) -> keeps_ids c (m ≫= f).
Proof. intros Hf res c' (a & Ha & Hr)%bind_Ok. by apply (Hf a). Qed.

Lemma removed_ids c evs prng : keeps_ids c (Ok (mkTransitionResult None evs, prng)).
Proof. intros res c' Hr Hc. injection Hr as <-. done. Qed.

Lemma send_withdraw_request_ids c total expiration prng md b :
  same_ids c (send_withdraw_request c total expiration prng md b).1.1.
Proof.
  unfold send_withdraw_request. destruct (negb _); [done|].
  by destruct (message_identifier_from_prng prng).
Qed.

Lemma expire_withdraws_ids ws : forall c nr prng r,
  expire_withdraws c ws nr prng = Ok r -> same_ids c r.1.1.
Proof.
  induction ws as [|w ws IH]; intros c nr prng r Hrun; cbn in Hrun; [by simplify_eq|].
  case_if; [|by simplify_eq].
  apply bind_Ok in Hrun as ([[c1 ev] prng1] & E1 & Hrun).
  apply bind_Ok in Hrun as ([[c2 evs] prng2] & E2 & Hrun). simplify_eq. cbn.
  apply (same_ids_trans c c1); [|exact (IH _ _ _ _ E2)].
  unfold expire_withdraw, message_identifier_from_prng in E1. py_inv. simplify_eq.
  split; try done. cbn. destruct (initiated_coop_settle (our_state c)); [case_if|]; done.
Qed.

Lemma update_contract_balance_address e b : address (update_contract_balance e b) = address e.
Proof. unfold update_contract_balance. by destruct (_ <? _). Qed.

Lemma apply_onchain_withdraw_address total e :
  address (apply_onchain_withdraw total e) = address e.
Proof. unfold apply_onchain_withdraw. by destruct (dict_mem _ _). Qed.

(** Follow the branches of a handler. *)
Ltac follow :=
  cbv zeta; cbn [fst snd];
  repeat match goal with
  | |- keeps_ids _ (_ ≫= _) => apply bind_ids; intros ? ?
  | |- keeps_ids _ (Raise _) => apply raise_ids
  | |- keeps_ids _ (Ok (keep _ _ _)) => apply keep_ids
  | |- keeps_ids _ (Ok (mkTransitionResult None _, _)) => apply removed_ids
  | |- keeps_ids _ (Ok (if ?b then _ else _)) => destruct b eqn:?
  | |- keeps_ids _ (match ?o with _ => _ end) => destruct o eqn:?
  end.

Lemma close_ids a c nr hsh prng : keeps_ids c (handle_action_close a c nr hsh prng).
Proof.
  unfold handle_action_close, events_for_close. follow.
  case_if; py_inv; by simplify_eq.
Qed.

Lemma coop_settle_ids a c prng nr : keeps_ids c (handle_action_coop_settle a c prng nr).
Proof.
  unfold handle_action_coop_settle. follow; try done. subst.
  match goal with Hs : send_withdraw_request _ _ _ _ _ _ = _ |- _ =>
    apply (f_equal (fun r => r.1.1)) in Hs; cbn in Hs; rewrite <- Hs end.
  eapply same_ids_trans; [|apply send_withdraw_request_ids]. done.
Qed.

Lemma withdraw_ids a c prng nr : keeps_ids c (handle_action_withdraw a c prng nr).
Proof.
  unfold handle_action_withdraw. follow; try done. subst.
  match goal with Hs : send_withdraw_request c _ _ _ _ _ = _ |- _ =>
    apply (f_equal (fun r => r.1.1)) in Hs; cbn in Hs; rewrite <- Hs end.
  apply send_withdraw_request_ids.
Qed.

Lemma set_reveal_timeout_ids a c prng : keeps_ids c (handle_action_set_reveal_timeout a c prng).
Proof. unfold handle_action_set_reveal_timeout. follow; done. Qed.

Lemma withdraw_expired_ids a c nr prng : keeps_ids c (handle_receive_withdraw_expired a c nr prng).
Proof.
  unfold handle_receive_withdraw_expired. follow; try done.
  split; try done. cbn. by repeat case_match.
Qed.

Lemma confirmation_ids a c nr hsh prng :
  keeps_ids c (handle_receive_withdraw_confirmation a c nr hsh prng).
Proof.
  unfold handle_receive_withdraw_confirmation, is_valid_withdraw_confirmation.
  destruct (withdraw_confirmation_error c a) as [err|] eqn:E; [|done]. cbn.
  destruct (so_ok err) eqn:Hok; [exfalso|by follow].
  unfold withdraw_confirmation_error in E. case_match; repeat case_if; by simplify_eq.
Qed.

Lemma block_ids a c nr prng : keeps_ids c (handle_block a c nr prng).
Proof.
  unfold handle_block. apply bind_ids. intros _ _. apply bind_ids. intros [[c1 evs1] prng1] Hex.
  apply bind_ids. intros [c2 evs2] Hset. apply keep_ids.
  apply (same_ids_trans c c1).
  - clear Hset. case_if; [|by simplify_eq]. exact (expire_withdraws_ids _ _ _ _ _ Hex).
  - clear Hex. repeat case_if; py_inv; try by simplify_eq. case_if; by simplify_eq.
Qed.

Lemma closed_ids a c prng : keeps_ids c (handle_channel_closed a c prng).
Proof. unfold handle_channel_closed. follow; done. Qed.

Lemma updated_ids a c nr prng : keeps_ids c (handle_channel_updated_transfer a c nr prng).
Proof. unfold handle_channel_updated_transfer. follow; done. Qed.

Lemma settled_ids a c prng : keeps_ids c (handle_channel_settled a c prng).
Proof.
  unfold handle_channel_settled. destruct (_ =? _); [|by apply keep_ids].
  apply bind_ids. intros [c2 o2] H2. apply bind_ids. intros [c3 o3] H3.
  assert (same_ids c c2) as I2.
  { clear H3. unfold set_coop_settled in H2. repeat case_match; py_inv; by simplify_eq. }
  assert (same_ids c c3) as I3.
  { apply (same_ids_trans c c2); [done|]. clear H2. unfold set_coop_settled in H3.
    repeat case_match; py_inv; by simplify_eq. }
  case_if; [apply removed_ids|apply keep_ids]. destruct I3. case_if; by split.
Qed.

Lemma update_fee_schedule_ids c cfg c' :
  update_fee_schedule_after_balance_change c cfg = Ok c' -> same_ids c c'.
Proof. unfold update_fee_schedule_after_balance_change. intros Hok. py_inv. by subst. Qed.

Lemma deposit_ids a c prng : keeps_ids c (handle_channel_deposit a c prng).
Proof.
  unfold handle_channel_deposit. apply bind_ids. intros c2 H2%update_fee_schedule_ids.
  apply keep_ids. eapply same_ids_trans; [|exact H2].
  repeat case_if; split; try done; apply update_contract_balance_address.
Qed.

Lemma onchain_withdraw_ids a c prng : keeps_ids c (handle_channel_withdraw a c prng).
Proof.
  unfold handle_channel_withdraw. case_if; [by apply keep_ids|].
  apply bind_ids. intros c2 H2%update_fee_schedule_ids.
  apply keep_ids. eapply same_ids_trans; [|exact H2].
  repeat case_if; split; try done; apply apply_onchain_withdraw_address.
Qed.

Lemma batch_unlock_ids a c prng : keeps_ids c (handle_channel_batch_unlock a c prng).
Proof.
  unfold handle_channel_batch_unlock. case_if; [|by apply keep_ids].
  case_if; [apply removed_ids|apply keep_ids]. repeat case_if; done.
Qed.

(** Every state change returns a channel with the same identity. *)
Lemma state_transition_ids sc c nr hsh prng :
  keeps_ids c (state_transition c sc nr hsh prng).
Proof.
  unfold state_transition. intros res c' (it & Hit & Hok)%bind_Ok Hnew.
  apply bind_Ok in Hok as ([] & _ & Hok). injection Hok as ->. revert Hit Hnew.
  enough (keeps_ids c (handle_state_transitions sc c nr hsh prng)) as Hk by (intros; by eapply Hk).
  destruct sc; cbn; auto using keep_ids, same_ids_refl, close_ids, coop_settle_ids, withdraw_ids,
    set_reveal_timeout_ids, withdraw_expired_ids, confirmation_ids, block_ids, closed_ids,
    updated_ids, settled_ids, deposit_ids, onchain_withdraw_ids, batch_unlock_ids, raise_ids.
Qed.
End identity.

(** ** The invariant of a token network *)

(** The identifiers of the channels with a partner. *)
Definition partner_ids (addr : bytes) (tn : TokenNetworkState) : list Z :=
  default [] (dict_get addr (partneraddresses_to_channelidentifiers tn)).

Record tn_inv `{Crypto} (k : bool) (tn : TokenNetworkState) : Prop := {
  tn_channels : dict_wf (channelidentifiers_to_channels tn);
  tn_channel id c :
    dict_get id (channelidentifiers_to_channels tn) = Some c ->
    identifier c = id /\ channel_inv_with k c;
  tn_nodup addr : NoDup (partner_ids addr tn);
  tn_agree addr id :
    id ∈ partner_ids addr tn <->
    exists c, dict_get id (channelidentifiers_to_channels tn) = Some c
              /\ address (partner_state c) = addr
}.

Lemma defaultdict_get_spec k d :
  (defaultdict_get k d).1 = default [] (dict_get k d)
  /\ forall k', default [] (dict_get k' (defaultdict_get k d).2) = default [] (dict_get k' d).
Proof.
  unfold defaultdict_get. destruct (dict_get k d) eqn:E; [done|]. split; [done|]. intros k'. cbn.
  destruct (decide (k' = k)) as [->|]; [by rewrite dict_get_set_eq, E|].
  by rewrite dict_get_set_ne.
Qed.

Lemma elem_of_remove_first_ne (x y : Z) l : y <> x -> y ∈ l -> y ∈ remove_first x l.
Proof.
  induction l as [|z l IH]; cbn; [done|]. rewrite elem_of_cons. intros Hne [->|Hy].
  - rewrite decide_False by done. left.
  - case_decide; [done|]. right. by apply IH.
Qed.

Lemma NoDup_remove_first (x : Z) l : NoDup l -> NoDup (remove_first x l) /\ x ∉ remove_first x l.
Proof.
  induction 1 as [|y l Hy Hl [IH1 IH2]]; cbn; [split; [constructor|set_solver]|].
  case_decide; [by subst|]. split; [constructor; [|done]|set_solver].
  by intros ?%elem_of_remove_first.
Qed.

Section token_network.
Context `{Crypto} `{FloatPow} (k : bool).
Implicit Types (tn : TokenNetworkState) (c : NettingChannelState).

(** The three ways in which a token network changes. *)
Lemma tn_inv_update tn id c c' by_partner :
  tn_inv k tn -> dict_get id (channelidentifiers_to_channels tn) = Some c ->
  same_ids c c' -> channel_inv_with k c' ->
  (forall addr, default [] (dict_get addr by_partner) = partner_ids addr tn) ->
  tn_inv k (set_partneraddresses_to_channelidentifiers by_partner
    (set_channelidentifiers_to_channels
       (dict_set id c' (channelidentifiers_to_channels tn)) tn)).
Proof.
  intros [Hwf Hch Hnd Hag] Hg [Hid _ Hpa] Hc' Hbp. split; cbn.
  - auto with raiden.
  - intros id' c1. destruct (decide (id' = id)) as [->|Hne].
    + rewrite dict_get_set_eq. intros [= <-]. split; [|done].
      unfold identifier. rewrite Hid. by apply (Hch id c).
    + rewrite dict_get_set_ne by done. apply Hch.
  - intros addr. unfold partner_ids. cbn. rewrite Hbp. apply Hnd.
  - intros addr id'. unfold partner_ids. cbn. rewrite Hbp, Hag.
    destruct (decide (id' = id)) as [->|Hne].
    + rewrite dict_get_set_eq, Hg. split; intros (c1 & [= <-] & <-); eauto.
    + by rewrite dict_get_set_ne.
Qed.

Lemma tn_inv_remove tn id c ids by_partner :
  tn_inv k tn -> dict_get id (channelidentifiers_to_channels tn) = Some c ->
  ids = partner_ids (address (partner_state c)) tn ->
  (forall addr, default [] (dict_get addr by_partner) = partner_ids addr tn) ->
  id ∈ ids
  /\ tn_inv k (set_partneraddresses_to_channelidentifiers
       (dict_set (address (partner_state c)) (remove_first id ids) by_partner)
       (set_channelidentifiers_to_channels
          (dict_del id (channelidentifiers_to_channels tn)) tn)).
Proof.
  intros [Hwf Hch Hnd Hag] Hg -> Hbp. split; [apply Hag; eauto|].
  destruct (NoDup_remove_first id (partner_ids (address (partner_state c)) tn) (Hnd _)) as [Hn1 Hn2].
  assert (forall addr, partner_ids addr
    (set_partneraddresses_to_channelidentifiers
       (dict_set (address (partner_state c))
          (remove_first id (partner_ids (address (partner_state c)) tn)) by_partner)
       (set_channelidentifiers_to_channels
          (dict_del id (channelidentifiers_to_channels tn)) tn))
    = if decide (addr = address (partner_state c))
      then remove_first id (partner_ids (address (partner_state c)) tn)
      else partner_ids addr tn) as Hids.
  { intros addr. unfold partner_ids at 1. cbn. case_decide as E; [subst|].
    - by rewrite dict_get_set_eq.
    - by rewrite dict_get_set_ne. }
  split.
  - cbn. auto with raiden.
  - cbn. intros id' c1. destruct (decide (id' = id)) as [->|Hne].
    + by rewrite dict_get_del_eq.
    + rewrite dict_get_del_ne by done. apply Hch.
  - intros addr. rewrite Hids. by case_decide.
  - intros addr id'. rewrite Hids. cbn. destruct (decide (id' = id)) as [->|Hne].
    + rewrite dict_get_del_eq by done. case_decide as E; [naive_solver|].
      rewrite Hag. split; [|naive_solver]. intros (c1 & Hc1 & <-). by simplify_eq.
    + rewrite dict_get_del_ne, <- Hag by done. case_decide as E; [subst|done].
      split; [apply elem_of_remove_first|by apply elem_of_remove_first_ne].
Qed.

Lemma tn_inv_new tn c ids by_partner :
  tn_inv k tn -> dict_get (identifier c) (channelidentifiers_to_channels tn) = None ->
  channel_inv_with k c -> ids = partner_ids (address (partner_state c)) tn ->
  (forall addr, default [] (dict_get addr by_partner) = partner_ids addr tn) ->
  tn_inv k (set_partneraddresses_to_channelidentifiers
    (dict_set (address (partner_state c)) (ids ++ [identifier c]) by_partner)
    (set_channelidentifiers_to_channels
       (dict_set (identifier c) c (channelidentifiers_to_channels tn)) tn)).
Proof.
  intros [Hwf Hch Hnd Hag] Hg Hc -> Hbp.
  assert (forall addr, identifier c ∉ partner_ids addr tn) as Hnew.
  { intros addr (c1 & Hc1 & _)%Hag. by rewrite Hg in Hc1. }
  assert (forall addr, partner_ids addr
    (set_partneraddresses_to_channelidentifiers
       (dict_set (address (partner_state c))
          (partner_ids (address (partner_state c)) tn ++ [identifier c]) by_partner)
       (set_channelidentifiers_to_channels
          (dict_set (identifier c) c (channelidentifiers_to_channels tn)) tn))
    = partner_ids addr tn ++ if decide (addr = address (partner_state c)) then [identifier c] else [])
    as Hids.
  { intros addr. unfold partner_ids at 1. cbn. case_decide as E; [subst|].
    - by rewrite dict_get_set_eq.
    - by rewrite dict_get_set_ne, Hbp, app_nil_r. }
  split.
  - cbn. auto with raiden.
  - cbn. intros id' c1. destruct (decide (id' = identifier c)) as [->|Hne].
    + rewrite dict_get_set_eq. by intros [= <-].
    + rewrite dict_get_set_ne by done. apply Hch.
  - intros addr. rewrite Hids. apply NoDup_app. split_and!; [apply Hnd| |case_decide; repeat constructor; set_solver].
    intros x Hx Hx'. case_decide; [|set_solver]. apply list_elem_of_singleton in Hx' as ->. by apply (Hnew addr).
  - intros addr id'. rewrite Hids, elem_of_app, Hag. cbn. destruct (decide (id' = identifier c)) as [->|Hne].
    + rewrite dict_get_set_eq, Hg. case_decide; set_solver.
    + rewrite dict_get_set_ne by done. case_decide; set_solver.
Qed.

(** The channel that a state change is about. *)
Definition target_channel (sc : StateChange) : option Z :=
  match sc with
  | SContractReceiveChannelNew a => Some (identifier (crn_channel_state a))
  | SContractReceiveChannelBatchUnlock a =>
      Some (channel_identifier (crb_canonical_identifier a))
  | _ => subdispatch_channel_id sc
  end.

(** What the blockchain and the caller guarantee about a state change. *)
Definition tn_env_ok tn (sc : StateChange) (nr : Z) : Prop :=
  match sc with
  | SContractReceiveChannelNew a => channel_inv_with k (crn_channel_state a)
  | _ => forall id c, target_channel sc = Some id ->
           dict_get id (channelidentifiers_to_channels tn) = Some c -> env_ok k c sc nr
  end.

(** The transition kept the invariant and touched only the channel [id]. *)
Definition tn_handled tn (id : option Z) (r : Py TokenNetworkResult) : Prop :=
  exists res, r = Ok res /\ tn_inv k (new_state res.1)
    /\ forall id', Some id' <> id ->
         dict_get id' (channelidentifiers_to_channels (new_state res.1))
         = dict_get id' (channelidentifiers_to_channels tn).

Lemma tn_handled_same tn id prng : tn_inv k tn -> tn_handled tn id (Ok (mkTransitionResult tn [], prng)).
Proof. intros Ht. eexists. split; [done|]. by split. Qed.

Lemma subdispatch_handled tn sc id nr hsh prng :
  tn_inv k tn ->
  (forall c, dict_get id (channelidentifiers_to_channels tn) = Some c -> env_ok k c sc nr) ->
  tn_handled tn (Some id) (subdispatch_to_channel_by_id tn sc id nr hsh prng)
  \/ (withdraw_message sc = true
      /\ subdispatch_to_channel_by_id tn sc id nr hsh prng = Raise NotImplementedError)
  \/ exists c e, dict_get id (channelidentifiers_to_channels tn) = Some c /\ fee_error c sc e
      /\ subdispatch_to_channel_by_id tn sc id nr hsh prng = Raise e.
Proof.
  intros Ht He. unfold subdispatch_to_channel_by_id.
  destruct (dict_get id (channelidentifiers_to_channels tn)) as [c|] eqn:Hg;
    [|left; by apply tn_handled_same].
  destruct (tn_channel k tn Ht id c Hg) as [Hid Hc].
  destruct (state_transition_handled k sc c nr hsh prng Hc (He c eq_refl))
    as [([result prng'] & Hrun & Hinv)|[[Hw Hrun]|(e & Hf & Hrun)]]; rewrite Hrun; cbn;
    [left|by right; left|right; right; eauto].
  destruct (defaultdict_get (address (partner_state c)) (partneraddresses_to_channelidentifiers tn))
    as [ids by_partner] eqn:Ed.
  destruct (defaultdict_get_spec (address (partner_state c)) (partneraddresses_to_channelidentifiers tn))
    as [E1 E2]. rewrite Ed in E1, E2. cbn in E1, E2.
  destruct (new_state result) as [c'|] eqn:En; cbn.
  - eexists. split; [done|]. split.
    + apply (tn_inv_update tn id c); try done; [|by apply Hinv].
      exact (state_transition_ids sc c nr hsh prng _ _ Hrun En).
    + cbn. intros id' Hne. apply dict_get_set_ne. congruence.
  - destruct (tn_inv_remove tn id c ids by_partner Ht Hg E1 E2) as [Hin Hrem].
    unfold dict_del_checked, list_remove. rewrite (proj2 (dict_mem_true _ _)) by eauto. cbn.
    rewrite bool_decide_eq_true_2 by done. cbn. eexists. split; [done|]. split; [done|].
    cbn. intros id' Hne. apply dict_get_del_ne. congruence.
Qed.

Lemma batch_unlock_handled tn a nr hsh prng :
  tn_inv k tn ->
  tn_handled tn (Some (channel_identifier (crb_canonical_identifier a)))
    (handle_batch_unlock tn a nr hsh prng).
Proof.
  intros Ht. unfold handle_batch_unlock. set (id := channel_identifier _).
  destruct (dict_get id (channelidentifiers_to_channels tn)) as [c|] eqn:Hg;
    [|by apply tn_handled_same].
  destruct (tn_channel k tn Ht id c Hg) as [Hid Hc].
  destruct (state_transition_handled k (SContractReceiveChannelBatchUnlock a) c nr hsh prng Hc I)
    as [([result prng'] & Hrun & Hinv)|[[Hw _]|(e & (c1 & cfg & Hb & _) & _)]]; [|done..].
  rewrite Hrun. cbn.
  destruct (new_state result) as [c'|] eqn:En; cbn.
  - eexists. split; [done|]. split.
    + apply (tn_inv_update tn id c c' (partneraddresses_to_channelidentifiers tn)); try done;
        [|by apply Hinv].
      exact (state_transition_ids _ c nr hsh prng _ _ Hrun En).
    + cbn. intros id' Hne. apply dict_get_set_ne. congruence.
  - destruct (defaultdict_get _ _) as [ids by_partner] eqn:Ed.
    destruct (defaultdict_get_spec (address (partner_state c)) (partneraddresses_to_channelidentifiers tn))
      as [E1 E2]. rewrite Ed in E1, E2. cbn in E1, E2.
    destruct (tn_inv_remove tn id c ids by_partner Ht Hg E1 E2) as [Hin Hrem].
    rewrite Hid. unfold dict_del_checked, list_remove. rewrite bool_decide_eq_true_2 by done. cbn.
    rewrite (proj2 (dict_mem_true _ _)) by eauto. cbn. eexists. split; [done|]. split; [done|].
    cbn. intros id' Hne. apply dict_get_del_ne. congruence.
Qed.

Lemma channelnew_handled tn a prng :
  tn_inv k tn -> channel_inv_with k (crn_channel_state a) ->
  tn_handled tn (Some (identifier (crn_channel_state a))) (Ok (handle_channelnew tn a, prng)).
Proof.
  intros Ht Hc. unfold handle_channelnew.
  destruct (dict_mem _ _) eqn:Em; [by apply tn_handled_same|]. apply dict_mem_false in Em.
  destruct (defaultdict_get _ _) as [ids by_partner] eqn:Ed.
  destruct (defaultdict_get_spec (address (partner_state (crn_channel_state a)))
    (partneraddresses_to_channelidentifiers tn)) as [E1 E2]. rewrite Ed in E1, E2. cbn in E1, E2.
  eexists. split; [done|]. split; [by apply tn_inv_new|].
  cbn. intros id' Hne. apply dict_get_set_ne. congruence.
Qed.
End token_network.

(** C35: a token network stays consistent.  If its two indices agree and its
    channels have their invariant, so they do after every state change that
    satisfies [tn_env_ok] (a new channel has the invariant, and what [env_ok]
    asks for the channel the state change is about: a close action names this
    channel, a [Block] has the dispatched number, the block of a close on-chain
    is not zero, an on-chain withdraw is covered by the balance): no lookup or
    removal fails, and no channel but the one that the state change is about
    is touched.  The exceptions are the [NotImplementedError] of
    [pack_withdraw], for the two messages with a withdraw signature, and the
    exception that the computation of the imbalance fee raises for the channel
    after a deposit or an on-chain withdraw. *)
Theorem token_network_consistent `{Crypto} `{FloatPow} tn sc nr hsh prng
    (Ht : tn_inv false tn) (He : tn_env_ok false tn sc nr) :
  tn_handled false tn (target_channel sc) (token_network_transition tn sc nr hsh prng)
  \/ (withdraw_message sc = true
      /\ token_network_transition tn sc nr hsh prng = Raise NotImplementedError)
  \/ (exists id c e, target_channel sc = Some id
        /\ dict_get id (channelidentifiers_to_channels tn) = Some c /\ fee_error c sc e
        /\ token_network_transition tn sc nr hsh prng = Raise e).
Proof.
  unfold token_network_transition.
  destruct sc; cbn in He |- *;
    try lazymatch goal with
    | |- context [subdispatch_to_channel_by_id _ ?sc ?id _ _ _] =>
        destruct (subdispatch_handled false tn sc id nr hsh prng Ht (fun c Hc => He _ c eq_refl Hc))
          as [Hs|[Hs|(c0 & e & Hs)]];
        [left; exact Hs|right; left; exact Hs|right; right; exists id, c0, e; by split]
    end;
    try (left; by apply tn_handled_same);
    left; auto using channelnew_handled, batch_unlock_handled.
Qed.
