(* ===== verification/TransferTasks.v ===== *)
(** What the tasks of a transfer share: the channels they work on, the routes
    ([transfer/routes.py]), the decision whether it is safe to wait for an
    unlock ([mediator.is_safe_to_wait]) and the on-chain secret registry
    ([transfer/secret_registry.py]).

    A task holds two dictionaries of channels: the channels of its token
    network by their identifier, and the channels of all token networks by the
    partner.  Both refer to the same objects, which every function of the task
    may change.  Here the objects are in one store, and the two dictionaries
    are references into it. *)

From S2P Require Import Prelude PyDict Bytes Crypto PyFloat MediationFee State Events.
From S2P Require Import StateChanges Channel ChannelValidation ChannelOps.

(** ** The channels of a node *)

(** A channel is known by its token network and its identifier. *)
Definition ChannelRef : Type := bytes * Z.
Definition Channels : Type := dict ChannelRef NettingChannelState.

(** [channelidentifiers_to_channels.get(id)] in the token network [net]. *)
Definition channel_by_id (net : bytes) (chans : Channels) (id : Z) : option NettingChannelState :=
  dict_get (net, id) chans.

(** A change of the object that a reference points to. *)
Definition store_channel (ref : ChannelRef) (c : NettingChannelState) (chans : Channels) : Channels :=
  dict_set ref c chans.

(** [ChainState.addresses_to_channel]: the last channel of a partner wins. *)
Definition addresses_to_channel (chans : Channels) : dict (bytes * bytes) ChannelRef :=
  fold_left (fun d rc => dict_set (fst (fst rc), address (partner_state (snd rc))) (fst rc) d)
    chans [].

(** [addresses_to_channel.get((net, address))] *)
Definition channel_by_address (addrs : dict (bytes * bytes) ChannelRef) (chans : Channels)
    (net partner : bytes) : option (ChannelRef * NettingChannelState) :=
  match dict_get (net, partner) addrs with
  | Some ref => match dict_get ref chans with Some c => Some (ref, c) | None => None end
  | None => None
  end.

(** ** Routes *)

(** [next_hop = route.hop_after(address)] followed by [if not next_hop]. *)
Definition next_hop_of (r : RouteState) (a : bytes) : option bytes :=
  match hop_after r a with
  | Some [] => None
  | hop => hop
  end.

(** [routes.filter_acceptable_routes] *)
Definition filter_acceptable_routes (route_states : list RouteState)
    (blacklisted_channel_ids : list Z) (addrs : dict (bytes * bytes) ChannelRef)
    (chans : Channels) (token_network_address our_address : bytes) : list RouteState :=
  List.filter
    (fun r =>
       match next_hop_of r our_address with
       | None => false
       | Some next_hop =>
           match channel_by_address addrs chans token_network_address next_hop with
           | None => false
           | Some (_, c) => negb (bool_decide (identifier c ∈ blacklisted_channel_ids))
           end
       end) route_states.

(** ** Secrets and time *)

(** [transfer.utils.is_valid_secret_reveal] *)
Definition is_valid_secret_reveal (secrethash transfer_secrethash : bytes) : bool :=
  bool_decide (secrethash = transfer_secrethash).

(** [mediator.is_safe_to_wait] *)
Definition is_safe_to_wait (lock_expiration reveal_timeout block_number : Z) :
    Py SuccessOrError :=
  _ ← py_assert (0 <? block_number) "block_number must be larger than zero";
  _ ← py_assert (0 <? reveal_timeout) "reveal_timeout must be larger than zero";
  _ ← py_assert (reveal_timeout <? lock_expiration)
        "lock_expiration must be larger than reveal_timeout";
  let lock_timeout := lock_expiration - block_number in
  Ok (if reveal_timeout <? lock_timeout then success
      else error (Msg "lock timeout is unsafe. timeout must be larger than {}, but it is {}. expiration: {} block_number: {}"
                    [AInt reveal_timeout; AInt lock_timeout; AInt lock_expiration;
                     AInt block_number])).

(** [secret_registry.events_for_onchain_secretreveal] *)
Definition secret_registry_events_for_onchain_secretreveal (c : NettingChannelState)
    (secret : bytes) (expiration : Z) (block_hash : bytes) : list Event :=
  if bool_decide (get_status c ∈ CHANNEL_STATES_UP_TO_CLOSED)
  then [EContractSendSecretReveal (mkContractSendSecretReveal block_hash expiration secret)]
  else [].
