(* ===== verification/Target.v ===== *)
(** The target of a mediated transfer ([transfer/mediated_transfer/target.py]).

    The target task works on a channel that it shares with the node: every
    function takes the channel and returns it with the changes. *)

From S2P Require Import Prelude PyDict Bytes Crypto PyFloat MediationFee State Events.
From S2P Require Import StateChanges Channel ChannelValidation ChannelOps TransferTasks.

(** The values of [TargetTransferState.state]. *)
Inductive TargetStatus : Type :=
  | EXPIRED
  | OFFCHAIN_SECRET_REVEAL
  | ONCHAIN_SECRET_REVEAL
  | ONCHAIN_UNLOCK
  | SECRET_REQUEST.

#[export] Instance TargetStatus_eq_dec : EqDecision TargetStatus.
Proof. solve_decision. Defined.

Record TargetTransferState : Type := mkTargetTransferState {
  tgt_from_hop : HopState;
  tgt_transfer : LockedTransferSignedState;
  tgt_secret : option bytes;
  tgt_state : TargetStatus;
  tgt_initiator_address_metadata : option AddressMetadata
}.

Definition set_tgt_secret (v : option bytes) (t : TargetTransferState) : TargetTransferState :=
  mkTargetTransferState (tgt_from_hop t) (tgt_transfer t) v (tgt_state t)
    (tgt_initiator_address_metadata t).

Definition set_tgt_state (v : TargetStatus) (t : TargetTransferState) : TargetTransferState :=
  mkTargetTransferState (tgt_from_hop t) (tgt_transfer t) (tgt_secret t) v
    (tgt_initiator_address_metadata t).

Definition tgt_lock (t : TargetTransferState) : HashTimeLockState := lts_lock (tgt_transfer t).
Definition tgt_secrethash (t : TargetTransferState) : bytes := lock_secrethash (tgt_lock t).

(** [EventPaymentReceivedSuccess.__post_init__] *)
Definition new_EventPaymentReceivedSuccess (registry tn : bytes) (identifier amount : Z)
    (initiator : bytes) : Py EventPaymentReceivedSuccess :=
  _ ← raise_if (amount <? 0) (ValueError "transferred_amount cannot be negative");
  _ ← raise_if (UINT256_MAX <? amount) (ValueError "transferred_amount is too large");
  Ok (mkEventPaymentReceivedSuccess registry tn identifier amount initiator).

Section target.
Context `{Crypto}.

(** The new task ([None] clears it) with its events, the channel and the
    advanced generator. *)
Definition TargetResult : Type :=
  TransitionResult (option TargetTransferState) * NettingChannelState * Random.

(** [sanity_check]; the channel is the one after the handler. *)
Definition target_sanity_check (old_state new_state : option TargetTransferState)
    (c : NettingChannelState) : Py unit :=
  match old_state, new_state with
  | Some old, None =>
      py_assert (bool_decide (get_lock (partner_state c) (tgt_secrethash old) = None))
        "The lock must be cleared once the task exists"
  | _, Some new =>
      py_assert (bool_decide (get_lock (partner_state c) (tgt_secrethash new) <> None))
        "The lock must not be cleared while the task is running"
  | None, None => Ok tt
  end.

(** [events_for_onchain_secretreveal] *)
Definition target_events_for_onchain_secretreveal (t : TargetTransferState)
    (c : NettingChannelState) (block_number : Z) (block_hash : bytes) :
    Py (TargetTransferState * list Event) :=
  let expiration := lock_expiration (tgt_lock t) in
  safe_to_wait ← is_safe_to_wait expiration (reveal_timeout c) block_number;
  let secret_known_offchain := is_secret_known_offchain (partner_state c) (tgt_secrethash t) in
  let has_onchain_reveal_started := bool_decide (tgt_state t = ONCHAIN_SECRET_REVEAL) in
  if negb (so_ok safe_to_wait) && secret_known_offchain && negb has_onchain_reveal_started then
    let t' := set_tgt_state ONCHAIN_SECRET_REVEAL t in
    secret ← assert_some (get_secret (partner_state c) (tgt_secrethash t))
               "secret should be known at this point";
    _ ← py_assert (bool_decide (secret <> [])) "secret should be known at this point";
    Ok (t', secret_registry_events_for_onchain_secretreveal c secret expiration block_hash)
  else Ok (t, []).

(** [handle_inittarget] *)
Definition handle_inittarget (action : ActionInitTarget) (c : NettingChannelState)
    (prng : Random) (block_number : Z) : Py TargetResult :=
  let transfer := ait_transfer action in
  _ ← py_assert (identifier c =? channel_identifier
                   (sbp_canonical_identifier (lts_balance_proof transfer)))
        "channel_id mismatch in handle_inittarget";
  '(c', (is_valid, channel_events, errormsg)) ←
    handle_receive_lockedtransfer c transfer (lts_payer_address_metadata transfer);
  if (is_valid : bool) then
    let target_state :=
      mkTargetTransferState (ait_from_hop action) transfer None SECRET_REQUEST None in
    if ait_received_valid_secret action
    then Ok (mkTransitionResult (Some target_state) channel_events, c', prng)
    else
      safe_to_wait ← is_safe_to_wait (lock_expiration (lts_lock transfer))
                       (reveal_timeout c') block_number;
      if so_ok safe_to_wait then
        let '(mid, prng') := message_identifier_from_prng prng in
        let secret_request :=
          mkSendSecretRequest
            (mkSendMessageEvent (lts_initiator transfer)
               (lts_initiator_address_metadata transfer)
               CANONICAL_IDENTIFIER_UNORDERED_QUEUE mid)
            (lts_payment_identifier transfer) (lock_amount (lts_lock transfer))
            (lock_expiration (lts_lock transfer)) (lock_secrethash (lts_lock transfer)) in
        Ok (mkTransitionResult (Some target_state)
              (channel_events ++ [ESendSecretRequest secret_request]), c', prng')
      else Ok (mkTransitionResult (Some target_state) channel_events, c', prng)
  else
    _ ← py_assert (text_truthy errormsg)
          "handle_receive_lockedtransfer should return error msg if not valid";
    Ok (mkTransitionResult None
          (channel_events ++
             [EEventUnlockClaimFailed
                (mkEventUnlockClaimFailed (lts_payment_identifier transfer)
                   (lock_secrethash (lts_lock transfer)) (default [] errormsg))]), c', prng).

(** [handle_offchain_secretreveal] *)
Definition target_handle_offchain_secretreveal (t : TargetTransferState)
    (action : ReceiveSecretReveal) (c : NettingChannelState) (prng : Random)
    (block_number : Z) : TargetResult :=
  let valid_secret := bool_decide (rsr_secrethash action = tgt_secrethash t) in
  let has_transfer_expired := is_transfer_expired (tgt_transfer t) c block_number in
  if valid_secret && negb has_transfer_expired then
    let c' := register_offchain_secret c (rsr_secret action) (rsr_secrethash action) in
    let '(mid, prng') := message_identifier_from_prng prng in
    let t' := set_tgt_secret (Some (rsr_secret action)) (set_tgt_state OFFCHAIN_SECRET_REVEAL t) in
    let reveal :=
      mkSendSecretReveal
        (mkSendMessageEvent (node_address (tgt_from_hop t))
           (lts_payer_address_metadata (tgt_transfer t))
           CANONICAL_IDENTIFIER_UNORDERED_QUEUE mid)
        (rsr_secret action) (sha256_secrethash (rsr_secret action)) in
    (mkTransitionResult (Some t') [ESendSecretReveal reveal], c', prng')
  else (mkTransitionResult (Some t) [], c, prng).

(** [handle_onchain_secretreveal] *)
Definition target_handle_onchain_secretreveal (t : TargetTransferState)
    (action : ContractReceiveSecretReveal) (c : NettingChannelState) (prng : Random) :
    Py TargetResult :=
  let valid_secret := bool_decide (crsr_secrethash action = tgt_secrethash t) in
  if valid_secret then
    c' ← register_onchain_secret c (crsr_secret action) (crsr_secrethash action)
           (crsr_block_number action) true;
    let t' := set_tgt_secret (Some (crsr_secret action)) (set_tgt_state ONCHAIN_UNLOCK t) in
    Ok (mkTransitionResult (Some t') [], c', prng)
  else Ok (mkTransitionResult (Some t) [], c, prng).

(** [handle_unlock] *)
Definition target_handle_unlock (t : TargetTransferState) (action : ReceiveUnlock)
    (c : NettingChannelState) (prng : Random) : Py TargetResult :=
  let recipient_metadata := lts_payer_address_metadata (tgt_transfer t) in
  '(c', (is_valid, evs, _)) ← handle_unlock c action recipient_metadata;
  if (is_valid : bool) then
    let transfer := tgt_transfer t in
    payment_received_success ←
      new_EventPaymentReceivedSuccess (token_network_registry_address c')
        (channel_token_network_address c') (lts_payment_identifier transfer)
        (lock_amount (lts_lock transfer)) (lts_initiator transfer);
    let unlock_success :=
      mkEventUnlockClaimSuccess (lts_payment_identifier transfer)
        (lock_secrethash (lts_lock transfer)) in
    Ok (mkTransitionResult None
          (evs ++ [EEventPaymentReceivedSuccess payment_received_success;
                   EEventUnlockClaimSuccess unlock_success]), c', prng)
  else Ok (mkTransitionResult (Some t) evs, c', prng).

(** [handle_block] *)
Definition target_handle_block (t : TargetTransferState) (c : NettingChannelState)
    (block_number : Z) (block_hash : bytes) (prng : Random) : Py TargetResult :=
  let lock := tgt_lock t in
  let secret_known := is_secret_known (partner_state c) (lock_secrethash lock) in
  let lock_has_expired :=
    is_lock_expired (our_state c) lock block_number
      (get_receiver_expiration_threshold (lock_expiration lock)) in
  if so_ok lock_has_expired && negb (bool_decide (tgt_state t = EXPIRED)) then
    let failed :=
      mkEventUnlockClaimFailed (lts_payment_identifier (tgt_transfer t)) (lock_secrethash lock)
        [Msg "lock expired" []] in
    Ok (mkTransitionResult (Some (set_tgt_state EXPIRED t)) [EEventUnlockClaimFailed failed],
        c, prng)
  else if secret_known then
    '(t', evs) ← target_events_for_onchain_secretreveal t c block_number block_hash;
    Ok (mkTransitionResult (Some t') evs, c, prng)
  else Ok (mkTransitionResult (Some t) [], c, prng).

(** [handle_lock_expired] *)
Definition target_handle_lock_expired (t : TargetTransferState) (action : ReceiveLockExpired)
    (c : NettingChannelState) (block_number : Z) (prng : Random) : Py TargetResult :=
  let recipient_metadata := lts_payer_address_metadata (tgt_transfer t) in
  result ← handle_receive_lock_expired c action block_number recipient_metadata;
  let c' := new_state result in
  match get_lock (partner_state c') (tgt_secrethash t) with
  | None =>
      let unlock_failed :=
        mkEventUnlockClaimFailed (lts_payment_identifier (tgt_transfer t)) (tgt_secrethash t)
          [Msg "Lock expired" []] in
      Ok (mkTransitionResult None (events result ++ [EEventUnlockClaimFailed unlock_failed]),
          c', prng)
  | Some _ => Ok (mkTransitionResult (Some t) (events result), c', prng)
  end.

(** The dispatch of [target.state_transition]. *)
Definition target_dispatch (target_state : option TargetTransferState) (sc : StateChange)
    (c : NettingChannelState) (prng : Random) (block_nr : Z) : Py TargetResult :=
  match sc with
  | SActionInitTarget a =>
      match target_state with
      | None => handle_inittarget a c prng block_nr
      | Some _ => Ok (mkTransitionResult target_state [], c, prng)
      end
  | SBlock a =>
      _ ← py_assert (block_number a =? block_nr) "Block number mismatch";
      t ← assert_some target_state
            "Block state changes should be accompanied by a valid target state";
      target_handle_block t c (block_number a) (block_hash a) prng
  | SReceiveSecretReveal a =>
      t ← assert_some target_state
            "ReceiveSecretReveal should be accompanied by a valid target state";
      Ok (target_handle_offchain_secretreveal t a c prng block_nr)
  | SContractReceiveSecretReveal a =>
      t ← assert_some target_state
            "ContractReceiveSecretReveal should be accompanied by a valid target state";
      target_handle_onchain_secretreveal t a c prng
  | SReceiveUnlock a =>
      t ← assert_some target_state
            "ReceiveUnlock should be accompanied by a valid target state";
      target_handle_unlock t a c prng
  | SReceiveLockExpired a =>
      t ← assert_some target_state
            "ReceiveLockExpired should be accompanied by a valid target state";
      target_handle_lock_expired t a c block_nr prng
  | _ => Ok (mkTransitionResult target_state [], c, prng)
  end.

(** [target.state_transition] *)
Definition target_state_transition (target_state : option TargetTransferState)
    (sc : StateChange) (c : NettingChannelState) (prng : Random) (block_nr : Z) :
    Py TargetResult :=
  '(iteration, c', prng') ← target_dispatch target_state sc c prng block_nr;
  _ ← target_sanity_check target_state (new_state iteration) c';
  Ok (iteration, c', prng').
End target.
