(* ===== verification/TaskSteps.v ===== *)
(** What a task of a transfer may do to the channels of a node.

    [evolves c c'] says that a channel got from [c] to [c'] by steps of
    [channel_step]; [store_evolves] says so of all the channels of a node, none
    of which appears or disappears.  A reachable channel stays reachable. *)

From stdpp Require Import relations.
From S2P Require Import Prelude PyDict Bytes Crypto PyFloat MediationFee State Events.
From S2P Require Import StateChanges Channel ChannelValidation ChannelOps ChannelTransition.
From S2P Require Import ChannelLocks ChannelInvariant ChannelSend ChannelReceive ChannelMachine.
From S2P Require Import ChannelSystem TransferTasks Target.

(** ** Relations between stores *)

(** The same references, to related channels. *)
Definition store_rel (R : relation NettingChannelState) (chans chans' : Channels) : Prop :=
  forall ref, option_Forall2 R (dict_get ref chans) (dict_get ref chans').

#[export] Instance store_rel_preorder R : PreOrder R -> PreOrder (store_rel R).
Proof.
  intros HR. split.
  - intros chans ref. destruct (dict_get ref chans); by constructor.
  - intros c1 c2 c3 H1 H2 ref. specialize (H1 ref). specialize (H2 ref).
    inversion H1 as [x y Hxy Ex Ey|Ex Ey]; rewrite <- Ey in H2;
      inversion H2 as [y' z Hyz Ey' Ez|Ey' Ez]; subst; constructor. by etransitivity.
Qed.

Lemma store_channel_rel R ref c c' chans :
  PreOrder R -> dict_get ref chans = Some c -> R c c' ->
  store_rel R chans (store_channel ref c' chans).
Proof.
  intros HR Hc Hcc ref'. unfold store_channel. destruct (decide (ref' = ref)) as [->|Hne].
  - rewrite dict_get_set_eq, Hc. by constructor.
  - rewrite dict_get_set_ne by done. destruct (dict_get ref' chans); by constructor.
Qed.

Lemma store_rel_get R chans chans' ref c' :
  store_rel R chans chans' -> dict_get ref chans' = Some c' ->
  exists c, dict_get ref chans = Some c /\ R c c'.
Proof. intros Hr Hc'. specialize (Hr ref). rewrite Hc' in Hr. inversion Hr; eauto. Qed.

Lemma store_rel_get_fwd R chans chans' ref c :
  store_rel R chans chans' -> dict_get ref chans = Some c ->
  exists c', dict_get ref chans' = Some c' /\ R c c'.
Proof. intros Hr Hc. specialize (Hr ref). rewrite Hc in Hr. inversion Hr; eauto. Qed.

Section steps.
Context `{CryptoLaws} `{FloatPow}.
Implicit Types (chans : Channels).

(** ** Steps of one channel *)

Definition evolves (c c' : NettingChannelState) : Prop := solvent_inv c -> rtc channel_step c c'.

#[export] Instance evolves_preorder : PreOrder evolves.
Proof.
  split; [intros c _; apply rtc_refl|]. intros c1 c2 c3 H12 H23 Hc.
  pose proof (H12 Hc) as Hs. etransitivity; [exact Hs|]. apply H23. exact (steps_inv _ _ Hs Hc).
Qed.

Lemma evolves_step c c' : (solvent_inv c -> channel_step c c') -> evolves c c'.
Proof. intros Hs Hc. apply rtc_once. auto. Qed.

Lemma send_lock_expired_nonce c l prng rmd r :
  send_lock_expired c l prng rmd = Ok r -> compute_locks_without (pending_locks (our_state c)) (lock_encoded l) <> None ->
  nonce (our_state c) < UINT64_MAX.
Proof.
  unfold send_lock_expired, create_sendexpiredlock, new_BalanceProofUnsignedState,
    validate_balance_proof. intros Hok Hp. py_inv.
  destruct (compute_locks_without _ _); [|done]. py_inv. bool_hyps. unfold get_next_nonce in *. lia.
Qed.

(** The removal of an expired lock that is pending. *)
Lemma send_lock_expired_evolves c l prng rmd nr threshold c' evs prng' :
  (solvent_inv c -> get_lock (our_state c) (lock_secrethash l) = Some l) ->
  so_ok (is_lock_expired (our_state c) l nr threshold) = true ->
  send_lock_expired c l prng rmd = Ok (c', evs, prng') -> evolves c c'.
Proof.
  intros Hl Hexp Hrun. apply evolves_step. intros Hc. pose proof (Hl Hc) as Hg.
  eapply step_send_expired; [exact Hg| | |exact Hrun].
  - unfold is_lock_expired in Hexp. unfold is_secret_known_onchain.
    destruct (dict_mem (lock_secrethash l) _); [done|done].
  - apply (send_lock_expired_nonce _ _ _ _ _ Hrun).
    by rewrite (compute_locks_without_pending _ _ _ (end_locks _ (inv_our _ c Hc)) Hg).
Qed.

(** The transfer that [send_lockedtransfer] puts into its event. *)
Lemma send_lockedtransfer_transfer c initiator target amount mid pid expiration secret sh routes
    rmd pmd c' ev :
  send_lockedtransfer c initiator target amount mid pid expiration secret sh routes rmd pmd
    = Ok (c', ev) ->
  let t := slt_transfer ev in
  ltu_lock t = mkHashTimeLockState amount expiration sh /\ lock_valid (ltu_lock t)
  /\ ltu_payment_identifier t = pid /\ ltu_token t = token_address c
  /\ ltu_initiator t = initiator /\ ltu_target t = target /\ ltu_route_states t = routes
  /\ ubp_canonical_identifier (ltu_balance_proof t) = canonical_identifier c
  /\ exists e, c' = set_our_state e c.
Proof.
  unfold send_lockedtransfer, create_sendlockedtransfer, new_BalanceProofUnsignedState,
    new_LockedTransferUnsignedState. intros Hok. py_inv. subst. py_inv. subst. cbn.
  match goal with Hl : new_HashTimeLockState _ _ _ = Ok _ |- _ =>
    apply new_HashTimeLockState_Ok in Hl as [-> Hv] end.
  split_and!; try done. by eexists.
Qed.

(** ** Steps of a store *)

Definition store_evolves : relation Channels := store_rel evolves.

Lemma store_evolves_channel ref c c' chans :
  dict_get ref chans = Some c -> evolves c c' -> store_evolves chans (store_channel ref c' chans).
Proof. intros Hc He. by apply (store_channel_rel evolves ref c); [apply _| |]. Qed.

(** ** Reachable channels *)

(** Every channel of the node is reachable from a freshly opened one. *)
Definition store_reachable chans : Prop :=
  forall ref c, dict_get ref chans = Some c -> reachable c.

Lemma reachable_solvent c : reachable c -> solvent_inv c.
Proof. intros (c0 & Ho & Hs). eapply steps_inv; [exact Hs|]. by apply opened_inv. Qed.

(** Every channel of the node satisfies the channel invariant, as every
    reachable channel does ([reachable_solvent]). *)
Definition store_solvent chans : Prop :=
  forall ref c, dict_get ref chans = Some c -> solvent_inv c.

Lemma store_reachable_solvent chans : store_reachable chans -> store_solvent chans.
Proof. intros Hr ref c Hc. by apply reachable_solvent, (Hr ref). Qed.

Lemma store_evolves_reachable chans chans' :
  store_evolves chans chans' -> store_reachable chans -> store_reachable chans'.
Proof.
  intros He Hr ref c' Hc'. destruct (store_rel_get _ _ _ _ _ He Hc') as (c & Hc & Hev).
  pose proof (Hr _ _ Hc) as Hreach. pose proof Hreach as (c0 & Ho & Hs). exists c0. split; [done|].
  etransitivity; [exact Hs|]. by apply Hev, reachable_solvent.
Qed.
End steps.

(** ** The interface of a task

    What a task promises the node: a step that the node dispatches under the
    condition [task_env] changes the channels only by channel steps.  [P] is
    the part of the node that the task belongs to (its token network, or its
    channel) and [T] the state of the task. *)
Class ChannelTask `{CryptoLaws} `{FloatPow} (P T : Type) : Type := {
  task_transition : P -> option T -> StateChange -> dict (bytes * bytes) ChannelRef -> Channels ->
    Random -> Z -> bytes -> Py (TransitionResult (option T) * Channels * Random);
  task_env : P -> option T -> StateChange -> Channels -> dict (bytes * bytes) ChannelRef -> Prop;
  task_evolves place ts sc addrs chans prng nr hsh iteration chans' prng' :
    task_env place ts sc chans addrs ->
    task_transition place ts sc addrs chans prng nr hsh = Ok (iteration, chans', prng') ->
    store_evolves chans chans'
}.

(** ** The target changes its channel only through the operations of a channel *)

Section steps.
Context `{CryptoLaws} `{FloatPow}.

(** The messages are well formed, and a received lock is new in its channel. *)
Definition target_step_env (ts : option TargetTransferState) (sc : StateChange)
    (c : NettingChannelState) : Prop :=
  match sc with
  | SActionInitTarget a =>
      let t := ait_transfer a in
      received_bp (lts_balance_proof t) /\ lock_valid (lts_lock t)
      /\ (ts = None -> is_lock_pending (partner_state c) (lock_secrethash (lts_lock t)) = false)
  | SReceiveUnlock a => received_bp (ru_balance_proof a)
  | SReceiveLockExpired a => received_bp (rle_balance_proof a)
  | _ => True
  end.

Lemma target_transition_evolves ts sc c prng nr it c' prng' :
  target_step_env ts sc c ->
  target_state_transition ts sc c prng nr = Ok (it, c', prng') -> evolves c c'.
Proof.
  intros Henv Hok. unfold target_state_transition in Hok.
  apply bind_Ok in Hok as ([[it1 c1] prng1] & Hd & Hok).
  apply bind_Ok in Hok as (? & _ & Hok). injection Hok as _ <- _.
  unfold target_dispatch in Hd. destruct sc; try (injection Hd as _ <- _; reflexivity).
  all: try (apply bind_Ok in Hd as (t & Ht & Hd); apply assert_some_Ok in Ht as ->).
  - apply bind_Ok in Hd as (? & _ & Hd). apply bind_Ok in Hd as (t & _ & Hd).
    unfold target_handle_block in Hd. case_if; [by injection Hd as _ <- _|].
    case_if; [|by injection Hd as _ <- _]. apply bind_Ok in Hd as ([t' evs] & _ & Hd).
    by injection Hd as _ <- _.
  - unfold target_handle_onchain_secretreveal in Hd. case_if; [|by injection Hd as _ <- _].
    apply bind_Ok in Hd as (c2 & Hreg & Hd). injection Hd as _ <- _.
    apply evolves_step. intros _. eapply step_secret_onchain. exact Hreg.
  - unfold target_handle_unlock in Hd. apply bind_Ok in Hd as ([c2 [[ok evs] m]] & Hun & Hd).
    assert (c1 = c2) as ->.
    { destruct ok; [|by injection Hd as _ <- _]. apply bind_Ok in Hd as (? & _ & Hd).
      by injection Hd as _ <- _. }
    apply evolves_step. intros _. eapply step_receive_unlock; [exact Henv|exact Hun].
  - destruct ts; [by injection Hd as _ <- _|]. destruct Henv as (Hbp & Hv & Hp).
    unfold handle_inittarget in Hd. apply bind_Ok in Hd as (? & _ & Hd).
    apply bind_Ok in Hd as ([c2 [[ok evs] m]] & Hrun & Hd).
    assert (c1 = c2) as ->.
    { destruct ok.
      - case_if; [by injection Hd as _ <- _|]. apply bind_Ok in Hd as (safe & _ & Hd).
        case_if; [|by injection Hd as _ <- _]. destruct (message_identifier_from_prng prng).
        by injection Hd as _ <- _.
      - apply bind_Ok in Hd as (? & _ & Hd). by injection Hd as _ <- _. }
    apply evolves_step. intros _.
    eapply step_receive_transfer; [exact Hbp|exact Hv|by apply Hp|exact Hrun].
  - unfold target_handle_lock_expired in Hd. apply bind_Ok in Hd as (res & Hrun & Hd).
    assert (c1 = new_state res) as -> by (case_match; by injection Hd as _ <- _).
    apply evolves_step. intros _. by eapply step_receive_expired.
  - injection Hd as Hd. unfold target_handle_offchain_secretreveal in Hd.
    case_if; [|by injection Hd as _ <- _]. destruct (message_identifier_from_prng prng).
    injection Hd as _ <- _. apply evolves_step. intros _. apply step_secret_offchain.
Qed.

(** A target works on the channel it was paid through. *)
Definition target_on_store (ref : ChannelRef) (ts : option TargetTransferState) (sc : StateChange)
    (addrs : dict (bytes * bytes) ChannelRef) (chans : Channels) (prng : Random) (nr : Z)
    (hsh : bytes) : Py (TransitionResult (option TargetTransferState) * Channels * Random) :=
  match dict_get ref chans with
  | None => Ok (mkTransitionResult ts [], chans, prng)
  | Some c =>
      '(iteration, c', prng') ← target_state_transition ts sc c prng nr;
      Ok (iteration, store_channel ref c' chans, prng')
  end.

(** The target keeps the promise of a task. *)
#[export] Instance target_task : ChannelTask ChannelRef TargetTransferState.
Proof.
  refine {| task_transition := target_on_store;
            task_env ref ts sc chans addrs :=
              forall c, dict_get ref chans = Some c -> target_step_env ts sc c |}.
  intros * Henv Hok. unfold target_on_store in Hok.
  destruct (dict_get place chans) as [c|] eqn:Hc; [|by injection Hok as _ <- _].
  apply bind_Ok in Hok as ([[it c'] prng1] & Hrun & Hok). injection Hok as _ <- _.
  eapply store_evolves_channel; [exact Hc|].
  eapply target_transition_evolves; [by apply Henv|exact Hrun].
Defined.
End steps.
