(* ===== verification/TargetProofs.v ===== *)
(** Correctness of the target of a transfer: the task runs exactly as long as
    its lock is pending, its assertions hold, and it reports a payment exactly
    when the tokens have arrived. *)

From S2P Require Import Prelude PyDict Bytes Crypto PyFloat MediationFee State Events.
From S2P Require Import StateChanges Channel ChannelValidation ChannelOps ChannelTransition.
From S2P Require Import ChannelLocks ChannelInvariant ChannelSend ChannelReceive TransferTasks.
From S2P Require Import Target.

(** The secret of the transfer that is stored in the channel is not empty. *)
Definition stored_secret_ok (e : NettingChannelEndState) (sh : bytes) : Prop :=
  forall p, dict_get sh (secrethashes_to_unlockedlocks e) = Some p -> unlock_secret p <> [].

(** While the task runs, its lock is pending in the partner's end. *)
Record target_inv (t : TargetTransferState) (c : NettingChannelState) : Prop := {
  ti_lock : get_lock (partner_state c) (tgt_secrethash t) = Some (tgt_lock t);
  ti_secret : stored_secret_ok (partner_state c) (tgt_secrethash t)
}.

Definition target_inv_opt (t : option TargetTransferState) (c : NettingChannelState) : Prop :=
  match t with Some t => target_inv t c | None => True end.

Lemma stored_secret_del sh sh' e e' :
  dict_wf (secrethashes_to_unlockedlocks e) ->
  secrethashes_to_unlockedlocks e' = dict_del sh' (secrethashes_to_unlockedlocks e) ->
  stored_secret_ok e sh -> stored_secret_ok e' sh.
Proof.
  intros Hwf He Hs p. rewrite He. destruct (decide (sh = sh')) as [->|Hne].
  - by rewrite dict_get_del_eq.
  - rewrite dict_get_del_ne by done. apply Hs.
Qed.

Lemma unlocked_wf e : locks_inv e -> dict_wf (secrethashes_to_unlockedlocks e).
Proof.
  intros [Hwf _ _]. unfold lock_index in Hwf. apply dict_wf_app in Hwf as (_ & Hwf & _).
  apply dict_wf_app in Hwf as (Hwf & _ & _). unfold dict_wf in *.
  by rewrite dict_keys_map_values in Hwf.
Qed.

Lemma is_safe_to_wait_run expiration reveal nr :
  0 < nr -> 0 < reveal -> reveal < expiration ->
  exists s, is_safe_to_wait expiration reveal nr = Ok s
    /\ (so_ok s = true <-> reveal < expiration - nr).
Proof.
  intros H1 H2 H3. unfold is_safe_to_wait.
  rewrite (proj2 (Z.ltb_lt _ _) H1), (proj2 (Z.ltb_lt _ _) H2), (proj2 (Z.ltb_lt _ _) H3). cbn.
  eexists. split; [done|]. destruct (Z.ltb_spec reveal (expiration - nr)); split; done || lia.
Qed.

(** The assertion of [is_safe_to_wait] that a lock with a short expiration
    violates. *)
Definition short_expiration : exn :=
  AssertionError "lock_expiration must be larger than reveal_timeout".

Lemma is_safe_to_wait_short expiration reveal nr :
  0 < nr -> 0 < reveal -> expiration <= reveal ->
  is_safe_to_wait expiration reveal nr = Raise short_expiration.
Proof.
  intros H1 H2 H3. unfold is_safe_to_wait.
  by rewrite (proj2 (Z.ltb_lt _ _) H1), (proj2 (Z.ltb_lt _ _) H2), (proj2 (Z.ltb_ge _ _) H3).
Qed.

Section target.
Context `{CryptoLaws}.
Implicit Types (c : NettingChannelState) (t : TargetTransferState).

(** What the node guarantees when it dispatches to a target task: the block
    number and the reveal timeout are positive, messages are well formed and
    name the channel, the secrethash of a new transfer is not yet pending in
    the channel, and a message is dispatched to the task of its secrethash. *)
Definition target_env (target_state : option TargetTransferState) (sc : StateChange)
    (c : NettingChannelState) (nr : Z) : Prop :=
  0 < nr /\ 0 < reveal_timeout c
  /\ match sc with
     | SActionInitTarget a =>
         let transfer := ait_transfer a in
         target_state = None ->
         identifier c = channel_identifier (sbp_canonical_identifier (lts_balance_proof transfer))
         /\ received_bp (lts_balance_proof transfer) /\ lock_valid (lts_lock transfer)
         /\ is_lock_pending (partner_state c) (lock_secrethash (lts_lock transfer)) = false
     | SBlock a => block_number a = nr /\ is_Some target_state
     | SReceiveSecretReveal a => is_Some target_state /\ rsr_secret a <> []
     | SContractReceiveSecretReveal a => is_Some target_state
     | SReceiveUnlock a =>
         exists t, target_state = Some t /\ ru_secrethash a = tgt_secrethash t
           /\ received_bp (ru_balance_proof a)
     | SReceiveLockExpired a => is_Some target_state /\ received_bp (rle_balance_proof a)
     | _ => True
     end.

(** The lock that a step asks [is_safe_to_wait] about, in a new transfer or at
    a block, expires before the reveal timeout has passed since block zero. *)
Definition short_lock (target_state : option TargetTransferState) (sc : StateChange)
    (c : NettingChannelState) : Prop :=
  match target_state, sc with
  | None, SActionInitTarget a => lock_expiration (lts_lock (ait_transfer a)) <= reveal_timeout c
  | Some t, SBlock _ => lock_expiration (tgt_lock t) <= reveal_timeout c
  | _, _ => False
  end.

(** The result of a handler: the channel keeps its invariant, and the lock is
    pending exactly when the task runs. *)
Definition target_handled (old : option TargetTransferState) (r : Py TargetResult) : Prop :=
  exists iteration c' prng', r = Ok (iteration, c', prng') /\ solvent_inv c'
    /\ target_inv_opt (new_state iteration) c'
    /\ forall t, old = Some t -> new_state iteration = None ->
         get_lock (partner_state c') (tgt_secrethash t) = None.

Lemma target_handled_same t c evs prng :
  solvent_inv c -> target_inv t c ->
  target_handled (Some t) (Ok (mkTransitionResult (Some t) evs, c, prng)).
Proof. intros Hc Ht. by eexists _, _, _. Qed.

(** Changing the task's own attributes. *)
Lemma target_inv_transfer t t' c :
  tgt_transfer t' = tgt_transfer t -> target_inv t c -> target_inv t' c.
Proof. intros Heq [H1 H2]. unfold tgt_secrethash, tgt_lock in *. split; unfold tgt_secrethash, tgt_lock; by rewrite Heq. Qed.

Lemma inittarget_handled a c prng nr :
  solvent_inv c -> target_env None (SActionInitTarget a) c nr ->
  target_handled None (handle_inittarget a c prng nr)
  \/ (lock_expiration (lts_lock (ait_transfer a)) <= reveal_timeout c
      /\ handle_inittarget a c prng nr = Raise short_expiration).
Proof.
  intros Hc (Hnr & Hrev & Henv). destruct (Henv eq_refl) as (Hid & Hbp & Hv & Hf).
  unfold handle_inittarget. rewrite Hid, Z.eqb_refl. cbn.
  destruct (handle_receive_lockedtransfer_run true c (ait_transfer a)
    (lts_payer_address_metadata (ait_transfer a)) Hc Hbp)
    as [[Ha Hrun]|(Hna & m & Hrun)]; rewrite Hrun; cbn.
  - set (c' := received_lock c _ _). set (t := mkTargetTransferState _ _ _ _ _).
    assert (solvent_inv c') as Hc' by (by apply received_lock_inv).
    assert (target_inv t c') as Ht.
    { pose proof (received_lock_updated true c _ _ Hc Hv Hf Ha) as [Hi _ _ Hidx _ _ _].
      split.
      - rewrite get_lock_index, (dict_get_perm _ _ _ (index_wf _ _ (end_locks _ Hi)) Hidx). cbn.
        by rewrite decide_True.
      - intros p Hp. exfalso. cbn in Hp. unfold is_lock_pending in Hf.
        apply orb_false_iff in Hf as [Hf _]. apply orb_false_iff in Hf as [_ Hf].
        apply dict_mem_false in Hf. unfold tgt_secrethash, tgt_lock in Hp. cbn in Hp. congruence. }
    destruct (ait_received_valid_secret a); [left; by eexists _, _, _|].
    destruct (Z.le_gt_cases (lock_expiration (lts_lock (ait_transfer a))) (reveal_timeout c))
      as [Hexp|Hexp]; [right; by rewrite is_safe_to_wait_short|left].
    destruct (is_safe_to_wait_run (lock_expiration (lts_lock (ait_transfer a))) (reveal_timeout c) nr)
      as (s & -> & _); [done..|]. cbn.
    destruct (so_ok s); by eexists _, _, _.
  - left. destruct m; [|by eexists _, _, _].
    exfalso. unfold handle_receive_lockedtransfer in Hrun. py_inv.
    destruct x as [[ok m] p]. destruct ok; py_inv; by simplify_eq.
Qed.

(** Registering a secret keeps every lock. *)
Lemma register_offchain_get_lock c secret sh sh' :
  solvent_inv c ->
  get_lock (partner_state (register_offchain_secret c secret sh)) sh'
  = get_lock (partner_state c) sh'.
Proof.
  intros Hc. rewrite !get_lock_index. symmetry. apply dict_get_perm.
  - apply (index_wf _ _ (end_locks _ (inv_partner _ c Hc))).
  - symmetry. apply (register_secret_endstate_index (partner_state c)), Hc.
Qed.

Lemma offchain_secretreveal_handled t a c prng nr :
  solvent_inv c -> target_inv t c -> rsr_secret a <> [] ->
  target_handled (Some t) (Ok (target_handle_offchain_secretreveal t a c prng nr)).
Proof.
  intros Hc Ht Hsec. unfold target_handle_offchain_secretreveal, message_identifier_from_prng.
  destruct (_ && _); [|by apply target_handled_same]. cbn.
  eexists _, _, _. split; [done|]. split; [by apply register_offchain_secret_inv|]. split; [|done].
  apply (target_inv_transfer t); [done|]. destruct Ht as [Hl Hs]. split.
  - by rewrite register_offchain_get_lock.
  - intros p Hp. cbn in Hp. unfold register_secret_endstate in Hp.
    destruct (dict_get (rsr_secrethash a) _) as [l|]; [|by apply Hs].
    cbn in Hp. destruct (decide (tgt_secrethash t = rsr_secrethash a)) as [Heq|Hne].
    + rewrite Heq, dict_get_set_eq in Hp. injection Hp as <-. done.
    + rewrite dict_get_set_ne in Hp by done. by apply Hs.
Qed.

Lemma onchain_endstate_unlocked e secret sh block e' :
  register_onchain_secret_endstate e secret sh block true = Ok e' ->
  secrethashes_to_unlockedlocks e' = secrethashes_to_unlockedlocks e
  \/ secrethashes_to_unlockedlocks e' = dict_del sh (secrethashes_to_unlockedlocks e).
Proof.
  unfold register_onchain_secret_endstate. intros Hok.
  repeat case_match; try case_if; simplify_eq; auto;
    py_inv; subst; unfold del_lock in *; py_inv; subst; right;
    rewrite del_unclaimed_lock_eq; by case_if.
Qed.

Lemma onchain_secretreveal_handled t a c prng :
  solvent_inv c -> target_inv t c ->
  target_handled (Some t) (target_handle_onchain_secretreveal t a c prng).
Proof.
  intros Hc Ht. unfold target_handle_onchain_secretreveal.
  destruct (bool_decide _); [|by apply target_handled_same].
  destruct (register_onchain_secret_inv true c (crsr_secret a) (crsr_secrethash a)
    (crsr_block_number a) Hc) as (c' & Hrun & Hc'). rewrite Hrun. cbn.
  eexists _, _, _. split; [done|]. split; [done|]. split; [|done].
  apply (target_inv_transfer t); [done|]. destruct Ht as [Hl Hs].
  unfold register_onchain_secret in Hrun. apply bind_Ok in Hrun as (e1 & _ & Hrun).
  apply bind_Ok in Hrun as (e2 & H2 & Hrun). injection Hrun as <-.
  destruct (register_onchain_secret_endstate_index (partner_state c) (crsr_secret a)
    (crsr_secrethash a) (crsr_block_number a)) as (e2' & H2' & Hperm & _); [apply Hc|].
  rewrite H2 in H2'. injection H2' as <-. split; cbn.
  - rewrite <- Hl, !get_lock_index. symmetry. apply dict_get_perm; [|by symmetry].
    apply (index_wf _ _ (end_locks _ (inv_partner _ c Hc))).
  - destruct (onchain_endstate_unlocked _ _ _ _ _ H2) as [Heq|Heq].
    + intros p. rewrite Heq. apply Hs.
    + apply (stored_secret_del _ (crsr_secrethash a) (partner_state c)); [|done..].
      apply unlocked_wf, Hc.
Qed.

Lemma new_payment_received_run registry tn identifier l initiator :
  lock_valid l ->
  new_EventPaymentReceivedSuccess registry tn identifier (lock_amount l) initiator
  = Ok (mkEventPaymentReceivedSuccess registry tn identifier (lock_amount l) initiator).
Proof.
  intros [Ha _ _]. unfold new_EventPaymentReceivedSuccess.
  rewrite !(fun x => proj2 (Z.ltb_ge _ x)) by lia. done.
Qed.

Lemma unlock_handled t a c prng :
  solvent_inv c -> target_inv t c -> ru_secrethash a = tgt_secrethash t ->
  received_bp (ru_balance_proof a) ->
  target_handled (Some t) (target_handle_unlock t a c prng).
Proof.
  intros Hc Ht Hsh Hbp. unfold target_handle_unlock.
  destruct (handle_unlock_run true c a (lts_payer_address_metadata (tgt_transfer t)) Hc Hbp)
    as [(l & [Hg Hu Hca] & Hrun)|(_ & m & Hrun)]; rewrite Hrun; cbn;
    [|by apply target_handled_same].
  pose proof (unlock_amount_nonneg true c _ _ l Hc (or_intror eq_refl) Hg) as Hnn.
  destruct (received_removal_effect c _ l _ (lock_amount l) Hc Hg (conj Hnn (Z.le_refl _)) Hu Hca)
    as (Hc' & _ & Hnone & _).
  destruct (pending_lock_facts _ _ _ (inv_partner _ c Hc) (ti_lock t c Ht)) as (_ & Hv & _).
  unfold tgt_lock in Hv. rewrite new_payment_received_run by done. cbn.
  eexists _, _, _. split; [done|]. split; [done|]. split; [done|].
  intros t' [= <-] _. by rewrite <- Hsh.
Qed.

Lemma lock_expired_handled t a c nr prng :
  solvent_inv c -> target_inv t c -> received_bp (rle_balance_proof a) ->
  target_handled (Some t) (target_handle_lock_expired t a c nr prng).
Proof.
  intros Hc Ht Hbp. unfold target_handle_lock_expired.
  destruct (handle_receive_lock_expired_run true c a nr
    (lts_payer_address_metadata (tgt_transfer t)) Hc Hbp)
    as [(l & [Hg _ _ _ Hu Hca] & Hrun)|(_ & m & Hrun)]; rewrite Hrun; cbn;
    [|rewrite (ti_lock t c Ht); by apply target_handled_same].
  pose proof (unlock_amount_nonneg true c _ _ l Hc (or_intror eq_refl) Hg) as Hnn.
  destruct (received_removal_effect c _ l _ 0 Hc Hg (conj (Z.le_refl 0) Hnn) Hu Hca)
    as (Hc' & _ & Hnone & Hother & _).
  destruct (get_lock _ (tgt_secrethash t)) eqn:E.
  2: { eexists _, _, _. split; [done|]. split; [done|]. split; [done|]. by intros t' [= <-] _. }
  apply target_handled_same; [done|]. split.
  - rewrite Hother; [apply Ht|]. intros Heq. rewrite Heq in E. discriminate (eq_trans (eq_sym Hnone) E).
  - apply (stored_secret_del _ (rle_secrethash a) (partner_state c)); [|done|apply Ht].
    apply unlocked_wf, Hc.
Qed.

(** A secret that is known off-chain is found by [get_secret]. *)
Lemma known_secret_found e sh :
  stored_secret_ok e sh -> is_secret_known_offchain e sh = true ->
  exists s, get_secret e sh = Some s /\ s <> [].
Proof.
  unfold is_secret_known_offchain, get_secret. intros Hs [p Hp]%dict_mem_true. rewrite Hp.
  exists (unlock_secret p). split; [done|]. by apply Hs.
Qed.

Lemma onchain_reveal_run t c nr hsh :
  target_inv t c -> 0 < nr -> 0 < reveal_timeout c ->
  reveal_timeout c < lock_expiration (tgt_lock t) ->
  exists t' evs, target_events_for_onchain_secretreveal t c nr hsh = Ok (t', evs)
    /\ tgt_transfer t' = tgt_transfer t
    /\ (lock_expiration (tgt_lock t) - nr <= reveal_timeout c ->
        is_secret_known_offchain (partner_state c) (tgt_secrethash t) = true ->
        tgt_state t <> ONCHAIN_SECRET_REVEAL ->
        tgt_state t' = ONCHAIN_SECRET_REVEAL
        /\ (get_status c ∈ CHANNEL_STATES_UP_TO_CLOSED ->
            exists s, evs = [EContractSendSecretReveal
              (mkContractSendSecretReveal hsh (lock_expiration (tgt_lock t)) s)] /\ s <> [])).
Proof.
  intros Ht Hnr Hrev Hexp. unfold target_events_for_onchain_secretreveal.
  destruct (is_safe_to_wait_run (lock_expiration (tgt_lock t)) (reveal_timeout c) nr)
    as (s & -> & Hs); [done..|]. cbn.
  destruct (so_ok s) eqn:Eok; cbn.
  { eexists _, _. split; [done|]. split; [done|]. apply proj1 in Hs. specialize (Hs eq_refl). lia. }
  destruct (is_secret_known_offchain (partner_state c) (tgt_secrethash t)) eqn:Ek; cbn.
  2: { by eexists _, _. }
  case_bool_decide as Hst; cbn; [by eexists _, _|].
  destruct (known_secret_found _ _ (ti_secret t c Ht) Ek) as (sec & -> & Hne). cbn.
  rewrite bool_decide_eq_true_2 by done. cbn.
  eexists _, _. split; [done|]. split; [done|]. intros _ _ _. split; [done|].
  intros Hup. unfold secret_registry_events_for_onchain_secretreveal.
  rewrite bool_decide_eq_true_2 by done. eauto.
Qed.

Lemma block_handled t c nr hsh prng :
  solvent_inv c -> target_inv t c -> 0 < nr -> 0 < reveal_timeout c ->
  target_handled (Some t) (target_handle_block t c nr hsh prng)
  \/ (lock_expiration (tgt_lock t) <= reveal_timeout c
      /\ target_handle_block t c nr hsh prng = Raise short_expiration).
Proof.
  intros Hc Ht Hnr Hrev. unfold target_handle_block.
  destruct (_ && _).
  { left. eexists _, _, _. split; [done|]. split; [done|]. split; [|done].
    by apply (target_inv_transfer t). }
  destruct (is_secret_known _ _); [|left; by apply target_handled_same].
  destruct (Z.le_gt_cases (lock_expiration (tgt_lock t)) (reveal_timeout c)) as [Hexp|Hexp];
    [right; unfold target_events_for_onchain_secretreveal; by rewrite is_safe_to_wait_short|left].
  destruct (onchain_reveal_run t c nr hsh Ht Hnr Hrev Hexp) as (t' & evs & -> & Heq & _). cbn.
  eexists _, _, _. split; [done|]. split; [done|]. split; [|done].
  by apply (target_inv_transfer t).
Qed.

(** Every handler of the task keeps the invariant. *)
Lemma target_dispatch_handled ts sc c prng nr :
  solvent_inv c -> target_inv_opt ts c -> target_env ts sc c nr ->
  target_handled ts (target_dispatch ts sc c prng nr)
  \/ (short_lock ts sc c /\ target_dispatch ts sc c prng nr = Raise short_expiration).
Proof.
  intros Hc Ht Henv. pose proof Henv as (Hnr & Hrev & Hsc).
  assert (forall evs, target_handled ts (Ok (mkTransitionResult ts evs, c, prng))) as Hsame.
  { intros evs. destruct ts as [t|]; [by apply target_handled_same|]. by eexists _, _, _. }
  destruct sc; cbn in Hsc |- *; try (left; apply Hsame).
  - destruct Hsc as [-> [t ->]]. rewrite Z.eqb_refl. cbn. by apply block_handled.
  - destruct Hsc as [t ->]. left. by apply onchain_secretreveal_handled.
  - destruct Hsc as (t & -> & Hsh & Hbp). left. by apply unlock_handled.
  - destruct ts as [t|]; [left; apply Hsame|]. by apply inittarget_handled.
  - destruct Hsc as [[t ->] Hbp]. left. by apply lock_expired_handled.
  - destruct Hsc as [[t ->] Hsec]. left. by apply offchain_secretreveal_handled.
Qed.

(** C6: the target task.  When a state change is dispatched to it with a
    positive block number and reveal timeout, well-formed messages, no empty
    secret and a secrethash that is new in the channel or that of the task ([target_env]),
    [target.state_transition] returns: its sanity check holds, the channel
    keeps its invariant, and the lock of the transfer is pending exactly as
    long as the task exists.  The only exception is the assertion of
    [is_safe_to_wait], raised by a new transfer or a block when the lock expires
    no later than the reveal timeout, which nothing checks before. *)
Theorem target_transition_safe ts sc c prng nr
    (Hc : solvent_inv c) (Ht : target_inv_opt ts c) (Henv : target_env ts sc c nr) :
  (exists iteration c' prng',
    target_state_transition ts sc c prng nr = Ok (iteration, c', prng')
    /\ solvent_inv c' /\ target_inv_opt (new_state iteration) c'
    /\ (forall t, ts = Some t -> new_state iteration = None ->
          get_lock (partner_state c') (tgt_secrethash t) = None))
  \/ (short_lock ts sc c
      /\ target_state_transition ts sc c prng nr
         = Raise (AssertionError "lock_expiration must be larger than reveal_timeout")).
Proof.
  unfold target_state_transition.
  destruct (target_dispatch_handled ts sc c prng nr Hc Ht Henv)
    as [(it & c' & prng' & Hrun & Hc' & Hinv & Hcleared)|[Hs ->]]; [left|by right].
  exists it, c', prng'. split; [|done]. rewrite Hrun. cbn.
  destruct (new_state it) as [t'|] eqn:En; cbn in *.
  - unfold target_sanity_check. rewrite (ti_lock _ _ Hinv). by destruct ts.
  - unfold target_sanity_check. destruct ts as [t|]; [|done].
    by rewrite (Hcleared t eq_refl eq_refl).
Qed.

(** No handler but the one of the unlock reports a payment. *)
Lemma only_unlock_reports t sc c prng nr it c' prng' p :
  solvent_inv c -> target_env (Some t) sc c nr ->
  target_dispatch (Some t) sc c prng nr = Ok (it, c', prng') ->
  EEventPaymentReceivedSuccess p ∈ events it ->
  exists a, sc = SReceiveUnlock a /\ target_handle_unlock t a c prng = Ok (it, c', prng').
Proof.
  intros Hc (_ & _ & Hsc) Hd Hp. destruct sc; cbn in Hd;
    try (injection Hd as <- <- <-; cbn in Hp; by apply elem_of_nil in Hp).
  - exfalso. destruct Hsc as [<- _]. rewrite Z.eqb_refl in Hd. cbn in Hd.
    unfold target_handle_block, target_events_for_onchain_secretreveal,
      secret_registry_events_for_onchain_secretreveal in Hd.
    repeat (case_match || py_inv); simplify_eq; cbn in Hp; set_solver.
  - exfalso. unfold target_handle_onchain_secretreveal in Hd.
    repeat (case_match || py_inv); simplify_eq; cbn in Hp; set_solver.
  - eauto.
  - exfalso. destruct Hsc as [_ Hbp]. unfold target_handle_lock_expired in Hd.
    destruct (handle_receive_lock_expired_run true c _ nr
      (lts_payer_address_metadata (tgt_transfer t)) Hc Hbp)
      as [(l & _ & Hrun)|(_ & m & Hrun)]; rewrite Hrun in Hd; cbn in Hd;
      case_match; simplify_eq; cbn in Hp; set_solver.
  - exfalso. unfold target_handle_offchain_secretreveal, message_identifier_from_prng in Hd.
    case_match; simplify_eq; cbn in Hp; set_solver.
Qed.

(** C7: a payment is reported only when it was received.  If a step of the
    target emits [EventPaymentReceivedSuccess], the state change was an
    unlock, the task is finished, and our balance in the channel has grown by
    exactly the reported amount, which is the amount of the lock. *)
Theorem reported_payment_was_received t sc c prng nr iteration c' prng' p
    (Hc : solvent_inv c) (Ht : target_inv t c) (Henv : target_env (Some t) sc c nr)
    (Hrun : target_state_transition (Some t) sc c prng nr = Ok (iteration, c', prng'))
    (Hp : EEventPaymentReceivedSuccess p ∈ events iteration) :
  (exists a, sc = SReceiveUnlock a /\ ru_secrethash a = tgt_secrethash t)
  /\ new_state iteration = None
  /\ prs_amount p = lock_amount (tgt_lock t)
  /\ get_balance (our_state c') (partner_state c')
     = get_balance (our_state c) (partner_state c) + prs_amount p
  /\ get_lock (partner_state c') (tgt_secrethash t) = None.
Proof.
  unfold target_state_transition in Hrun.
  apply bind_Ok in Hrun as ([[it c1] prng1] & Hd & Hrun). apply bind_Ok in Hrun as ([] & _ & Hrun).
  injection Hrun as -> -> ->.
  destruct (only_unlock_reports _ _ _ _ _ _ _ _ _ Hc Henv Hd Hp) as (a & -> & Hd').
  destruct Henv as (_ & _ & t0 & [= <-] & Hsh & Hbp). split; [by eauto|].
  unfold target_handle_unlock in Hd'.
  destruct (handle_unlock_run true c a (lts_payer_address_metadata (tgt_transfer t)) Hc Hbp)
    as [(l & [Hg Hu Hca] & Hr)|(_ & m & Hr)]; rewrite Hr in Hd'; cbn in Hd'.
  2: { injection Hd' as <- <- _. cbn in Hp. apply list_elem_of_singleton in Hp. done. }
  pose proof (unlock_amount_nonneg true c _ _ l Hc (or_intror eq_refl) Hg) as Hnn.
  destruct (received_removal_effect c _ l _ (lock_amount l) Hc Hg (conj Hnn (Z.le_refl _)) Hu Hca)
    as (_ & _ & Hnone & _ & _ & B & _).
  destruct (pending_lock_facts _ _ _ (inv_partner _ c Hc) (ti_lock t c Ht)) as (_ & Hv & _).
  unfold tgt_lock in Hv. rewrite new_payment_received_run in Hd' by done. cbn in Hd'.
  injection Hd' as <- <- _. cbn in Hp.
  assert (lock_amount l = lock_amount (tgt_lock t)) as Hamount.
  { pose proof (ti_lock t c Ht) as Hl. rewrite <- Hsh, Hg in Hl. by injection Hl as ->. }
  rewrite !elem_of_cons in Hp. destruct Hp as [Hp|[Hp|[Hp|Hp]]]; try done; [|by apply elem_of_nil in Hp].
  injection Hp as ->. split_and!; try done; [by rewrite B, Hamount|by rewrite <- Hsh].
Qed.

(** When it is no longer safe to wait and the secret is known off-chain,
    the next block makes the target reveal the secret on-chain, unless the
    lock has expired for the receiver or the reveal has already started. *)
Theorem target_reveals_in_time t c a nr prng
    (Hc : solvent_inv c) (Ht : target_inv t c)
    (Henv : target_env (Some t) (SBlock a) c nr)
    (Hexp : reveal_timeout c < lock_expiration (tgt_lock t))
    (Hunsafe : lock_expiration (tgt_lock t) - nr <= reveal_timeout c)
    (Hlive : nr < get_receiver_expiration_threshold (lock_expiration (tgt_lock t)))
    (Hknown : is_secret_known_offchain (partner_state c) (tgt_secrethash t) = true)
    (Hstate : tgt_state t <> ONCHAIN_SECRET_REVEAL)
    (Hstatus : get_status c ∈ CHANNEL_STATES_UP_TO_CLOSED) :
  exists t' s c' prng',
    target_state_transition (Some t) (SBlock a) c prng nr
    = Ok (mkTransitionResult (Some t')
            [EContractSendSecretReveal (mkContractSendSecretReveal (block_hash a)
               (lock_expiration (tgt_lock t)) s)], c', prng')
    /\ s <> [] /\ tgt_state t' = ONCHAIN_SECRET_REVEAL.
Proof.
  destruct Henv as (Hnr & Hrev & Hb & _).
  unfold target_state_transition. cbn. rewrite Hb, Z.eqb_refl. cbn. unfold target_handle_block.
  assert (so_ok (is_lock_expired (our_state c) (tgt_lock t) nr
    (get_receiver_expiration_threshold (lock_expiration (tgt_lock t)))) = false) as ->.
  { unfold is_lock_expired. case_if; [done|]. by rewrite (proj2 (Z.ltb_lt _ _) Hlive). }
  cbn. assert (is_secret_known (partner_state c) (lock_secrethash (tgt_lock t)) = true) as ->.
  { unfold is_secret_known, is_secret_known_offchain, tgt_secrethash in *. by rewrite Hknown. }
  destruct (onchain_reveal_run t c nr (block_hash a) Ht Hnr Hrev Hexp)
    as (t' & evs & -> & Htr & Hrev').
  destruct (Hrev' Hunsafe Hknown Hstate) as [Hst Hevs].
  destruct (Hevs Hstatus) as (s & -> & Hne). cbn. eexists _, s, _, _.
  unfold target_sanity_check, tgt_secrethash, tgt_lock. rewrite Htr.
  pose proof (ti_lock t c Ht) as Hl. unfold tgt_secrethash, tgt_lock in Hl. rewrite Hl. cbn. done.
Qed.
End target.
