(* ===== verification/Mediator.v ===== *)
(** The mediator of a transfer ([transfer/mediated_transfer/mediator.py]).

    A mediator receives a locked transfer from a payer and sends one with the
    same hash lock to a payee; the two transfers are a pair.  A pair whose
    payee gives the transfer back is followed by a pair with the next payee.
    The task works on the channels of the node ([TransferTasks.Channels]). *)

From Stdlib Require Import QArith.
From S2P Require Import Prelude PyDict Bytes Crypto PyFloat MediationFee State Events.
From S2P Require Import StateChanges Channel ChannelValidation ChannelOps TransferTasks.

#[local] Open Scope Z_scope.

(** ** Data *)

(** The values of [MediationPairState.payer_state] and [.payee_state]. *)
Inductive PairStatus : Type :=
  | payee_pending
  | payee_secret_revealed
  | payee_contract_unlock
  | payee_balance_proof
  | payee_expired
  | payer_pending
  | payer_secret_revealed
  | payer_waiting_unlock
  | payer_waiting_secret_reveal
  | payer_balance_proof
  | payer_expired.

#[export] Instance PairStatus_eq_dec : EqDecision PairStatus.
Proof. solve_decision. Defined.

Definition STATE_SECRET_KNOWN : list PairStatus :=
  [payee_secret_revealed; payee_contract_unlock; payee_balance_proof;
   payer_secret_revealed; payer_waiting_unlock; payer_balance_proof].
Definition STATE_TRANSFER_PAID : list PairStatus :=
  [payee_contract_unlock; payee_balance_proof; payer_balance_proof].
Definition STATE_TRANSFER_FINAL : list PairStatus :=
  [payee_contract_unlock; payee_balance_proof; payee_expired; payer_balance_proof; payer_expired].

Definition valid_payee_states : list PairStatus :=
  [payee_pending; payee_secret_revealed; payee_contract_unlock; payee_balance_proof; payee_expired].
Definition valid_payer_states : list PairStatus :=
  [payer_pending; payer_secret_revealed; payer_waiting_unlock; payer_waiting_secret_reveal;
   payer_balance_proof; payer_expired].

(** [s in STATES] *)
Definition status_in (s : PairStatus) (l : list PairStatus) : bool := bool_decide (s ∈ l).

Record MediationPairState : Type := mkMediationPairState {
  mp_payer_transfer : LockedTransferSignedState;
  mp_payee_address : bytes;
  mp_payee_transfer : LockedTransferUnsignedState;
  mp_payer_state : PairStatus;
  mp_payee_state : PairStatus
}.

Definition set_mp_payer_state (v : PairStatus) (p : MediationPairState) : MediationPairState :=
  mkMediationPairState (mp_payer_transfer p) (mp_payee_address p) (mp_payee_transfer p) v
    (mp_payee_state p).

Definition set_mp_payee_state (v : PairStatus) (p : MediationPairState) : MediationPairState :=
  mkMediationPairState (mp_payer_transfer p) (mp_payee_address p) (mp_payee_transfer p)
    (mp_payer_state p) v.

(** [MediationPairState.payer_address] *)
Definition mp_payer_address (p : MediationPairState) : bytes :=
  lts_payer_address (mp_payer_transfer p).

(** The values of [WaitingTransferState.state]. *)
Inductive WaitingStatus : Type := waiting | waiting_expired.

#[export] Instance WaitingStatus_eq_dec : EqDecision WaitingStatus.
Proof. solve_decision. Defined.

Record WaitingTransferState : Type := mkWaitingTransferState {
  wt_transfer : LockedTransferSignedState;
  wt_state : WaitingStatus
}.

Record MediatorTransferState : Type := mkMediatorTransferState {
  mt_secrethash : bytes;
  mt_routes : list RouteState;
  mt_refunded_channels : list Z;
  mt_secret : option bytes;
  mt_transfers_pair : list MediationPairState;
  mt_waiting_transfer : option WaitingTransferState
}.

Definition set_mt_refunded_channels (v : list Z) (s : MediatorTransferState) : MediatorTransferState :=
  mkMediatorTransferState (mt_secrethash s) (mt_routes s) v (mt_secret s) (mt_transfers_pair s)
    (mt_waiting_transfer s).
Definition set_mt_secret (v : option bytes) (s : MediatorTransferState) : MediatorTransferState :=
  mkMediatorTransferState (mt_secrethash s) (mt_routes s) (mt_refunded_channels s) v
    (mt_transfers_pair s) (mt_waiting_transfer s).
Definition set_mt_transfers_pair (v : list MediationPairState) (s : MediatorTransferState) :
    MediatorTransferState :=
  mkMediatorTransferState (mt_secrethash s) (mt_routes s) (mt_refunded_channels s) (mt_secret s) v
    (mt_waiting_transfer s).
Definition set_mt_waiting_transfer (v : option WaitingTransferState) (s : MediatorTransferState) :
    MediatorTransferState :=
  mkMediatorTransferState (mt_secrethash s) (mt_routes s) (mt_refunded_channels s) (mt_secret s)
    (mt_transfers_pair s) v.

(** The channels of the two transfers of a pair. *)
Definition mp_payer_channel_id (p : MediationPairState) : Z :=
  channel_identifier (sbp_canonical_identifier (lts_balance_proof (mp_payer_transfer p))).
Definition mp_payee_channel_id (p : MediationPairState) : Z :=
  channel_identifier (ubp_canonical_identifier (ltu_balance_proof (mp_payee_transfer p))).
Definition wt_channel_id (w : WaitingTransferState) : Z :=
  channel_identifier (sbp_canonical_identifier (lts_balance_proof (wt_transfer w))).

(** ** Loops *)

(** A loop over a list of objects, each of which it may change. *)
Fixpoint py_traverse {S A} (f : S -> A -> Py (S * A)) (s : S) (l : list A) : Py (S * list A) :=
  match l with
  | [] => Ok (s, [])
  | x :: l' =>
      '(s1, x') ← f s x;
      '(s2, l'') ← py_traverse f s1 l';
      Ok (s2, x' :: l'')
  end.

(** The same loop over [reversed(l)]. *)
Definition py_traverse_reversed {S A} (f : S -> A -> Py (S * A)) (s : S) (l : list A) :
    Py (S * list A) :=
  '(s', l') ← py_traverse f s (rev l);
  Ok (s', rev l').

(** [l[i]] of a Python list: a negative index counts from the end. *)
Definition py_index {A} (l : list A) (i : Z) : Py A :=
  let j := if i <? 0 then Z.of_nat (length l) + i else i in
  if j <? 0 then Raise IndexError
  else match l !! Z.to_nat j with Some a => Ok a | None => Raise IndexError end.

(** [int(round(x))] of a fraction: the nearest integer, ties to even. *)
Definition q_round (x : Q) : Z :=
  let d := Zpos (Qden x) in
  let q := Qnum x / d in
  match Z.compare (2 * (Qnum x mod d)) d with
  | Lt => q
  | Gt => q + 1
  | Eq => if Z.even q then q else q + 1
  end.

(** ** The amount to forward *)

(** The loop of [find_intersection]: the first point that is not on the side
    of the line on which the first point is; [None] when there is none. *)
Fixpoint seek_intersection (compare : Q -> Q -> bool) (line : Z -> Py Q) (n : nat)
    (ys : list Q) (i : nat) : Py (option nat) :=
  match ys with
  | [] => Raise IndexError
  | y :: ys' =>
      l ← line (Z.of_nat i);
      if compare y l
      then if Nat.eqb (S i) n then Ok None else seek_intersection compare line n ys' (S i)
      else Ok (Some i)
  end.

Definition q_lt (a b : Q) : bool := negb (Qle_bool b a).

(** [find_intersection] *)
Definition find_intersection (fee_func : Interpolate) (line : Z -> Py Q) : Py (option Q) :=
  y ← py_index (y_list fee_func) 0;
  l0 ← line 0;
  let compare := if q_lt y l0 then q_lt else (fun a b => q_lt b a) in
  found ← seek_intersection compare line (length (x_list fee_func)) (y_list fee_func) 0;
  match found with
  | None => Ok None
  | Some i =>
      let i := Z.of_nat i in
      x1 ← py_index (x_list fee_func) (i - 1);
      x2 ← py_index (x_list fee_func) i;
      yf1 ← py_index (y_list fee_func) (i - 1);
      yf2 ← py_index (y_list fee_func) i;
      yl1 ← line (i - 1);
      yl2 ← line i;
      let d := ((yf2 - yf1) - (yl2 - yl1))%Q in
      if Qeq_bool d 0 then Raise ZeroDivisionError
      else Ok (Some ((yl1 - yf1) * (x2 - x1) / d + x1)%Q)
  end.

(** [get_amount_without_fees] *)
Definition get_amount_without_fees (amount_with_fees : Z)
    (channel_in channel_out : NettingChannelState) : Py (option Z) :=
  let balance_in := get_balance (our_state channel_in) (partner_state channel_in) in
  let balance_out := get_balance (our_state channel_out) (partner_state channel_out) in
  let receivable := our_total_deposit channel_in + partner_total_deposit channel_in - balance_in in
  _ ← py_assert (Bool.eqb (cap_fees (fee_schedule channel_in)) (cap_fees (fee_schedule channel_out)))
        "Both channels must have the same cap_fees setting for the same mediator.";
  let attempt :=
    fee_func ← mediation_fee_func (fee_schedule channel_in) (fee_schedule channel_out) balance_in
                 balance_out receivable amount_with_fees (cap_fees (fee_schedule channel_in));
    find_intersection fee_func
      (fun i => x ← py_index (x_list fee_func) i; Ok (inject_Z amount_with_fees - x)%Q) in
  match attempt with
  | Raise UndefinedMediationFee => Ok None
  | Raise e => Raise e
  | Ok None => Ok None
  | Ok (Some amount_without_fees) =>
      if Qle_bool amount_without_fees 0 then Ok None else Ok (Some (q_round amount_without_fees))
  end.

Section mediator.
Context `{Crypto}.
Implicit Types (state : MediatorTransferState) (chans : Channels) (pairs : list MediationPairState).

(** ** Queries *)

Definition is_send_transfer_almost_equal (send : LockedTransferUnsignedState)
    (received : LockedTransferSignedState) : bool :=
  (ltu_payment_identifier send =? lts_payment_identifier received)
  && bool_decide (ltu_token send = lts_token received)
  && (lock_expiration (ltu_lock send) =? lock_expiration (lts_lock received))
  && bool_decide (lock_secrethash (ltu_lock send) = lock_secrethash (lts_lock received))
  && bool_decide (ltu_initiator send = lts_initiator received)
  && bool_decide (ltu_target send = lts_target received).

Definition has_secret_registration_started (channel_states : list NettingChannelState) pairs
    (secrethash : bytes) : bool :=
  let is_secret_registered_onchain :=
    existsb (fun c => is_secret_known_onchain (partner_state c) secrethash) channel_states in
  let has_pending_transaction :=
    existsb (fun p => bool_decide (mp_payer_state p = payer_waiting_secret_reveal)) pairs in
  is_secret_registered_onchain || has_pending_transaction.

Definition get_payee_channel (net : bytes) chans (p : MediationPairState) :
    option NettingChannelState :=
  channel_by_id net chans (mp_payee_channel_id p).

Definition get_payer_channel (net : bytes) chans (p : MediationPairState) :
    option NettingChannelState :=
  channel_by_id net chans (mp_payer_channel_id p).

(** A pair that [get_pending_transfer_pairs] keeps. *)
Definition is_pending_pair (p : MediationPairState) : bool :=
  negb (status_in (mp_payee_state p) STATE_TRANSFER_FINAL)
  || negb (status_in (mp_payer_state p) STATE_TRANSFER_FINAL).

Definition get_pending_transfer_pairs pairs : list MediationPairState :=
  List.filter is_pending_pair pairs.

(** ** Invariants that the code checks *)

Definition check_pair (net : bytes) chans (p : MediationPairState) : Py unit :=
  match get_payee_channel net chans p with
  | None => Ok tt
  | Some _ =>
      _ ← py_assert (is_send_transfer_almost_equal (mp_payee_transfer p) (mp_payer_transfer p))
            "Payee and payer transfers are too different";
      _ ← py_assert (status_in (mp_payer_state p) valid_payer_states)
            "payer_state not in valid payer states";
      py_assert (status_in (mp_payee_state p) valid_payee_states)
        "payee_state not in valid payee states"
  end.

(** The loop over [zip(pairs[:-1], pairs[1:])]. *)
Fixpoint check_refunds (net : bytes) chans pairs : Py unit :=
  match pairs with
  | original :: ((refund :: _) as rest) =>
      _ ← py_assert (bool_decide (mp_payee_address original = mp_payer_address refund))
            "payee/payer address mismatch";
      _ ← match get_payer_channel net chans refund with
          | None => Ok tt
          | Some _ =>
              py_assert (is_send_transfer_almost_equal (mp_payee_transfer original)
                           (mp_payer_transfer refund))
                "Payee and payer transfers are too different (refund)"
          end;
      check_refunds net chans rest
  | _ => Ok tt
  end.

(** [sanity_check] *)
Definition mediator_sanity_check (net : bytes) state chans : Py unit :=
  let pairs := mt_transfers_pair state in
  let paid := existsb (fun p => status_in (mp_payee_state p) STATE_TRANSFER_PAID) pairs
              || existsb (fun p => status_in (mp_payer_state p) STATE_TRANSFER_PAID) pairs in
  _ ← (if paid then py_assert (bool_decide (mt_secret state <> None))
                      "Mediator's state must have secret"
       else Ok tt);
  _ ← match pairs with
      | [] => Ok tt
      | first_pair :: _ =>
          py_assert (bool_decide (mt_secrethash state
                                  = lock_secrethash (lts_lock (mp_payer_transfer first_pair))))
            "Secret hash mismatch"
      end;
  _ ← py_forall (check_pair net chans) pairs;
  _ ← check_refunds net chans pairs;
  match mt_waiting_transfer state, last pairs with
  | Some w, Some last_transfer_pair =>
      match get_payee_channel net chans last_transfer_pair with
      | Some _ =>
          py_assert (is_send_transfer_almost_equal (mp_payee_transfer last_transfer_pair)
                       (wt_transfer w))
            "Payee and payer transfers are too different (waiting transfer)"
      | None => Ok tt
      end
  | _, _ => Ok tt
  end.

(** A lock of the pair that is still pending in one of its channels. *)
Definition pair_lock_pending (net : bytes) chans (secrethash : bytes) (p : MediationPairState) :
    bool :=
  match get_payer_channel net chans p with
  | Some c => is_lock_pending (partner_state c) secrethash
  | None => false
  end
  || match get_payee_channel net chans p with
     | Some c => is_lock_pending (our_state c) secrethash
     | None => false
     end.

Definition waiting_lock_pending (net : bytes) chans (secrethash : bytes)
    (w : option WaitingTransferState) : bool :=
  match w with
  | Some w =>
      match channel_by_id net chans (wt_channel_id w) with
      | Some c => is_lock_pending (partner_state c) secrethash
      | None => false
      end
  | None => false
  end.

(** [clear_if_finalized] *)
Definition clear_if_finalized (net : bytes)
    (iteration : TransitionResult (option MediatorTransferState)) chans :
    TransitionResult (option MediatorTransferState) :=
  match new_state iteration with
  | None => iteration
  | Some state =>
      if existsb (pair_lock_pending net chans (mt_secrethash state)) (mt_transfers_pair state)
         || waiting_lock_pending net chans (mt_secrethash state) (mt_waiting_transfer state)
      then iteration
      else mkTransitionResult None (events iteration)
  end.

(** ** Forwarding *)

(** [forward_transfer_pair]: the pair, the payee's channel and the events, or
    [None] when the channel can not be used. *)
Definition forward_transfer_pair (payer_transfer : LockedTransferSignedState)
    (payer_channel payee_channel : NettingChannelState) (prng : Random) (block_number : Z) :
    Py (option (MediationPairState * NettingChannelState * list Event) * Random) :=
  amount_after_fees ← get_amount_without_fees (lock_amount (lts_lock payer_transfer))
                        payer_channel payee_channel;
  match amount_after_fees with
  | None | Some 0 => Ok (None, prng)
  | Some amount =>
      let lock_timeout := lock_expiration (lts_lock payer_transfer) - block_number in
      if is_channel_usable_for_mediation payee_channel amount lock_timeout then
        _ ← py_assert (lock_timeout <=? settle_timeout payee_channel)
              "settle_timeout must be >= lock_timeout";
        let '(mid, prng') := message_identifier_from_prng prng in
        let recipient_metadata :=
          get_address_metadata (address (partner_state payee_channel))
            (lts_route_states payer_transfer) in
        '(payee_channel', lockedtransfer_event) ←
          send_lockedtransfer payee_channel (lts_initiator payer_transfer)
            (lts_target payer_transfer) amount mid (lts_payment_identifier payer_transfer)
            (lock_expiration (lts_lock payer_transfer)) (lts_secret payer_transfer)
            (lock_secrethash (lts_lock payer_transfer)) (lts_route_states payer_transfer)
            recipient_metadata (lts_metadata payer_transfer);
        let transfer_pair :=
          mkMediationPairState payer_transfer (address (partner_state payee_channel))
            (slt_transfer lockedtransfer_event) payer_pending payee_pending in
        Ok (Some (transfer_pair, payee_channel', [ESendLockedTransfer lockedtransfer_event]), prng')
      else Ok (None, prng)
  end.

(** The loop of [mediate_transfer] over the candidate routes. *)
Fixpoint mediate_routes (addrs : dict (bytes * bytes) ChannelRef) (payer_channel : NettingChannelState)
    (payer_transfer : LockedTransferSignedState) (block_number : Z) (route_states : list RouteState)
    chans (prng : Random) :
    Py (option (MediationPairState * list Event) * Channels * Random) :=
  match route_states with
  | [] => Ok (None, chans, prng)
  | route_state :: rest =>
      let our_address := address (our_state payer_channel) in
      match next_hop_of route_state our_address with
      | None => mediate_routes addrs payer_channel payer_transfer block_number rest chans prng
      | Some next_hop =>
          let target_token_network :=
            default (channel_token_network_address payer_channel)
              (dict_get our_address (swaps route_state)) in
          match channel_by_address addrs chans target_token_network next_hop with
          | None => mediate_routes addrs payer_channel payer_transfer block_number rest chans prng
          | Some (payee_ref, payee_channel) =>
              '(attempt, prng') ←
                forward_transfer_pair payer_transfer payer_channel payee_channel prng block_number;
              match attempt with
              | Some (new_pair, payee_channel', evs) =>
                  Ok (Some (new_pair, evs), store_channel payee_ref payee_channel' chans, prng')
              | None =>
                  mediate_routes addrs payer_channel payer_transfer block_number rest chans prng'
              end
          end
      end
  end.

(** [mediate_transfer] *)
Definition mediate_transfer state (payer_channel : NettingChannelState)
    (addrs : dict (bytes * bytes) ChannelRef) chans (prng : Random)
    (payer_transfer : LockedTransferSignedState) (block_number : Z) :
    Py (MediatorTransferState * list Event * Channels * Random) :=
  _ ← py_assert (bool_decide (address (partner_state payer_channel)
                              = sbp_sender (lts_balance_proof payer_transfer)))
        "Transfer must be signed by sender";
  let candidate_route_states :=
    filter_acceptable_routes (mt_routes state) (mt_refunded_channels state) addrs chans
      (channel_token_network_address payer_channel) (address (our_state payer_channel)) in
  '(mediated, chans', prng') ←
    mediate_routes addrs payer_channel payer_transfer block_number candidate_route_states chans prng;
  match mediated with
  | Some (new_pair, evs) =>
      Ok (set_mt_transfers_pair (mt_transfers_pair state ++ [new_pair]) state, evs, chans', prng')
  | None =>
      Ok (set_mt_waiting_transfer (Some (mkWaitingTransferState payer_transfer waiting)) state, [],
          chans', prng')
  end.

(** ** Learning the secret *)

(** A change of the channel with an identifier, if it exists. *)
Definition update_channel (net : bytes) (id : Z) (f : NettingChannelState -> Py NettingChannelState)
    chans : Py Channels :=
  match channel_by_id net chans id with
  | Some c => c' ← f c; Ok (store_channel (net, id) c' chans)
  | None => Ok chans
  end.

(** [set_offchain_secret] and [set_onchain_secret] do the same with
    [register_offchain_secret] and [register_onchain_secret]. *)
Definition set_secret_with (register : NettingChannelState -> Py NettingChannelState)
    (net : bytes) state chans (secret secrethash : bytes) :
    Py (MediatorTransferState * Channels * list Event) :=
  let state' := set_mt_secret (Some secret) state in
  chans1 ← py_foldl
    (fun chans p =>
       chans' ← update_channel net (mp_payer_channel_id p) register chans;
       update_channel net (mp_payee_channel_id p) register chans')
    chans (mt_transfers_pair state);
  match mt_waiting_transfer state with
  | Some w =>
      chans2 ← update_channel net (wt_channel_id w) register chans1;
      Ok (state', chans2,
          [EEventUnexpectedSecretReveal
             (mkEventUnexpectedSecretReveal secrethash
                [Msg "The mediator has a waiting transfer." []])])
  | None => Ok (state', chans1, [])
  end.

Definition set_offchain_secret (net : bytes) state chans (secret secrethash : bytes) :
    Py (MediatorTransferState * Channels * list Event) :=
  set_secret_with (fun c => Ok (register_offchain_secret c secret secrethash)) net state chans
    secret secrethash.

Definition set_onchain_secret (net : bytes) state chans (secret secrethash : bytes)
    (block_number : Z) : Py (MediatorTransferState * Channels * list Event) :=
  set_secret_with (fun c => register_onchain_secret c secret secrethash block_number true) net state
    chans secret secrethash.

Definition set_offchain_reveal_state pairs (payee_address : bytes) : list MediationPairState :=
  map (fun p => if bool_decide (mp_payee_address p = payee_address)
                then set_mp_payee_state payee_secret_revealed p else p) pairs.

(** ** Expired transfers *)

(** [events_for_expired_pairs]: the pairs, the waiting transfer and the events. *)
Definition expire_payer (net : bytes) chans (block_number : Z) (p : MediationPairState) :
    MediationPairState * list Event :=
  if is_pending_pair p then
    match get_payer_channel net chans p with
    | None => (p, [])
    | Some payer_channel =>
        if is_transfer_expired (mp_payer_transfer p) payer_channel block_number
        then (set_mp_payer_state payer_expired p,
              [EEventUnlockClaimFailed
                 (mkEventUnlockClaimFailed (lts_payment_identifier (mp_payer_transfer p))
                    (lock_secrethash (lts_lock (mp_payer_transfer p)))
                    [Msg "lock expired" []])])
        else (p, [])
    end
  else (p, []).

Definition expire_waiting (block_number : Z) (w : option WaitingTransferState) :
    option WaitingTransferState * list Event :=
  match w with
  | None => (None, [])
  | Some w =>
      let transfer := wt_transfer w in
      let expiration_threshold :=
        get_receiver_expiration_threshold (lock_expiration (lts_lock transfer)) in
      if negb (bool_decide (wt_state w = waiting_expired)) && (expiration_threshold <=? block_number)
      then (Some (mkWaitingTransferState transfer waiting_expired),
            [EEventUnlockClaimFailed
               (mkEventUnlockClaimFailed (lts_payment_identifier transfer)
                  (lock_secrethash (lts_lock transfer)) [Msg "lock expired" []])])
      else (Some w, [])
  end.

Definition events_for_expired_pairs (net : bytes) chans pairs (w : option WaitingTransferState)
    (block_number : Z) :
    list MediationPairState * option WaitingTransferState * list Event :=
  let expired := map (expire_payer net chans block_number) pairs in
  let '(w', waiting_events) := expire_waiting block_number w in
  (map fst expired, w', List.concat (map snd expired) ++ waiting_events).

(** ** Revealing and unlocking off-chain *)

Definition reveal_to_payer (secret : bytes) (s : Random * list Event) (p : MediationPairState) :
    Py (Random * list Event * MediationPairState) :=
  let '(prng, evs) := s in
  let payee_knows_secret := status_in (mp_payee_state p) STATE_SECRET_KNOWN in
  let payer_knows_secret := status_in (mp_payer_state p) STATE_SECRET_KNOWN in
  let is_transfer_pending := bool_decide (mp_payer_state p = payer_pending) in
  if payee_knows_secret && negb payer_knows_secret && is_transfer_pending then
    let '(mid, prng') := message_identifier_from_prng prng in
    let revealsecret :=
      mkSendSecretReveal
        (mkSendMessageEvent (sbp_sender (lts_balance_proof (mp_payer_transfer p)))
           (lts_payer_address_metadata (mp_payer_transfer p))
           CANONICAL_IDENTIFIER_UNORDERED_QUEUE mid)
        secret (sha256_secrethash secret) in
    Ok (prng', evs ++ [ESendSecretReveal revealsecret], set_mp_payer_state payer_secret_revealed p)
  else Ok (prng, evs, p).

(** [events_for_secretreveal] *)
Definition events_for_secretreveal pairs (secret : bytes) (prng : Random) :
    Py (list MediationPairState * list Event * Random) :=
  '((prng', evs), pairs') ← py_traverse_reversed (reveal_to_payer secret) (prng, []) pairs;
  Ok (pairs', evs, prng').

Definition unlock_payee (net : bytes) (block_number : Z) (secret secrethash : bytes)
    (s : Channels * Random * list Event) (p : MediationPairState) :
    Py (Channels * Random * list Event * MediationPairState) :=
  let '(chans, prng, evs) := s in
  let payee_knows_secret := status_in (mp_payee_state p) STATE_SECRET_KNOWN in
  let payee_payed := status_in (mp_payee_state p) STATE_TRANSFER_PAID in
  let payee_channel := get_payee_channel net chans p in
  is_safe_to_send_balanceproof ←
    match get_payer_channel net chans p with
    | Some payer_channel =>
        safe ← is_safe_to_wait (lock_expiration (lts_lock (mp_payer_transfer p)))
                 (reveal_timeout payer_channel) block_number;
        Ok (so_ok safe)
    | None => Ok false
    end;
  match payee_channel with
  | Some c =>
      if bool_decide (get_status c = STATE_OPENED) && payee_knows_secret && negb payee_payed
         && is_safe_to_send_balanceproof
      then
        let '(mid, prng') := message_identifier_from_prng prng in
        let recipient_metadata :=
          get_address_metadata (mp_payee_address p) (ltu_route_states (mp_payee_transfer p)) in
        '(c', unlock_lock) ←
          send_unlock c mid (ltu_payment_identifier (mp_payee_transfer p)) secret secrethash
            block_number recipient_metadata;
        let unlock_success :=
          mkEventUnlockSuccess (lts_payment_identifier (mp_payer_transfer p))
            (lock_secrethash (lts_lock (mp_payer_transfer p))) in
        Ok (store_channel (net, mp_payee_channel_id p) c' chans, prng',
            evs ++ [ESendUnlock unlock_lock; EEventUnlockSuccess unlock_success],
            set_mp_payee_state payee_balance_proof p)
      else Ok (s, p)
  | None => Ok (s, p)
  end.

(** [events_for_balanceproof] *)
Definition events_for_balanceproof (net : bytes) chans pairs (prng : Random) (block_number : Z)
    (secret secrethash : bytes) :
    Py (list MediationPairState * list Event * Channels * Random) :=
  '((chans', prng', evs), pairs') ←
    py_traverse_reversed (unlock_payee net block_number secret secrethash) (chans, prng, []) pairs;
  Ok (pairs', evs, chans', prng').

(** ** Registering the secret on-chain *)

(** The payer channels of the pairs that still exist. *)
Definition all_payer_channels (net : bytes) chans pairs : list NettingChannelState :=
  omap (get_payer_channel net chans) pairs.

Definition reveal_in_dangerzone (net : bytes) chans (block_number : Z) (block_hash : bytes)
    (s : bool * list Event) (p : MediationPairState) :
    Py (bool * list Event * MediationPairState) :=
  let '(transaction_sent, evs) := s in
  if is_pending_pair p then
    match get_payer_channel net chans p with
    | None => Ok (s, p)
    | Some payer_channel =>
        let lock := lts_lock (mp_payer_transfer p) in
        safe_to_wait ← is_safe_to_wait (lock_expiration lock) (reveal_timeout payer_channel)
                         block_number;
        let secret_known := is_secret_known (partner_state payer_channel) (lock_secrethash lock) in
        if negb (so_ok safe_to_wait) && secret_known then
          let p' := set_mp_payer_state payer_waiting_secret_reveal p in
          if transaction_sent then Ok (s, p')
          else
            secret ← assert_some (get_secret (partner_state payer_channel) (lock_secrethash lock))
                       "the secret should be known at this point";
            _ ← py_assert (bool_decide (secret <> [])) "the secret should be known at this point";
            Ok (true,
                evs ++ secret_registry_events_for_onchain_secretreveal payer_channel secret
                         (lock_expiration lock) block_hash, p')
        else Ok (s, p)
    end
  else Ok (s, p).

(** [events_for_onchain_secretreveal_if_dangerzone] *)
Definition events_for_onchain_secretreveal_if_dangerzone (net : bytes) chans (secrethash : bytes)
    pairs (block_number : Z) (block_hash : bytes) :
    Py (list MediationPairState * list Event) :=
  let transaction_sent :=
    has_secret_registration_started (all_payer_channels net chans pairs) pairs secrethash in
  '((_, evs), pairs') ←
    py_traverse (reveal_in_dangerzone net chans block_number block_hash) (transaction_sent, []) pairs;
  Ok (pairs', evs).

Definition reveal_if_closed (net : bytes) chans (secret secrethash block_hash : bytes)
    (s : bool * list Event) (p : MediationPairState) :
    Py (bool * list Event * MediationPairState) :=
  let '(transaction_sent, evs) := s in
  if is_pending_pair p then
    match get_payer_channel net chans p with
    | None => Ok (s, p)
    | Some payer_channel =>
        if bool_decide (get_status payer_channel = STATE_CLOSED) then
          let p' := set_mp_payer_state payer_waiting_secret_reveal p in
          if transaction_sent then Ok (s, p')
          else
            match get_lock (partner_state payer_channel) secrethash with
            | Some lock =>
                Ok (true,
                    evs ++ secret_registry_events_for_onchain_secretreveal payer_channel secret
                             (lock_expiration lock) block_hash, p')
            | None => Ok (s, p')
            end
        else Ok (s, p)
    end
  else Ok (s, p).

(** [events_for_onchain_secretreveal_if_closed] *)
Definition events_for_onchain_secretreveal_if_closed (net : bytes) chans pairs
    (secret secrethash block_hash : bytes) : Py (list MediationPairState * list Event) :=
  let transaction_sent :=
    has_secret_registration_started (all_payer_channels net chans pairs) pairs secrethash in
  '((_, evs), pairs') ←
    py_traverse (reveal_if_closed net chans secret secrethash block_hash) (transaction_sent, []) pairs;
  Ok (pairs', evs).

(** ** Removing expired locks *)

(** The lock of ours that is looked for when a transfer expires. *)
Definition expirable_lock (our : NettingChannelEndState) (secrethash : bytes) :
    Py (option HashTimeLockState) :=
  match dict_get secrethash (secrethashes_to_lockedlocks our) with
  | Some lock =>
      _ ← py_assert (negb (dict_mem secrethash (secrethashes_to_unlockedlocks our)))
            "Locks for secrethash are already unlocked";
      Ok (Some lock)
  | None =>
      match dict_get secrethash (secrethashes_to_unlockedlocks our) with
      | Some proof => Ok (Some (unlock_lock proof))
      | None => Ok None
      end
  end.

Definition remove_expired_lock (net secrethash : bytes) (initial_routes : list RouteState)
    (block_number : Z) (s : Channels * Random * list Event) (p : MediationPairState) :
    Py (Channels * Random * list Event * MediationPairState) :=
  let '(chans, prng, evs) := s in
  match get_payee_channel net chans p with
  | None => Ok (s, p)
  | Some c =>
      found ← expirable_lock (our_state c) secrethash;
      match found with
      | None => Ok (s, p)
      | Some lock =>
          let has_lock_expired :=
            is_lock_expired (our_state c) lock block_number
              (get_sender_expiration_threshold (lock_expiration lock)) in
          let payee_address_metadata := get_address_metadata (mp_payee_address p) initial_routes in
          if so_ok has_lock_expired && bool_decide (get_status c = STATE_OPENED) then
            '(c', expired_lock_events, prng') ←
              send_lock_expired c lock prng payee_address_metadata;
            let unlock_failed :=
              mkEventUnlockFailed (ltu_payment_identifier (mp_payee_transfer p))
                (lock_secrethash (ltu_lock (mp_payee_transfer p))) [Msg "lock expired" []] in
            Ok (store_channel (net, mp_payee_channel_id p) c' chans, prng',
                evs ++ map ESendLockExpired expired_lock_events ++ [EEventUnlockFailed unlock_failed],
                set_mp_payee_state payee_expired p)
          else Ok (s, p)
      end
  end.

(** [events_to_remove_expired_locks] *)
Definition events_to_remove_expired_locks (net : bytes) state chans (block_number : Z)
    (prng : Random) : Py (MediatorTransferState * list Event * Channels * Random) :=
  match mt_transfers_pair state with
  | [] => Ok (state, [], chans, prng)
  | first_pair :: _ =>
      let initial_routes := lts_route_states (mp_payer_transfer first_pair) in
      '((chans', prng', evs), pairs') ←
        py_traverse (remove_expired_lock net (mt_secrethash state) initial_routes block_number)
          (chans, prng, []) (mt_transfers_pair state);
      Ok (set_mt_transfers_pair pairs' state, evs, chans', prng')
  end.

(** ** The handlers *)

(** The new task, its events, the channels and the advanced generator. *)
Definition MediatorResult : Type :=
  TransitionResult (option MediatorTransferState) * Channels * Random.

Definition mediator_keep state (evs : list Event) chans (prng : Random) : MediatorResult :=
  (mkTransitionResult (Some state) evs, chans, prng).

Definition secret_learned (net : bytes) state chans (prng : Random) (block_number : Z)
    (block_hash secret secrethash payee_address : bytes) : Py MediatorResult :=
  '(state1, chans1, secret_reveal_events) ← set_offchain_secret net state chans secret secrethash;
  let pairs1 := set_offchain_reveal_state (mt_transfers_pair state1) payee_address in
  '(pairs2, onchain_secret_reveal) ←
    events_for_onchain_secretreveal_if_closed net chans1 pairs1 secret secrethash block_hash;
  '(pairs3, offchain_secret_reveal, prng1) ← events_for_secretreveal pairs2 secret prng;
  '(pairs4, balance_proof, chans2, prng2) ←
    events_for_balanceproof net chans1 pairs3 prng1 block_number secret secrethash;
  Ok (mediator_keep (set_mt_transfers_pair pairs4 state1)
        (secret_reveal_events ++ offchain_secret_reveal ++ balance_proof ++ onchain_secret_reveal)
        chans2 prng2).

(** [handle_init] *)
Definition handle_init (net : bytes) (action : ActionInitMediator) chans
    (addrs : dict (bytes * bytes) ChannelRef) (prng : Random) (block_number : Z) :
    Py MediatorResult :=
  let from_transfer := aim_from_transfer action in
  let payer_id := hop_channel_identifier (aim_from_hop action) in
  match channel_by_id net chans payer_id with
  | None => Ok (mkTransitionResult None [], chans, prng)
  | Some payer_channel =>
      let mediator_state :=
        mkMediatorTransferState (lock_secrethash (lts_lock from_transfer))
          (aim_candidate_route_states action) [] None [] None in
      '(payer_channel', (is_valid, evs, _)) ←
        handle_receive_lockedtransfer payer_channel from_transfer
          (lts_payer_address_metadata from_transfer);
      let chans1 := store_channel (net, payer_id) payer_channel' chans in
      if (is_valid : bool) then
        '(state', mediation_events, chans2, prng') ←
          mediate_transfer mediator_state payer_channel' addrs chans1 prng from_transfer block_number;
        Ok (mediator_keep state' (evs ++ mediation_events) chans2 prng')
      else Ok (mkTransitionResult None evs, chans1, prng)
  end.

(** The retry of a waiting transfer in [handle_block]. *)
Definition retry_waiting (net : bytes) state chans (addrs : dict (bytes * bytes) ChannelRef)
    (prng : Random) (block_number : Z) :
    Py (MediatorTransferState * list Event * Channels * Random) :=
  match mt_waiting_transfer state with
  | None => Ok (state, [], chans, prng)
  | Some w =>
      match channel_by_id net chans (wt_channel_id w) with
      | None => Ok (state, [], chans, prng)
      | Some payer_channel =>
          '(state', mediate_events, chans', prng') ←
            mediate_transfer state payer_channel addrs chans prng (wt_transfer w) block_number;
          let mediation_happened :=
            existsb (fun e =>
                       match e with
                       | ESendLockedTransfer e =>
                           bool_decide (lock_secrethash (ltu_lock (slt_transfer e))
                                        = lock_secrethash (lts_lock (wt_transfer w)))
                       | _ => false
                       end) mediate_events in
          Ok (if mediation_happened then set_mt_waiting_transfer None state' else state',
              mediate_events, chans', prng')
      end
  end.

(** [handle_block] *)
Definition mediator_handle_block (net : bytes) state (action : Block) chans
    (addrs : dict (bytes * bytes) ChannelRef) (prng : Random) : Py MediatorResult :=
  '(state1, mediate_events, chans1, prng1) ←
    retry_waiting net state chans addrs prng (block_number action);
  '(state2, expired_locks_events, chans2, prng2) ←
    events_to_remove_expired_locks net state1 chans1 (block_number action) prng1;
  '(pairs3, secret_reveal_events) ←
    events_for_onchain_secretreveal_if_dangerzone net chans2 (mt_secrethash state2)
      (mt_transfers_pair state2) (block_number action) (block_hash action);
  let '(pairs4, w', unlock_fail_events) :=
    events_for_expired_pairs net chans2 pairs3 (mt_waiting_transfer state2) (block_number action) in
  Ok (mediator_keep (set_mt_waiting_transfer w' (set_mt_transfers_pair pairs4 state2))
        (mediate_events ++ unlock_fail_events ++ secret_reveal_events ++ expired_locks_events)
        chans2 prng2).

(** [handle_refundtransfer] *)
Definition mediator_handle_refundtransfer (net : bytes) state (action : ReceiveTransferRefund) chans
    (addrs : dict (bytes * bytes) ChannelRef) (prng : Random) (block_number : Z) :
    Py MediatorResult :=
  match mt_secret state with
  | Some _ => Ok (mediator_keep state [] chans prng)
  | None =>
      transfer_pair ← py_index (mt_transfers_pair state) (-1);
      let payer_transfer := rtr_transfer action in
      let channel_id :=
        channel_identifier (sbp_canonical_identifier (lts_balance_proof payer_transfer)) in
      match channel_by_id net chans channel_id with
      | None => Ok (mediator_keep state [] chans prng)
      | Some payer_channel =>
          '(payer_channel', (is_valid, channel_events, _)) ←
            handle_refundtransfer (mp_payee_transfer transfer_pair) payer_channel action;
          let chans1 := store_channel (net, channel_id) payer_channel' chans in
          if (is_valid : bool) then
            let state1 :=
              set_mt_refunded_channels
                (mt_refunded_channels state
                 ++ [channel_identifier (canonical_identifier payer_channel')]) state in
            '(state2, mediation_events, chans2, prng') ←
              mediate_transfer state1 payer_channel' addrs chans1 prng payer_transfer block_number;
            Ok (mediator_keep state2 (channel_events ++ mediation_events) chans2 prng')
          else Ok (mediator_keep state channel_events chans1 prng)
      end
  end.

(** [handle_offchain_secretreveal] *)
Definition mediator_handle_offchain_secretreveal (net : bytes) state (action : ReceiveSecretReveal)
    chans (prng : Random) (block_number : Z) (block_hash : bytes) : Py MediatorResult :=
  let is_valid_reveal := is_valid_secret_reveal (rsr_secrethash action) (mt_secrethash state) in
  let is_secret_unknown := bool_decide (mt_secret state = None) in
  match last (mt_transfers_pair state) with
  | None => Ok (mediator_keep state [] chans prng)
  | Some transfer_pair =>
      match channel_by_id net chans (mp_payer_channel_id transfer_pair) with
      | None => Ok (mediator_keep state [] chans prng)
      | Some payer_channel =>
          let has_payer_transfer_expired :=
            is_transfer_expired (mp_payer_transfer transfer_pair) payer_channel block_number in
          if is_secret_unknown && is_valid_reveal && negb has_payer_transfer_expired
          then secret_learned net state chans prng block_number block_hash (rsr_secret action)
                 (rsr_secrethash action) (rsr_sender action)
          else Ok (mediator_keep state [] chans prng)
      end
  end.

(** [handle_onchain_secretreveal] *)
Definition mediator_handle_onchain_secretreveal (net : bytes) state
    (action : ContractReceiveSecretReveal) chans (prng : Random) : Py MediatorResult :=
  let secrethash := crsr_secrethash action in
  if is_valid_secret_reveal secrethash (mt_secrethash state) then
    let secret := crsr_secret action in
    let block_number := crsr_block_number action in
    '(state1, chans1, secret_reveal) ←
      set_onchain_secret net state chans secret secrethash block_number;
    '(pairs2, balance_proof, chans2, prng') ←
      events_for_balanceproof net chans1 (mt_transfers_pair state1) prng block_number secret
        secrethash;
    Ok (mediator_keep (set_mt_transfers_pair pairs2 state1) (secret_reveal ++ balance_proof) chans2
          prng')
  else Ok (mediator_keep state [] chans prng).

(** The loop of [handle_unlock]. *)
Definition unlock_from_payer (net : bytes) (routes : list RouteState) (action : ReceiveUnlock)
    (s : Channels * list Event) (p : MediationPairState) :
    Py (Channels * list Event * MediationPairState) :=
  let '(chans, evs) := s in
  let balance_proof_sender := sbp_sender (ru_balance_proof action) in
  let channel_id := channel_identifier (sbp_canonical_identifier (ru_balance_proof action)) in
  if bool_decide (sbp_sender (lts_balance_proof (mp_payer_transfer p)) = balance_proof_sender) then
    match channel_by_id net chans channel_id with
    | None => Ok (s, p)
    | Some c =>
        let recipient_metadata := get_address_metadata balance_proof_sender routes in
        '(c', (is_valid, channel_events, _)) ← handle_unlock c action recipient_metadata;
        let chans' := store_channel (net, channel_id) c' chans in
        if (is_valid : bool) then
          let unlock :=
            mkEventUnlockClaimSuccess (ltu_payment_identifier (mp_payee_transfer p))
              (lock_secrethash (ltu_lock (mp_payee_transfer p))) in
          Ok (chans', evs ++ channel_events ++ [EEventUnlockClaimSuccess unlock],
              set_mp_payer_state payer_balance_proof p)
        else Ok (chans', evs ++ channel_events, p)
    end
  else Ok (s, p).

(** [handle_unlock] *)
Definition mediator_handle_unlock (net : bytes) state (action : ReceiveUnlock) chans
    (prng : Random) : Py MediatorResult :=
  '((chans', evs), pairs') ←
    py_traverse (unlock_from_payer net (mt_routes state) action) (chans, [])
      (mt_transfers_pair state);
  Ok (mediator_keep (set_mt_transfers_pair pairs' state) evs chans' prng).

(** The loop of [handle_lock_expired]; the flag says that the channel of a pair
    does not exist, upon which the loop and the handler return without events. *)
Fixpoint expire_from_payer (net : bytes) state (action : ReceiveLockExpired) (block_number : Z)
    chans (evs : list Event) pairs :
    Py (Channels * list Event * list MediationPairState * bool) :=
  match pairs with
  | [] => Ok (chans, evs, [], false)
  | p :: rest =>
      match get_payer_channel net chans p with
      | None => Ok (chans, evs, pairs, true)
      | Some c =>
          let recipient_metadata :=
            get_address_metadata (address (partner_state c)) (mt_routes state) in
          result ← handle_receive_lock_expired c action block_number recipient_metadata;
          let c' := new_state result in
          let chans' := store_channel (net, mp_payer_channel_id p) c' chans in
          let p' :=
            match get_lock (partner_state c') (mt_secrethash state) with
            | None => set_mp_payer_state payer_expired p
            | Some _ => p
            end in
          '(chans'', evs', rest', missing) ←
            expire_from_payer net state action block_number chans' (evs ++ events result) rest;
          Ok (chans'', evs', p' :: rest', missing)
      end
  end.

(** [handle_lock_expired] *)
Definition mediator_handle_lock_expired (net : bytes) state (action : ReceiveLockExpired) chans
    (prng : Random) (block_number : Z) : Py MediatorResult :=
  '(chans1, evs1, pairs1, missing) ←
    expire_from_payer net state action block_number chans [] (mt_transfers_pair state);
  let state1 := set_mt_transfers_pair pairs1 state in
  if (missing : bool) then Ok (mediator_keep state1 [] chans1 prng)
  else
    match mt_waiting_transfer state with
    | None => Ok (mediator_keep state1 evs1 chans1 prng)
    | Some w =>
        match channel_by_id net chans1 (wt_channel_id w) with
        | None => Ok (mediator_keep state1 evs1 chans1 prng)
        | Some c =>
            let recipient_metadata :=
              get_address_metadata (address (partner_state c)) (mt_routes state) in
            result ← handle_receive_lock_expired c action block_number recipient_metadata;
            Ok (mediator_keep state1 (evs1 ++ events result)
                  (store_channel (net, wt_channel_id w) (new_state result) chans1) prng)
        end
    end.

(** The dispatch of [mediator.state_transition]. *)
Definition mediator_dispatch (net : bytes) (mediator_state : option MediatorTransferState)
    (sc : StateChange) chans (addrs : dict (bytes * bytes) ChannelRef) (prng : Random)
    (block_nr : Z) (block_hsh : bytes) : Py MediatorResult :=
  match sc with
  | SActionInitMediator a =>
      match mediator_state with
      | None => handle_init net a chans addrs prng block_nr
      | Some _ => Ok (mkTransitionResult mediator_state [], chans, prng)
      end
  | SBlock a =>
      state ← assert_some mediator_state "Block should be accompanied by a valid mediator state";
      mediator_handle_block net state a chans addrs prng
  | SReceiveTransferRefund a =>
      state ← assert_some mediator_state
                "ReceiveTransferRefund should be accompanied by a valid mediator state";
      mediator_handle_refundtransfer net state a chans addrs prng block_nr
  | SReceiveSecretReveal a =>
      state ← assert_some mediator_state
                "ReceiveSecretReveal should be accompanied by a valid mediator state";
      mediator_handle_offchain_secretreveal net state a chans prng block_nr block_hsh
  | SContractReceiveSecretReveal a =>
      state ← assert_some mediator_state
                "ContractReceiveSecretReveal should be accompanied by a valid mediator state";
      mediator_handle_onchain_secretreveal net state a chans prng
  | SReceiveUnlock a =>
      state ← assert_some mediator_state
                "ReceiveUnlock should be accompanied by a valid mediator state";
      mediator_handle_unlock net state a chans prng
  | SReceiveLockExpired a =>
      state ← assert_some mediator_state
                "ReceiveLockExpired should be accompanied by a valid mediator state";
      mediator_handle_lock_expired net state a chans prng block_nr
  | _ => Ok (mkTransitionResult mediator_state [], chans, prng)
  end.

(** [mediator.state_transition] *)
Definition mediator_state_transition (net : bytes) (mediator_state : option MediatorTransferState)
    (sc : StateChange) chans (addrs : dict (bytes * bytes) ChannelRef) (prng : Random)
    (block_nr : Z) (block_hsh : bytes) : Py MediatorResult :=
  '(iteration, chans', prng') ←
    mediator_dispatch net mediator_state sc chans addrs prng block_nr block_hsh;
  _ ← match new_state iteration with
      | Some state => mediator_sanity_check net state chans'
      | None => Ok tt
      end;
  Ok (clear_if_finalized net iteration chans', chans', prng').
End mediator.
