(* ===== verification/MediatorFees.v ===== *)
(** The amount that a mediator forwards: the intersection of the fee function
    with the line of the received amount, and the bound that capped fees give. *)

From Stdlib Require Import QArith Qminmax Lqa Qfield.
From S2P Require Import Prelude PyDict Bytes Crypto PyFloat MediationFee MediationFeeProofs.
From S2P Require Import State Events StateChanges Channel ChannelValidation ChannelOps.
From S2P Require Import ChannelTransition ChannelLocks ChannelInvariant ChannelSend.
From S2P Require Import ChannelReceive.
From S2P Require Import ChannelMachine TransferTasks Mediator.

#[local] Open Scope Q_scope.

(** ** Indices and rounding *)

Lemma py_index_nat {A} (l : list A) (i : nat) a :
  l !! i = Some a -> py_index l (Z.of_nat i) = Ok a.
Proof.
  intros Hi. unfold py_index.
  rewrite (proj2 (Z.ltb_ge (Z.of_nat i) 0)) by lia.
  rewrite (proj2 (Z.ltb_ge (Z.of_nat i) 0)) by lia. by rewrite Nat2Z.id, Hi.
Qed.

Lemma py_index_last {A} (l : list A) a :
  l !! (length l - 1)%nat = Some a -> py_index l (-1) = Ok a.
Proof.
  intros Hi. pose proof (lookup_lt_Some _ _ _ Hi). unfold py_index. cbn.
  rewrite (proj2 (Z.ltb_ge _ 0)) by lia.
  by replace (Z.to_nat (Z.of_nat (length l) + -1)) with (length l - 1)%nat by lia; rewrite Hi.
Qed.

Lemma q_lt_iff a b : q_lt a b = true <-> a < b.
Proof.
  unfold q_lt. rewrite negb_true_iff, <- not_true_iff_false, Qle_bool_iff. split; lra.
Qed.

(** Rounding does not cross an integer. *)
Lemma q_round_le x (n : Z) : x <= inject_Z n -> (q_round x <= n)%Z.
Proof.
  destruct x as [a d]. unfold Qle, q_round. cbn. rewrite Z.mul_1_r. intros Hx.
  pose proof (Z.div_mod a (Zpos d) ltac:(lia)) as Hd.
  pose proof (Z.mod_pos_bound a (Zpos d) ltac:(lia)) as Hm.
  destruct (Z.compare_spec (2 * (a mod Zpos d)) (Zpos d)); [destruct (Z.even _)|..]; nia.
Qed.

Lemma q_round_ge x (n : Z) : inject_Z n <= x -> (n <= q_round x)%Z.
Proof.
  destruct x as [a d]. unfold Qle, q_round. cbn. rewrite Z.mul_1_r. intros Hx.
  pose proof (Z.div_mod a (Zpos d) ltac:(lia)) as Hd.
  pose proof (Z.mod_pos_bound a (Zpos d) ltac:(lia)) as Hm.
  destruct (Z.compare_spec (2 * (a mod Zpos d)) (Zpos d)); [destruct (Z.even _)|..]; nia.
Qed.

(** ** The intersection *)

Section intersection.
Context (f : Interpolate) (amount : Z).
Context (Hf : interp_wf f).

(** The line of [get_amount_without_fees]. *)
Definition amount_line (i : Z) : Py Q :=
  x ← py_index (x_list f) i; Ok (inject_Z amount - x).

(** The fee at a knot minus what is left of the amount there. *)
Definition excess (x y : Q) : Q := y - (inject_Z amount - x).

(** The loop stops at a knot that is not on the side of the knot before. *)
Lemma seek_intersection_spec (compare : Q -> Q -> bool) (side : Q -> Prop) i0 ys :
  (forall y l, compare y l = true <-> side (y - l)) ->
  (forall j, ys !! j = y_list f !! (i0 + j)%nat) -> (i0 < length (x_list f))%nat ->
  (forall x y, (0 < i0)%nat -> x_list f !! (i0 - 1)%nat = Some x ->
     y_list f !! (i0 - 1)%nat = Some y -> side (excess x y)) ->
  seek_intersection compare amount_line (length (x_list f)) ys i0 = Ok None
  \/ exists i, seek_intersection compare amount_line (length (x_list f)) ys i0 = Ok (Some i)
       /\ (i0 <= i < length (x_list f))%nat
       /\ (forall x y, x_list f !! i = Some x -> y_list f !! i = Some y -> ~ side (excess x y))
       /\ (forall x y, (0 < i)%nat -> x_list f !! (i - 1)%nat = Some x ->
             y_list f !! (i - 1)%nat = Some y -> side (excess x y)).
Proof.
  intros Hc. revert i0. induction ys as [|y ys IH]; intros i0 Hys Hi0 Hprev.
  { exfalso. specialize (Hys 0%nat). rewrite lookup_nil, Nat.add_0_r in Hys. symmetry in Hys.
    apply lookup_ge_None in Hys. rewrite (iw_length f Hf) in Hys. lia. }
  destruct (lookup_lt_is_Some_2 (x_list f) i0 Hi0) as [x Hx].
  pose proof (Hys 0%nat) as Hy. rewrite Nat.add_0_r in Hy. cbn in Hy. symmetry in Hy.
  assert (amount_line (Z.of_nat i0) = Ok (inject_Z amount - x)) as Hl
    by (unfold amount_line; by rewrite (py_index_nat _ _ _ Hx)).
  cbn [seek_intersection]. rewrite Hl. cbn [mbind py_bind].
  destruct (compare y (inject_Z amount - x)) eqn:E.
  - apply Hc in E. destruct (Nat.eqb_spec (S i0) (length (x_list f))) as [|Hne]; [by left|].
    destruct (IH (S i0)) as [Hn|(i & Hi & Hr & H1 & H2)].
    + intros j. etransitivity; [exact (Hys (S j))|]. f_equal. lia.
    + lia.
    + intros x' y' _ Hx' Hy'. rewrite Nat.sub_succ, Nat.sub_0_r in Hx', Hy'. by simplify_eq.
    + by left.
    + right. exists i. split_and!; [done|lia|lia|done..].
  - right. exists i0. split_and!; [done|lia|lia| |done].
    intros x' y' Hx' Hy' Hs. simplify_eq. apply Hc in Hs. congruence.
Qed.

(** Between two knots on different sides, the line meets the fee function. *)
Lemma intersection_between x1 x2 y1 y2 :
  x1 < x2 -> excess x1 y1 < 0 <= excess x2 y2 \/ excess x2 y2 <= 0 < excess x1 y1 ->
  0 <= y1 -> 0 <= y2 ->
  let l1 := inject_Z amount - x1 in
  let l2 := inject_Z amount - x2 in
  let d := (y2 - y1) - (l2 - l1) in
  ~ d == 0 /\ x1 <= (l1 - y1) * (x2 - x1) / d + x1 <= x2
  /\ (l1 - y1) * (x2 - x1) / d + x1 <= inject_Z amount.
Proof.
  unfold excess. intros Hx Hs Hy1 Hy2. cbv zeta.
  set (a := inject_Z amount) in *. set (u := (a - x1) - y1). set (v := y2 - (a - x2)).
  assert ((y2 - y1) - ((a - x2) - (a - x1)) == u + v) as Hd by (unfold u, v; lra).
  assert (~ u + v == 0 /\ 0 <= u / (u + v) <= 1) as [Hne Ht].
  { destruct Hs as [[H1 H2]|[H1 H2]].
    - assert (0 < u /\ 0 <= v) as [Hu Hv] by (unfold u, v; lra). split; [lra|].
      split; [apply Qle_shift_div_l|apply Qle_shift_div_r]; lra.
    - assert (0 < - u /\ 0 <= - v) as [Hu Hv] by (unfold u, v; lra). split; [lra|].
      assert (u / (u + v) == (- u) / (- u - v)) as -> by (field; split; lra).
      split; [apply Qle_shift_div_l|apply Qle_shift_div_r]; lra. }
  split; [by rewrite Hd|]. rewrite Hd.
  assert (u * (x2 - x1) / (u + v) + x1 == x1 + u / (u + v) * (x2 - x1)) as -> by (field; lra).
  set (t := u / (u + v)) in *.
  assert (a - (x1 + t * (x2 - x1)) == y1 + t * (y2 - y1)) as Hfee.
  { unfold t, u, v. field. unfold u, v in Hne. lra. }
  split; [nra|]. assert (0 <= y1 + t * (y2 - y1)) by nra. lra.
Qed.
End intersection.

(** The intersection does not exceed the amount, unless fees are negative. *)
Lemma find_intersection_spec f amount :
  interp_wf f -> Forall (fun y => 0 <= y) (y_list f) ->
  find_intersection f (amount_line f amount) = Ok None
  \/ find_intersection f (amount_line f amount) = Raise ZeroDivisionError
  \/ exists v, find_intersection f (amount_line f amount) = Ok (Some v) /\ v <= inject_Z amount.
Proof.
  intros Hf Hnn. pose proof (iw_length f Hf) as Hlen. pose proof (iw_asc f Hf) as Hasc.
  assert (0 < length (x_list f))%nat as Hpos by (destruct (x_list f) eqn:E; [by destruct Hf|cbn; lia]).
  assert (forall i y, y_list f !! i = Some y -> 0 <= y) as Hy
    by (intros i y Hi; eapply Forall_lookup_1 in Hnn; done).
  assert (forall i x, x_list f !! i = Some x ->
    amount_line f amount (Z.of_nat i) = Ok (inject_Z amount - x)) as Hline.
  { intros i x Hx. unfold amount_line. by rewrite (py_index_nat _ _ _ Hx). }
  destruct (lookup_lt_is_Some_2 (x_list f) 0 Hpos) as [x0 Hx0].
  destruct (lookup_lt_is_Some_2 (y_list f) 0 ltac:(lia)) as [y0 Hy0].
  unfold find_intersection.
  rewrite (py_index_nat _ 0 _ Hy0 : py_index (y_list f) 0 = Ok y0),
    (Hline 0%nat _ Hx0 : amount_line f amount 0 = Ok (inject_Z amount - x0)). cbn [mbind py_bind].
  set (compare := if q_lt y0 _ then q_lt else _).
  set (side := fun e : Q => if q_lt y0 (inject_Z amount - x0) then e < 0 else 0 < e).
  destruct (seek_intersection_spec f amount Hf compare side 0 (y_list f))
    as [-> | (i & -> & [_ Hi] & Hat & Hbefore)]; try done.
  { intros y l. unfold compare, side. destruct (q_lt y0 _); rewrite q_lt_iff; split; lra. }
  { lia. }
  { by left. }
  cbn [mbind py_bind]. right.
  destruct (lookup_lt_is_Some_2 (x_list f) i Hi) as [x2 Hx2].
  destruct (lookup_lt_is_Some_2 (y_list f) i ltac:(lia)) as [y2 Hy2].
  rewrite (py_index_nat _ i _ Hx2), (py_index_nat _ i _ Hy2), (Hline i _ Hx2). cbn [mbind py_bind].
  specialize (Hat x2 y2 Hx2 Hy2). destruct i as [|i].
  - destruct (last_lookup (x_list f) (iw_nonempty f Hf)) as [xl Hxl].
    destruct (lookup_lt_is_Some_2 (y_list f) (length (y_list f) - 1) ltac:(lia)) as [yl Hyl].
    assert (x2 = x0) as -> by congruence. assert (y2 = y0) as -> by congruence.
    change (Z.of_nat 0 - 1)%Z with (-1)%Z. unfold amount_line.
    rewrite (py_index_last _ _ Hxl), (py_index_last _ _ Hyl). cbn [mbind py_bind].
    assert (y0 == inject_Z amount - x0) as E0.
    { unfold side, excess in Hat. destruct (q_lt y0 (inject_Z amount - x0)) eqn:E.
      - apply q_lt_iff in E. exfalso. apply Hat. lra.
      - apply not_true_iff_false in E. rewrite q_lt_iff in E. lra. }
    destruct (Qeq_bool _ 0) eqn:Ed; [by left|]. right. eexists. split; [done|].
    apply Qeq_bool_neq in Ed. specialize (Hy _ _ Hy0).
    set (d := (y0 - yl) - _) in *.
    assert (inject_Z amount - xl - yl == d) as -> by (unfold d; lra).
    assert (d * (x0 - xl) / d + xl == x0) as -> by (field; done). lra.
  - destruct (lookup_lt_is_Some_2 (x_list f) i ltac:(lia)) as [x1 Hx1].
    destruct (lookup_lt_is_Some_2 (y_list f) i ltac:(lia)) as [y1 Hy1].
    replace (Z.of_nat (S i) - 1)%Z with (Z.of_nat i) by lia.
    rewrite (py_index_nat _ i _ Hx1), (py_index_nat _ i _ Hy1), (Hline i _ Hx1). cbn [mbind py_bind].
    assert (side (excess amount x1 y1)) as Hb
      by (apply Hbefore; [lia|by rewrite Nat.sub_succ, Nat.sub_0_r..]).
    destruct (intersection_between amount x1 x2 y1 y2) as (Hd & _ & Hle).
    + by apply (Hasc i).
    + unfold side in *. destruct (q_lt y0 _); [left|right]; lra.
    + by apply (Hy i).
    + by apply (Hy (S i)).
    + destruct (Qeq_bool _ 0) eqn:Ed; [apply Qeq_bool_iff in Ed; by destruct Hd|].
      right. eauto.
Qed.

(** ** The amount after fees *)

Section amount.
Context `{Crypto}.

Lemma receivable_nonneg k c :
  channel_inv_with k c ->
  (0 <= our_total_deposit c + partner_total_deposit c
        - get_balance (our_state c) (partner_state c))%Z.
Proof.
  intros Hc. pose proof (balances_capacity c) as Hb.
  pose proof (inv_partner_balance k c Hc). pose proof (reserved_nonneg k _ (end_locks _ (inv_partner k c Hc))).
  pose proof (total_withdraw_nonneg _ (inv_our k c Hc)).
  pose proof (total_withdraw_nonneg _ (inv_partner k c Hc)).
  unfold get_capacity, our_total_deposit, partner_total_deposit, our_total_withdraw,
    partner_total_withdraw in *. lia.
Qed.

Lemma balance_nonneg k c :
  channel_inv_with k c -> (0 <= get_balance (our_state c) (partner_state c))%Z.
Proof.
  intros Hc. pose proof (inv_our_balance k c Hc).
  pose proof (reserved_nonneg k _ (end_locks _ (inv_our k c Hc))). lia.
Qed.

(** With capped fees, the amount after fees is at most the amount before; a
    division by zero is the only exception that can escape. *)
Lemma amount_without_fees_bounds k amount cin cout :
  channel_inv_with k cin -> channel_inv_with k cout ->
  schedule_wf (fee_schedule cin) -> schedule_wf (fee_schedule cout) ->
  cap_fees (fee_schedule cin) = true -> cap_fees (fee_schedule cout) = true ->
  get_amount_without_fees amount cin cout = Ok None
  \/ get_amount_without_fees amount cin cout = Raise ZeroDivisionError
  \/ exists a, get_amount_without_fees amount cin cout = Ok (Some a) /\ (0 <= a <= amount)%Z.
Proof.
  intros Hin Hout Hsin Hsout Hcin Hcout. unfold get_amount_without_fees.
  rewrite Hcin, Hcout. cbn [Bool.eqb py_assert mbind py_bind].
  destruct (mediation_fee_func_aux_result (fee_schedule cin) (fee_schedule cout)
    (get_balance (our_state cin) (partner_state cin)) (get_balance (our_state cout) (partner_state cout))
    (our_total_deposit cin + partner_total_deposit cin - get_balance (our_state cin) (partner_state cin))
    (Some amount) None true) as [(f & Hrun & Hf & Hcap)|Hrun]; eauto using balance_nonneg, receivable_nonneg.
  - unfold mediation_fee_func. rewrite Hrun. cbn [mbind py_bind]. destruct (Hcap eq_refl) as [Hnn _].
    fold (amount_line f amount).
    destruct (find_intersection_spec f amount Hf Hnn) as [->|[->|(v & -> & Hv)]]; auto.
    destruct (Qle_bool v 0) eqn:E; auto. right; right. eexists. split; [done|]. split.
    + apply q_round_ge. apply not_true_iff_false in E. rewrite Qle_bool_iff in E.
      change (inject_Z 0) with 0. lra.
    + by apply q_round_le.
  - unfold mediation_fee_func. rewrite Hrun. by left.
Qed.
End amount.
