(* ===== verification/MediatorSteps.v ===== *)
(** The mediator changes channels only through the operations of a channel.

    Every handler of the mediator evolves the channels of the node
    ([TaskSteps.store_evolves]), so that a reachable channel stays reachable. *)

From stdpp Require Import relations.
From S2P Require Import Prelude PyDict Bytes Crypto PyFloat MediationFee State Events.
From S2P Require Import StateChanges Channel ChannelValidation ChannelOps ChannelTransition.
From S2P Require Import ChannelLocks ChannelInvariant ChannelSend ChannelReceive ChannelMachine.
From S2P Require Import ChannelSystem TransferTasks TaskSteps Mediator.

(** ** Loops *)

Lemma py_traverse_inv {S A} (I : S -> Prop) (Q : A -> A -> Prop) (f : S -> A -> Py (S * A)) l s r :
  (forall s x s' x', x ∈ l -> I s -> f s x = Ok (s', x') -> I s' /\ Q x x') ->
  I s -> py_traverse f s l = Ok r -> I r.1 /\ Forall2 Q l r.2.
Proof.
  revert s r. induction l as [|x l IH]; intros s r Hf Hs Hr; cbn in Hr.
  - injection Hr as <-. by split; [|constructor].
  - apply bind_Ok in Hr as ([s1 x1] & H1 & Hr). apply bind_Ok in Hr as ([s2 l2] & H2 & Hr).
    injection Hr as <-. destruct (Hf s x s1 x1) as [HI HQ]; [by left|done..|].
    destruct (IH s1 (s2, l2)) as [HI2 HQ2]; [|done..|].
    + intros s' y s'' y' Hy. apply Hf. by right.
    + split; [done|]. by constructor.
Qed.

Lemma py_traverse_reversed_inv {S A} (I : S -> Prop) (Q : A -> A -> Prop)
    (f : S -> A -> Py (S * A)) l s r :
  (forall s x s' x', x ∈ l -> I s -> f s x = Ok (s', x') -> I s' /\ Q x x') ->
  I s -> py_traverse_reversed f s l = Ok r -> I r.1 /\ Forall2 Q l r.2.
Proof.
  intros Hf Hs Hr. unfold py_traverse_reversed in Hr.
  apply bind_Ok in Hr as ([s' l'] & H1 & Hr). injection Hr as <-.
  destruct (py_traverse_inv I Q f (rev l) s (s', l')) as [HI HQ]; [|done..|].
  - intros s1 x s2 x' Hx. apply Hf.
    apply list_elem_of_In in Hx. apply in_rev in Hx. by apply list_elem_of_In.
  - split; [done|]. cbn in *. apply Forall2_reverse in HQ. rewrite !rev_alt in *.
    by rewrite <- (rev_involutive l), !rev_alt.
Qed.

Section steps.
Context `{CryptoLaws} `{FloatPow}.
Implicit Types (chans : Channels) (st : MediatorTransferState).

Lemma expirable_lock_found e sh l :
  locks_inv e -> expirable_lock e sh = Ok (Some l) ->
  get_lock e sh = Some l /\ lock_secrethash l = sh.
Proof.
  intros Hl Hok. assert (get_lock e sh = Some l) as Hg.
  { unfold expirable_lock in Hok. unfold get_lock.
    destruct (dict_get sh (secrethashes_to_lockedlocks e)); [py_inv; by simplify_eq|].
    destruct (dict_get sh (secrethashes_to_unlockedlocks e)); by simplify_eq. }
  split; [done|]. rewrite get_lock_index in Hg. by apply (index_get_valid _ _ Hl) in Hg as [? _].
Qed.

Lemma send_expired_evolves c sh l prng rmd nr c' evs prng' :
  expirable_lock (our_state c) sh = Ok (Some l) ->
  so_ok (is_lock_expired (our_state c) l nr (get_sender_expiration_threshold (lock_expiration l)))
    = true ->
  send_lock_expired c l prng rmd = Ok (c', evs, prng') -> evolves c c'.
Proof.
  intros Hl Hexp Hrun. eapply send_lock_expired_evolves; [|exact Hexp|exact Hrun].
  intros Hc. destruct (expirable_lock_found _ _ _ (end_locks _ (inv_our _ c Hc)) Hl) as [Hg Hs].
  by rewrite Hs.
Qed.

(** ** Steps of the loops *)

Lemma unlock_payee_evolves net nr secret sh chans prng evs p s' p' :
  unlock_payee net nr secret sh (chans, prng, evs) p = Ok (s', p') -> store_evolves chans s'.1.1.
Proof.
  unfold unlock_payee. intros Hok. apply bind_Ok in Hok as (safe & _ & Hok).
  destruct (get_payee_channel net chans p) as [c|] eqn:Hc; [|by injection Hok as <- <-].
  case_if; [|by injection Hok as <- <-].
  destruct (message_identifier_from_prng prng) as [mid prng'].
  apply bind_Ok in Hok as ([c' u] & Hrun & Hok). injection Hok as <- <-. cbn.
  eapply store_evolves_channel; [exact Hc|]. apply evolves_step. intros _.
  eapply step_send_unlock. exact Hrun.
Qed.

Lemma events_for_balanceproof_evolves net chans pairs prng nr secret sh pairs' evs chans' prng' :
  events_for_balanceproof net chans pairs prng nr secret sh = Ok (pairs', evs, chans', prng') ->
  store_evolves chans chans'.
Proof.
  unfold events_for_balanceproof. intros Hok.
  apply bind_Ok in Hok as ([[[chans1 prng1] evs1] pairs1] & Hrun & Hok). injection Hok as <- <- <- <-.
  apply (py_traverse_reversed_inv (fun s => store_evolves chans s.1.1) (fun _ _ => True)) in Hrun
    as [Hs _]; [done| |done].
  intros [[chans2 prng2] evs2] p [[chans3 prng3] evs3] p' _ Hs Hstep. split; [|done].
  etransitivity; [exact Hs|]. by apply unlock_payee_evolves in Hstep.
Qed.

Lemma remove_expired_lock_evolves net sh routes nr chans prng evs p s' p' :
  remove_expired_lock net sh routes nr (chans, prng, evs) p = Ok (s', p') ->
  store_evolves chans s'.1.1.
Proof.
  unfold remove_expired_lock. intros Hok.
  destruct (get_payee_channel net chans p) as [c|] eqn:Hc; [|by injection Hok as <- <-].
  apply bind_Ok in Hok as ([l|] & Hl & Hok); [|by injection Hok as <- <-].
  case_if; [|by injection Hok as <- <-]. bool_hyps.
  apply bind_Ok in Hok as ([[c' evs'] prng'] & Hrun & Hok). injection Hok as <- <-. cbn.
  eapply store_evolves_channel; [exact Hc|]. by eapply send_expired_evolves.
Qed.

Lemma events_to_remove_expired_locks_evolves net st chans nr prng st' evs chans' prng' :
  events_to_remove_expired_locks net st chans nr prng = Ok (st', evs, chans', prng') ->
  store_evolves chans chans'.
Proof.
  unfold events_to_remove_expired_locks. intros Hok.
  destruct (mt_transfers_pair st) as [|first rest]; [by injection Hok as <- <- <- <-|].
  apply bind_Ok in Hok as ([[[chans1 prng1] evs1] pairs1] & Hrun & Hok). injection Hok as <- <- <- <-.
  apply (py_traverse_inv (fun s => store_evolves chans s.1.1) (fun _ _ => True)) in Hrun
    as [Hs _]; [done| |done].
  intros [[chans2 prng2] evs2] p [[chans3 prng3] evs3] p' _ Hs Hstep. split; [|done].
  etransitivity; [exact Hs|]. by apply remove_expired_lock_evolves in Hstep.
Qed.

Lemma update_channel_evolves net id f chans chans' :
  (forall c c', f c = Ok c' -> evolves c c') ->
  update_channel net id f chans = Ok chans' -> store_evolves chans chans'.
Proof.
  unfold update_channel. intros Hf Hok.
  destruct (channel_by_id net chans id) as [c|] eqn:Hc; [|by injection Hok as <-].
  apply bind_Ok in Hok as (c' & Hrun & Hok). injection Hok as <-.
  eapply store_evolves_channel; [exact Hc|]. by apply Hf.
Qed.

Lemma set_secret_with_evolves f net st chans secret sh st' chans' evs :
  (forall c c', f c = Ok c' -> evolves c c') ->
  set_secret_with f net st chans secret sh = Ok (st', chans', evs) -> store_evolves chans chans'.
Proof.
  unfold set_secret_with. intros Hf Hok. apply bind_Ok in Hok as (chans1 & Hrun & Hok).
  assert (store_evolves chans chans1) as Hpairs.
  { apply (py_foldl_inv (fun s => store_evolves chans s)) in Hrun; [done| |done].
    intros s p s' _ Hs Hstep. apply bind_Ok in Hstep as (s1 & Ha & Hb).
    etransitivity; [exact Hs|]. etransitivity; [by eapply update_channel_evolves|].
    by eapply update_channel_evolves. }
  destruct (mt_waiting_transfer st) as [w|]; [|by injection Hok as <- <- <-].
  apply bind_Ok in Hok as (chans2 & Hw & Hok). injection Hok as <- <- <-.
  etransitivity; [exact Hpairs|]. by eapply update_channel_evolves.
Qed.

Lemma set_offchain_secret_evolves net st chans secret sh st' chans' evs :
  set_offchain_secret net st chans secret sh = Ok (st', chans', evs) -> store_evolves chans chans'.
Proof.
  apply set_secret_with_evolves. intros c c' [= <-]. apply evolves_step. intros _.
  apply step_secret_offchain.
Qed.

Lemma set_onchain_secret_evolves net st chans secret sh nr st' chans' evs :
  set_onchain_secret net st chans secret sh nr = Ok (st', chans', evs) -> store_evolves chans chans'.
Proof.
  apply set_secret_with_evolves. intros c c' Hrun. apply evolves_step. intros _.
  eapply step_secret_onchain. exact Hrun.
Qed.

(** ** Forwarding *)

(** No candidate route leads to a channel in which we have a lock with this
    secrethash already. *)
Definition payee_fresh st (payer_channel : NettingChannelState)
    (addrs : dict (bytes * bytes) ChannelRef) chans (sh : bytes) : Prop :=
  forall r hop ref c,
    r ∈ filter_acceptable_routes (mt_routes st) (mt_refunded_channels st) addrs chans
          (channel_token_network_address payer_channel) (address (our_state payer_channel)) ->
    next_hop_of r (address (our_state payer_channel)) = Some hop ->
    channel_by_address addrs chans
      (default (channel_token_network_address payer_channel)
         (dict_get (address (our_state payer_channel)) (swaps r))) hop = Some (ref, c) ->
    is_lock_pending (our_state c) sh = false.

Lemma forward_transfer_pair_Some t payer_channel c prng nr p c' evs prng' :
  forward_transfer_pair t payer_channel c prng nr = Ok (Some (p, c', evs), prng') ->
  exists amount mid rmd ev,
    get_amount_without_fees (lock_amount (lts_lock t)) payer_channel c = Ok (Some amount)
    /\ amount <> 0
    /\ is_channel_usable_for_mediation c amount (lock_expiration (lts_lock t) - nr) = true
    /\ send_lockedtransfer c (lts_initiator t) (lts_target t) amount mid (lts_payment_identifier t)
         (lock_expiration (lts_lock t)) (lts_secret t) (lock_secrethash (lts_lock t))
         (lts_route_states t) rmd (lts_metadata t) = Ok (c', ev)
    /\ evs = [ESendLockedTransfer ev]
    /\ p = mkMediationPairState t (address (partner_state c)) (slt_transfer ev) payer_pending
             payee_pending.
Proof.
  unfold forward_transfer_pair. intros Hok. apply bind_Ok in Hok as (amount & Ha & Hok).
  destruct amount as [amount|]; [|done]. exists amount.
  destruct amount; [done|..];
    (case_if; [|done]; apply bind_Ok in Hok as (? & _ & Hok);
     destruct (message_identifier_from_prng prng) as [mid prng1];
     apply bind_Ok in Hok as ([c1 ev] & Hrun & Hok); injection Hok as <- <- <- <-;
     eexists _, _, ev; split_and!; done).
Qed.

Lemma forward_transfer_pair_evolves t payer_channel c prng nr p c' evs prng' :
  is_lock_pending (our_state c) (lock_secrethash (lts_lock t)) = false ->
  forward_transfer_pair t payer_channel c prng nr = Ok (Some (p, c', evs), prng') -> evolves c c'.
Proof.
  intros Hf (amount & mid & rmd & ev & _ & _ & _ & Hrun & _)%forward_transfer_pair_Some.
  apply evolves_step. intros _. eapply step_send_transfer; [exact Hf|exact Hrun].
Qed.

Lemma mediate_routes_evolves addrs payer_channel t nr rs chans prng r chans' prng' :
  (forall r hop ref c, r ∈ rs ->
     next_hop_of r (address (our_state payer_channel)) = Some hop ->
     channel_by_address addrs chans
       (default (channel_token_network_address payer_channel)
          (dict_get (address (our_state payer_channel)) (swaps r))) hop = Some (ref, c) ->
     is_lock_pending (our_state c) (lock_secrethash (lts_lock t)) = false) ->
  mediate_routes addrs payer_channel t nr rs chans prng = Ok (r, chans', prng') ->
  store_evolves chans chans'.
Proof.
  revert prng. induction rs as [|route rs IH]; intros prng Hf Hok; cbn in Hok.
  { by injection Hok as <- <- <-. }
  assert (forall prng1, mediate_routes addrs payer_channel t nr rs chans prng1 = Ok (r, chans', prng') ->
    store_evolves chans chans') as Hrest.
  { intros prng1. apply IH. intros r1 hop ref c Hr. apply Hf. by right. }
  destruct (next_hop_of route _) as [hop|] eqn:Hhop; [|by eapply Hrest].
  destruct (channel_by_address _ _ _ hop) as [[ref c]|] eqn:Hc; [|by eapply Hrest].
  apply bind_Ok in Hok as ([attempt prng1] & Hrun & Hok).
  destruct attempt as [[[p c'] evs]|]; [|by eapply Hrest]. injection Hok as <- <- <-.
  assert (dict_get ref chans = Some c) as Hget.
  { unfold channel_by_address in Hc. destruct (dict_get _ addrs) as [ref1|]; [|done].
    destruct (dict_get ref1 chans) eqn:E; by simplify_eq. }
  eapply store_evolves_channel; [exact Hget|]. eapply forward_transfer_pair_evolves; [|exact Hrun].
  eapply Hf; [by left|done..].
Qed.

Lemma mediate_transfer_evolves st payer_channel addrs chans prng t nr st' evs chans' prng' :
  payee_fresh st payer_channel addrs chans (lock_secrethash (lts_lock t)) ->
  mediate_transfer st payer_channel addrs chans prng t nr = Ok (st', evs, chans', prng') ->
  store_evolves chans chans'.
Proof.
  unfold mediate_transfer. intros Hf Hok. apply bind_Ok in Hok as (? & _ & Hok).
  apply bind_Ok in Hok as ([[mediated chans1] prng1] & Hrun & Hok).
  assert (chans' = chans1) as ->.
  { destruct mediated as [[p evs1]|]; by simplify_eq. }
  by eapply mediate_routes_evolves.
Qed.

(** Receiving a message changes the partner's end only. *)
Definition same_our (c c' : NettingChannelState) : Prop :=
  our_state c' = our_state c /\ canonical_identifier c' = canonical_identifier c.

#[export] Instance same_our_preorder : PreOrder same_our.
Proof.
  split; [by intros c|]. intros c1 c2 c3 [A1 A2] [B1 B2]. split; congruence.
Qed.

Lemma filter_ext_in {A} (f g : A -> bool) l :
  (forall x, f x = g x) -> List.filter f l = List.filter g l.
Proof. intros Hfg. induction l as [|x l IH]; cbn; [done|]. by rewrite Hfg, IH. Qed.

Lemma channel_by_address_frame addrs chans chans' net a ref c' :
  store_rel same_our chans chans' -> channel_by_address addrs chans' net a = Some (ref, c') ->
  exists c, channel_by_address addrs chans net a = Some (ref, c) /\ same_our c c'.
Proof.
  unfold channel_by_address. intros Hs Hc. destruct (dict_get (net, a) addrs) as [ref0|]; [|done].
  destruct (dict_get ref0 chans') as [c0|] eqn:E; [|done]. simplify_eq.
  destruct (store_rel_get _ _ _ _ _ Hs E) as (c & -> & Hc). eauto.
Qed.

Lemma payee_fresh_frame st st' c c' addrs chans chans' sh :
  mt_routes st' = mt_routes st -> mt_refunded_channels st' = mt_refunded_channels st ->
  same_our c c' -> store_rel same_our chans chans' ->
  payee_fresh st c addrs chans sh -> payee_fresh st' c' addrs chans' sh.
Proof.
  intros Hr Hb [Hour Hid] Hs Hf r hop ref c1. unfold channel_token_network_address.
  rewrite Hour, Hid, Hr, Hb. intros Hin Hhop Hc1.
  destruct (channel_by_address_frame _ _ _ _ _ _ _ Hs Hc1) as (c0 & Hc0 & [Ho0 _]). rewrite Ho0.
  eapply Hf; [|exact Hhop|exact Hc0]. unfold filter_acceptable_routes in *.
  erewrite filter_ext_in; [exact Hin|]. intros r1. cbn beta.
  destruct (next_hop_of r1 _) as [hop1|]; [|done]. unfold channel_by_address, channel_token_network_address.
  destruct (dict_get _ addrs) as [ref1|]; [|done].
  destruct (dict_get ref1 chans') as [c2|] eqn:E.
  - destruct (store_rel_get _ _ _ _ _ Hs E) as (c3 & -> & [_ Hid3]). unfold identifier. by rewrite Hid3.
  - destruct (dict_get ref1 chans) as [c3|] eqn:E3; [|done].
    destruct (store_rel_get_fwd _ _ _ _ _ Hs E3) as (c2 & E2 & _). congruence.
Qed.

(** ** The handlers *)

(** What the node guarantees when it dispatches to a mediator: the messages are
    well formed, a received lock is new in its channel, and no candidate route
    leads to a channel that has a lock of ours with the secrethash already. *)
Definition mediator_env (net : bytes) (ts : option MediatorTransferState) (sc : StateChange)
    chans (addrs : dict (bytes * bytes) ChannelRef) : Prop :=
  match sc with
  | SActionInitMediator a =>
      let t := aim_from_transfer a in
      let sh := lock_secrethash (lts_lock t) in
      received_bp (lts_balance_proof t) /\ lock_valid (lts_lock t)
      /\ forall c, channel_by_id net chans (hop_channel_identifier (aim_from_hop a)) = Some c ->
           is_lock_pending (partner_state c) sh = false
           /\ payee_fresh
                (mkMediatorTransferState sh (aim_candidate_route_states a) [] None [] None)
                c addrs chans sh
  | SBlock a =>
      forall st w c, ts = Some st -> mt_waiting_transfer st = Some w ->
        channel_by_id net chans (wt_channel_id w) = Some c ->
        payee_fresh st c addrs chans (lock_secrethash (lts_lock (wt_transfer w)))
  | SReceiveTransferRefund a =>
      let t := rtr_transfer a in
      let id := channel_identifier (sbp_canonical_identifier (lts_balance_proof t)) in
      let sh := lock_secrethash (lts_lock t) in
      received_bp (lts_balance_proof t) /\ lock_valid (lts_lock t)
      /\ forall st c, ts = Some st -> channel_by_id net chans id = Some c ->
           is_lock_pending (partner_state c) sh = false
           /\ payee_fresh
                (set_mt_refunded_channels (mt_refunded_channels st ++ [identifier c]) st)
                c addrs chans sh
  | SReceiveUnlock a => received_bp (ru_balance_proof a)
  | SReceiveLockExpired a => received_bp (rle_balance_proof a)
  | _ => True
  end.

Lemma receive_transfer_same_our c t md c' r :
  handle_receive_lockedtransfer c t md = Ok (c', r) -> same_our c c'.
Proof.
  unfold handle_receive_lockedtransfer. intros Hok. apply bind_Ok in Hok as ([[ok m] pl] & _ & Hok).
  destruct ok; py_inv; by simplify_eq.
Qed.

Lemma refund_same_our t c a c' r : handle_refundtransfer t c a = Ok (c', r) -> same_our c c'.
Proof.
  unfold handle_refundtransfer. intros Hok. apply bind_Ok in Hok as ([[ok m] pl] & _ & Hok).
  destruct ok; py_inv; by simplify_eq.
Qed.

Lemma handle_init_evolves net a chans addrs prng nr it chans' prng' :
  mediator_env net None (SActionInitMediator a) chans addrs ->
  handle_init net a chans addrs prng nr = Ok (it, chans', prng') -> store_evolves chans chans'.
Proof.
  intros (Hbp & Hv & Hc) Hok. unfold handle_init in Hok.
  destruct (channel_by_id net chans _) as [c|] eqn:Eget; [|by injection Hok as <- <- <-].
  destruct (Hc c eq_refl) as [Hp Hf].
  apply bind_Ok in Hok as ([c' [[ok evs] m]] & Hrun & Hok).
  assert (store_evolves chans (store_channel (net, hop_channel_identifier (aim_from_hop a)) c' chans))
    as Hstep.
  { eapply store_evolves_channel; [exact Eget|]. apply evolves_step. intros _.
    eapply step_receive_transfer; [exact Hbp|exact Hv|exact Hp|exact Hrun]. }
  destruct ok; [|by injection Hok as <- <- <-].
  apply bind_Ok in Hok as ([[[st evs1] chans1] prng1] & Hmed & Hok). injection Hok as <- <- <-.
  etransitivity; [exact Hstep|]. eapply mediate_transfer_evolves; [|exact Hmed].
  pose proof (receive_transfer_same_our _ _ _ _ _ Hrun) as Hso.
  eapply payee_fresh_frame; [| |exact Hso| |exact Hf]; [done..|].
  by eapply (store_channel_rel same_our); [apply _|exact Eget|].
Qed.

Lemma retry_waiting_evolves net st a chans addrs prng nr st' evs chans' prng' :
  mediator_env net (Some st) (SBlock a) chans addrs ->
  retry_waiting net st chans addrs prng nr = Ok (st', evs, chans', prng') ->
  store_evolves chans chans'.
Proof.
  intros Henv Hok. unfold retry_waiting in Hok.
  destruct (mt_waiting_transfer st) as [w|] eqn:Ew; [|by injection Hok as <- <- <- <-].
  destruct (channel_by_id net chans (wt_channel_id w)) as [c|] eqn:Ec; [|by injection Hok as <- <- <- <-].
  apply bind_Ok in Hok as ([[[st1 evs1] chans1] prng1] & Hmed & Hok). injection Hok as <- <- <- <-.
  eapply mediate_transfer_evolves; [|exact Hmed]. by eapply Henv.
Qed.

Lemma mediator_handle_block_evolves net st a chans addrs prng it chans' prng' :
  mediator_env net (Some st) (SBlock a) chans addrs ->
  mediator_handle_block net st a chans addrs prng = Ok (it, chans', prng') ->
  store_evolves chans chans'.
Proof.
  intros Henv Hok. unfold mediator_handle_block in Hok.
  apply bind_Ok in Hok as ([[[st1 evs1] chans1] prng1] & Hretry & Hok).
  apply bind_Ok in Hok as ([[[st2 evs2] chans2] prng2] & Hexp & Hok).
  apply bind_Ok in Hok as ([pairs3 evs3] & _ & Hok).
  destruct (events_for_expired_pairs _ _ _ _ _) as [[pairs4 w] evs4]. injection Hok as <- <- <-.
  etransitivity; [by eapply retry_waiting_evolves|].
  by eapply events_to_remove_expired_locks_evolves.
Qed.

Lemma mediator_handle_refundtransfer_evolves net st a chans addrs prng nr it chans' prng' :
  mediator_env net (Some st) (SReceiveTransferRefund a) chans addrs ->
  mediator_handle_refundtransfer net st a chans addrs prng nr = Ok (it, chans', prng') ->
  store_evolves chans chans'.
Proof.
  intros (Hbp & Hv & Hc) Hok. unfold mediator_handle_refundtransfer in Hok.
  destruct (mt_secret st); [by injection Hok as <- <- <-|].
  apply bind_Ok in Hok as (p & _ & Hok).
  destruct (channel_by_id net chans _) as [c|] eqn:Eget; [|by injection Hok as <- <- <-].
  destruct (Hc st c eq_refl eq_refl) as [Hp Hf].
  apply bind_Ok in Hok as ([c' [[ok evs] m]] & Hrun & Hok).
  pose proof (refund_same_our _ _ _ _ _ Hrun) as Hso.
  match type of Hok with context [store_channel ?ref c' chans] =>
    assert (store_evolves chans (store_channel ref c' chans)) as Hstep end.
  { eapply store_evolves_channel; [exact Eget|]. apply evolves_step. intros _.
    eapply step_receive_refund; [exact Hbp|exact Hv|exact Hp|exact Hrun]. }
  destruct ok; [|by injection Hok as <- <- <-].
  apply bind_Ok in Hok as ([[[st1 evs1] chans1] prng1] & Hmed & Hok). injection Hok as <- <- <-.
  etransitivity; [exact Hstep|]. eapply mediate_transfer_evolves; [|exact Hmed].
  eapply payee_fresh_frame; [| |exact Hso| |exact Hf]; cbn.
  - done.
  - unfold identifier. by rewrite (proj2 Hso).
  - by eapply (store_channel_rel same_our); [apply _|exact Eget|].
Qed.

Lemma secret_learned_evolves net st chans prng nr hsh secret sh a it chans' prng' :
  secret_learned net st chans prng nr hsh secret sh a = Ok (it, chans', prng') ->
  store_evolves chans chans'.
Proof.
  unfold secret_learned. intros Hok.
  apply bind_Ok in Hok as ([[st1 chans1] evs1] & Hset & Hok).
  apply bind_Ok in Hok as ([pairs2 evs2] & _ & Hok).
  apply bind_Ok in Hok as ([[pairs3 evs3] prng3] & _ & Hok).
  apply bind_Ok in Hok as ([[[pairs4 evs4] chans4] prng4] & Hbal & Hok). injection Hok as <- <- <-.
  etransitivity; [by eapply set_offchain_secret_evolves|].
  by eapply events_for_balanceproof_evolves.
Qed.

Lemma mediator_handle_onchain_secretreveal_evolves net st a chans prng it chans' prng' :
  mediator_handle_onchain_secretreveal net st a chans prng = Ok (it, chans', prng') ->
  store_evolves chans chans'.
Proof.
  unfold mediator_handle_onchain_secretreveal. intros Hok. case_if; [|by injection Hok as <- <- <-].
  apply bind_Ok in Hok as ([[st1 chans1] evs1] & Hset & Hok).
  apply bind_Ok in Hok as ([[[pairs2 evs2] chans2] prng2] & Hbal & Hok). injection Hok as <- <- <-.
  etransitivity; [by eapply set_onchain_secret_evolves|].
  by eapply events_for_balanceproof_evolves.
Qed.

Lemma mediator_handle_unlock_evolves net st a chans prng it chans' prng' :
  received_bp (ru_balance_proof a) ->
  mediator_handle_unlock net st a chans prng = Ok (it, chans', prng') -> store_evolves chans chans'.
Proof.
  intros Hbp Hok. unfold mediator_handle_unlock in Hok.
  apply bind_Ok in Hok as ([[chans1 evs1] pairs1] & Hrun & Hok). injection Hok as <- <- <-.
  apply (py_traverse_inv (fun s => store_evolves chans s.1) (fun _ _ => True)) in Hrun
    as [Hs _]; [done| |done].
  intros [chans2 evs2] p [chans3 evs3] p' _ Hs Hstep. split; [|done]. etransitivity; [exact Hs|].
  unfold unlock_from_payer in Hstep. case_if; [|by injection Hstep as <- <- <-].
  destruct (channel_by_id net chans2 _) as [c|] eqn:Ec; [|by injection Hstep as <- <- <-].
  apply bind_Ok in Hstep as ([c' [[ok evs4] m]] & Hun & Hstep). cbn.
  assert (chans3 = store_channel (net, channel_identifier
    (sbp_canonical_identifier (ru_balance_proof a))) c' chans2) as -> by (destruct ok; by simplify_eq).
  eapply store_evolves_channel; [exact Ec|]. apply evolves_step. intros _.
  eapply step_receive_unlock; [exact Hbp|exact Hun].
Qed.

Lemma receive_expired_evolves net id a nr md chans c r :
  received_bp (rle_balance_proof a) -> channel_by_id net chans id = Some c ->
  handle_receive_lock_expired c a nr md = Ok r ->
  store_evolves chans (store_channel (net, id) (new_state r) chans).
Proof.
  intros Hbp Hc Hrun. eapply store_evolves_channel; [exact Hc|]. apply evolves_step. intros _.
  by eapply step_receive_expired.
Qed.

Lemma expire_from_payer_evolves net st a nr chans evs pairs r :
  received_bp (rle_balance_proof a) ->
  expire_from_payer net st a nr chans evs pairs = Ok r -> store_evolves chans r.1.1.1.
Proof.
  intros Hbp. revert chans evs r. induction pairs as [|p pairs IH]; intros chans evs r Hok; cbn in Hok.
  { by injection Hok as <-. }
  destruct (get_payer_channel net chans p) as [c|] eqn:Ec; [|by injection Hok as <-].
  apply bind_Ok in Hok as (res & Hrun & Hok).
  apply bind_Ok in Hok as ([[[chans1 evs1] rest] missing] & Hrest & Hok). injection Hok as <-. cbn.
  apply IH in Hrest. etransitivity; [|exact Hrest]. by eapply receive_expired_evolves.
Qed.

Lemma mediator_handle_lock_expired_evolves net st a chans prng nr it chans' prng' :
  received_bp (rle_balance_proof a) ->
  mediator_handle_lock_expired net st a chans prng nr = Ok (it, chans', prng') ->
  store_evolves chans chans'.
Proof.
  intros Hbp Hok. unfold mediator_handle_lock_expired in Hok.
  apply bind_Ok in Hok as ([[[chans1 evs1] pairs1] missing] & Hrun & Hok).
  apply expire_from_payer_evolves in Hrun; [|done]. cbn in Hrun.
  destruct missing; [by injection Hok as <- <- <-|].
  destruct (mt_waiting_transfer st) as [w|]; [|by injection Hok as <- <- <-].
  destruct (channel_by_id net chans1 (wt_channel_id w)) as [c|] eqn:Ec;
    [|by injection Hok as <- <- <-].
  apply bind_Ok in Hok as (res & Hexp & Hok). injection Hok as <- <- <-.
  etransitivity; [exact Hrun|]. by eapply receive_expired_evolves.
Qed.

Lemma mediator_dispatch_evolves net ts sc chans addrs prng nr hsh it chans' prng' :
  mediator_env net ts sc chans addrs ->
  mediator_dispatch net ts sc chans addrs prng nr hsh = Ok (it, chans', prng') ->
  store_evolves chans chans'.
Proof.
  intros Henv Hok. unfold mediator_dispatch in Hok.
  destruct sc; try by (injection Hok as <- <- <-).
  all: try (apply bind_Ok in Hok as (st & Hst & Hok); apply assert_some_Ok in Hst as ->).
  - by eapply mediator_handle_block_evolves.
  - by eapply mediator_handle_onchain_secretreveal_evolves.
  - by eapply mediator_handle_unlock_evolves.
  - destruct ts; [by injection Hok as <- <- <-|]. by eapply handle_init_evolves.
  - by eapply mediator_handle_lock_expired_evolves.
  - unfold mediator_handle_offchain_secretreveal in Hok.
    destruct (last (mt_transfers_pair st)); [|by injection Hok as <- <- <-].
    destruct (channel_by_id net chans _); [|by injection Hok as <- <- <-].
    case_if; [|by injection Hok as <- <- <-]. by eapply secret_learned_evolves.
  - by eapply mediator_handle_refundtransfer_evolves.
Qed.

Lemma mediator_transition_evolves net ts sc chans addrs prng nr hsh it chans' prng' :
  mediator_env net ts sc chans addrs ->
  mediator_state_transition net ts sc chans addrs prng nr hsh = Ok (it, chans', prng') ->
  store_evolves chans chans'.
Proof.
  intros Henv Hok. unfold mediator_state_transition in Hok.
  apply bind_Ok in Hok as ([[it1 chans1] prng1] & Hd & Hok).
  apply bind_Ok in Hok as (? & _ & Hok). injection Hok as _ <- _.
  by eapply mediator_dispatch_evolves.
Qed.

(** The mediator keeps the promise of a task. *)
#[export] Instance mediator_task : ChannelTask bytes MediatorTransferState.
Proof.
  refine {| task_transition net ts sc addrs chans prng nr hsh :=
              mediator_state_transition net ts sc chans addrs prng nr hsh;
            task_env := mediator_env |}.
  intros *. apply mediator_transition_evolves.
Defined.

(** The mediator refines the channel.  Whatever a step of the mediator does
    to the channels of the node, it does by operations of the channels: the
    same channels exist afterwards, each one is the result of channel steps on
    the one before, and so all of them stay reachable, with all the guarantees
    that [reachable_channel_sound] gives. *)
Theorem mediator_steps_channels net ts sc chans addrs prng nr hsh iteration chans' prng'
    (Henv : mediator_env net ts sc chans addrs) (Hr : store_reachable chans)
    (Hrun : mediator_state_transition net ts sc chans addrs prng nr hsh
            = Ok (iteration, chans', prng')) :
  store_reachable chans'
  /\ (forall ref, dict_get ref chans = None <-> dict_get ref chans' = None)
  /\ (forall ref c c', dict_get ref chans = Some c -> dict_get ref chans' = Some c' ->
        rtc channel_step c c').
Proof.
  pose proof (mediator_transition_evolves _ _ _ _ _ _ _ _ _ _ _ Henv Hrun) as He. split_and!.
  - by eapply store_evolves_reachable.
  - intros ref. specialize (He ref). split; intros Hn; rewrite Hn in He; by inversion He.
  - intros ref c c' Hc Hc'. destruct (store_rel_get _ _ _ _ _ He Hc') as (c1 & Hc1 & Hev).
    simplify_eq. by apply Hev, reachable_solvent, (Hr ref).
Qed.
End steps.
