(* ===== verification/MediatorProofs.v ===== *)
(** Safety of the mediator: it forwards no more than it receives, it unlocks the
    payee's lock only while the payer's lock can be claimed, and it registers the
    secret on-chain when the payer's lock is in danger. *)

From stdpp Require Import relations.
From S2P Require Import Prelude PyDict Bytes Crypto PyFloat MediationFee MediationFeeProofs.
From S2P Require Import State Events StateChanges Channel ChannelValidation ChannelOps.
From S2P Require Import ChannelTransition ChannelLocks ChannelInvariant ChannelSend.
From S2P Require Import ChannelReceive.
From S2P Require Import ChannelMachine ChannelSystem TransferTasks TaskSteps.
From S2P Require Import Mediator MediatorFees MediatorSteps.
From S2P Require Import Target TargetProofs.

#[local] Open Scope Z_scope.

Section mediator.
Context `{CryptoLaws}.
Implicit Types (chans : Channels) (st : MediatorTransferState) (p : MediationPairState).

(** ** Forwarding *)

(** C24: a mediator forwards no more than it receives.  With capped fees, the
    transfer to the payee has at most the amount of the payer's transfer, the
    same hash lock and the same expiration; it is sent only when the payee's
    channel leaves more than its reveal timeout, and at most its settle
    timeout, until the expiration. *)
Theorem forwarded_transfer_is_covered t payer_channel payee_channel prng nr p payee_channel' evs
    prng'
    (Hpayer : solvent_inv payer_channel) (Hpayee : solvent_inv payee_channel)
    (Hfees : schedule_wf (fee_schedule payer_channel) /\ schedule_wf (fee_schedule payee_channel))
    (Hcap : cap_fees (fee_schedule payer_channel) = true
            /\ cap_fees (fee_schedule payee_channel) = true)
    (Hrun : forward_transfer_pair t payer_channel payee_channel prng nr
            = Ok (Some (p, payee_channel', evs), prng')) :
  let sent := ltu_lock (mp_payee_transfer p) in
  let received := lts_lock t in
  mp_payer_transfer p = t
  /\ 0 < lock_amount sent <= lock_amount received
  /\ lock_expiration sent = lock_expiration received
  /\ lock_secrethash sent = lock_secrethash received
  /\ reveal_timeout payee_channel < lock_expiration sent - nr <= settle_timeout payee_channel
  /\ exists ev, evs = [ESendLockedTransfer ev] /\ slt_transfer ev = mp_payee_transfer p.
Proof.
  destruct (forward_transfer_pair_Some _ _ _ _ _ _ _ _ _ Hrun)
    as (amount & mid & rmd & ev & Ha & Hne & Hu & Hsend & -> & ->). cbn.
  destruct (send_lockedtransfer_transfer _ _ _ _ _ _ _ _ _ _ _ _ _ _ Hsend) as (Hl & _).
  rewrite Hl. cbn. split; [done|].
  destruct (amount_without_fees_bounds true (lock_amount (lts_lock t)) payer_channel payee_channel)
    as [E|[E|(a & E & Hb)]]; [done..|apply Hfees|apply Hfees|apply Hcap|apply Hcap| | |];
    rewrite Ha in E; simplify_eq.
  split; [lia|]. split; [done|]. split; [done|]. split; [|by eauto].
  unfold is_channel_usable_for_mediation, is_channel_usable_for_new_transfer in Hu.
  apply bool_decide_eq_true in Hu. repeat case_if; try discriminate Hu. bool_hyps. lia.
Qed.

(** ** Who is paid *)

(** An event that pays the payee. *)
Definition pays (e : Event) : bool := match e with ESendUnlock _ => true | _ => false end.

Definition pays_nothing (evs : list Event) : Prop := Forall (fun e => pays e = false) evs.

Lemma pays_nothing_app l1 l2 : pays_nothing (l1 ++ l2) <-> pays_nothing l1 /\ pays_nothing l2.
Proof. apply Forall_app. Qed.

Lemma mediate_routes_pays addrs payer_channel t nr rs chans prng r chans' prng' :
  mediate_routes addrs payer_channel t nr rs chans prng = Ok (Some r, chans', prng') ->
  pays_nothing r.2.
Proof.
  revert prng. induction rs as [|route rs IH]; intros prng Hok; cbn in Hok; [done|].
  destruct (next_hop_of route _) as [hop|]; [|by eapply IH].
  destruct (channel_by_address _ _ _ hop) as [[ref c]|]; [|by eapply IH].
  apply bind_Ok in Hok as ([attempt prng1] & Hrun & Hok).
  destruct attempt as [[[p c'] evs]|]; [|by eapply IH]. injection Hok as <- _ _.
  apply forward_transfer_pair_Some in Hrun as (? & ? & ? & ev & _ & _ & _ & _ & -> & _).
  by repeat constructor.
Qed.

Lemma mediate_transfer_pays st payer_channel addrs chans prng t nr st' evs chans' prng' :
  mediate_transfer st payer_channel addrs chans prng t nr = Ok (st', evs, chans', prng') ->
  pays_nothing evs.
Proof.
  unfold mediate_transfer. intros Hok. apply bind_Ok in Hok as (? & _ & Hok).
  apply bind_Ok in Hok as ([[mediated chans1] prng1] & Hrun & Hok).
  destruct mediated as [[p evs1]|]; injection Hok as <- <- <- <-; [|constructor].
  by apply mediate_routes_pays in Hrun.
Qed.

Lemma expire_payer_pays net chans nr p : pays_nothing (expire_payer net chans nr p).2.
Proof.
  unfold expire_payer. repeat case_match; cbn; by repeat constructor.
Qed.

Lemma events_for_expired_pairs_pays net chans pairs w nr r :
  events_for_expired_pairs net chans pairs w nr = r -> pays_nothing r.2.
Proof.
  unfold events_for_expired_pairs, expire_waiting. intros <-.
  assert (pays_nothing (List.concat (map snd (map (expire_payer net chans nr) pairs)))) as Hp.
  { induction pairs as [|p pairs IH]; cbn; [constructor|].
    apply pays_nothing_app. split; [apply expire_payer_pays|exact IH]. }
  destruct w as [w|]; [case_if|]; cbn; apply pays_nothing_app; split; try done;
    by repeat constructor.
Qed.

Lemma secretreveal_pays c secret expiration hsh :
  pays_nothing (secret_registry_events_for_onchain_secretreveal c secret expiration hsh).
Proof.
  unfold secret_registry_events_for_onchain_secretreveal. case_if; [|constructor].
  by repeat constructor.
Qed.

Lemma dangerzone_pays net chans sh pairs nr hsh r :
  events_for_onchain_secretreveal_if_dangerzone net chans sh pairs nr hsh = Ok r -> pays_nothing r.2.
Proof.
  unfold events_for_onchain_secretreveal_if_dangerzone. intros Hok.
  apply bind_Ok in Hok as ([[sent evs] pairs'] & Hrun & Hok). injection Hok as <-.
  apply (py_traverse_inv (fun s => pays_nothing s.2) (fun _ _ => True)) in Hrun as [Hs _];
    [done| |constructor].
  intros [sent1 evs1] p [sent2 evs2] p' _ Hp Hstep. split; [|done]. cbn in *.
  unfold reveal_in_dangerzone in Hstep. case_if; [|by simplify_eq].
  destruct (get_payer_channel net chans p) as [c|]; [|by simplify_eq].
  apply bind_Ok in Hstep as (safe & _ & Hstep). case_if; [|by simplify_eq].
  destruct sent1; [by simplify_eq|]. py_inv. simplify_eq. apply pays_nothing_app.
  split; [done|apply secretreveal_pays].
Qed.

Lemma closed_pays net chans pairs secret sh hsh r :
  events_for_onchain_secretreveal_if_closed net chans pairs secret sh hsh = Ok r ->
  pays_nothing r.2.
Proof.
  unfold events_for_onchain_secretreveal_if_closed. intros Hok.
  apply bind_Ok in Hok as ([[sent evs] pairs'] & Hrun & Hok). injection Hok as <-.
  apply (py_traverse_inv (fun s => pays_nothing s.2) (fun _ _ => True)) in Hrun as [Hs _];
    [done| |constructor].
  intros [sent1 evs1] p [sent2 evs2] p' _ Hp Hstep. split; [|done]. cbn in *.
  unfold reveal_if_closed in Hstep. case_if; [|by simplify_eq].
  destruct (get_payer_channel net chans p) as [c|]; [|by simplify_eq].
  case_if; [|by simplify_eq]. destruct sent1; [by simplify_eq|].
  destruct (get_lock _ sh); simplify_eq; [|done]. apply pays_nothing_app.
  split; [done|apply secretreveal_pays].
Qed.

Lemma remove_expired_pays net st chans nr prng st' evs chans' prng' :
  events_to_remove_expired_locks net st chans nr prng = Ok (st', evs, chans', prng') ->
  pays_nothing evs.
Proof.
  unfold events_to_remove_expired_locks. intros Hok.
  destruct (mt_transfers_pair st) as [|first rest]; [injection Hok as _ <- _ _; constructor|].
  apply bind_Ok in Hok as ([[[chans1 prng1] evs1] pairs1] & Hrun & Hok). injection Hok as <- <- <- <-.
  apply (py_traverse_inv (fun s => pays_nothing s.2) (fun _ _ => True)) in Hrun as [Hs _];
    [done| |constructor].
  intros [[chans2 prng2] evs2] p [[chans3 prng3] evs3] p' _ Hp Hstep. split; [|done]. cbn in *.
  unfold remove_expired_lock in Hstep.
  destruct (get_payee_channel net chans2 p) as [c|]; [|by simplify_eq].
  apply bind_Ok in Hstep as ([l|] & _ & Hstep); [|by simplify_eq]. case_if; [|by simplify_eq].
  apply bind_Ok in Hstep as ([[c' evs4] prng4] & _ & Hstep). injection Hstep as <- <- <- <-.
  rewrite !pays_nothing_app. split_and!; [done| |by repeat constructor].
  apply Forall_forall. by intros e (x & -> & _)%list_elem_of_fmap.
Qed.

Lemma mediator_handle_block_pays net st a chans addrs prng it chans' prng' :
  mediator_handle_block net st a chans addrs prng = Ok (it, chans', prng') ->
  pays_nothing (events it).
Proof.
  unfold mediator_handle_block. intros Hok.
  apply bind_Ok in Hok as ([[[st1 evs1] chans1] prng1] & Hretry & Hok).
  apply bind_Ok in Hok as ([[[st2 evs2] chans2] prng2] & Hexp & Hok).
  apply bind_Ok in Hok as ([pairs3 evs3] & Hdz & Hok).
  destruct (events_for_expired_pairs _ _ _ _ _) as [[pairs4 w] evs4] eqn:E4. injection Hok as <- _ _.
  cbn. rewrite !pays_nothing_app. split_and!.
  - unfold retry_waiting in Hretry. repeat case_match; try (injection Hretry as _ <- _ _; constructor).
    apply bind_Ok in Hretry as ([[[st5 evs5] chans5] prng5] & Hmed & Hretry).
    injection Hretry as _ <- _ _. by eapply mediate_transfer_pays.
  - by apply events_for_expired_pairs_pays in E4.
  - by apply dangerzone_pays in Hdz.
  - by eapply remove_expired_pays.
Qed.

Lemma receive_expired_pays c a nr md r :
  handle_receive_lock_expired c a nr md = Ok r -> pays_nothing (events r).
Proof.
  unfold handle_receive_lock_expired. intros Hok. apply bind_Ok in Hok as ([[ok m] pl] & _ & Hok).
  destruct ok; py_inv; subst r; by repeat constructor.
Qed.

Lemma mediator_handle_lock_expired_pays net st a chans prng nr it chans' prng' :
  mediator_handle_lock_expired net st a chans prng nr = Ok (it, chans', prng') ->
  pays_nothing (events it).
Proof.
  unfold mediator_handle_lock_expired. intros Hok.
  apply bind_Ok in Hok as ([[[chans1 evs1] pairs1] missing] & Hrun & Hok).
  assert (forall pairs chans evs r, pays_nothing evs ->
    expire_from_payer net st a nr chans evs pairs = Ok r -> pays_nothing r.1.1.2) as Hloop.
  { intros pairs. induction pairs as [|p pairs IH]; intros chans2 evs2 r Hp Hr; cbn in Hr.
    { by injection Hr as <-. }
    destruct (get_payer_channel net chans2 p) as [c|]; [|by injection Hr as <-].
    apply bind_Ok in Hr as (res & Hres & Hr).
    apply bind_Ok in Hr as ([[[chans3 evs3] rest] miss] & Hrest & Hr). injection Hr as <-. cbn.
    apply IH in Hrest; [done|]. apply pays_nothing_app. split; [done|].
    by eapply receive_expired_pays. }
  apply Hloop in Hrun; [|constructor]. cbn in Hrun.
  destruct missing; [injection Hok as <- _ _; constructor|].
  destruct (mt_waiting_transfer st) as [w|]; [|by injection Hok as <- _ _].
  destruct (channel_by_id net chans1 (wt_channel_id w)) as [c|]; [|by injection Hok as <- _ _].
  apply bind_Ok in Hok as (res & Hres & Hok). injection Hok as <- _ _.
  apply pays_nothing_app. split; [done|by eapply receive_expired_pays].
Qed.

Lemma mediator_handle_unlock_pays net st a chans prng it chans' prng' :
  mediator_handle_unlock net st a chans prng = Ok (it, chans', prng') -> pays_nothing (events it).
Proof.
  unfold mediator_handle_unlock. intros Hok.
  apply bind_Ok in Hok as ([[chans1 evs1] pairs1] & Hrun & Hok). injection Hok as <- _ _.
  apply (py_traverse_inv (fun s => pays_nothing s.2) (fun _ _ => True)) in Hrun as [Hs _];
    [done| |constructor].
  intros [chans2 evs2] p [chans3 evs3] p' _ Hp Hstep. split; [|done]. cbn in *.
  unfold unlock_from_payer in Hstep. case_if; [|by simplify_eq].
  destruct (channel_by_id net chans2 _) as [c|]; [|by simplify_eq].
  apply bind_Ok in Hstep as ([c' [[ok evs4] m]] & Hun & Hstep).
  assert (pays_nothing evs4) as H4.
  { unfold handle_unlock in Hun. apply bind_Ok in Hun as ([[ok1 m1] pl] & _ & Hun).
    destruct ok1; py_inv; simplify_eq; by repeat constructor. }
  destruct ok; injection Hstep as _ <- _; rewrite !pays_nothing_app; [|done].
  split_and!; try done. by repeat constructor.
Qed.

Lemma handle_init_pays net a chans addrs prng nr it chans' prng' :
  handle_init net a chans addrs prng nr = Ok (it, chans', prng') -> pays_nothing (events it).
Proof.
  unfold handle_init. intros Hok.
  destruct (channel_by_id net chans _) as [c|]; [|injection Hok as <- _ _; constructor].
  apply bind_Ok in Hok as ([c' [[ok evs] m]] & Hrun & Hok).
  assert (pays_nothing evs) as He.
  { unfold handle_receive_lockedtransfer in Hrun. apply bind_Ok in Hrun as ([[ok1 m1] pl] & _ & Hrun).
    destruct ok1; py_inv; simplify_eq; by repeat constructor. }
  destruct ok; [|by injection Hok as <- _ _].
  apply bind_Ok in Hok as ([[[st1 evs1] chans1] prng1] & Hmed & Hok). injection Hok as <- _ _.
  apply pays_nothing_app. split; [done|]. by eapply mediate_transfer_pays.
Qed.

Lemma mediator_handle_refundtransfer_pays net st a chans addrs prng nr it chans' prng' :
  mediator_handle_refundtransfer net st a chans addrs prng nr = Ok (it, chans', prng') ->
  pays_nothing (events it).
Proof.
  unfold mediator_handle_refundtransfer. intros Hok.
  destruct (mt_secret st); [injection Hok as <- _ _; constructor|].
  apply bind_Ok in Hok as (p & _ & Hok).
  destruct (channel_by_id net chans _) as [c|]; [|injection Hok as <- _ _; constructor].
  apply bind_Ok in Hok as ([c' [[ok evs] m]] & Hrun & Hok).
  assert (pays_nothing evs) as He.
  { unfold handle_refundtransfer in Hrun. apply bind_Ok in Hrun as ([[ok1 m1] pl] & _ & Hrun).
    destruct ok1; py_inv; simplify_eq; by repeat constructor. }
  destruct ok; [|by injection Hok as <- _ _].
  apply bind_Ok in Hok as ([[[st1 evs1] chans1] prng1] & Hmed & Hok). injection Hok as <- _ _.
  apply pays_nothing_app. split; [done|]. by eapply mediate_transfer_pays.
Qed.

(** ** Learning the secret *)

(** What learning the secret of [sh] does to a channel, seen from the payer's
    lock: the lock stays and a known secret stays known. *)
Definition learns (sh : bytes) (c c' : NettingChannelState) : Prop :=
  solvent_inv c ->
  solvent_inv c' /\ reveal_timeout c' = reveal_timeout c
  /\ get_lock (partner_state c') sh = get_lock (partner_state c) sh
  /\ (is_secret_known (partner_state c) sh = true -> is_secret_known (partner_state c') sh = true).

#[local] Instance learns_preorder sh : PreOrder (learns sh).
Proof.
  split; [by intros c Hc|]. intros c1 c2 c3 H12 H23 Hc.
  destruct (H12 Hc) as (Hc2 & A1 & A2 & A3). destruct (H23 Hc2) as (Hc3 & B1 & B2 & B3).
  split_and!; [done|congruence|congruence|auto].
Qed.

Lemma known_or_locked e sh l :
  get_lock e sh = Some l -> is_secret_known e sh = true \/ dict_get sh (secrethashes_to_lockedlocks e) = Some l.
Proof.
  unfold get_lock, is_secret_known, dict_mem. intros Hg.
  destruct (dict_get sh (secrethashes_to_lockedlocks e)); [by right; simplify_eq|].
  destruct (dict_get sh (secrethashes_to_unlockedlocks e)); [by left|].
  destruct (dict_get sh (secrethashes_to_onchain_unlockedlocks e)); [by left|done].
Qed.

Lemma register_offchain_known e secret sh l :
  get_lock e sh = Some l -> is_secret_known (register_secret_endstate e secret sh) sh = true.
Proof.
  intros [Hk|Hl]%known_or_locked; unfold register_secret_endstate.
  - destruct (dict_get sh (secrethashes_to_lockedlocks e)); [|done].
    unfold is_secret_known, dict_mem. cbn. by rewrite dict_get_set_eq.
  - rewrite Hl. unfold is_secret_known, dict_mem. cbn. by rewrite dict_get_set_eq.
Qed.

Lemma register_onchain_known e secret sh block e' l :
  register_onchain_secret_endstate e secret sh block true = Ok e' ->
  get_lock e sh = Some l ->
  is_secret_known e sh = true \/ block <= lock_expiration l ->
  is_secret_known e' sh = true.
Proof.
  unfold register_onchain_secret_endstate. intros Hok Hg Hb.
  destruct (match dict_get sh (secrethashes_to_unlockedlocks e) with Some p => _ | None => _ end)
    as [lock|] eqn:El.
  - case_if; bool_hyps.
    + injection Hok as <-. destruct Hb as [Hk|Hle]; [done|].
      unfold is_secret_known, dict_mem. unfold get_lock in Hg.
      destruct (dict_get sh (secrethashes_to_unlockedlocks e)) as [p|]; [done|]. exfalso.
      rewrite El in Hg. simplify_eq. lia.
    + py_inv. subst. unfold is_secret_known, dict_mem. cbn. rewrite dict_get_set_eq. apply orb_true_r.
  - injection Hok as <-. destruct Hb as [Hk|Hle]; [done|].
    destruct (known_or_locked _ _ _ Hg) as [Hk|Hl]; [done|].
    destruct (dict_get sh (secrethashes_to_unlockedlocks e)); congruence.
Qed.

Lemma get_lock_perm e e' sh :
  locks_inv e -> lock_index e' ≡ₚ lock_index e -> get_lock e' sh = get_lock e sh.
Proof.
  intros Hl Hp. rewrite !get_lock_index. symmetry. apply dict_get_perm; [|by symmetry].
  apply (index_wf _ _ Hl).
Qed.

Lemma register_offchain_learns secret sh c c' :
  Ok (register_offchain_secret c secret sh) = Ok c' ->
  learns sh c c'
  /\ (forall l, solvent_inv c -> get_lock (partner_state c) sh = Some l ->
        is_secret_known (partner_state c') sh = true).
Proof.
  intros [= <-]. split.
  - intros Hc. split; [by apply register_offchain_secret_inv|]. split; [done|]. split.
    + by apply register_offchain_get_lock.
    + cbn. intros Hk. destruct (get_lock (partner_state c) sh) as [l|] eqn:Hg.
      * by eapply register_offchain_known.
      * unfold get_lock in Hg. unfold register_secret_endstate.
        destruct (dict_get sh (secrethashes_to_lockedlocks (partner_state c))); done.
  - intros l _ Hg. cbn. by eapply register_offchain_known.
Qed.

Lemma register_onchain_learns secret sh block c c' :
  register_onchain_secret c secret sh block true = Ok c' ->
  learns sh c c'
  /\ (forall l, solvent_inv c -> get_lock (partner_state c) sh = Some l ->
        block <= lock_expiration l -> is_secret_known (partner_state c') sh = true).
Proof.
  intros Hrun. pose proof Hrun as Hok. unfold register_onchain_secret in Hok.
  apply bind_Ok in Hok as (e1 & _ & Hok). apply bind_Ok in Hok as (e2 & Hp & Hok). injection Hok as <-.
  split.
  - intros Hc. destruct (register_onchain_secret_inv true c secret sh block Hc) as (c2 & Hrun2 & Hc2).
    rewrite Hrun in Hrun2. injection Hrun2 as <-. split; [done|]. split; [done|]. cbn.
    destruct (register_onchain_secret_endstate_index (partner_state c) secret sh block)
      as (e2' & Hp' & Hperm & _); [apply Hc|]. rewrite Hp in Hp'. injection Hp' as <-.
    split; [apply get_lock_perm; [apply Hc|done]|]. intros Hk.
    destruct (get_lock (partner_state c) sh) as [l|] eqn:Hg; [by eauto using register_onchain_known|].
    exfalso. unfold get_lock, is_secret_known, dict_mem in *. by repeat case_match.
  - intros l _ Hg Hb. cbn. by eauto using register_onchain_known.
Qed.

(** A change of one channel by a registration that [learns]. *)
Lemma update_channel_rel R net id f chans chans' :
  PreOrder R -> (forall c c', f c = Ok c' -> R c c') ->
  update_channel net id f chans = Ok chans' ->
  store_rel R chans chans'
  /\ (forall c, channel_by_id net chans id = Some c ->
        exists c', f c = Ok c' /\ channel_by_id net chans' id = Some c').
Proof.
  unfold update_channel, channel_by_id. intros HR Hf Hok.
  destruct (dict_get (net, id) chans) as [c|] eqn:Hc; [|injection Hok as <-; by split].
  apply bind_Ok in Hok as (c' & Hrun & Hok). injection Hok as <-. split.
  - by eapply store_channel_rel; [| |apply Hf].
  - intros ? [= <-]. exists c'. split; [done|]. unfold store_channel. by rewrite dict_get_set_eq.
Qed.

(** After the registration the secret of the payer's lock is known, for every
    pair whose lock satisfies what the registration asks for. *)
Lemma set_secret_with_learns sh (ok : HashTimeLockState -> Prop) f net st chans secret sh' st' chans'
    evs :
  (forall c c', f c = Ok c' -> learns sh c c'
     /\ forall l, solvent_inv c -> get_lock (partner_state c) sh = Some l -> ok l ->
          is_secret_known (partner_state c') sh = true) ->
  set_secret_with f net st chans secret sh' = Ok (st', chans', evs) ->
  st' = set_mt_secret (Some secret) st /\ store_rel (learns sh) chans chans'
  /\ forall p c l, p ∈ mt_transfers_pair st -> get_payer_channel net chans p = Some c ->
       solvent_inv c -> get_lock (partner_state c) sh = Some l -> ok l ->
       exists c', get_payer_channel net chans' p = Some c'
                  /\ is_secret_known (partner_state c') sh = true.
Proof.
  unfold set_secret_with, get_payer_channel. intros Hf Hok. apply bind_Ok in Hok as (chans1 & Hrun & Hok).
  assert (forall c c', f c = Ok c' -> learns sh c c') as Hl by (intros c c' E; by apply Hf).
  assert (store_rel (learns sh) chans chans1 /\ forall p c l, p ∈ mt_transfers_pair st ->
    channel_by_id net chans (mp_payer_channel_id p) = Some c -> solvent_inv c ->
    get_lock (partner_state c) sh = Some l -> ok l ->
    exists c', channel_by_id net chans1 (mp_payer_channel_id p) = Some c'
      /\ is_secret_known (partner_state c') sh = true) as [Hrel Hk].
  { clear Hok. revert chans Hrun. induction (mt_transfers_pair st) as [|q pairs IH]; intros chans Hrun;
      cbn in Hrun.
    { injection Hrun as <-. split; [done|]. by intros p c l Hp%elem_of_nil. }
    apply bind_Ok in Hrun as (s2 & Hrun & Hrest). apply bind_Ok in Hrun as (s1 & Ha & Hb).
    apply (update_channel_rel (learns sh)) in Ha as [Ra Ga]; [|apply _|done].
    apply (update_channel_rel (learns sh)) in Hb as [Rb _]; [|apply _|done].
    apply IH in Hrest as [Rr Gr]. split; [by etransitivity; [|etransitivity]|].
    intros p c l [->|Hp]%elem_of_cons Hc Hs Hg Hok.
    - destruct (Ga c Hc) as (c1 & E1 & Hc1).
      assert (store_rel (learns sh) s1 chans1) as R1 by (by etransitivity).
      destruct (store_rel_get_fwd _ _ _ _ _ R1 Hc1) as (c' & Hc' & Hlc). exists c'. split; [done|].
      destruct (Hf _ _ E1) as [Hl1 Hk1]. apply Hlc; [by apply Hl1|]. by eapply Hk1.
    - assert (store_rel (learns sh) chans s2) as R2 by (by etransitivity).
      destruct (store_rel_get_fwd _ _ _ _ _ R2 Hc) as (c2 & Hc2 & Hlc).
      destruct (Hlc Hs) as (Hs2 & _ & Hg2 & _). eapply Gr; [done|exact Hc2|done| |exact Hok].
      by rewrite Hg2. }
  destruct (mt_waiting_transfer st) as [w|]; [|injection Hok as <- <- <-; done].
  apply bind_Ok in Hok as (chans2 & Hw & Hok). injection Hok as <- <- <-.
  apply (update_channel_rel (learns sh)) in Hw as [Rw _]; [|apply _|done]. split; [done|].
  split; [by etransitivity|]. intros p c l Hp Hc Hs Hg Hokl.
  destruct (Hk p c l Hp Hc Hs Hg Hokl) as (c1 & Hc1 & Hk1).
  destruct (store_rel_get_fwd _ _ _ _ _ Hrel Hc) as (c1' & Hc1' & Hlc).
  destruct (store_rel_get_fwd _ _ _ _ _ Rw Hc1) as (c2 & Hc2 & Hl2). exists c2. split; [done|].
  pose proof (eq_trans (eq_sym Hc1) Hc1') as [= <-]. apply Hl2; [by apply Hlc|done].
Qed.

(** ** Paying the payee *)

(** A message of ours leaves the partner's end alone. *)
Definition same_partner (c c' : NettingChannelState) : Prop :=
  partner_state c' = partner_state c /\ reveal_timeout c' = reveal_timeout c.

#[local] Instance same_partner_preorder : PreOrder same_partner.
Proof.
  split; [by intros c|]. intros c1 c2 c3 [A1 A2] [B1 B2]. split; congruence.
Qed.

Lemma send_unlock_shape c mid pid secret sh nr rmd c' u :
  send_unlock c mid pid secret sh nr rmd = Ok (c', u) ->
  same_partner c c' /\ su_payment_identifier u = pid /\ su_secret u = secret.
Proof.
  unfold send_unlock, create_unlock. intros Hok. py_inv. subst. py_inv. subst. by cbn.
Qed.

Lemma is_safe_to_wait_true expiration timeout nr safe :
  is_safe_to_wait expiration timeout nr = Ok safe -> so_ok safe = true ->
  0 < timeout /\ timeout < expiration - nr.
Proof.
  unfold is_safe_to_wait. intros Hok Hs. py_inv. subst. bool_hyps. case_if; [|done]. bool_hyps. lia.
Qed.

(** What justifies an unlock: it is for a pair whose payer's channel leaves
    more than its reveal timeout. *)
Definition unlock_justified (net : bytes) (nr : Z) (pairs : list MediationPairState) chans
    (u : SendUnlock) : Prop :=
  exists p c, p ∈ pairs /\ get_payer_channel net chans p = Some c
    /\ su_payment_identifier u = ltu_payment_identifier (mp_payee_transfer p)
    /\ 0 < reveal_timeout c
    /\ reveal_timeout c < lock_expiration (lts_lock (mp_payer_transfer p)) - nr.

Lemma unlock_payee_justified net nr secret sh chans prng evs p s' p' :
  unlock_payee net nr secret sh (chans, prng, evs) p = Ok (s', p') ->
  store_rel same_partner chans s'.1.1
  /\ forall u, ESendUnlock u ∈ s'.2 -> ESendUnlock u ∈ evs \/ unlock_justified net nr [p] chans u.
Proof.
  unfold unlock_payee. intros Hok. apply bind_Ok in Hok as (safe & Hsafe & Hok).
  destruct (get_payee_channel net chans p) as [c|] eqn:Hc; [|injection Hok as <- <-; by split; [|left]].
  case_if; [|injection Hok as <- <-; by split; [|left]]. bool_hyps.
  destruct (message_identifier_from_prng prng) as [mid prng'].
  apply bind_Ok in Hok as ([c' u] & Hrun & Hok). injection Hok as <- <-. cbn.
  apply send_unlock_shape in Hrun as (Hsp & Hid & _). split.
  - eapply store_channel_rel; [apply _|exact Hc|done].
  - intros v [Hv|Hv]%elem_of_app; [by left|]. right.
    apply elem_of_cons in Hv as [[= ->]|Hv]; [|by apply list_elem_of_singleton in Hv].
    destruct (get_payer_channel net chans p) as [payer|] eqn:Hp; [|by simplify_eq].
    apply bind_Ok in Hsafe as (sf & Hsf & [= <-]). exists p, payer.
    split; [by apply list_elem_of_singleton|]. split; [done|]. split; [done|].
    by eapply is_safe_to_wait_true.
Qed.

(** Pairs with the same two transfers. *)
Definition same_transfers p p' : Prop :=
  mp_payer_transfer p' = mp_payer_transfer p /\ mp_payee_transfer p' = mp_payee_transfer p.

#[local] Instance same_transfers_preorder : PreOrder same_transfers.
Proof.
  split; [by intros p|]. intros p1 p2 p3 [A1 A2] [B1 B2]. split; congruence.
Qed.

Lemma unlock_justified_pairs net nr pairs pairs' chans u :
  Forall2 same_transfers pairs pairs' ->
  unlock_justified net nr pairs' chans u -> unlock_justified net nr pairs chans u.
Proof.
  intros Hf (p' & c & Hp & Hc & Hrest). apply list_elem_of_lookup in Hp as [i Hi].
  destruct (Forall2_lookup_r _ _ _ _ _ Hf Hi) as (p & Hpi & [E1 E2]). exists p, c.
  unfold get_payer_channel, mp_payer_channel_id in *. rewrite E1, E2 in *.
  split; [by eapply list_elem_of_lookup_2|done].
Qed.

Lemma unlock_justified_back net nr pairs chans chans' u :
  store_rel same_partner chans chans' ->
  unlock_justified net nr pairs chans' u -> unlock_justified net nr pairs chans u.
Proof.
  intros Hs (p & c' & Hp & Hc' & Hrest).
  destruct (store_rel_get _ _ _ _ _ Hs Hc') as (c & Hc & [_ Ht]). exists p, c.
  rewrite <- Ht. done.
Qed.

Lemma events_for_balanceproof_justified net chans pairs prng nr secret sh pairs' evs chans' prng' :
  events_for_balanceproof net chans pairs prng nr secret sh = Ok (pairs', evs, chans', prng') ->
  store_rel same_partner chans chans'
  /\ forall u, ESendUnlock u ∈ evs -> unlock_justified net nr pairs chans u.
Proof.
  unfold events_for_balanceproof. intros Hok.
  apply bind_Ok in Hok as ([[[chans1 prng1] evs1] pairs1] & Hrun & Hok). injection Hok as <- <- <- <-.
  apply (py_traverse_reversed_inv
           (fun s => store_rel same_partner chans s.1.1
                     /\ forall u, ESendUnlock u ∈ s.2 -> unlock_justified net nr pairs chans u)
           (fun _ _ => True)) in Hrun as [Hs _]; [done| |].
  - intros [[chans2 prng2] evs2] p [[chans3 prng3] evs3] p' Hp [Hs Hj] Hstep. split; [|done].
    apply unlock_payee_justified in Hstep as [Hs3 Hj3]. split; [by etransitivity|].
    intros u [Hu|Hu]%Hj3; [by apply Hj|].
    destruct (unlock_justified_back _ _ _ _ _ _ Hs Hu) as (q & c & ->%list_elem_of_singleton & Hq).
    by exists p, c.
  - split; [done|]. intros u Hu. by apply elem_of_nil in Hu.
Qed.

Lemma set_offchain_reveal_transfers pairs a :
  Forall2 same_transfers pairs (set_offchain_reveal_state pairs a).
Proof.
  unfold set_offchain_reveal_state. induction pairs as [|p pairs IH]; cbn; constructor; [|done].
  by case_if.
Qed.

Lemma closed_transfers net chans pairs secret sh hsh r :
  events_for_onchain_secretreveal_if_closed net chans pairs secret sh hsh = Ok r ->
  Forall2 same_transfers pairs r.1.
Proof.
  unfold events_for_onchain_secretreveal_if_closed. intros Hok.
  apply bind_Ok in Hok as ([[sent evs] pairs'] & Hrun & Hok). injection Hok as <-.
  apply (py_traverse_inv (fun _ => True) same_transfers) in Hrun as [_ Hs]; [done| |done].
  intros [sent1 evs1] p s' p' _ _ Hstep. split; [done|]. unfold reveal_if_closed in Hstep.
  repeat case_match; by simplify_eq.
Qed.

Lemma events_for_secretreveal_transfers pairs secret prng pairs' evs prng' :
  events_for_secretreveal pairs secret prng = Ok (pairs', evs, prng') ->
  Forall2 same_transfers pairs pairs' /\ pays_nothing evs.
Proof.
  unfold events_for_secretreveal. intros Hok.
  apply bind_Ok in Hok as ([[prng1 evs1] pairs1] & Hrun & Hok). injection Hok as <- <- <-.
  apply (py_traverse_reversed_inv (fun s => pays_nothing s.2) same_transfers) in Hrun as [Hp Hs];
    [done| |constructor].
  intros [prng2 evs2] p [prng3 evs3] p' _ Hp Hstep. unfold reveal_to_payer in Hstep. cbn in *.
  case_if; [|by simplify_eq]. destruct (message_identifier_from_prng prng2).
  injection Hstep as <- <- <-. split; [|done]. apply pays_nothing_app. split; [done|].
  by repeat constructor.
Qed.

Lemma pays_nothing_unlock evs u : pays_nothing evs -> ESendUnlock u ∈ evs -> False.
Proof.
  intros Hp Hu. unfold pays_nothing in Hp. rewrite Forall_forall in Hp. by specialize (Hp _ Hu).
Qed.

(** The unlock [u] is for a pair whose payer's lock can be claimed after a step
    from [chans] to [chans']. *)
Definition claimable (net : bytes) (nr : Z) (sh : bytes) (pairs : list MediationPairState)
    chans chans' (u : SendUnlock) : Prop :=
  exists p payer payer',
    p ∈ pairs
    /\ su_payment_identifier u = ltu_payment_identifier (mp_payee_transfer p)
    /\ get_payer_channel net chans p = Some payer /\ get_payer_channel net chans' p = Some payer'
    /\ reveal_timeout payer < lock_expiration (lts_lock (mp_payer_transfer p)) - nr
    /\ (get_lock (partner_state payer) sh = Some (lts_lock (mp_payer_transfer p)) ->
        get_lock (partner_state payer') sh = Some (lts_lock (mp_payer_transfer p))
        /\ is_secret_known (partner_state payer') sh = true).

(** The unlocks that follow a registration of the secret. *)
Lemma paid_after_learning net nr sh st chans chans1 chans2 (ok : HashTimeLockState -> Prop) u :
  store_solvent chans ->
  (forall l timeout, 0 < timeout -> timeout < lock_expiration l - nr -> ok l) ->
  store_rel (learns sh) chans chans1 ->
  (forall p c l, p ∈ mt_transfers_pair st -> get_payer_channel net chans p = Some c ->
     solvent_inv c -> get_lock (partner_state c) sh = Some l -> ok l ->
     exists c', get_payer_channel net chans1 p = Some c'
                /\ is_secret_known (partner_state c') sh = true) ->
  store_rel same_partner chans1 chans2 ->
  unlock_justified net nr (mt_transfers_pair st) chans1 u ->
  claimable net nr sh (mt_transfers_pair st) chans chans2 u.
Proof.
  intros Hreach Hok Hl Hk Hs (p & c1 & Hp & Hc1 & Hid & Ht0 & Ht).
  destruct (store_rel_get _ _ _ _ _ Hl Hc1) as (c & Hc & Hlc).
  destruct (store_rel_get_fwd _ _ _ _ _ Hs Hc1) as (c2 & Hc2 & [Hp2 _]).
  pose proof (Hreach _ _ Hc) as Hinv. destruct (Hlc Hinv) as (_ & Hrt & Hg & _).
  exists p, c, c2. split_and!; [done|done|exact Hc|exact Hc2|by rewrite <- Hrt|].
  intros Hlock. rewrite Hp2, Hg. split; [done|].
  destruct (Hk p c _ Hp Hc Hinv Hlock) as (c1' & Hc1' & Hk1); [by eapply Hok|].
  rewrite Hc1 in Hc1'. by injection Hc1' as <-.
Qed.

Lemma set_secret_with_events f net st chans secret sh st' chans' evs :
  set_secret_with f net st chans secret sh = Ok (st', chans', evs) -> pays_nothing evs.
Proof.
  unfold set_secret_with. intros Hok. apply bind_Ok in Hok as (chans1 & _ & Hok).
  destruct (mt_waiting_transfer st); [|injection Hok as _ _ <-; constructor].
  apply bind_Ok in Hok as (chans2 & _ & Hok). injection Hok as _ _ <-. by repeat constructor.
Qed.

Lemma secret_learned_unlock net st chans prng nr hsh secret sh a it chans' prng' u :
  store_solvent chans ->
  secret_learned net st chans prng nr hsh secret sh a = Ok (it, chans', prng') ->
  ESendUnlock u ∈ events it ->
  claimable net nr sh (mt_transfers_pair st) chans chans' u.
Proof.
  unfold secret_learned. intros Hr Hok Hu.
  apply bind_Ok in Hok as ([[st1 chans1] evs1] & Hset & Hok).
  apply bind_Ok in Hok as ([pairs2 evs2] & Hclosed & Hok).
  apply bind_Ok in Hok as ([[pairs3 evs3] prng3] & Hreveal & Hok).
  apply bind_Ok in Hok as ([[[pairs4 evs4] chans4] prng4] & Hbal & Hok). injection Hok as <- <- <-.
  pose proof (set_secret_with_events _ _ _ _ _ _ _ _ _ Hset) as Hp1.
  apply (set_secret_with_learns sh (fun _ => True)) in Hset as (-> & Hl & Hk).
  2: { intros c c' Hf. destruct (register_offchain_learns _ _ _ _ Hf) as [A B]. split; [done|].
       intros l Hs Hg _. by eapply B. }
  pose proof (closed_pays _ _ _ _ _ _ _ Hclosed) as Hp2. cbn in Hp2.
  apply closed_transfers in Hclosed. apply events_for_secretreveal_transfers in Hreveal as [Hreveal Hp3].
  apply events_for_balanceproof_justified in Hbal as [Hs Hj].
  eapply (paid_after_learning _ _ _ _ _ _ _ (fun _ => True)); [done|done|exact Hl|exact Hk|exact Hs|].
  eapply (unlock_justified_pairs _ _ _ _ _ _ (set_offchain_reveal_transfers _ a)).
  eapply (unlock_justified_pairs _ _ _ _ _ _ Hclosed), (unlock_justified_pairs _ _ _ _ _ _ Hreveal).
  apply Hj. cbn in Hu. rewrite !elem_of_app in Hu.
  destruct Hu as [Hu|[Hu|[Hu|Hu]]]; [| |exact Hu|]; exfalso; (eapply pays_nothing_unlock; [|exact Hu]; done).
Qed.

Lemma mediator_offchain_unlock net st a chans prng nr hsh it chans' prng' u :
  store_solvent chans ->
  mediator_handle_offchain_secretreveal net st a chans prng nr hsh = Ok (it, chans', prng') ->
  ESendUnlock u ∈ events it ->
  claimable net nr (mt_secrethash st) (mt_transfers_pair st) chans chans' u.
Proof.
  unfold mediator_handle_offchain_secretreveal. intros Hr Hok Hu.
  destruct (last (mt_transfers_pair st)) as [q|];
    [|injection Hok as <- <- <-; by apply elem_of_nil in Hu].
  destruct (channel_by_id net chans _) as [c|]; [|injection Hok as <- <- <-; by apply elem_of_nil in Hu].
  case_if; [|injection Hok as <- <- <-; by apply elem_of_nil in Hu]. bool_hyps.
  match goal with Hv : is_valid_secret_reveal _ _ = true |- _ =>
    apply bool_decide_eq_true in Hv; rewrite <- Hv end.
  by eapply secret_learned_unlock.
Qed.

Lemma mediator_onchain_unlock net st a chans prng it chans' prng' u :
  store_solvent chans ->
  mediator_handle_onchain_secretreveal net st a chans prng = Ok (it, chans', prng') ->
  ESendUnlock u ∈ events it ->
  claimable net (crsr_block_number a) (mt_secrethash st) (mt_transfers_pair st) chans chans' u.
Proof.
  unfold mediator_handle_onchain_secretreveal. intros Hr Hok Hu.
  destruct (is_valid_secret_reveal _ _) eqn:Hv; [|injection Hok as <- <- <-; by apply elem_of_nil in Hu].
  apply bool_decide_eq_true in Hv. rewrite <- Hv.
  apply bind_Ok in Hok as ([[st1 chans1] evs1] & Hset & Hok).
  apply bind_Ok in Hok as ([[[pairs2 evs2] chans2] prng2] & Hbal & Hok). injection Hok as <- <- <-.
  pose proof (set_secret_with_events _ _ _ _ _ _ _ _ _ Hset) as Hp1.
  apply (set_secret_with_learns (crsr_secrethash a)
           (fun l => crsr_block_number a <= lock_expiration l)) in Hset as (-> & Hl & Hk).
  2: { intros c c' Hf. by apply register_onchain_learns in Hf. }
  apply events_for_balanceproof_justified in Hbal as [Hs Hj].
  eapply paid_after_learning; [done| |exact Hl|exact Hk|exact Hs|]; [cbn; lia|].
  apply Hj. cbn in Hu. apply elem_of_app in Hu as [Hu|Hu]; [|done].
  exfalso. by eapply pays_nothing_unlock.
Qed.

(** The block at which a handler decides. *)
Definition decision_block (sc : StateChange) (nr : Z) : Z :=
  match sc with SContractReceiveSecretReveal a => crsr_block_number a | _ => nr end.

(** C25: a mediator pays only what it can still claim.  When a step of a
    mediator sends an unlock to a payee, the unlock belongs to a pair of the
    task whose payer's lock leaves more than the reveal timeout of the payer's
    channel, and if the payer's lock is pending in that channel then it stays
    pending and its secret is known to the channel after the step: the mediator
    can claim the payer's lock, off-chain or on-chain. *)
Theorem mediator_unlocks_when_safe net st sc chans addrs prng nr hsh iteration chans' prng' u
    (Hr : store_solvent chans)
    (Hrun : mediator_state_transition net (Some st) sc chans addrs prng nr hsh
            = Ok (iteration, chans', prng'))
    (Hu : ESendUnlock u ∈ events iteration) :
  exists p payer payer',
    p ∈ mt_transfers_pair st
    /\ su_payment_identifier u = ltu_payment_identifier (mp_payee_transfer p)
    /\ get_payer_channel net chans p = Some payer /\ get_payer_channel net chans' p = Some payer'
    /\ reveal_timeout payer
       < lock_expiration (lts_lock (mp_payer_transfer p)) - decision_block sc nr
    /\ (get_lock (partner_state payer) (mt_secrethash st) = Some (lts_lock (mp_payer_transfer p)) ->
        get_lock (partner_state payer') (mt_secrethash st) = Some (lts_lock (mp_payer_transfer p))
        /\ is_secret_known (partner_state payer') (mt_secrethash st) = true).
Proof.
  unfold mediator_state_transition in Hrun.
  apply bind_Ok in Hrun as ([[it chans1] prng1] & Hd & Hrun).
  apply bind_Ok in Hrun as (? & _ & Hrun). injection Hrun as <- <- <-.
  assert (ESendUnlock u ∈ events it) as Hit.
  { unfold clear_if_finalized in Hu. by repeat case_match. }
  clear Hu. unfold mediator_dispatch in Hd.
  destruct sc; cbn in Hd; try (injection Hd as <- <- <-; by apply elem_of_nil in Hit).
  - exfalso. eapply pays_nothing_unlock, Hit. by eapply mediator_handle_block_pays.
  - by eapply mediator_onchain_unlock.
  - exfalso. eapply pays_nothing_unlock, Hit. by eapply mediator_handle_unlock_pays.
  - exfalso. eapply pays_nothing_unlock, Hit. by eapply mediator_handle_lock_expired_pays.
  - by eapply mediator_offchain_unlock.
  - exfalso. eapply pays_nothing_unlock, Hit. by eapply mediator_handle_refundtransfer_pays.
Qed.

(** ** Registering the secret in time *)

(** The pair's payer transfer may be lost if the secret is not registered. *)
Definition in_danger (net : bytes) chans (nr : Z) p : bool :=
  match get_payer_channel net chans p with
  | Some c =>
      let lock := lts_lock (mp_payer_transfer p) in
      is_pending_pair p && (lock_expiration lock - nr <=? reveal_timeout c)
      && is_secret_known (partner_state c) (lock_secrethash lock)
  | None => false
  end.

(** Data of a payer's channel: its reveal timeout is positive, and it has no
    empty secret. *)
Definition payer_data_ok (net : bytes) chans p : Prop :=
  forall c, get_payer_channel net chans p = Some c ->
    0 < reveal_timeout c
    /\ get_secret (partner_state c) (lock_secrethash (lts_lock (mp_payer_transfer p))) <> Some [].

(** A pending pair whose payer's lock expires no later than the reveal
    timeout. *)
Definition short_pair (net : bytes) chans p : Prop :=
  is_pending_pair p = true
  /\ exists c, get_payer_channel net chans p = Some c
       /\ lock_expiration (lts_lock (mp_payer_transfer p)) <= reveal_timeout c.

Definition mark_danger (net : bytes) chans (nr : Z) p : MediationPairState :=
  if in_danger net chans nr p then set_mp_payer_state payer_waiting_secret_reveal p else p.

(** What is sent for a pair in danger: the registration of the secret that the
    payer's channel knows, and nothing when this channel is being settled or is
    settled. *)
Definition registration (net : bytes) chans (hsh : bytes) p (evs : list Event) : Prop :=
  exists c secret, get_payer_channel net chans p = Some c
    /\ get_secret (partner_state c) (lock_secrethash (lts_lock (mp_payer_transfer p))) = Some secret
    /\ (get_status c ∈ CHANNEL_STATES_UP_TO_CLOSED ->
        evs = [EContractSendSecretReveal (mkContractSendSecretReveal hsh
                 (lock_expiration (lts_lock (mp_payer_transfer p))) secret)])
    /\ (get_status c ∉ CHANNEL_STATES_UP_TO_CLOSED -> evs = []).

Lemma known_secret e sh : is_secret_known e sh = true -> exists s, get_secret e sh = Some s.
Proof. unfold is_secret_known, get_secret, dict_mem. intros Hk. repeat case_match; (done || by eexists). Qed.

Lemma reveal_in_dangerzone_run net chans nr hsh sent evs p :
  0 < nr -> payer_data_ok net chans p ->
  (~ short_pair net chans p
   /\ exists new,
    reveal_in_dangerzone net chans nr hsh (sent, evs) p
    = Ok (sent || in_danger net chans nr p, evs ++ new, mark_danger net chans nr p)
    /\ (if negb sent && in_danger net chans nr p
        then registration net chans hsh p new else new = []))
  \/ (short_pair net chans p
      /\ reveal_in_dangerzone net chans nr hsh (sent, evs) p = Raise short_expiration).
Proof.
  intros Hnr Hok. unfold short_pair, reveal_in_dangerzone, mark_danger, in_danger, registration.
  destruct (get_payer_channel net chans p) as [c|] eqn:Ec.
  2: { left. split; [by intros (_ & ? & ? & _)|]. exists [].
       rewrite app_nil_r, orb_false_r, andb_false_r. by case_if. }
  destruct (Hok c Ec) as [Ht0 Hne].
  destruct (is_pending_pair p).
  2: { left. split; [by intros [? _]|]. exists []. by rewrite app_nil_r, orb_false_r, andb_false_r. }
  destruct (Z.le_gt_cases (lock_expiration (lts_lock (mp_payer_transfer p))) (reveal_timeout c))
    as [Hexp|Hexp].
  { right. rewrite is_safe_to_wait_short by done. eauto. }
  left. split; [intros (_ & c' & [= <-] & ?); lia|].
  unfold is_safe_to_wait.
  rewrite (proj2 (Z.ltb_lt _ _) Hnr), (proj2 (Z.ltb_lt _ _) Ht0), (proj2 (Z.ltb_lt _ _) Hexp). cbn.
  rewrite Z.ltb_antisym.
  destruct (lock_expiration _ - nr <=? reveal_timeout c); cbn;
    [|exists []; by rewrite app_nil_r, orb_false_r, andb_false_r].
  destruct (is_secret_known _ _) eqn:Hk; cbn;
    [|exists []; by rewrite app_nil_r, orb_false_r, andb_false_r].
  destruct sent; [exists []; by rewrite app_nil_r|]. cbn.
  destruct (known_secret _ _ Hk) as (s & Hs). rewrite Hs. cbn.
  rewrite bool_decide_true by (intros ->; by apply Hne). cbn. eexists. split; [done|].
  exists c, s. unfold secret_registry_events_for_onchain_secretreveal.
  by case_bool_decide.
Qed.

(** The first pair in danger is the one that registers. *)
Definition first_in_danger (net : bytes) chans (nr : Z) pairs : option MediationPairState :=
  List.find (in_danger net chans nr) pairs.

Lemma dangerzone_loop_run net chans nr hsh pairs : forall sent evs,
  0 < nr -> Forall (payer_data_ok net chans) pairs ->
  (Forall (fun p => ~ short_pair net chans p) pairs
   /\ exists new,
    py_traverse (reveal_in_dangerzone net chans nr hsh) (sent, evs) pairs
    = Ok ((sent || existsb (in_danger net chans nr) pairs, evs ++ new),
          map (mark_danger net chans nr) pairs)
    /\ (if sent then new = []
        else match first_in_danger net chans nr pairs with
             | Some p => registration net chans hsh p new
             | None => new = []
             end))
  \/ (Exists (short_pair net chans) pairs
      /\ py_traverse (reveal_in_dangerzone net chans nr hsh) (sent, evs) pairs
         = Raise short_expiration).
Proof.
  induction pairs as [|p pairs IH]; intros sent evs Hnr Hok; cbn [py_traverse existsb map].
  { left. split; [done|]. exists []. rewrite app_nil_r, orb_false_r. by destruct sent. }
  inversion Hok as [|? ? Hp Hrest]; subst.
  destruct (reveal_in_dangerzone_run net chans nr hsh sent evs p Hnr Hp)
    as [(Hns & new1 & -> & H1)|[Hs ->]]; cbn; [|right; split; [by left|done]].
  destruct (IH (sent || in_danger net chans nr p) (evs ++ new1) Hnr Hrest)
    as [(Hns' & new2 & -> & H2)|[Hs' ->]]; cbn; [left|right; split; [by right|done]].
  split; [by constructor|].
  exists (new1 ++ new2). rewrite orb_assoc, app_assoc. split; [done|].
  unfold first_in_danger in *. cbn [List.find].
  destruct sent; cbn in *; [by subst|]. destruct (in_danger net chans nr p); cbn in *.
  - subst new2. by rewrite app_nil_r.
  - by subst new1.
Qed.

(** C26: a mediator registers the secret before its payer can take the tokens
    back.  At a block with a positive number, in channels with a positive reveal
    timeout and no empty secrets, the check of the danger zone marks every
    pending pair whose payer's lock is too close to its expiration and whose
    secret is known, and if no registration has started it sends exactly one
    registration for the first such pair, of the secret that its payer's channel
    knows; when that channel is settling or settled it sends none, although the
    pair is marked.  Without such a pair, or after a registration has started,
    it sends nothing.  It raises the assertion of [is_safe_to_wait] exactly when
    the payer's lock of a pending pair expires no later than the reveal timeout. *)
Theorem mediator_registers_in_time net chans sh pairs nr hsh
    (Hnr : 0 < nr) (Hok : Forall (payer_data_ok net chans) pairs) :
  (Forall (fun p => ~ short_pair net chans p) pairs
   /\ exists evs,
    events_for_onchain_secretreveal_if_dangerzone net chans sh pairs nr hsh
    = Ok (map (mark_danger net chans nr) pairs, evs)
    /\ (if has_secret_registration_started (all_payer_channels net chans pairs) pairs sh
        then evs = []
        else match first_in_danger net chans nr pairs with
             | Some p => registration net chans hsh p evs
             | None => evs = []
             end))
  \/ (Exists (short_pair net chans) pairs
      /\ events_for_onchain_secretreveal_if_dangerzone net chans sh pairs nr hsh
         = Raise (AssertionError "lock_expiration must be larger than reveal_timeout")).
Proof.
  unfold events_for_onchain_secretreveal_if_dangerzone.
  destruct (dangerzone_loop_run net chans nr hsh pairs
              (has_secret_registration_started (all_payer_channels net chans pairs) pairs sh)
              [] Hnr Hok) as [(Hns & new & -> & Hnew)|[Hs ->]]; [left|by right].
  split; [done|]. by exists new.
Qed.
End mediator.
