(* ===== verification/Initiator.v ===== *)
(** The initiator of a transfer ([transfer/mediated_transfer/initiator.py]).

    The initiator chooses a route, locks the amount with its fees for the next
    hop, reveals the secret to the target once the target has asked for it, and
    pays the next hop when that one knows the secret.  The handlers work on the
    channel of the transfer; [try_new_route] chooses it among the channels of
    the node ([TransferTasks.Channels]). *)

From S2P Require Import Prelude PyDict Bytes Crypto PyFloat MediationFee State Events.
From S2P Require Import StateChanges Channel ChannelValidation ChannelOps TransferTasks.

(** ** Settings *)

Definition DEFAULT_MEDIATION_FEE_MARGIN : float := float_0_03.
Definition PAYMENT_AMOUNT_BASED_FEE_MARGIN : float := float_0_0005.
Definition MAX_MEDIATION_FEE_PERC : float := float_0_2.
Definition DEFAULT_WAIT_BEFORE_LOCK_REMOVAL : Z := 2 * DEFAULT_NUMBER_OF_BLOCK_CONFIRMATIONS.
Definition ABSENT_SECRET : bytes := [].

(** ** Data *)

(** The values of [InitiatorTransferState.transfer_state]. *)
Inductive TransferStatus : Type :=
  | transfer_pending
  | transfer_secret_revealed
  | transfer_expired
  | transfer_cancelled.

#[export] Instance TransferStatus_eq_dec : EqDecision TransferStatus.
Proof. solve_decision. Defined.

Record InitiatorTransferState : Type := mkInitiatorTransferState {
  it_route : RouteState;
  it_transfer_description : TransferDescriptionWithSecretState;
  it_channel_identifier : Z;
  it_transfer : LockedTransferUnsignedState;
  it_received_secret_request : bool;
  it_transfer_state : TransferStatus
}.

Definition set_it_received_secret_request (v : bool) (s : InitiatorTransferState) :
    InitiatorTransferState :=
  mkInitiatorTransferState (it_route s) (it_transfer_description s) (it_channel_identifier s)
    (it_transfer s) v (it_transfer_state s).
Definition set_it_transfer_state (v : TransferStatus) (s : InitiatorTransferState) :
    InitiatorTransferState :=
  mkInitiatorTransferState (it_route s) (it_transfer_description s) (it_channel_identifier s)
    (it_transfer s) (it_received_secret_request s) v.

(** The key of a transfer in its payment. *)
Definition it_secrethash (s : InitiatorTransferState) : bytes :=
  lock_secrethash (ltu_lock (it_transfer s)).

(** ** The amount with fees *)

(** [calculate_fee_margin] *)
Definition calculate_fee_margin (payment_amount estimated_fee : Z) : Py Z :=
  if estimated_fee =? 0 then Ok 0
  else
    fee ← float_of_int (Z.abs estimated_fee);
    amount ← float_of_int payment_amount;
    float_ceil (float_add (float_mul fee DEFAULT_MEDIATION_FEE_MARGIN)
                  (float_mul amount PAYMENT_AMOUNT_BASED_FEE_MARGIN)).

(** [calculate_safe_amount_with_fee] *)
Definition calculate_safe_amount_with_fee (payment_amount estimated_fee : Z) : Py Z :=
  margin ← calculate_fee_margin payment_amount estimated_fee;
  Ok (payment_amount + estimated_fee + margin).

(** [max_amount_limit] of [try_new_route] *)
Definition max_amount_limit (amount : Z) : Py Z :=
  a ← float_of_int amount;
  limit ← float_trunc (float_mul a MAX_MEDIATION_FEE_PERC);
  Ok (amount + limit).

Section initiator.
Context `{Crypto}.
Implicit Types (state : InitiatorTransferState) (c : NettingChannelState) (chans : Channels).

(** The new state of the transfer, its events, the channel and the advanced
    generator. *)
Definition InitiatorResult : Type :=
  TransitionResult (option InitiatorTransferState) * NettingChannelState * Random.

Definition initiator_keep state (evs : list Event) c (prng : Random) : InitiatorResult :=
  (mkTransitionResult (Some state) evs, c, prng).

(** [events_for_unlock_lock] *)
Definition events_for_unlock_lock state c (secret secrethash : bytes) (prng : Random)
    (block_number : Z) : Py (list Event * NettingChannelState * Random) :=
  let td := it_transfer_description state in
  let '(mid, prng') := message_identifier_from_prng prng in
  let recipient_metadata := get_address_metadata (address (partner_state c)) [it_route state] in
  '(c', unlock_lock) ← send_unlock c mid (td_payment_identifier td) secret secrethash block_number
                         recipient_metadata;
  let payment_sent_success :=
    mkEventPaymentSentSuccess (token_network_registry_address c') (channel_token_network_address c')
      (td_payment_identifier td) (td_amount td) (td_target td) secret (route (it_route state)) in
  let unlock_success :=
    mkEventUnlockSuccess (td_payment_identifier td) (td_secrethash td) in
  Ok ([ESendUnlock unlock_lock; EEventPaymentSentSuccess payment_sent_success;
       EEventUnlockSuccess unlock_success], c', prng').

(** [handle_block] *)
Definition initiator_handle_block state (action : Block) c (prng : Random) : Py InitiatorResult :=
  let secrethash := it_secrethash state in
  match dict_get secrethash (secrethashes_to_lockedlocks (our_state c)) with
  | None =>
      if dict_mem secrethash (secrethashes_to_lockedlocks (partner_state c))
      then Ok (initiator_keep state [] c prng)
      else Ok (mkTransitionResult None [], c, prng)
  | Some locked_lock =>
      let lock_expiration_threshold :=
        lock_expiration locked_lock + DEFAULT_WAIT_BEFORE_LOCK_REMOVAL in
      let lock_has_expired :=
        is_lock_expired (our_state c) locked_lock (block_number action) lock_expiration_threshold in
      if so_ok lock_has_expired && negb (bool_decide (it_transfer_state state = transfer_expired))
      then
        '(evs, c', prng') ←
          (if bool_decide (get_status c = STATE_OPENED) then
             let recipient_metadata :=
               get_address_metadata (address (partner_state c)) [it_route state] in
             '(c', expired_lock_events, prng') ←
               send_lock_expired c locked_lock prng recipient_metadata;
             Ok (map ESendLockExpired expired_lock_events, c', prng')
           else Ok ([], c, prng));
        let reason :=
          [Msg (if it_received_secret_request state
                then "lock expired, despite receiving secret request"
                else "lock expired") []] in
        let td := it_transfer_description state in
        let payment_failed :=
          mkEventPaymentSentFailed (td_token_network_registry_address td)
            (td_token_network_address td) (td_payment_identifier td) (td_target td) reason in
        let route_failed :=
          mkEventRouteFailed secrethash (route (it_route state)) (td_token_network_address td) in
        let unlock_failed :=
          mkEventUnlockFailed (td_payment_identifier td) (td_secrethash td) reason in
        let lock_exists := lock_exists_in_either_channel_side c' secrethash in
        let state' := set_it_transfer_state transfer_expired state in
        Ok (mkTransitionResult (if lock_exists then Some state' else None)
              (evs ++ [EEventPaymentSentFailed payment_failed; EEventRouteFailed route_failed;
                       EEventUnlockFailed unlock_failed]), c', prng')
      else Ok (initiator_keep state [] c prng)
  end.

(** ** Choosing a route *)

(** The loop of [try_new_route]: the first route that can be used, and whether
    the fees of one before it exceeded the limit. *)
Fixpoint choose_route (addrs : dict (bytes * bytes) ChannelRef) chans
    (td : TransferDescriptionWithSecretState) (our_address : bytes)
    (candidate_route_states : list RouteState) (route_fee_exceeds_max : bool) :
    Py (option (ChannelRef * NettingChannelState * RouteState) * bool) :=
  match candidate_route_states with
  | [] => Ok (None, route_fee_exceeds_max)
  | route_state :: rest =>
      match next_hop_of route_state our_address with
      | None => choose_route addrs chans td our_address rest route_fee_exceeds_max
      | Some next_hop =>
          match channel_by_address addrs chans (td_token_network_address td) next_hop with
          | None => choose_route addrs chans td our_address rest route_fee_exceeds_max
          | Some (ref, candidate) =>
              amount_with_fee ← calculate_safe_amount_with_fee (td_amount td)
                                  (estimated_fee route_state);
              limit ← max_amount_limit (td_amount td);
              if limit <? amount_with_fee
              then choose_route addrs chans td our_address rest true
              else if bool_decide (is_channel_usable_for_new_transfer candidate amount_with_fee
                                     (td_lock_timeout td) = USABLE)
              then Ok (Some (ref, candidate, route_state), route_fee_exceeds_max)
              else choose_route addrs chans td our_address rest route_fee_exceeds_max
          end
      end
  end.

(** [send_lockedtransfer] *)
Definition initiator_send_lockedtransfer (td : TransferDescriptionWithSecretState) c
    (message_identifier block_number : Z) (route_state : RouteState)
    (route_states : list RouteState) : Py (NettingChannelState * SendLockedTransfer) :=
  _ ← py_assert (bool_decide (channel_token_network_address c = td_token_network_address td))
        "token_network_address mismatch";
  let lock_expiration :=
    get_safe_initial_expiration block_number (reveal_timeout c) (td_lock_timeout td) in
  total_amount ← calculate_safe_amount_with_fee (td_amount td) (estimated_fee route_state);
  let recipient_metadata := get_address_metadata (address (partner_state c)) route_states in
  send_lockedtransfer c (td_initiator td) (td_target td) total_amount message_identifier
    (td_payment_identifier td) lock_expiration (Some (td_secret td)) (td_secrethash td) route_states
    recipient_metadata None.

(** The address of the node: the one of the first channel. *)
Definition any_our_address (addrs : dict (bytes * bytes) ChannelRef) chans : option bytes :=
  match addrs with
  | [] => None
  | (_, ref) :: _ =>
      match dict_get ref chans with Some c => Some (address (our_state c)) | None => None end
  end.

(** [try_new_route] *)
Definition try_new_route (addrs : dict (bytes * bytes) ChannelRef) chans
    (candidate_route_states : list RouteState) (td : TransferDescriptionWithSecretState)
    (prng : Random) (block_number : Z) :
    Py (TransitionResult (option InitiatorTransferState) * Channels * Random) :=
  '(chosen, route_fee_exceeds_max) ←
    match any_our_address addrs chans with
    | None => Ok (None, false)
    | Some our_address => choose_route addrs chans td our_address candidate_route_states false
    end;
  match chosen with
  | None =>
      let reason :=
        Msg "None of the available routes could be used" []
        :: (if (route_fee_exceeds_max : bool)
            then [Msg " and at least one of them exceeded the maximum fee limit (see https://raiden-network.readthedocs.io/en/stable/using-raiden-on-mainnet/overview.html#frequently-asked-questions)" []]
            else []) in
      let transfer_failed :=
        mkEventPaymentSentFailed (td_token_network_registry_address td)
          (td_token_network_address td) (td_payment_identifier td) (td_target td) reason in
      Ok (mkTransitionResult None [EEventPaymentSentFailed transfer_failed], chans, prng)
  | Some (ref, c, chosen_route_state) =>
      let '(mid, prng') := message_identifier_from_prng prng in
      '(c', lockedtransfer_event) ←
        initiator_send_lockedtransfer td c mid block_number chosen_route_state
          candidate_route_states;
      let initiator_state :=
        mkInitiatorTransferState chosen_route_state td (identifier c')
          (slt_transfer lockedtransfer_event) false transfer_pending in
      Ok (mkTransitionResult (Some initiator_state) [ESendLockedTransfer lockedtransfer_event],
          store_channel ref c' chans, prng')
  end.

(** ** Messages and on-chain secrets *)

(** [handle_secretrequest] *)
Definition initiator_handle_secretrequest state (action : ReceiveSecretRequest) c
    (prng : Random) : Py InitiatorResult :=
  let td := it_transfer_description state in
  let is_message_from_target :=
    bool_decide (rsq_sender action = td_target td)
    && bool_decide (rsq_secrethash action = td_secrethash td)
    && (rsq_payment_identifier action =? td_payment_identifier td) in
  if negb is_message_from_target then Ok (initiator_keep state [] c prng)
  else
    lock ← assert_some (get_lock (our_state c) (td_secrethash td))
             "channel is does not have the transfer's lock";
    if it_received_secret_request state then Ok (initiator_keep state [] c prng)
    else
      let is_valid_secretrequest :=
        (td_amount td <=? rsq_amount action)
        && (rsq_expiration action =? lock_expiration lock)
        && negb (bool_decide (td_secret td = ABSENT_SECRET)) in
      if is_valid_secretrequest then
        let '(mid, prng') := message_identifier_from_prng prng in
        let recipient := td_target td in
        let recipient_metadata := get_address_metadata recipient [it_route state] in
        let revealsecret :=
          mkSendSecretReveal
            (mkSendMessageEvent recipient recipient_metadata CANONICAL_IDENTIFIER_UNORDERED_QUEUE mid)
            (td_secret td) (sha256_secrethash (td_secret td)) in
        Ok (initiator_keep
              (set_it_received_secret_request true
                 (set_it_transfer_state transfer_secret_revealed state))
              [ESendSecretReveal revealsecret] c prng')
      else
        let invalid_request :=
          mkEventInvalidSecretRequest (rsq_payment_identifier action) (td_amount td)
            (rsq_amount action) in
        Ok (initiator_keep (set_it_received_secret_request true state)
              [EEventInvalidSecretRequest invalid_request] c prng).

(** [handle_offchain_secretreveal] *)
Definition initiator_handle_offchain_secretreveal state (action : ReceiveSecretReveal) c
    (prng : Random) (block_number : Z) : Py InitiatorResult :=
  let valid_reveal :=
    is_valid_secret_reveal (rsr_secrethash action) (td_secrethash (it_transfer_description state)) in
  let sent_by_partner := bool_decide (rsr_sender action = address (partner_state c)) in
  let is_channel_open := bool_decide (get_status c = STATE_OPENED) in
  let lock := ltu_lock (it_transfer state) in
  let expired := is_lock_expired (our_state c) lock block_number (lock_expiration lock) in
  if valid_reveal && is_channel_open && sent_by_partner && negb (so_ok expired) then
    '(evs, c', prng') ←
      events_for_unlock_lock state c (rsr_secret action) (rsr_secrethash action) prng block_number;
    Ok (mkTransitionResult None evs, c', prng')
  else Ok (initiator_keep state [] c prng).

(** [handle_onchain_secretreveal] *)
Definition initiator_handle_onchain_secretreveal state (action : ContractReceiveSecretReveal) c
    (prng : Random) (block_number : Z) : Py InitiatorResult :=
  let secret := crsr_secret action in
  let secrethash := td_secrethash (it_transfer_description state) in
  let is_valid_secret := is_valid_secret_reveal (crsr_secrethash action) secrethash in
  let is_channel_open := bool_decide (get_status c = STATE_OPENED) in
  let lock := ltu_lock (it_transfer state) in
  let lock_expired := lock_expiration lock <? crsr_block_number action in
  let is_lock_unlocked := is_valid_secret && negb lock_expired in
  c1 ← (if is_lock_unlocked
        then register_onchain_secret c secret secrethash (crsr_block_number action) true
        else Ok c);
  let expired := is_lock_expired (our_state c1) lock block_number (lock_expiration lock) in
  if is_lock_unlocked && is_channel_open && negb (so_ok expired) then
    '(evs, c2, prng') ←
      events_for_unlock_lock state c1 secret (crsr_secrethash action) prng block_number;
    Ok (mkTransitionResult None evs, c2, prng')
  else Ok (initiator_keep state [] c1 prng).

(** [initiator.state_transition] *)
Definition initiator_state_transition state (sc : StateChange) c (prng : Random)
    (block_number : Z) : Py InitiatorResult :=
  match sc with
  | SBlock a => initiator_handle_block state a c prng
  | SReceiveSecretRequest a => initiator_handle_secretrequest state a c prng
  | SReceiveSecretReveal a => initiator_handle_offchain_secretreveal state a c prng block_number
  | SContractReceiveSecretReveal a =>
      initiator_handle_onchain_secretreveal state a c prng block_number
  | _ => Ok (initiator_keep state [] c prng)
  end.
End initiator.
