(* ===== verification/InitiatorManager.v ===== *)
(** The payment of an initiator
    ([transfer/mediated_transfer/initiator_manager.py]).

    A payment has one transfer, and one more for every refund after which
    another route is tried, each with a secret of its own. *)

From S2P Require Import Prelude PyDict Bytes Crypto PyFloat MediationFee State Events.
From S2P Require Import StateChanges Channel ChannelValidation ChannelOps TransferTasks Initiator.

(** ** Data *)

Record InitiatorPaymentState : Type := mkInitiatorPaymentState {
  ip_routes : list RouteState;
  ip_initiator_transfers : dict bytes InitiatorTransferState;
  ip_cancelled_channels : list Z
}.

Definition set_ip_initiator_transfers (v : dict bytes InitiatorTransferState)
    (s : InitiatorPaymentState) : InitiatorPaymentState :=
  mkInitiatorPaymentState (ip_routes s) v (ip_cancelled_channels s).
Definition set_ip_cancelled_channels (v : list Z) (s : InitiatorPaymentState) :
    InitiatorPaymentState :=
  mkInitiatorPaymentState (ip_routes s) (ip_initiator_transfers s) v.

Section manager.
Context `{Crypto}.
Implicit Types (payment : InitiatorPaymentState) (state : InitiatorTransferState).
Implicit Types (chans : Channels).

(** [TransferDescriptionWithSecretState.__post_init__] *)
Definition new_TransferDescription (registry : bytes) (payment_identifier amount : Z)
    (token_network initiator target secret secrethash : bytes) (lock_timeout : option Z) :
    TransferDescriptionWithSecretState :=
  let secrethash' :=
    if bool_decide (secrethash = EMPTY_SECRETHASH) && negb (bool_decide (secret = []))
    then sha256_secrethash secret else secrethash in
  mkTransferDescription registry payment_identifier amount token_network initiator target secret
    secrethash' lock_timeout.

(** ** Helpers *)

(** The new payment, its events, the channels and the advanced generator. *)
Definition PaymentResult : Type :=
  TransitionResult (option InitiatorPaymentState) * Channels * Random.

Definition payment_keep payment (evs : list Event) chans (prng : Random) : PaymentResult :=
  (mkTransitionResult (Some payment) evs, chans, prng).

(** [clear_if_finalized] *)
Definition initiator_clear_if_finalized
    (iteration : TransitionResult (option InitiatorPaymentState)) :
    TransitionResult (option InitiatorPaymentState) :=
  match new_state iteration with
  | None => iteration
  | Some payment =>
      if Nat.eqb (length (ip_initiator_transfers payment)) 0
      then mkTransitionResult None (events iteration)
      else iteration
  end.

Definition transfer_exists payment (secrethash : bytes) : bool :=
  dict_mem secrethash (ip_initiator_transfers payment).

Definition cancel_other_transfers payment : InitiatorPaymentState :=
  set_ip_initiator_transfers
    (dict_map_values (set_it_transfer_state transfer_cancelled) (ip_initiator_transfers payment))
    payment.

Definition can_cancel state : bool :=
  negb (bool_decide (it_transfer_state state = transfer_secret_revealed)).

Definition events_for_cancel_current_route (route_state : RouteState)
    (td : TransferDescriptionWithSecretState) : list Event :=
  [EEventUnlockFailed (mkEventUnlockFailed (td_payment_identifier td) (td_secrethash td)
                         [Msg "route was canceled" []]);
   EEventRouteFailed (mkEventRouteFailed (td_secrethash td) (route route_state)
                        (td_token_network_address td))].

(** [cancel_current_route]: the cancelled channels and the events. *)
Definition cancel_current_route (cancelled_channels : list Z) state : Py (list Z * list Event) :=
  _ ← py_assert (can_cancel state) "Cannot cancel a route after the secret is revealed";
  Ok (cancelled_channels ++ [it_channel_identifier state],
      events_for_cancel_current_route (it_route state) (it_transfer_description state)).

(** ** Dispatch to a transfer *)

(** [subdispatch_to_initiatortransfer], for the transfer with the key
    [secrethash] of the payment. *)
Definition subdispatch_to_initiatortransfer (net : bytes) payment (secrethash : bytes) state
    (sc : StateChange) chans (prng : Random) (block_number : Z) :
    Py (InitiatorPaymentState * list Event * Channels * Random) :=
  match channel_by_id net chans (it_channel_identifier state) with
  | None => Ok (payment, [], chans, prng)
  | Some c =>
      '(sub_iteration, c', prng') ← initiator_state_transition state sc c prng block_number;
      let chans' := store_channel (net, it_channel_identifier state) c' chans in
      transfers' ←
        match new_state sub_iteration with
        | None => dict_del_checked (it_secrethash state) (ip_initiator_transfers payment)
        | Some state' => Ok (dict_set secrethash state' (ip_initiator_transfers payment))
        end;
      Ok (set_ip_initiator_transfers transfers' payment, events sub_iteration, chans', prng')
  end.

(** The loop of [subdispatch_to_all_initiatortransfer]. *)
Definition subdispatch_step (net : bytes) (sc : StateChange) (block_number : Z)
    (s : InitiatorPaymentState * list Event * Channels * Random) (secrethash : bytes) :
    Py (InitiatorPaymentState * list Event * Channels * Random) :=
  let '(payment, evs, chans, prng) := s in
  match dict_get secrethash (ip_initiator_transfers payment) with
  | None => Raise KeyError
  | Some state =>
      '(payment', sub_events, chans', prng') ←
        subdispatch_to_initiatortransfer net payment secrethash state sc chans prng block_number;
      Ok (payment', evs ++ sub_events, chans', prng')
  end.

Definition subdispatch_to_all_initiatortransfer (net : bytes) payment (sc : StateChange) chans
    (prng : Random) (block_number : Z) : Py PaymentResult :=
  '(payment', evs, chans', prng') ←
    py_foldl (subdispatch_step net sc block_number) (payment, [], chans, prng)
      (dict_keys (ip_initiator_transfers payment));
  Ok (payment_keep payment' evs chans' prng').

(** ** The handlers *)

(** [handle_init] *)
Definition manager_handle_init (payment_state : option InitiatorPaymentState)
    (action : ActionInitInitiator) (addrs : dict (bytes * bytes) ChannelRef) chans (prng : Random)
    (block_number : Z) : Py PaymentResult :=
  match payment_state with
  | Some _ => Ok (mkTransitionResult payment_state [], chans, prng)
  | None =>
      '(sub_iteration, chans', prng') ←
        try_new_route addrs chans (aii_routes action) (aii_transfer action) prng block_number;
      let payment' :=
        match new_state sub_iteration with
        | Some state =>
            Some (mkInitiatorPaymentState (aii_routes action) [(it_secrethash state, state)] [])
        | None => None
        end in
      Ok (mkTransitionResult payment' (events sub_iteration), chans', prng')
  end.

(** The loop of [handle_cancelpayment]: the cancelled channels, the events and
    the transfers with their keys. *)
Fixpoint cancel_transfers (net : bytes) chans (cancelled : list Z) (evs : list Event)
    (transfers : dict bytes InitiatorTransferState) :
    Py (list Z * list Event * dict bytes InitiatorTransferState) :=
  match transfers with
  | [] => Ok (cancelled, evs, [])
  | (k, state) :: rest =>
      '(cancelled1, evs1, state1) ←
        match channel_by_id net chans (it_channel_identifier state) with
        | None => Ok (cancelled, evs, state)
        | Some c =>
            if can_cancel state then
              let td := it_transfer_description state in
              '(cancelled', cancel_events) ← cancel_current_route cancelled state;
              let cancel :=
                mkEventPaymentSentFailed (token_network_registry_address c)
                  (channel_token_network_address c) (td_payment_identifier td) (td_target td)
                  [Msg "user canceled payment" []] in
              Ok (cancelled', evs ++ cancel_events ++ [EEventPaymentSentFailed cancel],
                  set_it_transfer_state transfer_cancelled state)
            else Ok (cancelled, evs, state)
        end;
      '(cancelled2, evs2, rest') ← cancel_transfers net chans cancelled1 evs1 rest;
      Ok (cancelled2, evs2, (k, state1) :: rest')
  end.

(** [handle_cancelpayment] *)
Definition handle_cancelpayment (net : bytes) payment chans (prng : Random) : Py PaymentResult :=
  '(cancelled, evs, transfers) ←
    cancel_transfers net chans (ip_cancelled_channels payment) [] (ip_initiator_transfers payment);
  Ok (payment_keep
        (set_ip_cancelled_channels cancelled (set_ip_initiator_transfers transfers payment))
        evs chans prng).

(** [handle_failroute] *)
Definition handle_failroute payment (action : ReceiveTransferCancelRoute) chans (prng : Random) :
    Py PaymentResult :=
  match dict_get (lock_secrethash (lts_lock (rtc_transfer action))) (ip_initiator_transfers payment) with
  | Some state =>
      if can_cancel state then
        '(cancelled, cancel_events) ← cancel_current_route (ip_cancelled_channels payment) state;
        Ok (payment_keep (set_ip_cancelled_channels cancelled payment) cancel_events chans prng)
      else Ok (payment_keep payment [] chans prng)
  | None => Ok (payment_keep payment [] chans prng)
  end.

(** [is_valid_lock] of [handle_transferreroute] *)
Definition refund_lock_valid (refund : LockedTransferSignedState)
    (original : LockedTransferUnsignedState) : bool :=
  bool_decide (lock_secrethash (lts_lock refund) = lock_secrethash (ltu_lock original))
  && (lock_amount (lts_lock refund) =? lock_amount (ltu_lock original))
  && (lock_expiration (lts_lock refund) =? lock_expiration (ltu_lock original)).

(** [handle_transferreroute] *)
Definition handle_transferreroute (net : bytes) payment (action : ActionTransferReroute)
    (addrs : dict (bytes * bytes) ChannelRef) chans (prng : Random) (block_number : Z) :
    Py PaymentResult :=
  let refund_transfer := atr_transfer action in
  match dict_get (lock_secrethash (lts_lock refund_transfer)) (ip_initiator_transfers payment) with
  | None => Ok (payment_keep payment [] chans prng)
  | Some state =>
      match channel_by_id net chans (it_channel_identifier state) with
      | None => Ok (payment_keep payment [] chans prng)
      | Some c =>
          let original_transfer := it_transfer state in
          let is_valid_lock := refund_lock_valid refund_transfer original_transfer in
          let is_valid_refund := refund_transfer_matches_transfer refund_transfer original_transfer in
          let recipient_metadata :=
            get_address_metadata (address (partner_state c)) (ip_routes payment) in
          '(c', (is_valid, channel_events, _)) ←
            handle_receive_lockedtransfer c refund_transfer recipient_metadata;
          let chans1 := store_channel (net, it_channel_identifier state) c' chans in
          if negb is_valid_lock || negb is_valid_refund || negb is_valid
          then Ok (payment_keep payment [] chans1 prng)
          else
            let old := it_transfer_description state in
            let filtered_route_states :=
              filter_acceptable_routes (ip_routes payment) (ip_cancelled_channels payment) addrs
                chans1 (td_token_network_address old) (address (our_state c')) in
            let td :=
              new_TransferDescription (td_token_network_registry_address old)
                (td_payment_identifier old) (td_amount old) (td_token_network_address old)
                (td_initiator old) (td_target old) (atr_secret action) (atr_secrethash action) None in
            '(sub_iteration, chans2, prng') ←
              try_new_route addrs chans1 filtered_route_states td prng block_number;
            let evs := channel_events ++ events sub_iteration in
            match new_state sub_iteration with
            | None => Ok (payment_keep payment evs chans2 prng')
            | Some state' =>
                Ok (payment_keep
                      (set_ip_initiator_transfers
                         (dict_set (it_secrethash state') state' (ip_initiator_transfers payment))
                         payment) evs chans2 prng')
            end
      end
  end.

(** [handle_lock_expired] *)
Definition manager_handle_lock_expired (net : bytes) payment (action : ReceiveLockExpired) chans
    (prng : Random) (block_number : Z) : Py PaymentResult :=
  match dict_get (rle_secrethash action) (ip_initiator_transfers payment) with
  | None => Ok (payment_keep payment [] chans prng)
  | Some state =>
      match channel_by_id net chans (it_channel_identifier state) with
      | None => Ok (payment_keep payment [] chans prng)
      | Some c =>
          let recipient_metadata :=
            get_address_metadata (address (partner_state c)) (ip_routes payment) in
          result ← handle_receive_lock_expired c action block_number recipient_metadata;
          let c' := new_state result in
          let transfer := it_transfer state in
          let unlock_failed :=
            match get_lock (partner_state c') (it_secrethash state) with
            | None => [EEventUnlockClaimFailed
                         (mkEventUnlockClaimFailed (ltu_payment_identifier transfer)
                            (it_secrethash state) [Msg "Lock expired" []])]
            | Some _ => []
            end in
          Ok (payment_keep payment (events result ++ unlock_failed)
                (store_channel (net, it_channel_identifier state) c' chans) prng)
      end
  end.

(** [handle_offchain_secretreveal] and [handle_onchain_secretreveal] differ in
    the text of the assertion. *)
Definition handle_secretreveal (net : bytes) payment (secrethash : bytes) (sc : StateChange)
    (message : string) chans (prng : Random) (block_number : Z) : Py PaymentResult :=
  match dict_get secrethash (ip_initiator_transfers payment) with
  | None => Ok (payment_keep payment [] chans prng)
  | Some state =>
      _ ← py_assert (negb (bool_decide (it_transfer_state state = transfer_cancelled))) message;
      '(payment', evs, chans', prng') ←
        subdispatch_to_initiatortransfer net payment secrethash state sc chans prng block_number;
      let payment'' :=
        if negb (transfer_exists payment' secrethash) then cancel_other_transfers payment'
        else payment' in
      Ok (payment_keep payment'' evs chans' prng')
  end.

Definition manager_handle_offchain_secretreveal (net : bytes) payment (action : ReceiveSecretReveal)
    chans (prng : Random) (block_number : Z) : Py PaymentResult :=
  handle_secretreveal net payment (rsr_secrethash action) (SReceiveSecretReveal action)
    "Can't handle reveal for cancelled transfer" chans prng block_number.

Definition manager_handle_onchain_secretreveal (net : bytes) payment
    (action : ContractReceiveSecretReveal) chans (prng : Random) (block_number : Z) :
    Py PaymentResult :=
  handle_secretreveal net payment (crsr_secrethash action) (SContractReceiveSecretReveal action)
    "Must not reveal secret for cancelled payment" chans prng block_number.

(** [handle_secretrequest] *)
Definition manager_handle_secretrequest (net : bytes) payment (action : ReceiveSecretRequest)
    chans (prng : Random) (block_number : Z) : Py PaymentResult :=
  match dict_get (rsq_secrethash action) (ip_initiator_transfers payment) with
  | None => Ok (payment_keep payment [] chans prng)
  | Some state =>
      if bool_decide (it_transfer_state state = transfer_cancelled)
      then Ok (payment_keep payment [] chans prng)
      else
        '(payment', evs, chans', prng') ←
          subdispatch_to_initiatortransfer net payment (rsq_secrethash action) state
            (SReceiveSecretRequest action) chans prng block_number;
        Ok (payment_keep payment' evs chans' prng')
  end.

(** The dispatch of [initiator_manager.state_transition]. *)
Definition manager_dispatch (net : bytes) (payment_state : option InitiatorPaymentState)
    (sc : StateChange) (addrs : dict (bytes * bytes) ChannelRef) chans (prng : Random)
    (block_number : Z) : Py PaymentResult :=
  match sc with
  | SBlock a =>
      payment ← assert_some payment_state
                  "Block state changes should be accompanied by a valid payment state";
      subdispatch_to_all_initiatortransfer net payment sc chans prng block_number
  | SActionInitInitiator a =>
      manager_handle_init payment_state a addrs chans prng block_number
  | SReceiveTransferCancelRoute a =>
      payment ← assert_some payment_state
                  "ReceiveTransferCancelRoute should be accompanied by a valid payment state";
      handle_failroute payment a chans prng
  | SActionTransferReroute a =>
      payment ← assert_some payment_state
                  "ActionTransferReroute should be accompanied by a valid payment state";
      handle_transferreroute net payment a addrs chans prng block_number
  | SReceiveSecretRequest a =>
      payment ← assert_some payment_state
                  "ReceiveSecretRequest should be accompanied by a valid payment state";
      manager_handle_secretrequest net payment a chans prng block_number
  | SActionCancelPayment _ =>
      payment ← assert_some payment_state
                  "ActionCancelPayment should be accompanied by a valid payment state";
      handle_cancelpayment net payment chans prng
  | SReceiveSecretReveal a =>
      payment ← assert_some payment_state
                  "ReceiveSecretReveal should be accompanied by a valid payment state";
      manager_handle_offchain_secretreveal net payment a chans prng block_number
  | SReceiveLockExpired a =>
      payment ← assert_some payment_state
                  "ReceiveLockExpired should be accompanied by a valid payment state";
      manager_handle_lock_expired net payment a chans prng block_number
  | SContractReceiveSecretReveal a =>
      payment ← assert_some payment_state
                  "ContractReceiveSecretReveal should be accompanied by a valid payment state";
      manager_handle_onchain_secretreveal net payment a chans prng block_number
  | _ => Ok (mkTransitionResult payment_state [], chans, prng)
  end.

(** [initiator_manager.state_transition] *)
Definition manager_state_transition (net : bytes) (payment_state : option InitiatorPaymentState)
    (sc : StateChange) (addrs : dict (bytes * bytes) ChannelRef) chans (prng : Random)
    (block_number : Z) : Py PaymentResult :=
  '(iteration, chans', prng') ← manager_dispatch net payment_state sc addrs chans prng block_number;
  Ok (initiator_clear_if_finalized iteration, chans', prng').
End manager.
