(* ===== verification/InitiatorSteps.v ===== *)
(** The initiator changes channels only through the operations of a channel. *)

From stdpp Require Import relations.
From S2P Require Import Prelude PyDict Bytes Crypto PyFloat MediationFee State Events.
From S2P Require Import StateChanges Channel ChannelValidation ChannelOps ChannelTransition.
From S2P Require Import ChannelLocks ChannelInvariant ChannelSend ChannelReceive ChannelMachine.
From S2P Require Import ChannelSystem TransferTasks TaskSteps Initiator InitiatorManager.

Section steps.
Context `{CryptoLaws} `{FloatPow}.
Implicit Types (chans : Channels) (state : InitiatorTransferState) (payment : InitiatorPaymentState).

(** ** The handlers of a transfer *)

Lemma events_for_unlock_lock_evolves state c secret sh prng nr evs c' prng' :
  events_for_unlock_lock state c secret sh prng nr = Ok (evs, c', prng') -> evolves c c'.
Proof.
  unfold events_for_unlock_lock. intros Hok. destruct (message_identifier_from_prng prng) as [mid prng1].
  apply bind_Ok in Hok as ([c1 u] & Hrun & Hok). injection Hok as _ <- _.
  apply evolves_step. intros _. eapply step_send_unlock. exact Hrun.
Qed.

Lemma locked_lock_pending e sh l :
  locks_inv e -> dict_get sh (secrethashes_to_lockedlocks e) = Some l ->
  get_lock e sh = Some l /\ lock_secrethash l = sh.
Proof.
  intros Hl Hg. assert (get_lock e sh = Some l) as Hgl by (unfold get_lock; by rewrite Hg).
  split; [done|]. rewrite get_lock_index in Hgl. by apply (index_get_valid _ _ Hl) in Hgl as [? _].
Qed.

Lemma initiator_handle_block_evolves state a c prng it c' prng' :
  initiator_handle_block state a c prng = Ok (it, c', prng') -> evolves c c'.
Proof.
  unfold initiator_handle_block. intros Hok.
  destruct (dict_get (it_secrethash state) _) as [l|] eqn:Hl.
  2: { case_if; injection Hok as _ <- _; reflexivity. }
  case_if; [|by injection Hok as _ <- _]. bool_hyps.
  apply bind_Ok in Hok as ([[evs c1] prng1] & Hrun & Hok). injection Hok as _ <- _.
  case_if; [|by injection Hrun as _ <- _].
  apply bind_Ok in Hrun as ([[c2 evs2] prng2] & Hsend & Hrun). injection Hrun as _ <- _.
  eapply send_lock_expired_evolves; [|eassumption|exact Hsend]. intros Hc.
  destruct (locked_lock_pending _ _ _ (end_locks _ (inv_our _ c Hc)) Hl) as [Hg Hs]. by rewrite Hs.
Qed.

Lemma initiator_secretrequest_evolves state a c prng it c' prng' :
  initiator_handle_secretrequest state a c prng = Ok (it, c', prng') -> c' = c.
Proof.
  unfold initiator_handle_secretrequest. intros Hok. case_if; [by injection Hok as _ <- _|].
  apply bind_Ok in Hok as (l & _ & Hok). case_if; [by injection Hok as _ <- _|].
  case_if; [|by injection Hok as _ <- _].
  destruct (message_identifier_from_prng prng). by injection Hok as _ <- _.
Qed.

Lemma initiator_transition_evolves state sc c prng nr it c' prng' :
  initiator_state_transition state sc c prng nr = Ok (it, c', prng') -> evolves c c'.
Proof.
  unfold initiator_state_transition. intros Hok.
  destruct sc; try (injection Hok as _ <- _; reflexivity).
  - by eapply initiator_handle_block_evolves.
  - unfold initiator_handle_onchain_secretreveal in Hok. apply bind_Ok in Hok as (c1 & Hreg & Hok).
    assert (evolves c c1) as Hreg1.
    { destruct (is_valid_secret_reveal _ _ && _); [|by injection Hreg as <-]. apply evolves_step. intros _.
      eapply step_secret_onchain. exact Hreg. }
    destruct (_ && _ && _); [|by injection Hok as _ <- _].
    apply bind_Ok in Hok as ([[evs c2] prng2] & Hun & Hok). injection Hok as _ <- _.
    etransitivity; [exact Hreg1|]. by eapply events_for_unlock_lock_evolves.
  - apply initiator_secretrequest_evolves in Hok as ->. reflexivity.
  - unfold initiator_handle_offchain_secretreveal in Hok. case_if; [|by injection Hok as _ <- _].
    apply bind_Ok in Hok as ([[evs c2] prng2] & Hun & Hok). injection Hok as _ <- _.
    by eapply events_for_unlock_lock_evolves.
Qed.

(** ** Routes *)

(** The channel and the route that [choose_route] finds are usable. *)
Lemma choose_route_spec addrs chans td our_address rs exceeds ref c r exceeds' :
  choose_route addrs chans td our_address rs exceeds = Ok (Some (ref, c, r), exceeds') ->
  r ∈ rs /\ dict_get ref chans = Some c
  /\ exists hop amount limit,
       next_hop_of r our_address = Some hop
       /\ channel_by_address addrs chans (td_token_network_address td) hop = Some (ref, c)
       /\ calculate_safe_amount_with_fee (td_amount td) (estimated_fee r) = Ok amount
       /\ max_amount_limit (td_amount td) = Ok limit /\ amount <= limit
       /\ is_channel_usable_for_new_transfer c amount (td_lock_timeout td) = USABLE.
Proof.
  revert exceeds. induction rs as [|r1 rs IH]; intros exceeds Hok; cbn [choose_route] in Hok; [done|].
  match goal with |- ?G =>
    assert (forall e, choose_route addrs chans td our_address rs e = Ok (Some (ref, c, r), exceeds') -> G)
      as Hrest end.
  { intros e He. destruct (IH e He) as (Hin & Hrest). split; [by right|exact Hrest]. }
  destruct (next_hop_of r1 our_address) as [hop|] eqn:Hhop; [|by eapply Hrest].
  destruct (channel_by_address addrs chans _ hop) as [[ref1 c1]|] eqn:Hc; [|by eapply Hrest].
  apply bind_Ok in Hok as (amount & Ha & Hok). apply bind_Ok in Hok as (limit & Hl & Hok).
  destruct (limit <? amount) eqn:El; [by eapply Hrest|].
  case_if; [|by eapply Hrest]. injection Hok as <- <- <- <-. bool_hyps.
  split; [by left|]. split.
  - unfold channel_by_address in Hc. destruct (dict_get _ addrs) as [ref2|]; [|done].
    destruct (dict_get ref2 chans) eqn:E; by simplify_eq.
  - by exists hop, amount, limit.
Qed.

(** No channel of the node has a lock of ours with this secrethash. *)
Definition secrethash_fresh chans (sh : bytes) : Prop :=
  forall ref c, dict_get ref chans = Some c -> is_lock_pending (our_state c) sh = false.

Lemma try_new_route_evolves addrs chans rs td prng nr it chans' prng' :
  secrethash_fresh chans (td_secrethash td) ->
  try_new_route addrs chans rs td prng nr = Ok (it, chans', prng') -> store_evolves chans chans'.
Proof.
  unfold try_new_route. intros Hf Hok. apply bind_Ok in Hok as ([chosen exceeds] & Hch & Hok).
  destruct chosen as [[[ref c] r]|]; [|by injection Hok as _ <- _].
  destruct (any_our_address addrs chans) as [our|]; [|done].
  apply choose_route_spec in Hch as (_ & Hc & _).
  destruct (message_identifier_from_prng prng) as [mid prng1].
  apply bind_Ok in Hok as ([c' ev] & Hsend & Hok). injection Hok as _ <- _.
  eapply store_evolves_channel; [exact Hc|]. apply evolves_step. intros _.
  unfold initiator_send_lockedtransfer in Hsend. apply bind_Ok in Hsend as (? & _ & Hsend).
  apply bind_Ok in Hsend as (total & _ & Hsend).
  eapply step_send_transfer; [by eapply Hf|exact Hsend].
Qed.

(** ** The payment *)

Lemma subdispatch_evolves net payment sh state sc chans prng nr payment' evs chans' prng' :
  subdispatch_to_initiatortransfer net payment sh state sc chans prng nr
    = Ok (payment', evs, chans', prng') -> store_evolves chans chans'.
Proof.
  unfold subdispatch_to_initiatortransfer. intros Hok.
  destruct (channel_by_id net chans _) as [c|] eqn:Hc; [|by injection Hok as _ _ <- _].
  apply bind_Ok in Hok as ([[sub c'] prng1] & Hrun & Hok).
  apply bind_Ok in Hok as (ts & _ & Hok). injection Hok as _ _ <- _.
  eapply store_evolves_channel; [exact Hc|]. by eapply initiator_transition_evolves.
Qed.

(** What the node guarantees when it dispatches to the task of an initiator: a
    new transfer has a new secrethash, and the messages are well formed. *)
Definition manager_env (net : bytes) (ts : option InitiatorPaymentState) (sc : StateChange)
    chans (addrs : dict (bytes * bytes) ChannelRef) : Prop :=
  match sc with
  | SActionInitInitiator a => secrethash_fresh chans (td_secrethash (aii_transfer a))
  | SActionTransferReroute a =>
      let t := atr_transfer a in
      received_bp (lts_balance_proof t) /\ lock_valid (lts_lock t)
      /\ atr_secrethash a <> EMPTY_SECRETHASH /\ secrethash_fresh chans (atr_secrethash a)
      /\ forall payment state c, ts = Some payment ->
           dict_get (lock_secrethash (lts_lock t)) (ip_initiator_transfers payment) = Some state ->
           channel_by_id net chans (it_channel_identifier state) = Some c ->
           is_lock_pending (partner_state c) (lock_secrethash (lts_lock t)) = false
  | SReceiveLockExpired a => received_bp (rle_balance_proof a)
  | _ => True
  end.

Lemma receive_transfer_our c t md c' r :
  handle_receive_lockedtransfer c t md = Ok (c', r) -> our_state c' = our_state c.
Proof.
  unfold handle_receive_lockedtransfer. intros Hok. apply bind_Ok in Hok as ([[ok m] pl] & _ & Hok).
  destruct ok; py_inv; by simplify_eq.
Qed.

Lemma secrethash_fresh_store chans ref c c' sh :
  dict_get ref chans = Some c -> our_state c' = our_state c ->
  secrethash_fresh chans sh -> secrethash_fresh (store_channel ref c' chans) sh.
Proof.
  intros Hc Ho Hf ref1 c1 Hc1. unfold store_channel in Hc1. destruct (decide (ref1 = ref)) as [->|Hne].
  - rewrite dict_get_set_eq in Hc1. injection Hc1 as <-. rewrite Ho. by eapply Hf.
  - rewrite dict_get_set_ne in Hc1 by done. by eapply Hf.
Qed.

Lemma handle_transferreroute_evolves net payment a addrs chans prng nr it chans' prng' :
  manager_env net (Some payment) (SActionTransferReroute a) chans addrs ->
  handle_transferreroute net payment a addrs chans prng nr = Ok (it, chans', prng') ->
  store_evolves chans chans'.
Proof.
  intros (Hbp & Hv & Hne & Hf & Hpend) Hok. unfold handle_transferreroute in Hok.
  destruct (dict_get _ (ip_initiator_transfers payment)) as [state|] eqn:Es; [|by injection Hok as _ <- _].
  destruct (channel_by_id net chans _) as [c|] eqn:Ec; [|by injection Hok as _ <- _].
  apply bind_Ok in Hok as ([c' [[ok evs] m]] & Hrun & Hok).
  match type of Hok with context [store_channel ?ref c' chans] =>
    assert (store_evolves chans (store_channel ref c' chans)) as Hstep end.
  { eapply store_evolves_channel; [exact Ec|]. apply evolves_step. intros _.
    eapply step_receive_transfer; [exact Hbp|exact Hv| |exact Hrun]. by eapply Hpend. }
  case_if; [by injection Hok as _ <- _|].
  apply bind_Ok in Hok as ([[sub chans2] prng2] & Htry & Hok).
  assert (chans' = chans2) as -> by (destruct (new_state sub); by simplify_eq).
  etransitivity; [exact Hstep|]. eapply try_new_route_evolves; [|exact Htry].
  cbn. rewrite bool_decide_false by done. cbn.
  by eapply secrethash_fresh_store; [exact Ec|eapply receive_transfer_our|].
Qed.

Lemma manager_dispatch_evolves net ts sc addrs chans prng nr it chans' prng' :
  manager_env net ts sc chans addrs ->
  manager_dispatch net ts sc addrs chans prng nr = Ok (it, chans', prng') ->
  store_evolves chans chans'.
Proof.
  intros Henv Hok. unfold manager_dispatch in Hok.
  destruct sc; try (injection Hok as _ <- _; reflexivity).
  all: try (apply bind_Ok in Hok as (payment & Hp & Hok); apply assert_some_Ok in Hp as ->).
  - unfold subdispatch_to_all_initiatortransfer in Hok.
    apply bind_Ok in Hok as ([[[payment1 evs1] chans1] prng1] & Hrun & Hok). injection Hok as _ <- _.
    apply (py_foldl_inv (fun r => store_evolves chans r.1.2)) in Hrun; [done| |done].
    intros [[[payment2 evs2] chans2] prng2] sh s' _ Hs Hstep. cbn in Hs. unfold subdispatch_step in Hstep.
    destruct (dict_get sh _) as [state|]; [|done].
    apply bind_Ok in Hstep as ([[[payment3 evs3] chans3] prng3] & Hsub & Hstep).
    injection Hstep as <-. etransitivity; [exact Hs|]. by eapply subdispatch_evolves.
  - unfold handle_cancelpayment in Hok. apply bind_Ok in Hok as ([[x y] z] & _ & Hok).
    by injection Hok as _ <- _.
  - unfold manager_handle_onchain_secretreveal, handle_secretreveal in Hok.
    destruct (dict_get _ _) as [state|]; [|by injection Hok as _ <- _].
    apply bind_Ok in Hok as (? & _ & Hok).
    apply bind_Ok in Hok as ([[[p1 e1] c1] r1] & Hsub & Hok). injection Hok as _ <- _.
    by eapply subdispatch_evolves.
  - unfold manager_handle_init in Hok. destruct ts; [by injection Hok as _ <- _|].
    apply bind_Ok in Hok as ([[sub c1] r1] & Htry & Hok). injection Hok as _ <- _.
    by eapply try_new_route_evolves.
  - by eapply handle_transferreroute_evolves.
  - unfold handle_failroute in Hok. repeat case_match; try (by injection Hok as _ <- _).
    apply bind_Ok in Hok as ([x y] & _ & Hok). by injection Hok as _ <- _.
  - unfold manager_handle_lock_expired in Hok.
    destruct (dict_get _ _) as [state|]; [|by injection Hok as _ <- _].
    destruct (channel_by_id net chans _) as [c|] eqn:Ec; [|by injection Hok as _ <- _].
    apply bind_Ok in Hok as (res & Hrun & Hok). injection Hok as _ <- _.
    eapply store_evolves_channel; [exact Ec|]. apply evolves_step. intros _.
    eapply step_receive_expired; [exact Henv|exact Hrun].
  - unfold manager_handle_secretrequest in Hok.
    destruct (dict_get _ _) as [state|]; [|by injection Hok as _ <- _].
    case_if; [by injection Hok as _ <- _|].
    apply bind_Ok in Hok as ([[[p1 e1] c1] r1] & Hsub & Hok). injection Hok as _ <- _.
    by eapply subdispatch_evolves.
  - unfold manager_handle_offchain_secretreveal, handle_secretreveal in Hok.
    destruct (dict_get _ _) as [state|]; [|by injection Hok as _ <- _].
    apply bind_Ok in Hok as (? & _ & Hok).
    apply bind_Ok in Hok as ([[[p1 e1] c1] r1] & Hsub & Hok). injection Hok as _ <- _.
    by eapply subdispatch_evolves.
Qed.

Lemma manager_transition_evolves net ts sc addrs chans prng nr it chans' prng' :
  manager_env net ts sc chans addrs ->
  manager_state_transition net ts sc addrs chans prng nr = Ok (it, chans', prng') ->
  store_evolves chans chans'.
Proof.
  intros Henv Hok. unfold manager_state_transition in Hok.
  apply bind_Ok in Hok as ([[it1 chans1] prng1] & Hd & Hok). injection Hok as _ <- _.
  by eapply manager_dispatch_evolves.
Qed.

(** The initiator keeps the promise of a task. *)
#[export] Instance initiator_task : ChannelTask bytes InitiatorPaymentState.
Proof.
  refine {| task_transition net ts sc addrs chans prng nr hsh :=
              manager_state_transition net ts sc addrs chans prng nr;
            task_env := manager_env |}.
  intros * Henv. by apply manager_transition_evolves.
Defined.
End steps.
