(* ===== verification/InitiatorProofs.v ===== *)
(** Safety of the initiator: the secret leaves the node only for a valid request
    of the target, the next hop is paid only when it knows the secret and the
    lock has not expired, each transfer is paid at most once, and the fees stay
    within the limit. *)

From stdpp Require Import relations.
From S2P Require Import Prelude PyDict Bytes Crypto PyFloat MediationFee State Events.
From S2P Require Import StateChanges Channel ChannelValidation ChannelOps ChannelTransition.
From S2P Require Import ChannelLocks ChannelInvariant ChannelSend ChannelReceive ChannelMachine.
From S2P Require Import ChannelSystem TransferTasks TaskSteps Initiator InitiatorManager.
From S2P Require Import InitiatorSteps.

Section initiator.
Context `{CryptoLaws}.
Implicit Types (chans : Channels) (state : InitiatorTransferState) (payment : InitiatorPaymentState).

(** ** What leaves the node *)

(** An event that reveals the secret, pays the next hop or reports the payment
    as sent. *)
Definition discloses (e : Event) : bool :=
  match e with
  | ESendUnlock _ | ESendSecretReveal _ | EEventPaymentSentSuccess _ => true
  | _ => false
  end.

Definition quiet (evs : list Event) : Prop := Forall (fun e => discloses e = false) evs.

Lemma quiet_app l1 l2 : quiet (l1 ++ l2) <-> quiet l1 /\ quiet l2.
Proof. apply Forall_app. Qed.

Lemma quiet_elem evs e : quiet evs -> e ∈ evs -> discloses e = true -> False.
Proof. unfold quiet. rewrite Forall_forall. intros Hq He Hd. by rewrite (Hq e He) in Hd. Qed.

Lemma initiator_handle_block_quiet state a c prng it c' prng' :
  initiator_handle_block state a c prng = Ok (it, c', prng') -> quiet (events it).
Proof.
  unfold initiator_handle_block. intros Hok.
  destruct (dict_get (it_secrethash state) _) as [l|].
  2: { case_if; injection Hok as <- _ _; constructor. }
  case_if; [|injection Hok as <- _ _; constructor].
  apply bind_Ok in Hok as ([[evs c1] prng1] & Hrun & Hok). injection Hok as <- _ _. cbn.
  apply quiet_app. split; [|by repeat constructor].
  case_if; [|injection Hrun as <- _ _; constructor].
  apply bind_Ok in Hrun as ([[c2 evs2] prng2] & Hsend & Hrun). injection Hrun as <- _ _.
  apply Forall_forall. by intros e (x & -> & _)%list_elem_of_fmap.
Qed.

(** A request that the initiator answers with the secret. *)
Definition request_accepted state (a : ReceiveSecretRequest) (c : NettingChannelState) : Prop :=
  let td := it_transfer_description state in
  rsq_sender a = td_target td /\ rsq_secrethash a = td_secrethash td
  /\ rsq_payment_identifier a = td_payment_identifier td
  /\ td_amount td <= rsq_amount a /\ td_secret td <> ABSENT_SECRET
  /\ it_received_secret_request state = false
  /\ exists l, get_lock (our_state c) (td_secrethash td) = Some l
               /\ rsq_expiration a = lock_expiration l.

Lemma secretrequest_discloses state a c prng it c' prng' :
  initiator_handle_secretrequest state a c prng = Ok (it, c', prng') ->
  quiet (events it)
  \/ request_accepted state a c
     /\ (exists r, events it = [ESendSecretReveal r]
                   /\ ssr_secret r = td_secret (it_transfer_description state)
                   /\ sm_recipient (ssr_message r) = td_target (it_transfer_description state))
     /\ new_state it = Some (set_it_received_secret_request true
                               (set_it_transfer_state transfer_secret_revealed state)).
Proof.
  unfold initiator_handle_secretrequest. intros Hok. destruct (_ && _ && _) eqn:Hm; cbn in Hok.
  2: { injection Hok as <- _ _. left. constructor. }
  apply bind_Ok in Hok as (l & Hl & Hok). apply assert_some_Ok in Hl.
  destruct (it_received_secret_request state) eqn:Hreq; [injection Hok as <- _ _; left; constructor|].
  destruct ((td_amount _ <=? _) && _ && _) eqn:Hv.
  - right. destruct (message_identifier_from_prng prng) as [mid prng1]. injection Hok as <- _ _.
    bool_hyps. split; [|by split; [eexists|]]. unfold request_accepted. split_and!; try done.
    by exists l.
  - left. injection Hok as <- _ _. by repeat constructor.
Qed.

(** The events of a payment. *)
Lemma events_for_unlock_lock_events state c secret sh prng nr evs c' prng' :
  events_for_unlock_lock state c secret sh prng nr = Ok (evs, c', prng') ->
  is_Some (get_lock (our_state c) sh)
  /\ exists u s, evs = [ESendUnlock u; EEventPaymentSentSuccess s;
                        EEventUnlockSuccess (mkEventUnlockSuccess
                          (td_payment_identifier (it_transfer_description state))
                          (td_secrethash (it_transfer_description state)))]
       /\ su_payment_identifier u = td_payment_identifier (it_transfer_description state)
       /\ su_secret u = secret
       /\ pss_identifier s = td_payment_identifier (it_transfer_description state)
       /\ pss_amount s = td_amount (it_transfer_description state)
       /\ pss_target s = td_target (it_transfer_description state).
Proof.
  unfold events_for_unlock_lock. intros Hok. destruct (message_identifier_from_prng prng) as [mid prng1].
  apply bind_Ok in Hok as ([c1 u] & Hrun & Hok). injection Hok as <- _ _.
  unfold send_unlock in Hrun. apply bind_Ok in Hrun as (l & Hl & Hrun). apply assert_some_Ok in Hl.
  split; [by rewrite Hl|]. eexists u, _. split; [done|].
  apply bind_Ok in Hrun as ([c2 [u2 pl]] & Hcreate & Hrun).
  apply bind_Ok in Hrun as (e3 & _ & Hrun). injection Hrun as _ <-.
  unfold create_unlock in Hcreate. py_inv. subst. py_inv. by simplify_eq.
Qed.

(** A reveal on which the initiator pays: the transfer's own secrethash, an open
    channel, a lock that has not expired; off-chain it comes from the partner,
    on-chain it was registered before the expiration. *)
Definition reveal_accepted state (sc : StateChange) (c : NettingChannelState) (nr : Z)
    (secret : bytes) : Prop :=
  let sh := td_secrethash (it_transfer_description state) in
  let l := ltu_lock (it_transfer state) in
  get_status c = STATE_OPENED /\ is_Some (get_lock (our_state c) sh)
  /\ ((exists a, sc = SReceiveSecretReveal a /\ secret = rsr_secret a /\ rsr_secrethash a = sh
                 /\ rsr_sender a = address (partner_state c)
                 /\ so_ok (is_lock_expired (our_state c) l nr (lock_expiration l)) = false)
      \/ (exists a c1, sc = SContractReceiveSecretReveal a /\ secret = crsr_secret a
                 /\ crsr_secrethash a = sh /\ crsr_block_number a <= lock_expiration l
                 /\ register_onchain_secret c secret sh (crsr_block_number a) true = Ok c1
                 /\ so_ok (is_lock_expired (our_state c1) l nr (lock_expiration l)) = false)).

(** What a step of a transfer discloses. *)
Definition step_pays state (sc : StateChange) (c : NettingChannelState) (nr : Z)
    (it : TransitionResult (option InitiatorTransferState)) : Prop :=
  new_state it = None
  /\ exists secret u s e,
       reveal_accepted state sc c nr secret
       /\ events it = [ESendUnlock u; EEventPaymentSentSuccess s; EEventUnlockSuccess e]
       /\ su_secret u = secret
       /\ su_payment_identifier u = td_payment_identifier (it_transfer_description state)
       /\ pss_identifier s = td_payment_identifier (it_transfer_description state)
       /\ pss_amount s = td_amount (it_transfer_description state)
       /\ pss_target s = td_target (it_transfer_description state).

Lemma register_onchain_get_lock_our c secret sh block c1 sh' :
  solvent_inv c -> register_onchain_secret c secret sh block true = Ok c1 ->
  get_lock (our_state c1) sh' = get_lock (our_state c) sh'.
Proof.
  intros Hc Hrun. unfold register_onchain_secret in Hrun.
  apply bind_Ok in Hrun as (e1 & Ho & Hrun). apply bind_Ok in Hrun as (e2 & _ & Hrun).
  injection Hrun as <-. cbn.
  destruct (register_onchain_secret_endstate_index (our_state c) secret sh block) as (e & He & Hperm & _);
    [apply Hc|]. rewrite Ho in He. injection He as <-.
  rewrite !get_lock_index. symmetry. apply dict_get_perm; [|by symmetry].
  apply (index_wf _ _ (end_locks _ (inv_our _ c Hc))).
Qed.

Lemma initiator_transition_discloses state sc c prng nr it c' prng' :
  solvent_inv c ->
  initiator_state_transition state sc c prng nr = Ok (it, c', prng') ->
  quiet (events it)
  \/ (exists a r, sc = SReceiveSecretRequest a /\ request_accepted state a c
        /\ events it = [ESendSecretReveal r]
        /\ ssr_secret r = td_secret (it_transfer_description state)
        /\ sm_recipient (ssr_message r) = td_target (it_transfer_description state)
        /\ new_state it = Some (set_it_received_secret_request true
                                  (set_it_transfer_state transfer_secret_revealed state)))
  \/ step_pays state sc c nr it.
Proof.
  intros Hc Hok. unfold initiator_state_transition in Hok.
  destruct sc as [a| | | | | | | | | | | | |a| | | | | | | | | | | | | | | | |a|a|];
    try (injection Hok as <- _ _; left; constructor).
  - left. by eapply initiator_handle_block_quiet.
  - unfold initiator_handle_onchain_secretreveal in Hok. apply bind_Ok in Hok as (c1 & Hreg & Hok).
    destruct (is_valid_secret_reveal _ _ && _) eqn:Hv; cbn in Hok;
      [|injection Hok as <- _ _; left; constructor].
    destruct (bool_decide (get_status c = STATE_OPENED) && _) eqn:Hopen;
      [|injection Hok as <- _ _; left; constructor].
    apply bind_Ok in Hok as ([[evs c2] prng2] & Hun & Hok). injection Hok as <- _ _.
    unfold is_valid_secret_reveal in Hv. bool_hyps.
    apply events_for_unlock_lock_events in Hun as (Hlock & u & s & -> & E1 & E2 & E3).
    right. right. split; [done|]. exists (crsr_secret a), u, s. eexists. split; [|done].
    match goal with Hs : crsr_secrethash a = _ |- _ => rewrite Hs in Hlock end.
    rewrite (register_onchain_get_lock_our _ _ _ _ _ _ Hc Hreg) in Hlock.
    split; [done|]. split; [done|]. right. by exists a, c1.
  - apply secretrequest_discloses in Hok as [Hq|(Hacc & (r & He & Hs & Hrec) & Hnew)]; [by left|].
    right. left. by exists a, r.
  - unfold initiator_handle_offchain_secretreveal, is_valid_secret_reveal in Hok.
    destruct (_ && _ && _ && _) eqn:Hv; [|injection Hok as <- _ _; left; constructor]. bool_hyps.
    apply bind_Ok in Hok as ([[evs c2] prng2] & Hun & Hok). injection Hok as <- _ _.
    apply events_for_unlock_lock_events in Hun as (Hlock & u & s & -> & E1 & E2 & E3).
    right. right. split; [done|]. exists (rsr_secret a), u, s. eexists. split; [|done].
    match goal with Hs : rsr_secrethash a = _ |- _ => rewrite Hs in Hlock end.
    split; [done|]. split; [done|]. left. by exists a.
Qed.

(** ** The payment *)

(** A payment is well formed when the key of each of its transfers is the
    secrethash of its lock and of its description. *)
Definition payment_wf payment : Prop :=
  dict_wf (ip_initiator_transfers payment)
  /\ forall k state, dict_get k (ip_initiator_transfers payment) = Some state ->
       it_secrethash state = k /\ td_secrethash (it_transfer_description state) = k.

Lemma initiator_transition_keeps state sc c prng nr it c' prng' state' :
  initiator_state_transition state sc c prng nr = Ok (it, c', prng') ->
  new_state it = Some state' ->
  it_transfer state' = it_transfer state
  /\ it_transfer_description state' = it_transfer_description state
  /\ it_channel_identifier state' = it_channel_identifier state.
Proof.
  unfold initiator_state_transition. intros Hok Hn.
  destruct sc as [a| | | | | | | | | | | | |a| | | | | | | | | | | | | | | | |a|a|];
    try (injection Hok as <- _ _; by injection Hn as <-).
  - unfold initiator_handle_block in Hok. destruct (dict_get _ _) as [l|].
    2: { case_if; injection Hok as <- _ _; cbn in Hn; by simplify_eq. }
    case_if; [|injection Hok as <- _ _; cbn in Hn; by simplify_eq].
    apply bind_Ok in Hok as ([[evs c1] prng1] & _ & Hok). injection Hok as <- _ _. cbn in Hn.
    case_if; by simplify_eq.
  - unfold initiator_handle_onchain_secretreveal in Hok. apply bind_Ok in Hok as (c1 & _ & Hok).
    destruct (_ && _ && _); [|injection Hok as <- _ _; cbn in Hn; by simplify_eq].
    apply bind_Ok in Hok as ([[evs c2] prng2] & _ & Hok). injection Hok as <- _ _. done.
  - unfold initiator_handle_secretrequest in Hok. case_if; [injection Hok as <- _ _; cbn in Hn; by simplify_eq|].
    apply bind_Ok in Hok as (l & _ & Hok). case_if; [injection Hok as <- _ _; cbn in Hn; by simplify_eq|].
    case_if; [|injection Hok as <- _ _; cbn in Hn; by simplify_eq].
    destruct (message_identifier_from_prng prng). injection Hok as <- _ _. cbn in Hn. by simplify_eq.
  - unfold initiator_handle_offchain_secretreveal in Hok.
    case_if; [|injection Hok as <- _ _; cbn in Hn; by simplify_eq].
    apply bind_Ok in Hok as ([[evs c2] prng2] & _ & Hok). injection Hok as <- _ _. done.
Qed.

Lemma payment_wf_set payment k state :
  payment_wf payment -> it_secrethash state = k ->
  td_secrethash (it_transfer_description state) = k ->
  payment_wf (set_ip_initiator_transfers (dict_set k state (ip_initiator_transfers payment)) payment).
Proof.
  intros [Hwf Hk] H1 H2. split; [by apply dict_wf_set|]. intros k' s. cbn.
  destruct (decide (k' = k)) as [->|Hne].
  - rewrite dict_get_set_eq. by intros [= <-].
  - rewrite dict_get_set_ne by done. apply Hk.
Qed.

Lemma payment_wf_del payment k :
  payment_wf payment ->
  payment_wf (set_ip_initiator_transfers (dict_del k (ip_initiator_transfers payment)) payment)
  /\ dict_get k (dict_del k (ip_initiator_transfers payment)) = None.
Proof.
  intros [Hwf Hk]. split; [split; [by apply dict_wf_del|]|by apply dict_get_del_eq].
  intros k' s. cbn. destruct (decide (k' = k)) as [->|Hne].
  - by rewrite dict_get_del_eq.
  - rewrite dict_get_del_ne by done. apply Hk.
Qed.

(** One dispatch to a transfer of the payment: nothing, or a step of the
    transfer in its channel. *)
Lemma subdispatch_spec net payment k state sc chans prng nr payment' evs chans' prng' :
  payment_wf payment -> dict_get k (ip_initiator_transfers payment) = Some state ->
  subdispatch_to_initiatortransfer net payment k state sc chans prng nr
    = Ok (payment', evs, chans', prng') ->
  payment_wf payment'
  /\ (payment' = payment /\ evs = []
      \/ exists c it c', channel_by_id net chans (it_channel_identifier state) = Some c
           /\ initiator_state_transition state sc c prng nr = Ok (it, c', prng') /\ evs = events it
           /\ (forall state', new_state it = Some state' ->
                 payment' = set_ip_initiator_transfers
                              (dict_set k state' (ip_initiator_transfers payment)) payment)
           /\ (new_state it = None ->
                 payment' = set_ip_initiator_transfers
                              (dict_del k (ip_initiator_transfers payment)) payment
                 /\ dict_get k (ip_initiator_transfers payment') = None)).
Proof.
  intros Hwf Hk Hok. unfold subdispatch_to_initiatortransfer in Hok.
  destruct (channel_by_id net chans _) as [c|] eqn:Hc.
  2: { injection Hok as <- <- <- <-. split; [done|]. by left. }
  apply bind_Ok in Hok as ([[it c'] prng1] & Hrun & Hok).
  apply bind_Ok in Hok as (ts & Hts & Hok). injection Hok as <- <- <- <-.
  destruct (proj2 Hwf k state Hk) as [H1 H2].
  destruct (new_state it) as [state'|] eqn:Hn.
  - injection Hts as <-. destruct (initiator_transition_keeps _ _ _ _ _ _ _ _ _ Hrun Hn) as (E1 & E2 & _).
    split.
    + apply payment_wf_set; [done| |by rewrite E2]. unfold it_secrethash. by rewrite E1.
    + right. exists c, it, c'. split_and!; [done..| |].
      * intros s Hs. rewrite Hn in Hs. by injection Hs as <-.
      * intros Hs. by rewrite Hn in Hs.
  - rewrite H1 in Hts. unfold dict_del_checked, dict_mem in Hts. rewrite Hk in Hts. injection Hts as <-.
    destruct (payment_wf_del payment k Hwf) as [Hd Hnone]. split; [done|].
    right. exists c, it, c'. split_and!; [done..| |done]. intros s Hs. by rewrite Hn in Hs.
Qed.

Lemma payment_wf_cancel_others payment :
  payment_wf payment -> payment_wf (cancel_other_transfers payment).
Proof.
  intros [Hwf Hk]. unfold payment_wf, cancel_other_transfers, dict_wf.
  cbn [ip_initiator_transfers set_ip_initiator_transfers]. rewrite dict_keys_map_values.
  split; [done|]. intros k s. rewrite dict_get_map_values. destruct (dict_get k _) as [s0|] eqn:E; [|done].
  intros [= <-]. exact (Hk k s0 E).
Qed.

Lemma send_lockedtransfer_keys td c mid nr r rs c' ev :
  initiator_send_lockedtransfer td c mid nr r rs = Ok (c', ev) ->
  lock_secrethash (ltu_lock (slt_transfer ev)) = td_secrethash td.
Proof.
  unfold initiator_send_lockedtransfer. intros Hok. apply bind_Ok in Hok as (? & _ & Hok).
  apply bind_Ok in Hok as (total & _ & Hok).
  by apply send_lockedtransfer_transfer in Hok as (-> & _).
Qed.

Lemma try_new_route_keys addrs chans rs td prng nr it chans' prng' state :
  try_new_route addrs chans rs td prng nr = Ok (it, chans', prng') -> new_state it = Some state ->
  it_secrethash state = td_secrethash td /\ it_transfer_description state = td.
Proof.
  unfold try_new_route. intros Hok Hn. apply bind_Ok in Hok as ([chosen exceeds] & _ & Hok).
  destruct chosen as [[[ref c] r]|]; [|by injection Hok as <- _ _].
  destruct (message_identifier_from_prng prng) as [mid prng1].
  apply bind_Ok in Hok as ([c' ev] & Hsend & Hok). injection Hok as <- _ _. injection Hn as <-.
  split; [|done]. by eapply send_lockedtransfer_keys.
Qed.

Lemma try_new_route_quiet addrs chans rs td prng nr it chans' prng' :
  try_new_route addrs chans rs td prng nr = Ok (it, chans', prng') -> quiet (events it).
Proof.
  unfold try_new_route. intros Hok. apply bind_Ok in Hok as ([chosen exceeds] & _ & Hok).
  destruct chosen as [[[ref c] r]|]; [|injection Hok as <- _ _; by repeat constructor].
  destruct (message_identifier_from_prng prng) as [mid prng1].
  apply bind_Ok in Hok as ([c' ev] & Hsend & Hok). injection Hok as <- _ _. by repeat constructor.
Qed.

Lemma cancel_transfers_spec net chans transfers : forall cancelled evs cancelled' evs' transfers',
  cancel_transfers net chans cancelled evs transfers = Ok (cancelled', evs', transfers') ->
  dict_keys transfers' = dict_keys transfers
  /\ (forall k state', dict_get k transfers' = Some state' ->
        exists state, dict_get k transfers = Some state /\ it_transfer state' = it_transfer state
          /\ it_transfer_description state' = it_transfer_description state)
  /\ (quiet evs -> quiet evs').
Proof.
  induction transfers as [|[k0 state] rest IH]; intros cancelled evs cancelled' evs' transfers' Hok;
    cbn [cancel_transfers] in Hok; [by injection Hok as <- <- <-|].
  apply bind_Ok in Hok as ([[cancelled1 evs1] state1] & Hstep & Hok).
  apply bind_Ok in Hok as ([[cancelled2 evs2] rest'] & Hrest & Hok). injection Hok as <- <- <-.
  apply IH in Hrest as (Hkeys & Hget & Hq).
  assert (it_transfer state1 = it_transfer state
    /\ it_transfer_description state1 = it_transfer_description state /\ (quiet evs -> quiet evs1))
    as (E1 & E2 & Hq1).
  { destruct (channel_by_id net chans _) as [c|]; [|by injection Hstep as _ <- <-].
    case_if; [|by injection Hstep as _ <- <-].
    apply bind_Ok in Hstep as ([cs evs3] & Hcancel & Hstep). injection Hstep as _ <- <-.
    split; [done|]. split; [done|]. intros Hqe. rewrite !quiet_app. split; [done|].
    unfold cancel_current_route in Hcancel. apply bind_Ok in Hcancel as (? & _ & Hcancel).
    injection Hcancel as _ <-. split; by repeat constructor. }
  split; [cbn; f_equal; exact Hkeys|]. split; [|by auto].
  intros k state'. cbn. case_decide; [|apply Hget]. intros [= <-]. by exists state.
Qed.

Lemma handle_transferreroute_spec net payment a addrs chans prng nr it chans' prng' :
  payment_wf payment -> atr_secrethash a <> EMPTY_SECRETHASH ->
  handle_transferreroute net payment a addrs chans prng nr = Ok (it, chans', prng') ->
  quiet (events it) /\ exists payment', new_state it = Some payment' /\ payment_wf payment'.
Proof.
  intros Hwf Hne Hok. unfold handle_transferreroute in Hok.
  destruct (dict_get _ (ip_initiator_transfers payment)) as [state|] eqn:Es.
  2: { injection Hok as <- _ _. split; [constructor|by exists payment]. }
  destruct (channel_by_id net chans _) as [c|] eqn:Ec.
  2: { injection Hok as <- _ _. split; [constructor|by exists payment]. }
  apply bind_Ok in Hok as ([c' [[ok evs] m]] & Hrun & Hok).
  case_if; [injection Hok as <- _ _; split; [constructor|by exists payment]|].
  apply bind_Ok in Hok as ([[sub chans2] prng2] & Htry & Hok).
  assert (quiet (evs ++ events sub)) as Hq.
  { apply quiet_app. split; [|by eapply try_new_route_quiet].
    unfold handle_receive_lockedtransfer in Hrun. apply bind_Ok in Hrun as ([[ok1 m1] pl] & _ & Hrun).
    destruct ok1; py_inv; simplify_eq; by repeat constructor. }
  destruct (new_state sub) as [state'|] eqn:Hn; injection Hok as <- _ _; (split; [done|]).
  - eexists. split; [done|]. destruct (try_new_route_keys _ _ _ _ _ _ _ _ _ _ Htry Hn) as [E1 E2].
    apply payment_wf_set; [done|done|]. by rewrite E2, E1.
  - by exists payment.
Qed.

(** The payment answers a secret request. *)
Definition payment_reveals (net : bytes) (ts : option InitiatorPaymentState) (sc : StateChange)
    chans (it : TransitionResult (option InitiatorPaymentState)) : Prop :=
  exists payment a state c r,
    ts = Some payment /\ sc = SReceiveSecretRequest a
    /\ dict_get (rsq_secrethash a) (ip_initiator_transfers payment) = Some state
    /\ it_transfer_state state <> transfer_cancelled
    /\ channel_by_id net chans (it_channel_identifier state) = Some c
    /\ request_accepted state a c
    /\ events it = [ESendSecretReveal r]
    /\ ssr_secret r = td_secret (it_transfer_description state)
    /\ sm_recipient (ssr_message r) = td_target (it_transfer_description state)
    /\ new_state it
       = Some (set_ip_initiator_transfers
                 (dict_set (rsq_secrethash a)
                    (set_it_received_secret_request true
                       (set_it_transfer_state transfer_secret_revealed state))
                    (ip_initiator_transfers payment)) payment).

(** The payment pays the next hop of one of its transfers. *)
Definition payment_pays (net : bytes) (ts : option InitiatorPaymentState) (sc : StateChange)
    chans (nr : Z) (it : TransitionResult (option InitiatorPaymentState)) : Prop :=
  exists payment k state c secret u s e,
    ts = Some payment /\ dict_get k (ip_initiator_transfers payment) = Some state
    /\ it_transfer_state state <> transfer_cancelled
    /\ channel_by_id net chans (it_channel_identifier state) = Some c
    /\ reveal_accepted state sc c nr secret
    /\ events it = [ESendUnlock u; EEventPaymentSentSuccess s; EEventUnlockSuccess e]
    /\ su_secret u = secret
    /\ su_payment_identifier u = td_payment_identifier (it_transfer_description state)
    /\ pss_identifier s = td_payment_identifier (it_transfer_description state)
    /\ pss_amount s = td_amount (it_transfer_description state)
    /\ pss_target s = td_target (it_transfer_description state)
    /\ new_state it
       = Some (cancel_other_transfers
                 (set_ip_initiator_transfers (dict_del k (ip_initiator_transfers payment)) payment)).

(** What a step of a payment does: it keeps the payment well formed, and it
    discloses something only in one of the two ways. *)
Definition payment_handled (net : bytes) (ts : option InitiatorPaymentState) (sc : StateChange)
    chans (nr : Z) (it : TransitionResult (option InitiatorPaymentState)) : Prop :=
  (forall payment', new_state it = Some payment' -> payment_wf payment')
  /\ (quiet (events it) \/ payment_reveals net ts sc chans it \/ payment_pays net ts sc chans nr it).

Lemma payment_handled_quiet net ts sc chans nr payment evs :
  payment_wf payment -> quiet evs ->
  payment_handled net ts sc chans nr (mkTransitionResult (Some payment) evs).
Proof. intros Hwf Hq. split; [by intros ? [= <-]|by left]. Qed.

Lemma block_loop_spec net a chans prng nr keys : forall payment evs r,
  payment_wf payment -> quiet evs ->
  py_foldl (subdispatch_step net (SBlock a) nr) (payment, evs, chans, prng) keys = Ok r ->
  payment_wf r.1.1.1 /\ quiet r.1.1.2.
Proof.
  intros payment evs r Hwf Hq Hrun.
  apply (py_foldl_inv (fun r => payment_wf r.1.1.1 /\ quiet r.1.1.2)) in Hrun; [done| |done].
  intros [[[payment1 evs1] chans1] prng1] k s' _ [Hwf1 Hq1] Hstep. cbn in Hwf1, Hq1.
  unfold subdispatch_step in Hstep. destruct (dict_get k _) as [state|] eqn:Ek; [|done].
  apply bind_Ok in Hstep as ([[[payment2 evs2] chans2] prng2] & Hsub & Hstep). injection Hstep as <-.
  destruct (subdispatch_spec _ _ _ _ _ _ _ _ _ _ _ _ Hwf1 Ek Hsub) as [Hwf2 Hcase]. split; [done|].
  apply quiet_app. split; [done|]. destruct Hcase as [[_ ->]|(c & it & c' & _ & Hinit & -> & _)];
    [constructor|]. by eapply initiator_handle_block_quiet.
Qed.

Lemma secretreveal_handled net payment k sc msg chans prng nr it chans' prng' :
  store_solvent chans -> payment_wf payment ->
  (forall a, sc <> SReceiveSecretRequest a) ->
  handle_secretreveal net payment k sc msg chans prng nr = Ok (it, chans', prng') ->
  payment_handled net (Some payment) sc chans nr it.
Proof.
  intros Hs Hwf Hsc Hok. unfold handle_secretreveal in Hok.
  destruct (dict_get k _) as [state|] eqn:Ek.
  2: { injection Hok as <- _ _. by apply payment_handled_quiet; [|constructor]. }
  apply bind_Ok in Hok as (? & Hassert & Hok). apply py_assert_Ok in Hassert. bool_hyps.
  apply bind_Ok in Hok as ([[[payment1 evs1] chans1] prng1] & Hsub & Hok). injection Hok as <- _ _.
  destruct (subdispatch_spec _ _ _ _ _ _ _ _ _ _ _ _ Hwf Ek Hsub) as [Hwf1 Hcase].
  split. { intros p [= <-]. case_if; [by apply payment_wf_cancel_others|done]. }
  destruct Hcase as [[-> ->]|(c & sub & c' & Hc & Hinit & -> & Hkeep & Hdel)]; [left; constructor|].
  destruct (initiator_transition_discloses _ _ _ _ _ _ _ _ (Hs _ _ Hc) Hinit)
    as [Hq|[(a & r & -> & _)|(Hnone & secret & u & s & e & Hacc & Hev & E1 & E2 & E3 & E4 & E5)]].
  - by left.
  - by destruct (Hsc a).
  - right. right. destruct (Hdel Hnone) as [-> Hgone].
    exists payment, k, state, c, secret, u, s, e. split_and!; try done. cbn.
    unfold transfer_exists, dict_mem. by rewrite Hgone.
Qed.

Lemma secretrequest_handled net payment a chans prng nr it chans' prng' :
  store_solvent chans -> payment_wf payment ->
  manager_handle_secretrequest net payment a chans prng nr = Ok (it, chans', prng') ->
  payment_handled net (Some payment) (SReceiveSecretRequest a) chans nr it.
Proof.
  intros Hs Hwf Hok. unfold manager_handle_secretrequest in Hok.
  destruct (dict_get (rsq_secrethash a) _) as [state|] eqn:Ek.
  2: { injection Hok as <- _ _. by apply payment_handled_quiet; [|constructor]. }
  case_if; [injection Hok as <- _ _; by apply payment_handled_quiet; [|constructor]|]. bool_hyps.
  apply bind_Ok in Hok as ([[[payment1 evs1] chans1] prng1] & Hsub & Hok). injection Hok as <- _ _.
  destruct (subdispatch_spec _ _ _ _ _ _ _ _ _ _ _ _ Hwf Ek Hsub) as [Hwf1 Hcase].
  split; [by intros p [= <-]|].
  destruct Hcase as [[-> ->]|(c & sub & c' & Hc & Hinit & -> & Hkeep & Hdel)]; [left; constructor|].
  destruct (initiator_transition_discloses _ _ _ _ _ _ _ _ (Hs _ _ Hc) Hinit)
    as [Hq|[(a' & r & [= <-] & Hacc & Hev & E1 & E2 & Hn)|(_ & secret & u & s & e & Hacc & _)]].
  - by left.
  - right. left. exists payment, a, state, c, r. split_and!; try done. cbn. by rewrite (Hkeep _ Hn).
  - destruct Hacc as (_ & _ & [(? & ? & _)|(? & ? & ? & _)]); done.
Qed.

(** A new transfer has a secrethash of its own. *)
Definition reroute_ok (sc : StateChange) : Prop :=
  match sc with SActionTransferReroute a => atr_secrethash a <> EMPTY_SECRETHASH | _ => True end.

Lemma manager_dispatch_handled net ts sc addrs chans prng nr it chans' prng' :
  store_solvent chans -> (forall payment, ts = Some payment -> payment_wf payment) -> reroute_ok sc ->
  manager_dispatch net ts sc addrs chans prng nr = Ok (it, chans', prng') ->
  payment_handled net ts sc chans nr it.
Proof.
  intros Hs Hwf Hre Hok. unfold manager_dispatch in Hok.
  destruct sc; try (injection Hok as <- _ _; split; [exact Hwf|left; constructor]).
  all: try (apply bind_Ok in Hok as (payment & Hp & Hok); apply assert_some_Ok in Hp as ->;
            specialize (Hwf payment eq_refl)).
  - unfold subdispatch_to_all_initiatortransfer in Hok.
    apply bind_Ok in Hok as ([[[payment1 evs1] chans1] prng1] & Hrun & Hok). injection Hok as <- _ _.
    apply block_loop_spec in Hrun as [Hwf1 Hq]; [|done|constructor]. by apply payment_handled_quiet.
  - unfold handle_cancelpayment in Hok.
    apply bind_Ok in Hok as ([[cancelled evs] transfers] & Hrun & Hok). injection Hok as <- _ _.
    apply cancel_transfers_spec in Hrun as (Hkeys & Hget & Hq).
    apply payment_handled_quiet; [|by apply Hq; constructor]. split.
    + change (NoDup (dict_keys transfers)). rewrite Hkeys. apply Hwf.
    + intros k state' Hg. destruct (Hget k state' Hg) as (state & Hg0 & E1 & E2).
      unfold it_secrethash. rewrite E1, E2. by apply Hwf.
  - by eapply secretreveal_handled.
  - unfold manager_handle_init in Hok.
    destruct ts as [payment|]; [injection Hok as <- _ _; by apply payment_handled_quiet; [apply Hwf|constructor]|].
    apply bind_Ok in Hok as ([[sub c1] r1] & Htry & Hok). injection Hok as <- _ _.
    split; [|left; by eapply try_new_route_quiet]. cbn. intros payment'.
    destruct (new_state sub) as [state|] eqn:Hn; [|done]. intros [= <-].
    destruct (try_new_route_keys _ _ _ _ _ _ _ _ _ _ Htry Hn) as [E1 E2].
    split; [apply NoDup_singleton|]. intros k s1. cbn. case_decide as Hk; [|done]. intros [= <-].
    by rewrite E2, <- E1, Hk.
  - destruct (handle_transferreroute_spec _ _ _ _ _ _ _ _ _ _ Hwf Hre Hok) as (Hq & p' & Hn & Hwf').
    split; [|by left]. intros p. rewrite Hn. by intros [= <-].
  - unfold handle_failroute in Hok. destruct (dict_get _ _) as [state|].
    2: { injection Hok as <- _ _. by apply payment_handled_quiet; [|constructor]. }
    case_if; [|injection Hok as <- _ _; by apply payment_handled_quiet; [|constructor]].
    apply bind_Ok in Hok as ([cs evs] & Hcancel & Hok). injection Hok as <- _ _.
    apply payment_handled_quiet; [exact Hwf|]. unfold cancel_current_route in Hcancel.
    apply bind_Ok in Hcancel as (? & _ & Hcancel). injection Hcancel as _ <-. by repeat constructor.
  - unfold manager_handle_lock_expired in Hok.
    destruct (dict_get _ _) as [state|].
    2: { injection Hok as <- _ _. by apply payment_handled_quiet; [|constructor]. }
    destruct (channel_by_id net chans _) as [c|] eqn:Ec.
    2: { injection Hok as <- _ _. by apply payment_handled_quiet; [|constructor]. }
    apply bind_Ok in Hok as (res & Hrun & Hok). injection Hok as <- _ _.
    apply payment_handled_quiet; [exact Hwf|]. apply quiet_app. split; [|case_match; by repeat constructor].
    unfold handle_receive_lock_expired in Hrun. apply bind_Ok in Hrun as ([[ok m] pl] & _ & Hrun).
    destruct ok; py_inv; subst res; by repeat constructor.
  - by eapply secretrequest_handled.
  - by eapply secretreveal_handled.
Qed.

(** ** The theorems *)

Lemma cleared_events it : events (initiator_clear_if_finalized it) = events it.
Proof. unfold initiator_clear_if_finalized. by repeat case_match. Qed.

Lemma cleared_state it payment :
  new_state (initiator_clear_if_finalized it) = Some payment <->
  new_state it = Some payment /\ ip_initiator_transfers payment <> [].
Proof.
  unfold initiator_clear_if_finalized. destruct (new_state it) as [p|] eqn:E.
  - destruct (Nat.eqb _ 0) eqn:En; cbn; [apply Nat.eqb_eq in En|apply Nat.eqb_neq in En].
    + split; [done|]. intros [[= ->] Hne]. by apply nil_length_inv in En.
    + rewrite E. split; [|by intros [-> _]]. intros [= ->]. split; [done|]. intros Hnil.
      by rewrite Hnil in En.
  - rewrite E. by split; [|intros [? _]].
Qed.

(** C28: the payments of an initiator stay well formed.  After a step the key of
    each transfer of the payment is the secrethash of its lock and of its
    description, no key occurs twice, and a payment without transfers is
    cleared. *)
Theorem initiator_payment_well_formed net ts sc addrs chans prng nr iteration chans' prng' payment'
    (Hs : store_solvent chans) (Hwf : forall payment, ts = Some payment -> payment_wf payment)
    (Hre : reroute_ok sc)
    (Hrun : manager_state_transition net ts sc addrs chans prng nr = Ok (iteration, chans', prng'))
    (Hnew : new_state iteration = Some payment') :
  payment_wf payment' /\ ip_initiator_transfers payment' <> [].
Proof.
  unfold manager_state_transition in Hrun.
  apply bind_Ok in Hrun as ([[it chans1] prng1] & Hd & Hrun). injection Hrun as <- _ _.
  apply cleared_state in Hnew as [Hnew Hne]. split; [|done].
  by apply (manager_dispatch_handled _ _ _ _ _ _ _ _ _ _ Hs Hwf Hre Hd).
Qed.

(** C29: the secret leaves the node only for a valid request.  When a step of a
    payment reveals a secret, it handles the first secret request for one of
    its transfers that is not cancelled; the request comes from the target,
    names the payment, an amount that is at least the one to be paid, and the
    expiration of the lock that is pending in the transfer's channel.  The
    secret is the one of the transfer, it goes to the target, and from then on
    the transfer counts as revealed. *)
Theorem initiator_reveals_only_on_request net ts sc addrs chans prng nr iteration chans' prng' r
    (Hs : store_solvent chans) (Hwf : forall payment, ts = Some payment -> payment_wf payment)
    (Hre : reroute_ok sc)
    (Hrun : manager_state_transition net ts sc addrs chans prng nr = Ok (iteration, chans', prng'))
    (Hr : ESendSecretReveal r ∈ events iteration) :
  exists payment payment' a state c,
    ts = Some payment /\ sc = SReceiveSecretRequest a
    /\ dict_get (rsq_secrethash a) (ip_initiator_transfers payment) = Some state
    /\ it_transfer_state state <> transfer_cancelled
    /\ channel_by_id net chans (it_channel_identifier state) = Some c
    /\ request_accepted state a c
    /\ ssr_secret r = td_secret (it_transfer_description state)
    /\ sm_recipient (ssr_message r) = td_target (it_transfer_description state)
    /\ new_state iteration = Some payment'
    /\ dict_get (rsq_secrethash a) (ip_initiator_transfers payment')
       = Some (set_it_received_secret_request true
                 (set_it_transfer_state transfer_secret_revealed state)).
Proof.
  unfold manager_state_transition in Hrun.
  apply bind_Ok in Hrun as ([[it chans1] prng1] & Hd & Hrun). injection Hrun as <- _ _.
  rewrite cleared_events in Hr.
  destruct (manager_dispatch_handled _ _ _ _ _ _ _ _ _ _ Hs Hwf Hre Hd) as [_ [Hq|[Hrev|Hpay]]].
  - exfalso. by eapply quiet_elem.
  - destruct Hrev as (payment & a & state & c & r' & -> & -> & Hk & Hnc & Hc & Hacc & Hev & E1 & E2 & Hn).
    rewrite Hev in Hr. apply list_elem_of_singleton in Hr as [= ->].
    eexists payment, _, a, state, c. split_and!; try done.
    + apply cleared_state. split; [exact Hn|]. cbn. intros Hnil.
      assert (dict_get (rsq_secrethash a)
        (dict_set (rsq_secrethash a) (set_it_received_secret_request true
          (set_it_transfer_state transfer_secret_revealed state)) (ip_initiator_transfers payment))
        = None) as Hx by (by rewrite Hnil). by rewrite dict_get_set_eq in Hx.
    + cbn. by rewrite dict_get_set_eq.
  - destruct Hpay as (payment & k & state & c & secret & u & s & e & _ & _ & _ & _ & _ & Hev & _).
    rewrite Hev in Hr. rewrite !elem_of_cons, elem_of_nil in Hr. by destruct Hr as [?|[?|[?|?]]].
Qed.

(** C30: a transfer is paid once and only to a next hop that knows the secret.
    When a step of a payment sends an unlock or reports the payment as sent,
    the secret of one of its transfers was revealed: by the next hop itself
    while the channel was open and the lock had not expired, or on-chain before
    the expiration.  The step pays exactly this transfer, reports its amount
    and target, removes it from the payment and cancels all the others. *)
Theorem initiator_pays_once net ts sc addrs chans prng nr iteration chans' prng' ev
    (Hs : store_solvent chans) (Hwf : forall payment, ts = Some payment -> payment_wf payment)
    (Hre : reroute_ok sc)
    (Hrun : manager_state_transition net ts sc addrs chans prng nr = Ok (iteration, chans', prng'))
    (Hev : ev ∈ events iteration)
    (Hpay : match ev with ESendUnlock _ | EEventPaymentSentSuccess _ => True | _ => False end) :
  exists payment k state c u s e,
    ts = Some payment /\ dict_get k (ip_initiator_transfers payment) = Some state
    /\ it_transfer_state state <> transfer_cancelled
    /\ channel_by_id net chans (it_channel_identifier state) = Some c
    /\ reveal_accepted state sc c nr (su_secret u)
    /\ events iteration = [ESendUnlock u; EEventPaymentSentSuccess s; EEventUnlockSuccess e]
    /\ su_payment_identifier u = td_payment_identifier (it_transfer_description state)
    /\ pss_identifier s = td_payment_identifier (it_transfer_description state)
    /\ pss_amount s = td_amount (it_transfer_description state)
    /\ pss_target s = td_target (it_transfer_description state)
    /\ (forall payment' k' state', new_state iteration = Some payment' ->
          dict_get k' (ip_initiator_transfers payment') = Some state' ->
          k' <> k /\ it_transfer_state state' = transfer_cancelled).
Proof.
  unfold manager_state_transition in Hrun.
  apply bind_Ok in Hrun as ([[it chans1] prng1] & Hd & Hrun). injection Hrun as <- _ _.
  rewrite cleared_events in Hev.
  destruct (manager_dispatch_handled _ _ _ _ _ _ _ _ _ _ Hs Hwf Hre Hd) as [_ [Hq|[Hrev|Hp]]].
  - exfalso. eapply quiet_elem; [exact Hq|exact Hev|]. by destruct ev.
  - destruct Hrev as (payment & a & state & c & r' & _ & _ & _ & _ & _ & _ & Hevs & _).
    rewrite Hevs in Hev. by apply list_elem_of_singleton in Hev as ->.
  - destruct Hp as (payment & k & state & c & secret & u & s & e & -> & Hk & Hnc & Hc & Hacc & Hevs
                    & <- & E2 & E3 & E4 & E5 & Hn).
    exists payment, k, state, c, u, s, e. rewrite cleared_events. split_and!; try done.
    intros payment' k' state' [Hn' _]%cleared_state Hk'. rewrite Hn in Hn'. injection Hn' as <-.
    unfold cancel_other_transfers in Hk'. cbn [ip_initiator_transfers set_ip_initiator_transfers] in Hk'.
    rewrite dict_get_map_values in Hk'. split.
    + intros ->. rewrite dict_get_del_eq in Hk' by apply (Hwf _ eq_refl). done.
    + destruct (dict_get k' _); [|done]. by injection Hk' as <-.
Qed.

(** C31: a new transfer stays within the limit of the fees.  When
    [try_new_route] starts a transfer, it uses one of the candidate routes, whose
    channel is usable for the amount with its fees; this amount is what gets
    locked and is at most the payment's amount with the maximal fees; the lock
    has the secrethash of the payment and no channel but the one of the route
    changes.  Otherwise it reports the failure and changes nothing. *)
Theorem new_transfer_within_limit addrs chans rs td prng nr iteration chans' prng'
    (Hrun : try_new_route addrs chans rs td prng nr = Ok (iteration, chans', prng')) :
  match new_state iteration with
  | None =>
      chans' = chans /\ prng' = prng
      /\ exists reason, events iteration
           = [EEventPaymentSentFailed (mkEventPaymentSentFailed (td_token_network_registry_address td)
                (td_token_network_address td) (td_payment_identifier td) (td_target td) reason)]
  | Some state =>
      exists ref c c' amount limit ev,
        it_route state ∈ rs /\ it_transfer_description state = td
        /\ it_transfer_state state = transfer_pending /\ it_received_secret_request state = false
        /\ dict_get ref chans = Some c /\ chans' = store_channel ref c' chans
        /\ is_channel_usable_for_new_transfer c amount (td_lock_timeout td) = USABLE
        /\ calculate_safe_amount_with_fee (td_amount td) (estimated_fee (it_route state)) = Ok amount
        /\ max_amount_limit (td_amount td) = Ok limit /\ amount <= limit
        /\ events iteration = [ESendLockedTransfer ev] /\ slt_transfer ev = it_transfer state
        /\ ltu_lock (it_transfer state)
           = mkHashTimeLockState amount
               (get_safe_initial_expiration nr (reveal_timeout c) (td_lock_timeout td))
               (td_secrethash td)
  end.
Proof.
  unfold try_new_route in Hrun. apply bind_Ok in Hrun as ([chosen exceeds] & Hch & Hrun).
  destruct chosen as [[[ref c] r]|].
  2: { injection Hrun as <- <- <-. cbn. split; [done|]. split; [done|]. by eexists. }
  destruct (any_our_address addrs chans) as [our|]; [|done].
  apply choose_route_spec in Hch as (Hr & Hc & hop & amount & limit & _ & _ & Ha & Hl & Hle & Hu).
  destruct (message_identifier_from_prng prng) as [mid prng1].
  apply bind_Ok in Hrun as ([c' ev] & Hsend & Hrun). injection Hrun as <- <- _. cbn.
  unfold initiator_send_lockedtransfer in Hsend. apply bind_Ok in Hsend as (? & _ & Hsend).
  rewrite Ha in Hsend. apply send_lockedtransfer_transfer in Hsend as (Hlock & _).
  exists ref, c, c', amount, limit, ev. by split_and!.
Qed.
End initiator.
