(* ===== verification/Node.v ===== *)
(** The node ([transfer/node.py]): it dispatches a state change to the token
    networks, the channels and the tasks of the transfers, and keeps the queues
    of the messages and of the transactions.

    The objects of the channels are reachable from the token networks and from
    the tasks.  [chain_channels] is the store of these objects that the tasks
    work on, and [put_channels] writes their changes back. *)

From S2P Require Import Prelude PyDict Bytes Crypto PyFloat MediationFee State Events.
From S2P Require Import StateChanges Channel ChannelValidation ChannelOps ChannelTransition.
From S2P Require Import TokenNetwork TransferTasks Target Mediator Initiator InitiatorManager.

(** ** Tasks *)

Inductive TransferRole : Type := INITIATOR | MEDIATOR | TARGET.

Inductive TransferTask : Type :=
  | InitiatorTask (token_network_address : bytes) (manager_state : InitiatorPaymentState)
  | MediatorTask (token_network_address : bytes) (mediator_state : MediatorTransferState)
  | TargetTask (canonical_identifier : CanonicalIdentifier) (target_state : TargetTransferState).

(** [TransferTask.role] *)
Definition role (t : TransferTask) : TransferRole :=
  match t with
  | InitiatorTask _ _ => INITIATOR
  | MediatorTask _ _ => MEDIATOR
  | TargetTask _ _ => TARGET
  end.

(** ** The state of the chain *)

Record ChainState : Type := mkChainState {
  pseudo_random_generator : Random;
  cs_block_number : Z;
  cs_block_hash : bytes;
  cs_our_address : bytes;
  cs_chain_id : Z;
  identifiers_to_tokennetworkregistries : dict bytes TokenNetworkRegistryState;
  secrethashes_to_task : dict bytes TransferTask;
  pending_transactions : list Event;
  queueids_to_queues : dict QueueIdentifier (list Event);
  tokennetworkaddresses_to_tokennetworkregistryaddresses : dict bytes bytes
}.

Definition set_prng (v : Random) (s : ChainState) : ChainState :=
  mkChainState v (cs_block_number s) (cs_block_hash s) (cs_our_address s) (cs_chain_id s)
    (identifiers_to_tokennetworkregistries s) (secrethashes_to_task s) (pending_transactions s)
    (queueids_to_queues s) (tokennetworkaddresses_to_tokennetworkregistryaddresses s).
Definition set_block (nr : Z) (hsh : bytes) (s : ChainState) : ChainState :=
  mkChainState (pseudo_random_generator s) nr hsh (cs_our_address s) (cs_chain_id s)
    (identifiers_to_tokennetworkregistries s) (secrethashes_to_task s) (pending_transactions s)
    (queueids_to_queues s) (tokennetworkaddresses_to_tokennetworkregistryaddresses s).
Definition set_registries (v : dict bytes TokenNetworkRegistryState) (s : ChainState) : ChainState :=
  mkChainState (pseudo_random_generator s) (cs_block_number s) (cs_block_hash s)
    (cs_our_address s) (cs_chain_id s) v (secrethashes_to_task s) (pending_transactions s)
    (queueids_to_queues s) (tokennetworkaddresses_to_tokennetworkregistryaddresses s).
Definition set_tasks (v : dict bytes TransferTask) (s : ChainState) : ChainState :=
  mkChainState (pseudo_random_generator s) (cs_block_number s) (cs_block_hash s)
    (cs_our_address s) (cs_chain_id s) (identifiers_to_tokennetworkregistries s) v
    (pending_transactions s) (queueids_to_queues s)
    (tokennetworkaddresses_to_tokennetworkregistryaddresses s).
Definition set_pending_transactions (v : list Event) (s : ChainState) : ChainState :=
  mkChainState (pseudo_random_generator s) (cs_block_number s) (cs_block_hash s)
    (cs_our_address s) (cs_chain_id s) (identifiers_to_tokennetworkregistries s)
    (secrethashes_to_task s) v (queueids_to_queues s)
    (tokennetworkaddresses_to_tokennetworkregistryaddresses s).
Definition set_queues (v : dict QueueIdentifier (list Event)) (s : ChainState) : ChainState :=
  mkChainState (pseudo_random_generator s) (cs_block_number s) (cs_block_hash s)
    (cs_our_address s) (cs_chain_id s) (identifiers_to_tokennetworkregistries s)
    (secrethashes_to_task s) (pending_transactions s) v
    (tokennetworkaddresses_to_tokennetworkregistryaddresses s).
Definition set_registry_of (v : dict bytes bytes) (s : ChainState) : ChainState :=
  mkChainState (pseudo_random_generator s) (cs_block_number s) (cs_block_hash s)
    (cs_our_address s) (cs_chain_id s) (identifiers_to_tokennetworkregistries s)
    (secrethashes_to_task s) (pending_transactions s) (queueids_to_queues s) v.

(** ** Token networks and channels *)

(** A non-empty address, as in [if address:]. *)
Definition truthy (o : option bytes) : option bytes :=
  match o with Some [] => None | _ => o end.

(** [node.get_token_network_by_address], with the address of its registry. *)
Definition get_token_network_by_address (cs : ChainState) (net : bytes) :
    option (bytes * TokenNetworkState) :=
  match truthy (dict_get net (tokennetworkaddresses_to_tokennetworkregistryaddresses cs)) with
  | None => None
  | Some registry =>
      match dict_get registry (identifiers_to_tokennetworkregistries cs) with
      | None => None
      | Some r =>
          match dict_get net (tokennetworkaddresses_to_tokennetworks r) with
          | Some tn => Some (registry, tn)
          | None => None
          end
      end
  end.

(** [views.get_token_network_by_address] *)
Fixpoint find_token_network (registries : dict bytes TokenNetworkRegistryState) (net : bytes) :
    option TokenNetworkState :=
  match registries with
  | [] => None
  | (_, r) :: rest =>
      match dict_get net (tokennetworkaddresses_to_tokennetworks r) with
      | Some tn => Some tn
      | None => find_token_network rest net
      end
  end.

(** [views.get_channelstate_by_canonical_identifier] *)
Definition get_channelstate_by_canonical_identifier (cs : ChainState) (net : bytes) (id : Z) :
    option NettingChannelState :=
  match find_token_network (identifiers_to_tokennetworkregistries cs) net with
  | Some tn => dict_get id (channelidentifiers_to_channels tn)
  | None => None
  end.

(** A changed token network: the list and the dictionary of its registry refer
    to the same object. *)
Definition update_registry (net : bytes) (tn : TokenNetworkState) (r : TokenNetworkRegistryState) :
    TokenNetworkRegistryState :=
  mkTokenNetworkRegistryState (tnr_address r)
    (map (fun tn0 => if bool_decide (tn_address tn0 = net) then tn else tn0) (token_network_list r))
    (tokenaddresses_to_tokennetworkaddresses r)
    (dict_set net tn (tokennetworkaddresses_to_tokennetworks r)).

Definition put_token_network (registry net : bytes) (tn : TokenNetworkState) (cs : ChainState) :
    ChainState :=
  match dict_get registry (identifiers_to_tokennetworkregistries cs) with
  | Some r =>
      set_registries
        (dict_set registry (update_registry net tn r) (identifiers_to_tokennetworkregistries cs)) cs
  | None => cs
  end.

(** The channels of a token network and of the node. *)
Definition tn_channels (net : bytes) (tn : TokenNetworkState) : Channels :=
  map (fun ic => ((net, fst ic), snd ic)) (channelidentifiers_to_channels tn).

Definition registry_channels (r : TokenNetworkRegistryState) : Channels :=
  flat_map (fun nt => tn_channels (fst nt) (snd nt)) (tokennetworkaddresses_to_tokennetworks r).

Definition chain_channels (cs : ChainState) : Channels :=
  flat_map (fun ar => registry_channels (snd ar)) (identifiers_to_tokennetworkregistries cs).

(** [ChainState.addresses_to_channel] *)
Definition chain_addresses (cs : ChainState) : dict (bytes * bytes) ChannelRef :=
  addresses_to_channel
    (flat_map
       (fun ar => flat_map (fun tn => tn_channels (tn_address tn) tn) (token_network_list (snd ar)))
       (identifiers_to_tokennetworkregistries cs)).

(** The changes of the objects of the store. *)
Definition put_tn_channels (chans : Channels) (net : bytes) (tn : TokenNetworkState) :
    TokenNetworkState :=
  set_channelidentifiers_to_channels
    (map (fun ic => (fst ic, default (snd ic) (dict_get (net, fst ic) chans)))
       (channelidentifiers_to_channels tn)) tn.

Definition put_registry_channels (chans : Channels) (r : TokenNetworkRegistryState) :
    TokenNetworkRegistryState :=
  mkTokenNetworkRegistryState (tnr_address r)
    (map (fun tn => put_tn_channels chans (tn_address tn) tn) (token_network_list r))
    (tokenaddresses_to_tokennetworkaddresses r)
    (map (fun nt => (fst nt, put_tn_channels chans (fst nt) (snd nt)))
       (tokennetworkaddresses_to_tokennetworks r)).

Definition put_channels (chans : Channels) (cs : ChainState) : ChainState :=
  set_registries
    (map (fun ar => (fst ar, put_registry_channels chans (snd ar)))
       (identifiers_to_tokennetworkregistries cs)) cs.

Section node.
Context `{Crypto} `{FloatPow}.
Implicit Types (cs : ChainState) (sc : StateChange).

(** The new state of the chain and the events. *)
Definition NodeResult : Type := ChainState * list Event.

(** ** Dispatch to channels and token networks *)

(** The loop of [subdispatch_to_all_channels]. *)
Definition channel_step_at sc (nr : Z) (hsh : bytes) (s : Channels * Random * list Event)
    (ref : ChannelRef) : Py (Channels * Random * list Event) :=
  let '(chans, prng, evs) := s in
  match dict_get ref chans with
  | None => Ok s
  | Some c =>
      '(result, prng') ← state_transition c sc nr hsh prng;
      let chans' :=
        match new_state result with Some c' => store_channel ref c' chans | None => chans end in
      Ok (chans', prng', evs ++ events result)
  end.

(** [subdispatch_to_all_channels] *)
Definition subdispatch_to_all_channels cs sc (nr : Z) (hsh : bytes) : Py NodeResult :=
  '(chans, prng, evs) ←
    py_foldl (channel_step_at sc nr hsh) (chain_channels cs, pseudo_random_generator cs, [])
      (dict_keys (chain_channels cs));
  Ok (set_prng prng (put_channels chans cs), evs).

(** [subdispatch_by_canonical_id] and [handle_token_network_action] *)
Definition dispatch_to_token_network cs sc (net : bytes) : Py NodeResult :=
  match get_token_network_by_address cs net with
  | None => Ok (cs, [])
  | Some (registry, tn) =>
      '(iteration, prng) ←
        token_network_transition tn sc (cs_block_number cs) (cs_block_hash cs)
          (pseudo_random_generator cs);
      Ok (set_prng prng (put_token_network registry net (new_state iteration) cs),
          events iteration)
  end.

Definition subdispatch_by_canonical_id cs sc (cid : CanonicalIdentifier) : Py NodeResult :=
  dispatch_to_token_network cs sc (token_network_address cid).

(** [state_change.token_network_address] of a [TokenNetworkStateChange] *)
Definition state_change_network sc : option bytes :=
  match sc with
  | SActionChannelClose a => Some (token_network_address (acc_canonical_identifier a))
  | SContractReceiveChannelBatchUnlock a => Some (token_network_address (crb_canonical_identifier a))
  | SContractReceiveChannelNew a => Some (channel_token_network_address (crn_channel_state a))
  | SContractReceiveChannelDeposit a => Some (token_network_address (crd_canonical_identifier a))
  | SContractReceiveChannelSettled a => Some (token_network_address (crs_canonical_identifier a))
  | SContractReceiveUpdateTransfer a => Some (token_network_address (cru_canonical_identifier a))
  | SContractReceiveChannelClosed a => Some (token_network_address (crc_canonical_identifier a))
  | SContractReceiveChannelWithdraw a => Some (token_network_address (crw_canonical_identifier a))
  | _ => None
  end.

Definition handle_token_network_action cs sc (net : bytes) : Py NodeResult :=
  dispatch_to_token_network cs sc net.

(** ** Dispatch to tasks *)

(** The task of a secrethash after a step: [None] deletes it. *)
Definition put_task (secrethash : bytes) (t : option TransferTask) cs : ChainState :=
  set_tasks
    match t with
    | Some t => dict_set secrethash t (secrethashes_to_task cs)
    | None => dict_del secrethash (secrethashes_to_task cs)
    end cs.

(** A step of the task of an initiator in the token network [net]. *)
Definition run_initiator cs (net secrethash : bytes) (ts : option InitiatorPaymentState) sc :
    Py NodeResult :=
  '(iteration, chans, prng) ←
    manager_state_transition net ts sc (chain_addresses cs) (chain_channels cs)
      (pseudo_random_generator cs) (cs_block_number cs);
  Ok (put_task secrethash
        match new_state iteration with Some p => Some (InitiatorTask net p) | None => None end
        (set_prng prng (put_channels chans cs)), events iteration).

(** A step of the task of a mediator. *)
Definition run_mediator cs (net secrethash : bytes) (ts : option MediatorTransferState) sc :
    Py NodeResult :=
  '(iteration, chans, prng) ←
    mediator_state_transition net ts sc (chain_channels cs) (chain_addresses cs)
      (pseudo_random_generator cs) (cs_block_number cs) (cs_block_hash cs);
  Ok (put_task secrethash
        match new_state iteration with Some m => Some (MediatorTask net m) | None => None end
        (set_prng prng (put_channels chans cs)), events iteration).

(** A step of the task of a target on the channel [c] with the identifier [id];
    the task gets the identifier [cid]. *)
Definition run_target cs (net : bytes) (id : Z) (c : NettingChannelState)
    (cid : CanonicalIdentifier) (secrethash : bytes) (ts : option TargetTransferState) sc :
    Py NodeResult :=
  '(iteration, c', prng) ←
    target_state_transition ts sc c (pseudo_random_generator cs) (cs_block_number cs);
  Ok (put_task secrethash
        match new_state iteration with Some t => Some (TargetTask cid t) | None => None end
        (set_prng prng (put_channels (store_channel (net, id) c' (chain_channels cs)) cs)),
      events iteration).

(** [subdispatch_to_paymenttask] *)
Definition subdispatch_to_paymenttask cs sc (secrethash : bytes) : Py NodeResult :=
  match dict_get secrethash (secrethashes_to_task cs) with
  | None => Ok (cs, [])
  | Some (InitiatorTask net p) =>
      match get_token_network_by_address cs net with
      | Some _ => run_initiator cs net secrethash (Some p) sc
      | None => Ok (cs, [])
      end
  | Some (MediatorTask net m) =>
      match get_token_network_by_address cs net with
      | Some _ => run_mediator cs net secrethash (Some m) sc
      | None => Ok (cs, [])
      end
  | Some (TargetTask cid t) =>
      let net := token_network_address cid in
      let id := channel_identifier cid in
      match get_channelstate_by_canonical_identifier cs net id with
      | Some c => run_target cs net id c cid secrethash (Some t) sc
      | None => Ok (cs, [])
      end
  end.

(** [subdispatch_to_all_lockedtransfers] *)
Definition subdispatch_to_all_lockedtransfers cs sc : Py NodeResult :=
  py_foldl
    (fun s secrethash =>
       '(cs', evs) ← subdispatch_to_paymenttask (fst s) sc secrethash;
       Ok (cs', snd s ++ evs))
    (cs, []) (dict_keys (secrethashes_to_task cs)).

(** [subdispatch_initiatortask] *)
Definition subdispatch_initiatortask cs sc (net secrethash : bytes) : Py NodeResult :=
  match get_token_network_by_address cs net with
  | None => Ok (cs, [])
  | Some _ =>
      match dict_get secrethash (secrethashes_to_task cs) with
      | None => run_initiator cs net secrethash None sc
      | Some (InitiatorTask net' p) =>
          if bool_decide (net = net') then run_initiator cs net secrethash (Some p) sc
          else Ok (cs, [])
      | Some _ => Ok (cs, [])
      end
  end.

(** [subdispatch_mediatortask] *)
Definition subdispatch_mediatortask cs sc (net secrethash : bytes) : Py NodeResult :=
  let run ts :=
    match get_token_network_by_address cs net with
    | Some _ => run_mediator cs net secrethash ts sc
    | None => Ok (cs, [])
    end in
  match dict_get secrethash (secrethashes_to_task cs) with
  | None => run None
  | Some (MediatorTask net' m) => if bool_decide (net = net') then run (Some m) else Ok (cs, [])
  | Some _ => Ok (cs, [])
  end.

(** [subdispatch_targettask] *)
Definition subdispatch_targettask cs sc (net : bytes) (id : Z) (secrethash : bytes) :
    Py NodeResult :=
  let run ts :=
    match get_channelstate_by_canonical_identifier cs net id with
    | Some c => run_target cs net id c (canonical_identifier c) secrethash ts sc
    | None => Ok (cs, [])
    end in
  match dict_get secrethash (secrethashes_to_task cs) with
  | None => run None
  | Some (TargetTask cid t) =>
      if bool_decide (net = token_network_address cid) then run (Some t) else Ok (cs, [])
  | Some _ => Ok (cs, [])
  end.

(** ** Token network registries *)

(** [views.get_networks] *)
Definition get_networks cs (registry token : bytes) :
    option TokenNetworkRegistryState * option TokenNetworkState :=
  match dict_get registry (identifiers_to_tokennetworkregistries cs) with
  | None => (None, None)
  | Some r =>
      (Some r,
       match truthy (dict_get token (tokenaddresses_to_tokennetworkaddresses r)) with
       | Some net => dict_get net (tokennetworkaddresses_to_tokennetworks r)
       | None => None
       end)
  end.

(** [maybe_add_tokennetwork] *)
Definition maybe_add_tokennetwork cs (registry : bytes) (tn : TokenNetworkState) : ChainState :=
  let '(registry_state, previous) := get_networks cs registry (tn_token_address tn) in
  let '(r, cs1) :=
    match registry_state with
    | Some r => (r, cs)
    | None =>
        let r := new_TokenNetworkRegistryState registry [tn] [] in
        (r, set_registries (dict_set registry r (identifiers_to_tokennetworkregistries cs)) cs)
    end in
  match previous with
  | Some _ => cs1
  | None =>
      set_registry_of
        (dict_set (tn_address tn) registry
           (tokennetworkaddresses_to_tokennetworkregistryaddresses cs1))
        (set_registries
           (dict_set registry (add_token_network r tn) (identifiers_to_tokennetworkregistries cs1))
           cs1)
  end.

(** [handle_contract_receive_new_token_network_registry] *)
Definition handle_contract_receive_new_token_network_registry cs
    (a : ContractReceiveNewTokenNetworkRegistry) : NodeResult :=
  let r := cntr_token_network_registry a in
  (if dict_mem (tnr_address r) (identifiers_to_tokennetworkregistries cs) then cs
   else set_registries (dict_set (tnr_address r) r (identifiers_to_tokennetworkregistries cs)) cs,
   []).

(** ** Message queues *)

(** The message identifier and the sender of a confirmation, and whether it is
    a [ReceiveWithdrawConfirmation]. *)
Record Confirmation : Type := mkConfirmation {
  cf_message_identifier : Z;
  cf_sender : bytes;
  cf_withdraw_confirmation : bool
}.

(** [message_found] of [inplace_delete_message], with the exception of the
    withdraw requests. *)
Definition message_confirmed (cf : Confirmation) (e : Event) : bool :=
  match e, cf_withdraw_confirmation cf with
  | ESendWithdrawRequest _, false => false
  | _, _ =>
      match event_message e with
      | Some m =>
          (sm_message_identifier m =? cf_message_identifier cf)
          && bool_decide (sm_recipient m = cf_sender cf)
      | None => false
      end
  end.

(** [inplace_delete_message]: every found message is removed; equal messages
    are found together. *)
Definition inplace_delete_message (queue : list Event) (cf : Confirmation) : list Event :=
  List.filter (fun e => negb (message_confirmed cf e)) queue.

(** [inplace_delete_message_queue] *)
Definition inplace_delete_message_queue (cf : Confirmation)
    (queues : dict QueueIdentifier (list Event)) (queueid : QueueIdentifier) :
    dict QueueIdentifier (list Event) :=
  match dict_get queueid queues with
  | None => queues
  | Some [] => dict_del queueid queues
  | Some queue =>
      match inplace_delete_message queue cf with
      | [] => dict_del queueid queues
      | queue' => dict_set queueid queue' queues
      end
  end.

(** The loops over [list(queueids_to_queues.keys())]. *)
Definition delete_from_all_queues (cf : Confirmation) cs : ChainState :=
  set_queues
    (foldl (inplace_delete_message_queue cf) (queueids_to_queues cs) (dict_keys (queueids_to_queues cs)))
    cs.

(** [handle_receive_delivered] *)
Definition handle_receive_delivered cs (a : ReceiveDelivered) : NodeResult :=
  let queueid := mkQueueIdentifier (rd_sender a) CANONICAL_IDENTIFIER_UNORDERED_QUEUE in
  (set_queues
     (inplace_delete_message_queue
        (mkConfirmation (rd_message_identifier a) (rd_sender a) false) (queueids_to_queues cs) queueid)
     cs, []).

(** [handle_receive_processed] *)
Definition handle_receive_processed cs (a : ReceiveProcessed) : NodeResult :=
  (delete_from_all_queues (mkConfirmation (rp_message_identifier a) (rp_sender a) false) cs, []).

(** [handle_receive_withdraw_confirmation] *)
Definition node_handle_receive_withdraw_confirmation cs (a : ReceiveWithdrawConfirmation) :
    Py NodeResult :=
  '(cs', evs) ←
    subdispatch_by_canonical_id cs (SReceiveWithdrawConfirmation a) (rwc_canonical_identifier a);
  Ok (delete_from_all_queues (mkConfirmation (rwc_message_identifier a) (rwc_sender a) true) cs', evs).

(** [handle_contract_receive_channel_closed] *)
Definition handle_contract_receive_channel_closed cs (a : ContractReceiveChannelClosed) :
    Py NodeResult :=
  let net := token_network_address (crc_canonical_identifier a) in
  let cid := mkCanonicalIdentifier (cs_chain_id cs) net
               (channel_identifier (crc_canonical_identifier a)) in
  let cs' :=
    match get_channelstate_by_canonical_identifier cs net (channel_identifier cid) with
    | Some c =>
        set_queues
          (dict_del (mkQueueIdentifier (address (partner_state c)) cid) (queueids_to_queues cs)) cs
    | None => cs
    end in
  handle_token_network_action cs' (SContractReceiveChannelClosed a) net.

(** ** The handlers *)

(** [handle_block] *)
Definition node_handle_block cs (a : Block) : Py NodeResult :=
  let cs1 := set_block (block_number a) (block_hash a) cs in
  '(cs2, channels_events) ←
    subdispatch_to_all_channels cs1 (SBlock a) (block_number a) (cs_block_hash cs1);
  '(cs3, transfers_events) ← subdispatch_to_all_lockedtransfers cs2 (SBlock a);
  Ok (cs3, channels_events ++ transfers_events).

(** [handle_action_transfer_reroute]: the task of the new secrethash starts as a
    copy of the old one. *)
Definition handle_action_transfer_reroute cs (a : ActionTransferReroute) : Py NodeResult :=
  match dict_get (lock_secrethash (lts_lock (atr_transfer a))) (secrethashes_to_task cs) with
  | None => Raise KeyError
  | Some current_payment_task =>
      let cs' :=
        set_tasks (dict_set (atr_secrethash a) current_payment_task (secrethashes_to_task cs)) cs in
      subdispatch_to_paymenttask cs' (SActionTransferReroute a) (atr_secrethash a)
  end.

(** [handle_state_change] *)
Definition handle_state_change cs sc : Py NodeResult :=
  match sc with
  | SBlock a => node_handle_block cs a
  | SActionChannelSetRevealTimeout a =>
      subdispatch_by_canonical_id cs sc (art_canonical_identifier a)
  | SActionChannelWithdraw a => subdispatch_by_canonical_id cs sc (acw_canonical_identifier a)
  | SActionChannelCoopSettle a => subdispatch_by_canonical_id cs sc (acs_canonical_identifier a)
  | SActionInitInitiator a =>
      subdispatch_initiatortask cs sc (td_token_network_address (aii_transfer a))
        (td_secrethash (aii_transfer a))
  | SActionInitMediator a =>
      let t := aim_from_transfer a in
      subdispatch_mediatortask cs sc
        (token_network_address (sbp_canonical_identifier (lts_balance_proof t)))
        (lock_secrethash (lts_lock t))
  | SActionInitTarget a =>
      let t := ait_transfer a in
      let cid := sbp_canonical_identifier (lts_balance_proof t) in
      subdispatch_targettask cs sc (token_network_address cid) (channel_identifier cid)
        (lock_secrethash (lts_lock t))
  | SReceiveTransferCancelRoute a =>
      subdispatch_to_paymenttask cs sc (lock_secrethash (lts_lock (rtc_transfer a)))
  | SActionTransferReroute a => handle_action_transfer_reroute cs a
  | SContractReceiveNewTokenNetworkRegistry a =>
      Ok (handle_contract_receive_new_token_network_registry cs a)
  | SContractReceiveNewTokenNetwork a =>
      Ok (maybe_add_tokennetwork cs (cntn_token_network_registry_address a) (cntn_token_network a), [])
  | SContractReceiveChannelClosed a => handle_contract_receive_channel_closed cs a
  | SContractReceiveSecretReveal a => subdispatch_to_paymenttask cs sc (crsr_secrethash a)
  | SReceiveDelivered a => Ok (handle_receive_delivered cs a)
  | SReceiveSecretReveal a => subdispatch_to_paymenttask cs sc (rsr_secrethash a)
  | SReceiveTransferRefund a =>
      subdispatch_to_paymenttask cs sc (lock_secrethash (lts_lock (rtr_transfer a)))
  | SReceiveSecretRequest a => subdispatch_to_paymenttask cs sc (rsq_secrethash a)
  | SReceiveProcessed a => Ok (handle_receive_processed cs a)
  | SReceiveUnlock a => subdispatch_to_paymenttask cs sc (ru_secrethash a)
  | SReceiveLockExpired a => subdispatch_to_paymenttask cs sc (rle_secrethash a)
  | SReceiveWithdrawRequest a => subdispatch_by_canonical_id cs sc (rwr_canonical_identifier a)
  | SReceiveWithdrawConfirmation a => node_handle_receive_withdraw_confirmation cs a
  | SReceiveWithdrawExpired a => subdispatch_by_canonical_id cs sc (rwe_canonical_identifier a)
  | SUpdateServicesAddressesStateChange a =>
      Ok (cs, [EUpdateServicesAddresses
                 (mkUpdateServicesAddresses (ussc_service a) (ussc_valid_till a))])
  | _ =>
      match state_change_network sc with
      | Some net => handle_token_network_action cs sc net
      | None => Ok (cs, [])
      end
  end.

(** ** Transactions *)

(** [isinstance(state_change, ContractReceiveStateChange)] *)
Definition is_contract_receive sc : bool :=
  match sc with
  | SContractReceiveChannelNew _ | SContractReceiveChannelClosed _
  | SContractReceiveChannelDeposit _ | SContractReceiveChannelWithdraw _
  | SContractReceiveChannelSettled _ | SContractReceiveNewTokenNetworkRegistry _
  | SContractReceiveNewTokenNetwork _ | SContractReceiveSecretReveal _
  | SContractReceiveChannelBatchUnlock _ | SContractReceiveRouteNew _
  | SContractReceiveUpdateTransfer _ => true
  | _ => false
  end.

(** [isinstance(event, ContractSendEvent)] *)
Definition is_contract_send (e : Event) : bool :=
  match e with
  | EContractSendChannelWithdraw _ | EContractSendChannelCoopSettle _ | EContractSendChannelClose _
  | EContractSendChannelSettle _ | EContractSendChannelUpdateTransfer _
  | EContractSendChannelBatchUnlock _ | EContractSendSecretReveal _ => true
  | _ => false
  end.

(** The same token network and channel. *)
Definition same_channel (a b : CanonicalIdentifier) : bool :=
  bool_decide (token_network_address a = token_network_address b)
  && (channel_identifier a =? channel_identifier b).

(** [views.get_channelstate_by_token_network_and_partner], as far as it tells
    whether there is such a channel.  (The lookup of an unknown partner also
    adds an empty list to the [defaultdict].) *)
Definition get_channelstate_by_token_network_and_partner cs (net partner : bytes) :
    Py (option NettingChannelState) :=
  match find_token_network (identifiers_to_tokennetworkregistries cs) net with
  | None => Ok None
  | Some tn =>
      let ids := default [] (dict_get partner (partneraddresses_to_channelidentifiers tn)) in
      channels ← py_map
        (fun id => match dict_get id (channelidentifiers_to_channels tn) with
                   | Some c => Ok c
                   | None => Raise KeyError
                   end) ids;
      Ok (last (List.filter (fun c => negb (bool_decide (get_status c = STATE_UNUSABLE))) channels))
  end.

(** [is_transaction_effect_satisfied] *)
Definition is_transaction_effect_satisfied cs (transaction : Event) sc : Py bool :=
  match sc, transaction with
  | SContractReceiveUpdateTransfer a, EContractSendChannelUpdateTransfer t =>
      Ok (same_channel (cru_canonical_identifier a) (sbp_canonical_identifier (cut_balance_proof t))
          && (cru_nonce a =? sbp_nonce (cut_balance_proof t)))
  | SContractReceiveChannelClosed a, EContractSendChannelClose t =>
      Ok (same_channel (crc_canonical_identifier a) (ccc_canonical_identifier t))
  | SContractReceiveChannelSettled a, EContractSendChannelSettle t =>
      Ok (same_channel (crs_canonical_identifier a) (cse_canonical_identifier t))
  | SContractReceiveSecretReveal a, EContractSendSecretReveal t =>
      Ok (bool_decide (crsr_secret a = csr_secret t))
  | SContractReceiveChannelBatchUnlock a, EContractSendChannelBatchUnlock t =>
      let partner_address :=
        if bool_decide (crb_receiver a = cs_our_address cs) then truthy (Some (crb_sender a))
        else if bool_decide (crb_sender a = cs_our_address cs) then truthy (Some (crb_receiver a))
        else None in
      match partner_address with
      | Some partner =>
          channel_state ←
            get_channelstate_by_token_network_and_partner cs
              (token_network_address (crb_canonical_identifier a)) partner;
          Ok match channel_state with None => true | Some _ => false end
      | None => Ok false
      end
  | _, _ => Ok false
  end.

(** [is_transaction_invalidated] *)
Definition is_transaction_invalidated (transaction : Event) sc : bool :=
  match sc, transaction with
  | SContractReceiveChannelSettled a, EContractSendChannelUpdateTransfer t =>
      same_channel (crs_canonical_identifier a) (sbp_canonical_identifier (cut_balance_proof t))
  | SContractReceiveChannelClosed a, EContractSendChannelWithdraw t =>
      same_channel (crc_canonical_identifier a) (ccw_canonical_identifier t)
  | _, _ => false
  end.

(** [is_transaction_expired] *)
Definition is_transaction_expired (transaction : Event) (block_number : Z) : bool :=
  match transaction with
  | EContractSendChannelUpdateTransfer t => cut_expiration t <? block_number
  | EContractSendSecretReveal t => csr_expiration t <? block_number
  | _ => false
  end.

(** [is_transaction_pending] *)
Definition is_transaction_pending cs (transaction : Event) sc : Py bool :=
  satisfied ← is_transaction_effect_satisfied cs transaction sc;
  Ok (negb (satisfied || is_transaction_invalidated transaction sc
            || is_transaction_expired transaction (cs_block_number cs))).

(** The comprehension of [update_queues]. *)
Fixpoint filter_pending cs sc (transactions : list Event) : Py (list Event) :=
  match transactions with
  | [] => Ok []
  | t :: rest =>
      pending ← is_transaction_pending cs t sc;
      rest' ← filter_pending cs sc rest;
      Ok (if (pending : bool) then t :: rest' else rest')
  end.

(** One event of the loop of [update_queues]. *)
Definition enqueue_event cs (e : Event) : ChainState :=
  let cs1 :=
    match event_message e with
    | Some m =>
        let queue := default [] (dict_get (queue_identifier m) (queueids_to_queues cs)) in
        set_queues (dict_set (queue_identifier m) (queue ++ [e]) (queueids_to_queues cs)) cs
    | None => cs
    end in
  if is_contract_send e
  then set_pending_transactions (pending_transactions cs1 ++ [e]) cs1
  else cs1.

(** [update_queues] *)
Definition update_queues cs (evs : list Event) sc : Py ChainState :=
  cs1 ← (if is_contract_receive sc then
           pending ← filter_pending cs sc (pending_transactions cs);
           Ok (set_pending_transactions pending cs)
         else Ok cs);
  Ok (foldl enqueue_event cs1 evs).

(** [node.state_transition] *)
Definition node_state_transition cs sc : Py NodeResult :=
  '(cs1, evs) ← handle_state_change cs sc;
  cs2 ← update_queues cs1 evs sc;
  Ok (cs2, evs).
End node.
