(* ===== verification/Views.v ===== *)
(** The views of the state of the node ([transfer/views.py]): the lookups that
    the services around the state machine use.  Those that the node itself uses
    are in [Node], and those of the transfer tasks in [MessageHandler]. *)

From S2P Require Import Prelude PyDict Bytes Crypto PyFloat MediationFee State Events.
From S2P Require Import StateChanges Channel TokenNetwork TransferTasks Node.

(** A Python [set] of addresses, in the order in which they were added. *)
Definition set_add {A} `{EqDecision A} (l : list A) (a : A) : list A :=
  if bool_decide (a ∈ l) then l else l ++ [a].

Section views.
Implicit Types (cs : ChainState) (registry token net partner : bytes).

Definition registries cs : list TokenNetworkRegistryState :=
  dict_values (identifiers_to_tokennetworkregistries cs).

Definition registry_networks (r : TokenNetworkRegistryState) : list TokenNetworkState :=
  dict_values (tokennetworkaddresses_to_tokennetworks r).

Definition network_channels (tn : TokenNetworkState) : list NettingChannelState :=
  dict_values (channelidentifiers_to_channels tn).

(** [list_all_channelstate] *)
Definition list_all_channelstate cs : list NettingChannelState :=
  flat_map (fun r => flat_map network_channels (registry_networks r)) (registries cs).

(** [all_neighbour_nodes] *)
Definition all_neighbour_nodes cs : list bytes :=
  foldl (fun addresses c => set_add addresses (address (partner_state c))) []
    (list_all_channelstate cs).

(** [get_pending_transactions] and [get_all_messagequeues] *)
Definition get_pending_transactions cs : list Event := pending_transactions cs.
Definition get_all_messagequeues cs : dict QueueIdentifier (list Event) := queueids_to_queues cs.

(** [get_all_transfer_tasks] *)
Definition get_all_transfer_tasks cs : dict bytes TransferTask := secrethashes_to_task cs.

(** [get_token_network_by_token_address] *)
Definition get_token_network_by_token_address cs registry token : option TokenNetworkState :=
  match dict_get registry (identifiers_to_tokennetworkregistries cs) with
  | None => None
  | Some r =>
      match truthy (dict_get token (tokenaddresses_to_tokennetworkaddresses r)) with
      | Some net => dict_get net (tokennetworkaddresses_to_tokennetworks r)
      | None => None
      end
  end.

(** [get_token_network_address_by_token_address] *)
Definition get_token_network_address_by_token_address cs registry token : option bytes :=
  tn_address <$> get_token_network_by_token_address cs registry token.

(** [get_participants_addresses] *)
Definition get_participants_addresses cs registry token : list bytes :=
  match get_token_network_by_token_address cs registry token with
  | None => []
  | Some tn =>
      foldl (fun addresses c =>
               set_add (set_add addresses (address (partner_state c))) (address (our_state c)))
        [] (network_channels tn)
  end.

(** [get_token_network_registry_address] *)
Definition get_token_network_registry_address cs : list bytes :=
  dict_keys (identifiers_to_tokennetworkregistries cs).

(** [get_token_network_registry_by_token_network_address] *)
Definition get_token_network_registry_by_token_network_address cs net :
    option TokenNetworkRegistryState :=
  find (fun r => dict_mem net (tokennetworkaddresses_to_tokennetworks r)) (registries cs).

(** [get_token_network_addresses] *)
Definition get_token_network_addresses cs registry : list bytes :=
  match dict_get registry (identifiers_to_tokennetworkregistries cs) with
  | Some r => map tn_address (registry_networks r)
  | None => []
  end.

(** [get_token_identifiers] *)
Definition get_token_identifiers cs registry : list bytes :=
  match dict_get registry (identifiers_to_tokennetworkregistries cs) with
  | Some r => dict_keys (tokenaddresses_to_tokennetworkaddresses r)
  | None => []
  end.

(** [total_token_network_channels] *)
Definition total_token_network_channels cs registry token : Z :=
  match get_token_network_by_token_address cs registry token with
  | Some tn => Z.of_nat (length (channelidentifiers_to_channels tn))
  | None => 0
  end.

(** ** Channels *)

(** [filter_channels_by_status] *)
Definition filter_channels_by_status (channel_states : list NettingChannelState)
    (exclude_states : list ChannelState) : list NettingChannelState :=
  List.filter (fun c => negb (bool_decide (get_status c ∈ exclude_states))) channel_states.

(** [token_network.channelidentifiers_to_channels[channel_id]] for the channels
    of a partner *)
Definition channels_with_partner (tn : TokenNetworkState) partner :
    Py (list NettingChannelState) :=
  py_map (fun id => match dict_get id (channelidentifiers_to_channels tn) with
                    | Some c => Ok c
                    | None => Raise KeyError
                    end)
    (default [] (dict_get partner (partneraddresses_to_channelidentifiers tn))).

(** The last usable channel with a partner. *)
Definition last_usable (tn : TokenNetworkState) partner : Py (option NettingChannelState) :=
  channels ← channels_with_partner tn partner;
  Ok (last (filter_channels_by_status channels [STATE_UNUSABLE])).

(** [get_channelstate_for] *)
Definition get_channelstate_for cs registry token partner : Py (option NettingChannelState) :=
  match get_token_network_by_token_address cs registry token with
  | None => Ok None
  | Some tn => last_usable tn partner
  end.

(** [filter_channels_by_partneraddress] *)
Definition filter_channels_by_partneraddress cs registry token (partners : list bytes) :
    Py (list NettingChannelState) :=
  match get_token_network_by_token_address cs registry token with
  | None => Ok []
  | Some tn =>
      found ← py_map (last_usable tn) partners;
      Ok (omap (M := list) id found)
  end.

(** [get_channelstate_filter] *)
Definition get_channelstate_filter cs registry token (filter_fn : NettingChannelState -> bool) :
    list NettingChannelState :=
  match get_token_network_by_token_address cs registry token with
  | None => []
  | Some tn => List.filter filter_fn (network_channels tn)
  end.

Definition has_status (s : ChannelState) (c : NettingChannelState) : bool :=
  bool_decide (get_status c = s).

Definition get_channelstate_open cs registry token : list NettingChannelState :=
  get_channelstate_filter cs registry token (has_status STATE_OPENED).
Definition get_channelstate_closing cs registry token : list NettingChannelState :=
  get_channelstate_filter cs registry token (has_status STATE_CLOSING).
Definition get_channelstate_closed cs registry token : list NettingChannelState :=
  get_channelstate_filter cs registry token (has_status STATE_CLOSED).
Definition get_channelstate_settling cs registry token : list NettingChannelState :=
  get_channelstate_filter cs registry token (has_status STATE_SETTLING).
Definition get_channelstate_settled cs registry token : list NettingChannelState :=
  get_channelstate_filter cs registry token (has_status STATE_SETTLED).

(** [list_channelstate_for_tokennetwork] *)
Definition list_channelstate_for_tokennetwork cs registry token : list NettingChannelState :=
  match get_token_network_by_token_address cs registry token with
  | Some tn => network_channels tn
  | None => []
  end.

(** [get_our_deposits_for_token_network] *)
Definition get_our_deposits_for_token_network cs registry token : Z :=
  zsum (fun c => contract_balance (our_state c)) (get_channelstate_open cs registry token).
End views.
