(* ===== verification/NodeProofs.v ===== *)
(** The node: no message is lost until it is confirmed, and a pending transaction
    is dropped only when a blockchain event makes it obsolete. *)

From stdpp Require Import relations.
From S2P Require Import Prelude PyDict Bytes Crypto PyFloat MediationFee State Events.
From S2P Require Import StateChanges Channel ChannelValidation ChannelOps ChannelTransition.
From S2P Require Import ChannelLocks ChannelInvariant ChannelSend ChannelReceive ChannelMachine.
From S2P Require Import ChannelSystem TokenNetwork TokenNetworkProofs TransferTasks TaskSteps.
From S2P Require Import Target Mediator MediatorSteps Initiator InitiatorManager.
From S2P Require Import InitiatorSteps Node.

(** ** Queues *)

Section queues.
Context `{Crypto} `{FloatPow}.
Implicit Types (cs : ChainState) (sc : StateChange) (e : Event).

(** The message is in the queue of its recipient and channel. *)
Definition queued cs e : Prop :=
  exists m, event_message e = Some m
    /\ e ∈ default [] (dict_get (queue_identifier m) (queueids_to_queues cs)).

(** The queues and the transactions are the same. *)
Definition same_queues cs cs' : Prop :=
  queueids_to_queues cs' = queueids_to_queues cs
  /\ pending_transactions cs' = pending_transactions cs.

#[local] Instance same_queues_preorder : PreOrder same_queues.
Proof. split; [by intros cs|]. intros c1 c2 c3 [A1 A2] [B1 B2]. split; congruence. Qed.

Lemma put_token_network_queues registry net tn cs :
  same_queues cs (put_token_network registry net tn cs).
Proof. unfold put_token_network. by case_match. Qed.

Lemma dispatch_to_token_network_queues cs sc net cs' evs :
  dispatch_to_token_network cs sc net = Ok (cs', evs) -> same_queues cs cs'.
Proof.
  unfold dispatch_to_token_network. intros Hok.
  destruct (get_token_network_by_address cs net) as [[registry tn]|]; [|by injection Hok as <- _].
  apply bind_Ok in Hok as ([it prng] & _ & Hok). injection Hok as <- _.
  exact (put_token_network_queues registry net (new_state it) cs).
Qed.

Lemma run_initiator_queues cs net sh ts sc cs' evs :
  run_initiator cs net sh ts sc = Ok (cs', evs) -> same_queues cs cs'.
Proof.
  unfold run_initiator. intros Hok. apply bind_Ok in Hok as ([[it chans] prng] & _ & Hok).
  by injection Hok as <- _.
Qed.

Lemma run_mediator_queues cs net sh ts sc cs' evs :
  run_mediator cs net sh ts sc = Ok (cs', evs) -> same_queues cs cs'.
Proof.
  unfold run_mediator. intros Hok. apply bind_Ok in Hok as ([[it chans] prng] & _ & Hok).
  by injection Hok as <- _.
Qed.

Lemma run_target_queues cs net id c cid sh ts sc cs' evs :
  run_target cs net id c cid sh ts sc = Ok (cs', evs) -> same_queues cs cs'.
Proof.
  unfold run_target. intros Hok. apply bind_Ok in Hok as ([[it chans] prng] & _ & Hok).
  by injection Hok as <- _.
Qed.

Lemma paymenttask_queues cs sc sh cs' evs :
  subdispatch_to_paymenttask cs sc sh = Ok (cs', evs) -> same_queues cs cs'.
Proof.
  unfold subdispatch_to_paymenttask. intros Hok.
  repeat case_match; try by (injection Hok as <- _).
  - by eapply run_initiator_queues.
  - by eapply run_mediator_queues.
  - by eapply run_target_queues.
Qed.

Lemma initiatortask_queues cs sc net sh cs' evs :
  subdispatch_initiatortask cs sc net sh = Ok (cs', evs) -> same_queues cs cs'.
Proof.
  unfold subdispatch_initiatortask. intros Hok.
  repeat case_match; try (injection Hok as <- _; reflexivity); by eapply run_initiator_queues.
Qed.

Lemma mediatortask_queues cs sc net sh cs' evs :
  subdispatch_mediatortask cs sc net sh = Ok (cs', evs) -> same_queues cs cs'.
Proof.
  unfold subdispatch_mediatortask. intros Hok.
  repeat case_match; try (injection Hok as <- _; reflexivity); by eapply run_mediator_queues.
Qed.

Lemma targettask_queues cs sc net id sh cs' evs :
  subdispatch_targettask cs sc net id sh = Ok (cs', evs) -> same_queues cs cs'.
Proof.
  unfold subdispatch_targettask. intros Hok.
  repeat case_match; try (injection Hok as <- _; reflexivity); by eapply run_target_queues.
Qed.

Lemma node_handle_block_queues cs a cs' evs :
  node_handle_block cs a = Ok (cs', evs) -> same_queues cs cs'.
Proof.
  unfold node_handle_block. intros Hok. apply bind_Ok in Hok as ([cs2 evs2] & Hch & Hok).
  apply bind_Ok in Hok as ([cs3 evs3] & Hts & Hok). injection Hok as <- _.
  unfold subdispatch_to_all_channels in Hch. apply bind_Ok in Hch as ([[chans prng] evs4] & _ & Hch).
  assert (same_queues cs cs2) as H2 by (by injection Hch as <- _).
  unfold subdispatch_to_all_lockedtransfers in Hts.
  apply (py_foldl_inv (fun s => same_queues cs s.1)) in Hts; [done| |done].
  intros s sh s' _ Hs Hstep. apply bind_Ok in Hstep as ([cs4 evs5] & Hsub & Hstep).
  injection Hstep as <-. etransitivity; [exact Hs|]. by eapply paymenttask_queues.
Qed.

Lemma maybe_add_tokennetwork_queues cs registry tn :
  same_queues cs (maybe_add_tokennetwork cs registry tn).
Proof.
  unfold maybe_add_tokennetwork. destruct (get_networks _ _ _) as [[r|] [prev|]]; by split.
Qed.

(** ** Confirmations *)

Lemma delete_message_queue_keeps cf cs queues queueid e m :
  event_message e = Some m -> e ∈ default [] (dict_get (queue_identifier m) queues) ->
  e ∈ default [] (dict_get (queue_identifier m) (inplace_delete_message_queue cf queues queueid))
  \/ message_confirmed cf e = true /\ queue_identifier m = queueid.
Proof.
  intros Hm He. unfold inplace_delete_message_queue.
  destruct (dict_get queueid queues) as [queue|] eqn:Eq; [|by left].
  destruct (decide (queue_identifier m = queueid)) as [<-|Hne].
  - rewrite Eq in He. cbn in He. destruct (message_confirmed cf e) eqn:Ec; [by right|]. left.
    destruct queue as [|e0 queue]; [by apply elem_of_nil in He|].
    assert (e ∈ inplace_delete_message (e0 :: queue) cf) as Hin.
    { unfold inplace_delete_message. apply list_elem_of_In, filter_In.
      rewrite Ec. split; [by apply list_elem_of_In|done]. }
    destruct (inplace_delete_message (e0 :: queue) cf); [by apply elem_of_nil in Hin|].
    by rewrite dict_get_set_eq.
  - left. repeat case_match; try rewrite dict_get_del_ne by done;
      try rewrite dict_get_set_ne by done; done.
Qed.

Lemma delete_from_all_keeps cf cs e :
  queued cs e -> queued (delete_from_all_queues cf cs) e \/ message_confirmed cf e = true.
Proof.
  intros (m & Hm & He). unfold queued, delete_from_all_queues. cbn.
  generalize (dict_keys (queueids_to_queues cs)) as l. intros l. revert He.
  generalize (queueids_to_queues cs) as queues.
  induction l as [|k l IH]; intros queues He; cbn; [left; by exists m|].
  destruct (delete_message_queue_keeps cf cs queues k e m Hm He) as [Hk|[Hc _]]; [by apply IH|by right].
Qed.

(** What a state change confirms. *)
Definition acknowledged cs sc e : Prop :=
  match sc with
  | SReceiveDelivered a =>
      message_confirmed (mkConfirmation (rd_message_identifier a) (rd_sender a) false) e = true
      /\ exists m, event_message e = Some m
                   /\ sm_canonical_identifier m = CANONICAL_IDENTIFIER_UNORDERED_QUEUE
  | SReceiveProcessed a =>
      message_confirmed (mkConfirmation (rp_message_identifier a) (rp_sender a) false) e = true
  | SReceiveWithdrawConfirmation a =>
      message_confirmed (mkConfirmation (rwc_message_identifier a) (rwc_sender a) true) e = true
  | SContractReceiveChannelClosed a =>
      exists c m,
        get_channelstate_by_canonical_identifier cs
          (token_network_address (crc_canonical_identifier a))
          (channel_identifier (crc_canonical_identifier a)) = Some c
        /\ event_message e = Some m /\ sm_recipient m = address (partner_state c)
        /\ sm_canonical_identifier m
           = mkCanonicalIdentifier (cs_chain_id cs)
               (token_network_address (crc_canonical_identifier a))
               (channel_identifier (crc_canonical_identifier a))
  | _ => False
  end.

Lemma same_queues_queued cs cs' e : same_queues cs cs' -> queued cs e -> queued cs' e.
Proof. intros [Hq _]. unfold queued. by rewrite Hq. Qed.

Lemma channel_closed_keeps cs a cs' evs :
  handle_contract_receive_channel_closed cs a = Ok (cs', evs) ->
  pending_transactions cs' = pending_transactions cs
  /\ forall e, queued cs e ->
       queued cs' e \/ acknowledged cs (SContractReceiveChannelClosed a) e.
Proof.
  unfold handle_contract_receive_channel_closed. intros Hok.
  apply dispatch_to_token_network_queues in Hok. unfold acknowledged.
  destruct (get_channelstate_by_canonical_identifier cs _ _) as [c|] eqn:Hc.
  2: { split; [apply Hok|]. intros e He. left. by eapply same_queues_queued. }
  split; [apply Hok|]. intros e (m & Hm & He).
  destruct (decide (queue_identifier m = mkQueueIdentifier (address (partner_state c))
    (mkCanonicalIdentifier (cs_chain_id cs) (token_network_address (crc_canonical_identifier a))
       (channel_identifier (crc_canonical_identifier a))))) as [Heq|Hne].
  - right. exists c, m. injection Heq as E1 E2. by split_and!.
  - left. exists m. split; [done|]. destruct Hok as [-> _]. cbn. by rewrite dict_get_del_ne.
Qed.

(** The handlers keep the transactions, and a message leaves its queue only when
    it is confirmed. *)
Lemma handle_state_change_keeps cs sc cs' evs :
  handle_state_change cs sc = Ok (cs', evs) ->
  pending_transactions cs' = pending_transactions cs
  /\ forall e, queued cs e -> queued cs' e \/ acknowledged cs sc e.
Proof.
  assert (same_queues cs cs' -> pending_transactions cs' = pending_transactions cs
    /\ forall e, queued cs e -> queued cs' e \/ acknowledged cs sc e) as Hsame.
  { intros Hs. split; [apply Hs|]. intros e He. left. by eapply same_queues_queued. }
  intros Hok. unfold handle_state_change in Hok.
  destruct sc; cbn [state_change_network] in Hok;
    try (apply Hsame; injection Hok as <- _; reflexivity);
    try (apply Hsame; by eapply dispatch_to_token_network_queues);
    try (apply Hsame; by eapply paymenttask_queues).
  - apply Hsame. by eapply node_handle_block_queues.
  - by eapply channel_closed_keeps.
  - apply Hsame. injection Hok as <- _. by case_if.
  - apply Hsame. injection Hok as <- _. apply maybe_add_tokennetwork_queues.
  - injection Hok as <- _. split; [done|]. intros e (m & Hm & He).
    destruct (delete_message_queue_keeps
      (mkConfirmation (rd_message_identifier s) (rd_sender s) false) cs _
      (mkQueueIdentifier (rd_sender s) CANONICAL_IDENTIFIER_UNORDERED_QUEUE) e m Hm He)
      as [Hk|[Hc Hq]]; [left; by exists m|right].
    injection Hq as _ Hcid. split; [done|by exists m].
  - injection Hok as <- _. split; [done|]. intros e He. by apply delete_from_all_keeps.
  - unfold node_handle_receive_withdraw_confirmation in Hok.
    apply bind_Ok in Hok as ([cs1 evs1] & Hd & Hok). injection Hok as <- _.
    apply dispatch_to_token_network_queues in Hd. split; [apply Hd|]. intros e He.
    apply delete_from_all_keeps. by eapply same_queues_queued.
  - apply Hsame. by eapply initiatortask_queues.
  - apply Hsame. by eapply mediatortask_queues.
  - apply Hsame. by eapply targettask_queues.
  - apply Hsame. unfold handle_action_transfer_reroute in Hok.
    destruct (dict_get _ (secrethashes_to_task cs)) as [t|]; [|done].
    apply paymenttask_queues in Hok. exact Hok.
Qed.

(** ** Enqueueing *)

Lemma enqueue_event_queues cs e :
  queueids_to_queues (enqueue_event cs e)
  = match event_message e with
    | Some m =>
        dict_set (queue_identifier m)
          (default [] (dict_get (queue_identifier m) (queueids_to_queues cs)) ++ [e])
          (queueids_to_queues cs)
    | None => queueids_to_queues cs
    end.
Proof. unfold enqueue_event. by destruct (event_message e), (is_contract_send e). Qed.

Lemma enqueue_event_transactions cs e :
  pending_transactions (enqueue_event cs e)
  = pending_transactions cs ++ (if is_contract_send e then [e] else []).
Proof.
  unfold enqueue_event. destruct (event_message e), (is_contract_send e); cbn; by rewrite ?app_nil_r.
Qed.

Lemma enqueue_event_keeps cs e e' : queued cs e -> queued (enqueue_event cs e') e.
Proof.
  intros (m & Hm & He). exists m. split; [done|]. rewrite enqueue_event_queues.
  destruct (event_message e') as [m'|]; [|done].
  destruct (decide (queue_identifier m = queue_identifier m')) as [<-|Hne].
  - rewrite dict_get_set_eq. apply elem_of_app. by left.
  - by rewrite dict_get_set_ne.
Qed.

Lemma enqueue_event_new cs e :
  (is_Some (event_message e) -> queued (enqueue_event cs e) e)
  /\ (is_contract_send e = true -> e ∈ pending_transactions (enqueue_event cs e)).
Proof.
  split.
  - intros [m Hm]. exists m. split; [done|]. rewrite enqueue_event_queues, Hm, dict_get_set_eq.
    apply elem_of_app. right. by apply list_elem_of_singleton.
  - intros Hc. rewrite enqueue_event_transactions, Hc. apply elem_of_app. right.
    by apply list_elem_of_singleton.
Qed.

Lemma enqueue_all evs : forall cs,
  (forall e, queued cs e -> queued (foldl enqueue_event cs evs) e)
  /\ (forall t, t ∈ pending_transactions cs -> t ∈ pending_transactions (foldl enqueue_event cs evs))
  /\ (forall e, e ∈ evs -> is_Some (event_message e) -> queued (foldl enqueue_event cs evs) e)
  /\ (forall e, e ∈ evs -> is_contract_send e = true ->
        e ∈ pending_transactions (foldl enqueue_event cs evs)).
Proof.
  induction evs as [|e0 evs IH]; intros cs; cbn.
  { split_and!; try done; intros e He; by apply elem_of_nil in He. }
  destruct (IH (enqueue_event cs e0)) as (I1 & I2 & I3 & I4).
  destruct (enqueue_event_new cs e0) as [N1 N2]. split_and!.
  - intros e He. by apply I1, enqueue_event_keeps.
  - intros t Ht. apply I2. rewrite enqueue_event_transactions. apply elem_of_app. by left.
  - intros e [->|He]%elem_of_cons Hm; auto.
  - intros e [->|He]%elem_of_cons Hm; auto.
Qed.

(** ** When a pending transaction is dropped *)

(** [a] and [b] are the same channel of the same token network. *)
Definition one_channel (a b : CanonicalIdentifier) : Prop :=
  token_network_address a = token_network_address b /\ channel_identifier a = channel_identifier b.

(** The node has no usable channel with the partner in the token network. *)
Definition no_channel_with cs (net partner : bytes) : Prop :=
  forall tn id c,
    find_token_network (identifiers_to_tokennetworkregistries cs) net = Some tn ->
    id ∈ default [] (dict_get partner (partneraddresses_to_channelidentifiers tn)) ->
    dict_get id (channelidentifiers_to_channels tn) = Some c -> get_status c = STATE_UNUSABLE.

(** The pending transactions that a blockchain event makes obsolete in the
    state [cs], one rule per reason.  The last rule has no condition on the
    channel of the transaction: when the unlock of one channel leaves no channel
    with its partner, the batch unlocks of all channels are dropped. *)
Inductive obsolete cs : StateChange -> Event -> Prop :=
  | obsolete_updated a t :
      one_channel (cru_canonical_identifier a) (sbp_canonical_identifier (cut_balance_proof t)) ->
      cru_nonce a = sbp_nonce (cut_balance_proof t) ->
      obsolete cs (SContractReceiveUpdateTransfer a) (EContractSendChannelUpdateTransfer t)
  | obsolete_closed a t :
      one_channel (crc_canonical_identifier a) (ccc_canonical_identifier t) ->
      obsolete cs (SContractReceiveChannelClosed a) (EContractSendChannelClose t)
  | obsolete_settled a t :
      one_channel (crs_canonical_identifier a) (cse_canonical_identifier t) ->
      obsolete cs (SContractReceiveChannelSettled a) (EContractSendChannelSettle t)
  | obsolete_registered a t :
      crsr_secret a = csr_secret t ->
      obsolete cs (SContractReceiveSecretReveal a) (EContractSendSecretReveal t)
  | obsolete_update_too_late a t :
      one_channel (crs_canonical_identifier a) (sbp_canonical_identifier (cut_balance_proof t)) ->
      obsolete cs (SContractReceiveChannelSettled a) (EContractSendChannelUpdateTransfer t)
  | obsolete_withdraw_too_late a t :
      one_channel (crc_canonical_identifier a) (ccw_canonical_identifier t) ->
      obsolete cs (SContractReceiveChannelClosed a) (EContractSendChannelWithdraw t)
  | obsolete_update_expired sc t :
      cut_expiration t < cs_block_number cs ->
      obsolete cs sc (EContractSendChannelUpdateTransfer t)
  | obsolete_reveal_expired sc t :
      csr_expiration t < cs_block_number cs ->
      obsolete cs sc (EContractSendSecretReveal t)
  | obsolete_any_unlock a t partner :
      partner <> [] ->
      (crb_receiver a = cs_our_address cs /\ crb_sender a = partner
       \/ crb_receiver a <> cs_our_address cs /\ crb_sender a = cs_our_address cs
          /\ crb_receiver a = partner) ->
      no_channel_with cs (token_network_address (crb_canonical_identifier a)) partner ->
      obsolete cs (SContractReceiveChannelBatchUnlock a) (EContractSendChannelBatchUnlock t).

Lemma same_channel_one a b : same_channel a b = true <-> one_channel a b.
Proof.
  unfold same_channel, one_channel. rewrite andb_true_iff, bool_decide_eq_true, Z.eqb_eq. done.
Qed.

Lemma py_map_Ok_elem {A B} (f : A -> Py B) l l' y :
  py_map f l = Ok l' -> y ∈ l' <-> exists x, x ∈ l /\ f x = Ok y.
Proof.
  revert l'. induction l as [|x l IH]; intros l' Hok; cbn in Hok.
  - injection Hok as <-. split; [by intros ?%elem_of_nil|]. by intros (? & ?%elem_of_nil & _).
  - apply bind_Ok in Hok as (y0 & Hy0 & Hok). apply bind_Ok in Hok as (l0 & Hl0 & Hok).
    injection Hok as <-. rewrite elem_of_cons, (IH _ Hl0). split.
    + intros [->|(x0 & Hx0 & Hf)]; [exists x; split; [by left|done]|].
      exists x0. split; [by right|done].
    + intros (x0 & [->|Hx0]%elem_of_cons & Hf); [left; congruence|right; by exists x0].
Qed.

Lemma last_None_nil {A} (l : list A) : last l = None <-> l = [].
Proof.
  split; [|by intros ->]. destruct l as [|x l] using rev_ind; [done|]. by rewrite last_snoc.
Qed.

(** The lookup of the partner finds no channel exactly if there is none. *)
Lemma lookup_no_channel cs net partner r :
  get_channelstate_by_token_network_and_partner cs net partner = Ok r ->
  r = None <-> no_channel_with cs net partner.
Proof.
  unfold get_channelstate_by_token_network_and_partner, no_channel_with. intros Hok.
  destruct (find_token_network _ _) as [tn|]; [|injection Hok as <-; by split].
  apply bind_Ok in Hok as (channels & Hm & Hok). injection Hok as <-.
  rewrite last_None_nil. pose proof (fun c => py_map_Ok_elem _ _ _ c Hm) as Hel. split.
  - intros Hnil tn' id c [= <-] Hid Hc. destruct (decide (get_status c = STATE_UNUSABLE)) as [|Hu]; [done|].
    exfalso. assert (c ∈ @nil NettingChannelState) as []%elem_of_nil. rewrite <- Hnil.
    apply list_elem_of_In, filter_In. rewrite bool_decide_eq_false_2 by done.
    split; [|done]. apply list_elem_of_In, Hel. exists id. by rewrite Hc.
  - intros Hno. destruct (List.filter _ channels) as [|c l] eqn:Ef; [done|exfalso].
    assert (c ∈ c :: l) as Hc by by left. rewrite <- Ef in Hc.
    apply list_elem_of_In, filter_In in Hc as [Hin%list_elem_of_In Hu].
    apply Hel in Hin as (id & Hid & Hg). destruct (dict_get id _) eqn:Eg; [|done].
    injection Hg as ->. by rewrite (Hno tn id c eq_refl Hid Eg) in Hu.
Qed.

Lemma truthy_Some (x y : bytes) : truthy (Some x) = Some y <-> y = x /\ x <> [].
Proof. destruct x; cbn; split; naive_solver. Qed.

(** The three predicates of the code decide [obsolete]. *)
Lemma is_transaction_pending_spec cs t sc b :
  is_transaction_pending cs t sc = Ok b -> b = false <-> obsolete cs sc t.
Proof.
  unfold is_transaction_pending. intros Hok. apply bind_Ok in Hok as (sat & Hsat & Hok).
  injection Hok as <-. rewrite negb_false_iff, !orb_true_iff. split.
  - intros [[->|Hinv]|Hexp].
    + destruct sc, t; cbn -[truthy] in Hsat; simplify_eq; try (injection Hsat as Hsat).
      all: try (by constructor; apply same_channel_one).
      all: try (by constructor; apply bool_decide_eq_true in Hsat).
      * case_bool_decide as Hr; [|case_bool_decide as Hs; [|done]];
          (match type of Hsat with context [truthy ?o] => destruct (truthy o) as [q|] eqn:Eq end;
           [|done]);
          apply truthy_Some in Eq as [-> Hne];
          apply bind_Ok in Hsat as (r & Hr' & Hsat); injection Hsat as Hsat;
          apply (obsolete_any_unlock _ _ _ _ Hne);
          (auto || (apply (lookup_no_channel _ _ _ r Hr'); by destruct r)).
      * apply andb_true_iff in Hsat as [? ?%Z.eqb_eq]. by constructor; [apply same_channel_one|].
    + destruct sc, t; cbn in Hinv; try done; by constructor; apply same_channel_one.
    + destruct t; cbn in Hexp; try done; apply Z.ltb_lt in Hexp; by constructor.
  - intros Hobs. destruct Hobs as [a t Hc Hn|a t Hc|a t Hc|a t Hs|a t Hc|a t Hc|sc t He|sc t He
      |a t partner Hp Hwho Hno]; cbn -[truthy] in *.
    + apply same_channel_one in Hc. rewrite Hc, Hn, Z.eqb_refl in Hsat. injection Hsat as <-. by left; left.
    + apply same_channel_one in Hc. rewrite Hc in Hsat. injection Hsat as <-. by left; left.
    + apply same_channel_one in Hc. rewrite Hc in Hsat. injection Hsat as <-. by left; left.
    + rewrite bool_decide_eq_true_2 in Hsat by done. injection Hsat as <-. by left; left.
    + left; right. by apply same_channel_one.
    + left; right. by apply same_channel_one.
    + right. by apply Z.ltb_lt.
    + right. by apply Z.ltb_lt.
    + left; left.
      destruct Hwho as [[H1 H2]|(H1 & H2 & H3)];
        [rewrite bool_decide_eq_true_2 in Hsat by done
        |rewrite bool_decide_eq_false_2, bool_decide_eq_true_2 in Hsat by done];
        subst partner; rewrite (proj2 (truthy_Some _ _) (conj eq_refl Hp)) in Hsat;
        apply bind_Ok in Hsat as (r & Hr & Hsat); injection Hsat as <-;
        by rewrite (proj2 (lookup_no_channel _ _ _ r Hr) Hno).
Qed.

Lemma filter_pending_elem cs sc ts ts' t :
  filter_pending cs sc ts = Ok ts' -> t ∈ ts' <-> t ∈ ts /\ ~ obsolete cs sc t.
Proof.
  revert ts'. induction ts as [|t0 ts IH]; intros ts' Hok; cbn in Hok.
  { injection Hok as <-. split; [by intros ?%elem_of_nil|]. by intros [?%elem_of_nil _]. }
  apply bind_Ok in Hok as (pending & Hp & Hok). apply bind_Ok in Hok as (rest & Hrest & Hok).
  injection Hok as <-. specialize (IH _ Hrest). apply is_transaction_pending_spec in Hp.
  rewrite elem_of_cons. destruct pending; [rewrite elem_of_cons|]; rewrite IH; split.
  - intros [->|[]]; [|by split; [right|]]. split; [by left|]. by intros Ho%Hp.
  - intros [[->|] ?]; [by left|by right].
  - intros []. by split; [right|].
  - intros [[->|] Hno]; [|done]. destruct Hno. by apply Hp.
Qed.

Lemma enqueue_all_transactions evs : forall cs t,
  t ∈ pending_transactions (foldl enqueue_event cs evs) ->
  (t ∈ evs /\ is_contract_send t = true) \/ t ∈ pending_transactions cs.
Proof.
  induction evs as [|e evs IH]; intros cs t Ht; [by right|]. cbn [foldl] in Ht.
  destruct (IH _ _ Ht) as [[Hin Hs]|Hin]; [left; by split; [right|]|].
  rewrite enqueue_event_transactions in Hin. apply elem_of_app in Hin as [Hin|Hin]; [by right|left].
  destruct (is_contract_send e) eqn:Es; [|by apply elem_of_nil in Hin].
  apply list_elem_of_singleton in Hin as ->. by split; [left|].
Qed.

(** C9: the node loses no message, and drops a transaction only when it is
    obsolete.  Every message that a state change produces is in the queue of its
    recipient and channel afterwards.  A queued message leaves its queue only
    when the state change confirms it: a confirmation with its identifier from
    its recipient (a withdraw request only by a withdraw confirmation), or the
    closing of its channel.  The pending transactions after the state change are
    exactly those that it produced and the earlier ones that an event of the
    blockchain did not make [obsolete]: the event shows their effect (the same
    update, close or settle of the channel, or the registration of the secret),
    or comes before them (an update after the settlement, a withdraw after the
    close), or they have expired, or, for a batch unlock of any channel, the
    event unlocks a channel of ours and no channel with its partner is left. *)
Theorem node_loses_nothing cs sc cs' evs
    (Hrun : node_state_transition cs sc = Ok (cs', evs)) :
  (forall e, e ∈ evs -> is_Some (event_message e) -> queued cs' e)
  /\ (forall e, queued cs e -> queued cs' e \/ acknowledged cs sc e)
  /\ exists cs1, handle_state_change cs sc = Ok (cs1, evs)
     /\ forall t, t ∈ pending_transactions cs' <->
          (t ∈ evs /\ is_contract_send t = true)
          \/ (t ∈ pending_transactions cs /\ ~ (is_contract_receive sc = true /\ obsolete cs1 sc t)).
Proof.
  unfold node_state_transition in Hrun. apply bind_Ok in Hrun as ([cs1 evs1] & Hh & Hrun).
  apply bind_Ok in Hrun as (cs2 & Hu & Hrun). injection Hrun as <- <-.
  destruct (handle_state_change_keeps _ _ _ _ Hh) as [Hp Hq].
  unfold update_queues in Hu. apply bind_Ok in Hu as (cs3 & Hf & Hu). injection Hu as <-.
  destruct (enqueue_all evs1 cs3) as (E1 & E2 & E3 & E4).
  assert (queueids_to_queues cs3 = queueids_to_queues cs1) as Hq3.
  { destruct (is_contract_receive sc); [apply bind_Ok in Hf as (? & _ & Hf)|]; by injection Hf as <-. }
  split; [exact E3|]. split.
  - intros e He. destruct (Hq e He) as [He1|Hack]; [left|by right]. apply E1.
    destruct He1 as (m & Hm & Hin). exists m. by rewrite Hq3.
  - exists cs1. split; [done|]. intros t. rewrite <- Hp.
    assert (t ∈ pending_transactions cs3 <-> t ∈ pending_transactions cs1
              /\ ~ (is_contract_receive sc = true /\ obsolete cs1 sc t)) as <-.
    { destruct (is_contract_receive sc); [|injection Hf as <-; naive_solver].
      apply bind_Ok in Hf as (pending & Hf & Hok). injection Hok as <-. cbn.
      rewrite (filter_pending_elem _ _ _ _ t Hf). naive_solver. }
    split; [apply enqueue_all_transactions|]. intros [[He Hs]|Ht]; [by apply E4|by apply E2].
Qed.

(** The on-chain unlock that removes the last channel with a partner in a
    token network clears every pending batch unlock, those of other channels
    and other token networks too: [is_transaction_effect_satisfied] looks only
    at the channel of the blockchain event, never at the one of the
    transaction.  Afterwards the only pending batch unlocks are those that the
    state change itself produced. *)
Theorem batch_unlock_clears_other_channels cs a cs1 cs' evs
    (Hrun : node_state_transition cs (SContractReceiveChannelBatchUnlock a) = Ok (cs', evs))
    (Hhandled : handle_state_change cs (SContractReceiveChannelBatchUnlock a) = Ok (cs1, evs))
    (Hours : crb_receiver a = cs_our_address cs1)
    (Hsender : crb_sender a <> [])
    (Hgone : get_channelstate_by_token_network_and_partner cs1
               (token_network_address (crb_canonical_identifier a)) (crb_sender a) = Ok None) :
  forall t, EContractSendChannelBatchUnlock t ∈ pending_transactions cs' ->
            EContractSendChannelBatchUnlock t ∈ evs.
Proof.
  intros t Ht. unfold node_state_transition in Hrun. rewrite Hhandled, bind_ret_l in Hrun.
  apply bind_Ok in Hrun as (cs2 & Hu & Hrun). injection Hrun as <-.
  unfold update_queues in Hu. cbn [is_contract_receive] in Hu.
  apply bind_Ok in Hu as (cs3 & Hf & Hu). injection Hu as <-.
  apply bind_Ok in Hf as (pending & Hf & Hok). injection Hok as <-.
  destruct (enqueue_all_transactions _ _ _ Ht) as [[Hin _]|Hin]; [done|exfalso].
  apply (filter_pending_elem _ _ _ _ _ Hf) in Hin as [_ Hno]. apply Hno.
  apply obsolete_any_unlock with (partner := crb_sender a); [done|by left|].
  by apply (lookup_no_channel _ _ _ None Hgone).
Qed.
End queues.
