(* ===== verification/NodeFrame.v ===== *)
(** What a state change of the node leaves as it is: the block number, which
    only [Block] sets, and the registries, token networks and channels, which
    only the state changes that announce new ones add to. *)

From S2P Require Import Prelude PyDict Bytes Crypto PyFloat MediationFee State Events.
From S2P Require Import StateChanges Channel ChannelOps ChannelTransition TokenNetwork.
From S2P Require Import TransferTasks Target Mediator.
From S2P Require Import InitiatorManager Node.

(** ** Covers *)

(** The contracts and channels that are followed, by whatever follows them. *)
Record Cover : Type := mkCover {
  cover_registry : bytes -> Prop;
  cover_network : bytes -> Prop;
  cover_channel : bytes -> Z -> Prop
}.

Section frame.
Context `{Crypto} `{FloatPow} (f : Cover).
Implicit Types (cs : ChainState) (sc : StateChange) (tn : TokenNetworkState).

Definition tn_covered tn : Prop :=
  cover_network f (tn_address tn) /\
  forall id, id ∈ dict_keys (channelidentifiers_to_channels tn) -> cover_channel f (tn_address tn) id.

(** The list and the dictionary of a registry have the same token networks. *)
Record registry_covered (r : TokenNetworkRegistryState) : Prop := {
  rc_address : cover_registry f (tnr_address r);
  rc_list tn : tn ∈ token_network_list r -> tn_covered tn;
  rc_dict net tn :
    dict_get net (tokennetworkaddresses_to_tokennetworks r) = Some tn ->
    tn_address tn = net /\ tn ∈ token_network_list r
}.

Definition chain_covered cs : Prop :=
  forall a r, (a, r) ∈ identifiers_to_tokennetworkregistries cs -> registry_covered r.

(** The contracts and channels that a state change announces are covered. *)
Definition change_covered sc : Prop :=
  match sc with
  | SContractReceiveNewTokenNetworkRegistry a => registry_covered (cntr_token_network_registry a)
  | SContractReceiveNewTokenNetwork a =>
      cover_registry f (cntn_token_network_registry_address a) /\ tn_covered (cntn_token_network a)
  | SContractReceiveChannelNew a =>
      cover_channel f (channel_token_network_address (crn_channel_state a))
        (identifier (crn_channel_state a))
  | _ => True
  end.

(** The new state [cs'] keeps the block number and the covered contracts. *)
Definition framed cs cs' : Prop :=
  cs_block_number cs' = cs_block_number cs /\ cs_our_address cs' = cs_our_address cs
  /\ cs_chain_id cs' = cs_chain_id cs /\ (chain_covered cs -> chain_covered cs').

Lemma framed_refl cs : framed cs cs.
Proof. by split_and!. Qed.

Lemma framed_trans cs1 cs2 cs3 : framed cs1 cs2 -> framed cs2 cs3 -> framed cs1 cs3.
Proof. unfold framed. intros (? & ? & ? & ?) (? & ? & ? & ?). split_and!; [congruence..|auto]. Qed.

(** ** The stores *)

(** The token network keeps its address and gets no other channel than [new]. *)
Definition tn_framed (new : Z -> Prop) tn tn' : Prop :=
  tn_address tn' = tn_address tn /\
  forall id, id ∈ dict_keys (channelidentifiers_to_channels tn') ->
    id ∈ dict_keys (channelidentifiers_to_channels tn) \/ new id.

Lemma put_tn_channels_framed chans net tn : tn_framed (fun _ => False) tn (put_tn_channels chans net tn).
Proof.
  split; [done|]. intros id Hin. left. cbn in Hin. unfold dict_keys in Hin |- *.
  by rewrite map_map in Hin.
Qed.

Lemma subdispatch_framed tn sc id nr hsh prng it prng' :
  subdispatch_to_channel_by_id tn sc id nr hsh prng = Ok (it, prng') ->
  tn_framed (fun _ => False) tn (new_state it).
Proof.
  unfold subdispatch_to_channel_by_id. intros Hs.
  destruct (dict_get id _) as [c|] eqn:Hc; [|injection Hs as <- _; split; [done|by left]].
  apply bind_Ok in Hs as ([r prng1] & _ & Hs). destruct (defaultdict_get _ _) as [p bp].
  destruct (new_state r) as [c'|].
  - injection Hs as <- _. split; [done|]. intros id' Hin. left. exact (dict_keys_update _ _ _ _ _ Hc Hin).
  - apply bind_Ok in Hs as (ids & Hd & Hs). apply bind_Ok in Hs as (rem & _ & Hs).
    injection Hs as <- _. split; [done|]. cbn. intros id' Hin. left.
    unfold dict_del_checked in Hd. case_if; [|done]. injection Hd as <-.
    by eapply dict_keys_del_subset.
Qed.

(** The channel that a state change announces. *)
Definition new_channel sc (id : Z) : Prop :=
  match sc with
  | SContractReceiveChannelNew a => id = identifier (crn_channel_state a)
  | _ => False
  end.

Lemma token_network_framed tn sc nr hsh prng it prng' :
  token_network_transition tn sc nr hsh prng = Ok (it, prng') ->
  tn_framed (new_channel sc) tn (new_state it).
Proof.
  intros Hok. destruct sc; cbn in Hok |- *;
    try (by injection Hok as <- _; split; [|by left]);
    try (exact (subdispatch_framed _ _ _ _ _ _ _ _ Hok)).
  - injection Hok as <- _. unfold handle_channelnew. case_if; [split; [done|by left]|].
    destruct (defaultdict_get _ _) as [ids bp]. split; [done|]. cbn.
    intros id Hin. apply dict_keys_set_elem in Hin. naive_solver.
  - unfold handle_batch_unlock in Hok.
    destruct (dict_get _ _) as [c|] eqn:Hc; [|injection Hok as <- _; split; [done|by left]].
    apply bind_Ok in Hok as ([r prng1] & _ & Hok). destruct (new_state r) as [c'|].
    + injection Hok as <- _. split; [done|]. intros id' Hin. left. exact (dict_keys_update _ _ _ _ _ Hc Hin).
    + destruct (defaultdict_get _ _) as [p bp]. apply bind_Ok in Hok as (rem & _ & Hok).
      apply bind_Ok in Hok as (ids & Hd & Hok). injection Hok as <- _. split; [done|]. cbn.
      intros id' Hin. left. unfold dict_del_checked in Hd. case_if; [|done]. injection Hd as <-.
      by eapply dict_keys_del_subset.
Qed.

Lemma tn_framed_covered (new : Z -> Prop) tn tn' :
  tn_framed new tn tn' -> (forall id, new id -> cover_channel f (tn_address tn) id) ->
  tn_covered tn -> tn_covered tn'.
Proof. intros [Ha Hk] Hnew [Hn Hc]. split; rewrite Ha; [done|]. intros id [?|?]%Hk; auto. Qed.

Lemma put_channels_covered chans cs : chain_covered cs -> chain_covered (put_channels chans cs).
Proof.
  intros Hc a r Hin. cbn in Hin. apply elem_of_map in Hin as ([a0 r0] & Heq & Hin).
  injection Heq as -> ->. destruct (Hc _ _ Hin) as [H1 H2 H3]. split; [done| |].
  - cbn. intros tn' (tn & -> & Htn)%elem_of_map.
    eapply tn_framed_covered; [apply put_tn_channels_framed|done|by apply H2].
  - cbn. intros net tn'. rewrite (dict_get_map_keyed (put_tn_channels chans)).
    intros (tn & Hg & ->)%fmap_Some. apply H3 in Hg as [Ha Hl]. split; [done|].
    apply elem_of_map. exists tn. by rewrite Ha.
Qed.

Lemma get_token_network_covered cs net registry tn :
  chain_covered cs -> get_token_network_by_address cs net = Some (registry, tn) ->
  exists r, dict_get registry (identifiers_to_tokennetworkregistries cs) = Some r
    /\ registry_covered r /\ dict_get net (tokennetworkaddresses_to_tokennetworks r) = Some tn.
Proof.
  unfold get_token_network_by_address. intros Hc Hg.
  destruct (truthy _) as [ra|]; [|done]. destruct (dict_get ra _) as [r|] eqn:Er; [|done].
  destruct (dict_get net _) as [tn0|] eqn:Et; [|done]. injection Hg as <- <-. exists r.
  split_and!; try done. eapply Hc. by apply dict_get_In.
Qed.

Lemma update_registry_covered net tn tn' r :
  registry_covered r -> dict_get net (tokennetworkaddresses_to_tokennetworks r) = Some tn ->
  tn_address tn' = net -> tn_covered tn' -> registry_covered (update_registry net tn' r).
Proof.
  intros [H1 H2 H3] Hg Ha Hc. destruct (H3 _ _ Hg) as [Ha0 Hl0]. split; [done| |]; cbn.
  - intros tn1 (tn0 & -> & Hin)%elem_of_map. case_if; [done|by apply H2].
  - intros net1 tn1. destruct (decide (net1 = net)) as [->|Hne].
    + rewrite dict_get_set_eq. intros [= <-]. split; [done|]. apply elem_of_map. exists tn.
      by rewrite bool_decide_true.
    + rewrite dict_get_set_ne by done. intros [Ha1 Hl1]%H3. split; [done|].
      apply elem_of_map. exists tn1. by rewrite bool_decide_false by congruence.
Qed.

(** ** The dispatch *)

Lemma set_prng_framed prng cs : framed cs (set_prng prng cs).
Proof. by split_and!. Qed.

Lemma put_channels_framed chans cs : framed cs (put_channels chans cs).
Proof. split_and!; try done. apply put_channels_covered. Qed.

Lemma put_task_framed h t cs : framed cs (put_task h t cs).
Proof. by split_and!. Qed.

Lemma task_framed h t prng chans cs : framed cs (put_task h t (set_prng prng (put_channels chans cs))).
Proof.
  eapply framed_trans; [apply put_channels_framed|].
  eapply framed_trans; [apply set_prng_framed|apply put_task_framed].
Qed.

Lemma token_network_dispatch_framed cs sc net cs' evs :
  (forall id, new_channel sc id -> cover_channel f net id) ->
  dispatch_to_token_network cs sc net = Ok (cs', evs) -> framed cs cs'.
Proof.
  intros Hnew Hd. unfold dispatch_to_token_network in Hd.
  destruct (get_token_network_by_address cs net) as [[registry tn]|] eqn:Hg;
    [|injection Hd as <- _; apply framed_refl].
  apply bind_Ok in Hd as ([it prng] & Ht%token_network_framed & Hd). injection Hd as <- _.
  eapply framed_trans; [|apply set_prng_framed]. unfold put_token_network.
  destruct (dict_get registry _) as [r|] eqn:Er; [|apply framed_refl]. split_and!; try done.
  intros Hc. destruct (get_token_network_covered _ _ _ _ Hc Hg) as (r' & Hr & Hcov & Htn).
  rewrite Er in Hr. injection Hr as <-. intros a r1. cbn. intros [[-> ->]|Hin]%dict_set_elem;
    [|by eapply Hc].
  destruct (rc_dict _ Hcov _ _ Htn) as [Ha Hl].
  eapply update_registry_covered; [done|exact Htn|destruct Ht; congruence|].
  eapply tn_framed_covered; [exact Ht|by rewrite Ha|by apply (rc_list _ Hcov)].
Qed.

Lemma all_channels_framed cs sc nr hsh cs' evs :
  subdispatch_to_all_channels cs sc nr hsh = Ok (cs', evs) -> framed cs cs'.
Proof.
  unfold subdispatch_to_all_channels. intros Hd.
  apply bind_Ok in Hd as ([[chans prng] e] & _ & Hd). injection Hd as <- _.
  eapply framed_trans; [apply put_channels_framed|apply set_prng_framed].
Qed.

Lemma run_initiator_framed cs net h ts sc cs' evs :
  run_initiator cs net h ts sc = Ok (cs', evs) -> framed cs cs'.
Proof. intros ([[it c] p] & _ & [= <- _])%bind_Ok. apply task_framed. Qed.

Lemma run_mediator_framed cs net h ts sc cs' evs :
  run_mediator cs net h ts sc = Ok (cs', evs) -> framed cs cs'.
Proof. intros ([[it c] p] & _ & [= <- _])%bind_Ok. apply task_framed. Qed.

Lemma run_target_framed cs net id c cid h ts sc cs' evs :
  run_target cs net id c cid h ts sc = Ok (cs', evs) -> framed cs cs'.
Proof. intros ([[it c1] p] & _ & [= <- _])%bind_Ok. apply task_framed. Qed.

#[local] Hint Resolve framed_refl run_initiator_framed run_mediator_framed run_target_framed : core.

Ltac task_cases := repeat case_match; simplify_eq; eauto.

Lemma paymenttask_framed cs sc h cs' evs :
  subdispatch_to_paymenttask cs sc h = Ok (cs', evs) -> framed cs cs'.
Proof. unfold subdispatch_to_paymenttask. intros Hd. task_cases. Qed.

Lemma tasks_framed cs sc net id h cs' evs :
  (subdispatch_initiatortask cs sc net h = Ok (cs', evs) -> framed cs cs') /\
  (subdispatch_mediatortask cs sc net h = Ok (cs', evs) -> framed cs cs') /\
  (subdispatch_targettask cs sc net id h = Ok (cs', evs) -> framed cs cs').
Proof.
  unfold subdispatch_initiatortask, subdispatch_mediatortask, subdispatch_targettask.
  split_and!; intros Hd; task_cases.
Qed.

Lemma all_lockedtransfers_framed cs sc cs' evs :
  subdispatch_to_all_lockedtransfers cs sc = Ok (cs', evs) -> framed cs cs'.
Proof.
  unfold subdispatch_to_all_lockedtransfers. intros Hd.
  change cs' with (fst (cs', evs)). eapply (py_foldl_inv (fun s => framed cs (fst s))); [| |exact Hd].
  - intros [cs1 e1] h s' _ Hf Hs. apply bind_Ok in Hs as ([cs2 e2] & Hp & [= <-]). cbn in *.
    eapply framed_trans; [exact Hf|]. by eapply paymenttask_framed.
  - apply framed_refl.
Qed.

(** ** New contracts *)

Lemma add_token_network_covered r tn :
  registry_covered r -> tn_covered tn -> registry_covered (add_token_network r tn).
Proof.
  intros [H1 H2 H3] Hc. split; [done| |]; cbn.
  - intros tn1 [?|E%list_elem_of_singleton]%elem_of_app; [auto|by subst].
  - intros net tn1. destruct (decide (net = tn_address tn)) as [->|Hne].
    + rewrite dict_get_set_eq. intros [= <-]. set_solver.
    + rewrite dict_get_set_ne by done. intros [? ?]%H3. set_solver.
Qed.

Lemma set_registry_covered cs a r :
  chain_covered cs -> registry_covered r ->
  chain_covered (set_registries (dict_set a r (identifiers_to_tokennetworkregistries cs)) cs).
Proof. intros Hc Hr a1 r1. cbn. intros [[-> ->]|Hin]%dict_set_elem; [done|by eapply Hc]. Qed.

Lemma maybe_add_framed cs registry tn :
  cover_registry f registry -> tn_covered tn -> framed cs (maybe_add_tokennetwork cs registry tn).
Proof.
  intros Hreg Htn. unfold maybe_add_tokennetwork, get_networks.
  destruct (dict_get registry _) as [r|] eqn:Er.
  - case_match; [apply framed_refl|]. split_and!; try done. intros Hc.
    apply set_registry_covered; [done|]. apply add_token_network_covered; [|done].
    eapply Hc. by apply dict_get_In.
  - split_and!; try done. intros Hc.
    assert (registry_covered (new_TokenNetworkRegistryState registry [tn] [])).
    { apply add_token_network_covered; [|done]. by split; cbn; [|set_solver|]. }
    apply (set_registry_covered
             (set_registries (dict_set registry _ (identifiers_to_tokennetworkregistries cs)) cs));
      [by apply set_registry_covered|by apply add_token_network_covered].
Qed.

(** ** The handlers *)

(** The block number after a state change. *)
Definition block_after cs sc : Z :=
  match sc with SBlock a => block_number a | _ => cs_block_number cs end.

Definition framed_by sc cs cs' : Prop :=
  cs_block_number cs' = block_after cs sc /\ cs_our_address cs' = cs_our_address cs
  /\ cs_chain_id cs' = cs_chain_id cs /\ (chain_covered cs -> chain_covered cs').

(** The channels of a state change that announces none. *)
Lemma dispatch_framed cs sc net cs' evs :
  new_channel sc = (fun _ => False) ->
  dispatch_to_token_network cs sc net = Ok (cs', evs) -> framed cs cs'.
Proof. intros Hn. apply token_network_dispatch_framed. by rewrite Hn. Qed.

Lemma channel_closed_framed cs a cs' evs :
  handle_contract_receive_channel_closed cs a = Ok (cs', evs) -> framed cs cs'.
Proof.
  unfold handle_contract_receive_channel_closed, handle_token_network_action. intros Hd.
  eapply framed_trans; [|by eapply dispatch_framed; [|exact Hd]].
  case_match; [by split_and!|apply framed_refl].
Qed.

Lemma withdraw_confirmation_framed cs a cs' evs :
  node_handle_receive_withdraw_confirmation cs a = Ok (cs', evs) -> framed cs cs'.
Proof.
  unfold node_handle_receive_withdraw_confirmation, subdispatch_by_canonical_id.
  intros ([cs1 e1] & Hd & [= <- _])%bind_Ok.
  eapply framed_trans; [by eapply dispatch_framed; [|exact Hd]|by split_and!].
Qed.

Lemma reroute_framed cs a cs' evs :
  handle_action_transfer_reroute cs a = Ok (cs', evs) -> framed cs cs'.
Proof.
  unfold handle_action_transfer_reroute. case_match; [|done]. intros Hd%paymenttask_framed.
  eapply framed_trans; [|exact Hd]. by split_and!.
Qed.

Lemma registry_framed cs a :
  registry_covered (cntr_token_network_registry a) ->
  framed cs (fst (handle_contract_receive_new_token_network_registry cs a)).
Proof.
  intros Hr. unfold handle_contract_receive_new_token_network_registry. cbn.
  case_if; [apply framed_refl|]. split_and!; try done. intros Hc. by apply set_registry_covered.
Qed.

Lemma handle_block_framed cs a cs' evs :
  node_handle_block cs a = Ok (cs', evs) -> framed_by (SBlock a) cs cs'.
Proof.
  unfold node_handle_block. intros ([cs2 e2] & H2 & Hd)%bind_Ok.
  apply bind_Ok in Hd as ([cs3 e3] & H3 & [= <- _]).
  apply all_channels_framed in H2. apply all_lockedtransfers_framed in H3.
  destruct (framed_trans _ _ _ H2 H3) as (F1 & F2 & F3 & F4). by split_and!.
Qed.

Lemma handle_state_change_framed cs sc cs' evs :
  change_covered sc -> handle_state_change cs sc = Ok (cs', evs) -> framed_by sc cs cs'.
Proof.
  intros Hcov Hd.
  destruct sc; [by apply (handle_block_framed _ _ _ _ Hd)|..]; cbn in Hd;
    match goal with |- framed_by _ ?a ?b => change (framed a b) end;
    try (by injection Hd as <- _; by split_and!);
    try (by eapply dispatch_framed; [|exact Hd]);
    try (by eapply paymenttask_framed);
    eauto using channel_closed_framed, withdraw_confirmation_framed, reroute_framed.
  - eapply token_network_dispatch_framed; [|exact Hd]. cbn. by intros id ->.
  - injection Hd as <- _. by apply registry_framed.
  - injection Hd as <- _. destruct Hcov. by apply maybe_add_framed.
  - exact (proj1 (tasks_framed _ _ _ 0 _ _ _) Hd).
  - exact (proj1 (proj2 (tasks_framed _ _ _ 0 _ _ _)) Hd).
  - exact (proj2 (proj2 (tasks_framed _ _ _ _ _ _ _)) Hd).
Qed.

Lemma update_queues_framed cs evs sc cs' : update_queues cs evs sc = Ok cs' -> framed cs cs'.
Proof.
  unfold update_queues. intros (cs1 & H1 & [= <-])%bind_Ok.
  assert (framed cs cs1) as Hf.
  { case_if; [|injection H1 as <-; apply framed_refl].
    apply bind_Ok in H1 as (? & _ & [= <-]). by split_and!. }
  clear H1. revert cs1 Hf. induction evs as [|e evs IH]; intros cs1 Hf; [done|].
  cbn [foldl]. apply IH. eapply framed_trans; [exact Hf|]. unfold enqueue_event.
  destruct (event_message e); case_if; by split_and!.
Qed.

(** A state change sets the block number only if it is a [Block] and adds only
    the contracts and channels that it announces. *)
Lemma node_state_transition_framed cs sc cs' evs :
  change_covered sc -> node_state_transition cs sc = Ok (cs', evs) -> framed_by sc cs cs'.
Proof.
  intros Hcov ([cs1 e1] & H1 & Hd)%bind_Ok. apply bind_Ok in Hd as (cs2 & H2 & [= <- _]).
  apply (handle_state_change_framed _ _ _ _ Hcov) in H1 as (A1 & A2 & A3 & A4).
  apply update_queues_framed in H2 as (B1 & B2 & B3 & B4). split_and!; [congruence..|auto].
Qed.
End frame.
