(* ===== verification/NodeChannels.v ===== *)
(** The node refines the channel: whatever it dispatches, to its token networks
    or to its tasks, every channel it has afterwards is reachable.  The tasks
    enter only through the interface [ChannelTask]. *)

From stdpp Require Import relations.
From S2P Require Import Prelude PyDict Bytes Crypto PyFloat MediationFee State Events.
From S2P Require Import StateChanges Channel ChannelValidation ChannelOps ChannelTransition.
From S2P Require Import ChannelLocks ChannelInvariant ChannelSend ChannelReceive ChannelMachine.
From S2P Require Import ChannelSystem TokenNetwork TokenNetworkProofs TransferTasks TaskSteps.
From S2P Require Import Target Mediator MediatorSteps Initiator InitiatorManager.
From S2P Require Import InitiatorSteps Node.

Section channels.
Context `{CryptoLaws} `{FloatPow}.
Implicit Types (cs : ChainState) (sc : StateChange) (chans : Channels).

(** ** The channels of the node *)

Definition tn_reachable (tn : TokenNetworkState) : Prop :=
  forall id c, (id, c) ∈ channelidentifiers_to_channels tn -> reachable c.

Definition registry_reachable (r : TokenNetworkRegistryState) : Prop :=
  forall net tn, (net, tn) ∈ tokennetworkaddresses_to_tokennetworks r -> tn_reachable tn.

Definition chain_reachable cs : Prop :=
  forall a r, (a, r) ∈ identifiers_to_tokennetworkregistries cs -> registry_reachable r.

Lemma tn_channels_elem net tn ref c :
  (ref, c) ∈ tn_channels net tn -> exists id, (id, c) ∈ channelidentifiers_to_channels tn.
Proof.
  unfold tn_channels. intros ([id c0] & Heq & Hin)%list_elem_of_fmap. injection Heq as _ <-.
  by exists id.
Qed.

Lemma chain_reachable_store cs : chain_reachable cs -> store_reachable (chain_channels cs).
Proof.
  intros Hr ref c Hc%dict_get_In. unfold chain_channels in Hc.
  apply list_elem_of_In, in_flat_map in Hc as ([a r] & Ha & Hc).
  unfold registry_channels in Hc. apply in_flat_map in Hc as ([net tn] & Hn & Hc).
  apply list_elem_of_In in Ha, Hn, Hc. apply tn_channels_elem in Hc as [id Hid].
  exact (Hr a r Ha net tn Hn id c Hid).
Qed.

Lemma put_tn_channels_reachable chans net tn :
  store_reachable chans -> tn_reachable tn -> tn_reachable (put_tn_channels chans net tn).
Proof.
  intros Hs Ht id c. unfold put_tn_channels. cbn.
  intros ([id0 c0] & Heq & Hin)%list_elem_of_fmap. injection Heq as -> ->. cbn.
  destruct (dict_get (net, id0) chans) as [c'|] eqn:E; [exact (Hs _ _ E)|exact (Ht _ _ Hin)].
Qed.

Lemma put_channels_reachable chans cs :
  store_reachable chans -> chain_reachable cs -> chain_reachable (put_channels chans cs).
Proof.
  intros Hs Hr a r. unfold put_channels. cbn.
  intros ([a0 r0] & Heq & Hin)%list_elem_of_fmap. injection Heq as -> ->. intros net tn. cbn.
  intros ([net0 tn0] & Heq & Hn)%list_elem_of_fmap. injection Heq as -> ->.
  apply put_tn_channels_reachable; [done|]. exact (Hr _ _ Hin _ _ Hn).
Qed.

(** A step of any task, through its interface. *)
Lemma task_step_reachable {P T} `{!ChannelTask P T} (place : P) (ts : option T) sc cs prng nr hsh
    it chans prng' :
  chain_reachable cs -> task_env place ts sc (chain_channels cs) (chain_addresses cs) ->
  task_transition place ts sc (chain_addresses cs) (chain_channels cs) prng nr hsh
    = Ok (it, chans, prng') ->
  chain_reachable (put_channels chans cs).
Proof.
  intros Hr Henv Hrun. apply put_channels_reachable; [|done].
  eapply store_evolves_reachable; [|by apply chain_reachable_store].
  by eapply task_evolves.
Qed.

(** ** Token networks *)

(** What the blockchain and the user guarantee about a state change of a channel. *)
Definition tn_step_env (tn : TokenNetworkState) sc (nr : Z) : Prop :=
  match sc with
  | SContractReceiveChannelNew a => reachable (crn_channel_state a)
  | _ => forall id c, target_channel sc = Some id ->
           dict_get id (channelidentifiers_to_channels tn) = Some c -> env_ok true c sc nr
  end.

Lemma reachable_step c c' : reachable c -> channel_step c c' -> reachable c'.
Proof.
  intros (c0 & Ho & Hs) Hstep. exists c0. split; [done|]. eapply rtc_r; [exact Hs|exact Hstep].
Qed.

Lemma removed_channel_reachable tn id ids :
  tn_reachable tn -> dict_del_checked id (channelidentifiers_to_channels tn) = Ok ids ->
  forall id' c, (id', c) ∈ ids -> reachable c.
Proof.
  intros Hr Hd id' c Hin. unfold dict_del_checked in Hd. case_if; [|done]. injection Hd as <-.
  apply dict_del_elem in Hin. by eapply Hr.
Qed.

Lemma changed_channel_reachable tn sc nr hsh prng id c r prng' c' :
  tn_reachable tn -> dict_get id (channelidentifiers_to_channels tn) = Some c ->
  env_ok true c sc nr -> state_transition c sc nr hsh prng = Ok (r, prng') ->
  new_state r = Some c' ->
  forall id' c1, (id', c1) ∈ dict_set id c' (channelidentifiers_to_channels tn) -> reachable c1.
Proof.
  intros Hr Hc He Hrun Hn id' c1 Hin.
  apply dict_set_elem in Hin as [[-> ->]|Hin]; [|by eapply Hr].
  apply (reachable_step c); [eapply Hr; by apply dict_get_In|].
  by eapply step_state_change; [exact He|exact Hrun|exact Hn].
Qed.

Lemma subdispatch_to_channel_reachable tn sc id nr hsh prng it prng' :
  tn_reachable tn ->
  (forall c, dict_get id (channelidentifiers_to_channels tn) = Some c -> env_ok true c sc nr) ->
  subdispatch_to_channel_by_id tn sc id nr hsh prng = Ok (it, prng') -> tn_reachable (new_state it).
Proof.
  intros Hr He Hs. unfold subdispatch_to_channel_by_id in Hs.
  destruct (dict_get id _) as [c|] eqn:Hc; [|by injection Hs as <- _].
  apply bind_Ok in Hs as ([r prng1] & Hrun & Hs). destruct (defaultdict_get _ _) as [p bp].
  destruct (new_state r) as [c'|] eqn:Hn.
  - injection Hs as <- _. intros id' c1. cbn. eapply changed_channel_reachable; eauto.
  - apply bind_Ok in Hs as (ids & Hd & Hs). apply bind_Ok in Hs as (rem & _ & Hs).
    injection Hs as <- _. intros id' c1. cbn. by eapply removed_channel_reachable.
Qed.

Lemma token_network_reachable tn sc nr hsh prng it prng' :
  tn_step_env tn sc nr -> tn_reachable tn ->
  token_network_transition tn sc nr hsh prng = Ok (it, prng') -> tn_reachable (new_state it).
Proof.
  intros Henv Hr Hok. destruct sc; cbn in Hok; try (by injection Hok as <- _);
    try (eapply subdispatch_to_channel_reachable; [exact Hr| |exact Hok]; intros c0 Hc0;
         by eapply Henv).
  - injection Hok as <- _. unfold handle_channelnew. case_if; [done|].
    destruct (defaultdict_get _ _) as [ids by_partner]. intros id c. cbn. intros Hin.
    apply dict_set_elem in Hin as [[-> ->]|Hin]; [exact Henv|by eapply Hr].
  - unfold handle_batch_unlock in Hok.
    destruct (dict_get _ _) as [c|] eqn:Hc; [|by injection Hok as <- _].
    apply bind_Ok in Hok as ([r prng1] & Hrun & Hok). destruct (new_state r) as [c'|] eqn:Hn.
    + injection Hok as <- _. intros id' c1. cbn.
      eapply changed_channel_reachable; [exact Hr|exact Hc| |exact Hrun|exact Hn]. by eapply Henv.
    + destruct (defaultdict_get _ _) as [p bp]. apply bind_Ok in Hok as (rem & _ & Hok).
      apply bind_Ok in Hok as (ids & Hd & Hok). injection Hok as <- _. intros id' c1. cbn.
      by eapply removed_channel_reachable.
Qed.

Lemma put_token_network_reachable registry net tn cs :
  tn_reachable tn -> chain_reachable cs -> chain_reachable (put_token_network registry net tn cs).
Proof.
  intros Ht Hr. unfold put_token_network.
  destruct (dict_get registry _) as [r|] eqn:Er; [|done]. intros a r'. cbn. intros Hin.
  apply dict_set_elem in Hin as [[-> ->]|Hin]; [|by eapply Hr].
  intros net' tn'. cbn. intros Hin. apply dict_set_elem in Hin as [[-> ->]|Hin]; [done|].
  eapply (Hr registry r); [by apply dict_get_In|exact Hin].
Qed.

Lemma get_token_network_reachable cs net registry tn :
  chain_reachable cs -> get_token_network_by_address cs net = Some (registry, tn) -> tn_reachable tn.
Proof.
  unfold get_token_network_by_address. intros Hr Hg.
  destruct (truthy _) as [ra|]; [|done]. destruct (dict_get ra _) as [r|] eqn:Er; [|done].
  destruct (dict_get net _) as [tn0|] eqn:Et; [|done]. injection Hg as <- <-.
  eapply Hr; by apply dict_get_In.
Qed.

(** The condition for a state change that goes to a token network. *)
Definition network_env cs sc (net : bytes) : Prop :=
  forall registry tn, get_token_network_by_address cs net = Some (registry, tn) ->
    tn_step_env tn sc (cs_block_number cs).

Lemma dispatch_to_token_network_reachable cs sc net cs' evs :
  network_env cs sc net -> chain_reachable cs ->
  dispatch_to_token_network cs sc net = Ok (cs', evs) -> chain_reachable cs'.
Proof.
  intros Henv Hr Hok. unfold dispatch_to_token_network in Hok.
  destruct (get_token_network_by_address cs net) as [[registry tn]|] eqn:Hg; [|by injection Hok as <- _].
  apply bind_Ok in Hok as ([it prng] & Hrun & Hok). injection Hok as <- _.
  apply (put_token_network_reachable registry net (new_state it) cs); [|done].
  eapply token_network_reachable; [by eapply Henv| |exact Hrun]. by eapply get_token_network_reachable.
Qed.

(** ** Blocks *)

Lemma all_channels_reachable cs a cs' evs :
  chain_reachable cs ->
  subdispatch_to_all_channels cs (SBlock a) (block_number a) (cs_block_hash cs) = Ok (cs', evs) ->
  chain_reachable cs'.
Proof.
  intros Hr Hok. unfold subdispatch_to_all_channels in Hok.
  apply bind_Ok in Hok as ([[chans prng] evs1] & Hrun & Hok). injection Hok as <- _.
  apply put_channels_reachable; [|done].
  apply (py_foldl_inv (fun s => store_reachable s.1.1)) in Hrun; [done| |by apply chain_reachable_store].
  intros [[chans1 prng1] evs2] ref s' _ Hs Hstep. cbn in Hs. unfold channel_step_at in Hstep.
  destruct (dict_get ref chans1) as [c|] eqn:Hc; [|by injection Hstep as <-].
  apply bind_Ok in Hstep as ([r prng2] & Hst & Hstep). injection Hstep as <-. cbn.
  destruct (new_state r) as [c'|] eqn:Hn; [|done]. intros ref1 c1. unfold store_channel.
  destruct (decide (ref1 = ref)) as [->|Hne].
  - rewrite dict_get_set_eq. intros [= <-]. apply (reachable_step c); [by eapply Hs|].
    by eapply step_state_change; [|exact Hst|exact Hn].
  - rewrite dict_get_set_ne by done. apply Hs.
Qed.

(** ** Tasks *)

(** The channel that the views find is the one of the store. *)
Lemma dict_get_tn_channels net tn id :
  dict_get (net, id) (tn_channels net tn) = dict_get id (channelidentifiers_to_channels tn).
Proof.
  unfold tn_channels. induction (channelidentifiers_to_channels tn) as [|[id0 c0] l IH]; cbn; [done|].
  destruct (decide (id = id0)) as [->|Hne].
  - by rewrite decide_True.
  - rewrite decide_False by congruence. exact IH.
Qed.

Lemma dict_get_other_tn net net' tn id : net <> net' -> dict_get (net, id) (tn_channels net' tn) = None.
Proof.
  intros Hne. unfold tn_channels. induction (channelidentifiers_to_channels tn) as [|[id0 c0] l IH]; cbn;
    [done|]. rewrite decide_False by congruence. exact IH.
Qed.

Lemma dict_get_registry_channels net id (tns : dict bytes TokenNetworkState) :
  match dict_get net tns with
  | Some tn => forall c, dict_get id (channelidentifiers_to_channels tn) = Some c ->
      dict_get (net, id) (flat_map (fun nt => tn_channels nt.1 nt.2) tns) = Some c
  | None => dict_get (net, id) (flat_map (fun nt => tn_channels nt.1 nt.2) tns) = None
  end.
Proof.
  induction tns as [|[net0 tn0] tns IH]; cbn; [done|]. case_decide as E.
  - subst net0. intros c Hc. rewrite dict_get_app. by rewrite dict_get_tn_channels, Hc.
  - destruct (dict_get net tns); [intros c Hc|]; rewrite dict_get_app, dict_get_other_tn by done; auto.
Qed.

Lemma channel_in_store cs net id c :
  get_channelstate_by_canonical_identifier cs net id = Some c ->
  dict_get (net, id) (chain_channels cs) = Some c.
Proof.
  unfold get_channelstate_by_canonical_identifier, chain_channels.
  induction (identifiers_to_tokennetworkregistries cs) as [|[a r] l IH]; cbn; [done|].
  unfold registry_channels at 1. pose proof (dict_get_registry_channels net id
    (tokennetworkaddresses_to_tokennetworks r)) as Hreg. rewrite dict_get_app.
  destruct (dict_get net (tokennetworkaddresses_to_tokennetworks r)) as [tn|].
  - intros Hc. by rewrite (Hreg c Hc).
  - rewrite Hreg. exact IH.
Qed.

Lemma run_initiator_reachable cs net sh ts sc cs' evs :
  manager_env net ts sc (chain_channels cs) (chain_addresses cs) -> chain_reachable cs ->
  run_initiator cs net sh ts sc = Ok (cs', evs) -> chain_reachable cs'.
Proof.
  intros Henv Hr Hok. unfold run_initiator in Hok.
  apply bind_Ok in Hok as ([[it chans] prng] & Hrun & Hok). injection Hok as <- _.
  eapply (task_step_reachable (T:=InitiatorPaymentState) net ts sc cs _ _ (cs_block_hash cs));
    [exact Hr|exact Henv|exact Hrun].
Qed.

Lemma run_mediator_reachable cs net sh ts sc cs' evs :
  mediator_env net ts sc (chain_channels cs) (chain_addresses cs) -> chain_reachable cs ->
  run_mediator cs net sh ts sc = Ok (cs', evs) -> chain_reachable cs'.
Proof.
  intros Henv Hr Hok. unfold run_mediator in Hok.
  apply bind_Ok in Hok as ([[it chans] prng] & Hrun & Hok). injection Hok as <- _.
  eapply (task_step_reachable (T:=MediatorTransferState) net ts sc cs);
    [exact Hr|exact Henv|exact Hrun].
Qed.

Lemma run_target_reachable cs net id c cid sh ts sc cs' evs :
  get_channelstate_by_canonical_identifier cs net id = Some c ->
  target_step_env ts sc c -> chain_reachable cs ->
  run_target cs net id c cid sh ts sc = Ok (cs', evs) -> chain_reachable cs'.
Proof.
  intros Hc Henv Hr Hok. apply channel_in_store in Hc. unfold run_target in Hok.
  apply bind_Ok in Hok as ([[it c'] prng] & Hrun & Hok). injection Hok as <- _.
  eapply (task_step_reachable (T:=TargetTransferState) (net, id) ts sc cs
            (pseudo_random_generator cs) (cs_block_number cs) (cs_block_hash cs) it _ prng);
    [exact Hr| |].
  - intros c0 Hc0. by pose proof (eq_trans (eq_sym Hc) Hc0) as [= <-].
  - cbn. unfold target_on_store.
    replace (dict_get (K:=ChannelRef) (net, id) (chain_channels cs)) with (Some c) by (symmetry; exact Hc).
    by rewrite Hrun.
Qed.

(** The condition for a dispatch to the task of a secrethash. *)
Definition paymenttask_env cs sc (sh : bytes) : Prop :=
  match dict_get sh (secrethashes_to_task cs) with
  | Some (InitiatorTask net p) =>
      manager_env net (Some p) sc (chain_channels cs) (chain_addresses cs)
  | Some (MediatorTask net m) =>
      mediator_env net (Some m) sc (chain_channels cs) (chain_addresses cs)
  | Some (TargetTask cid t) =>
      forall c, get_channelstate_by_canonical_identifier cs (token_network_address cid)
                  (channel_identifier cid) = Some c -> target_step_env (Some t) sc c
  | None => True
  end.

Lemma paymenttask_reachable cs sc sh cs' evs :
  paymenttask_env cs sc sh -> chain_reachable cs ->
  subdispatch_to_paymenttask cs sc sh = Ok (cs', evs) -> chain_reachable cs'.
Proof.
  unfold paymenttask_env, subdispatch_to_paymenttask. intros Henv Hr Hok.
  destruct (dict_get sh _) as [[net p|net m|cid t]|]; [..|by injection Hok as <- _].
  - case_match; [by eapply run_initiator_reachable|by injection Hok as <- _].
  - case_match; [by eapply run_mediator_reachable|by injection Hok as <- _].
  - destruct (get_channelstate_by_canonical_identifier _ _ _) as [c|] eqn:Hc; [|by injection Hok as <- _].
    eapply run_target_reachable; [exact Hc|by apply Henv|exact Hr|exact Hok].
Qed.

(** The same for a dispatch to all the tasks, one after the other. *)
Fixpoint all_tasks_env sc (keys : list bytes) cs : Prop :=
  match keys with
  | [] => True
  | sh :: rest =>
      paymenttask_env cs sc sh
      /\ forall cs' evs, subdispatch_to_paymenttask cs sc sh = Ok (cs', evs) -> all_tasks_env sc rest cs'
  end.

Lemma all_tasks_reachable sc keys : forall cs evs r,
  all_tasks_env sc keys cs -> chain_reachable cs ->
  py_foldl (fun s sh => '(cs', evs) ← subdispatch_to_paymenttask (fst s) sc sh; Ok (cs', snd s ++ evs))
    (cs, evs) keys = Ok r -> chain_reachable (fst r).
Proof.
  induction keys as [|sh keys IH]; intros cs evs r Henv Hr Hok; cbn in Hok; [by injection Hok as <-|].
  destruct Henv as [He Hrest]. apply bind_Ok in Hok as (s1 & Hstep & Hok).
  apply bind_Ok in Hstep as ([cs1 evs1] & Hsub & Hstep). injection Hstep as <-.
  eapply IH; [by eapply Hrest|by eapply paymenttask_reachable|exact Hok].
Qed.

(** ** The node *)

(** What the blockchain, the user and the partners guarantee about a state
    change: the conditions of the channel or the task it goes to. *)
Definition node_env cs sc : Prop :=
  match sc with
  | SBlock a =>
      forall cs1 evs,
        subdispatch_to_all_channels (set_block (block_number a) (block_hash a) cs) sc
          (block_number a) (block_hash a) = Ok (cs1, evs) ->
        all_tasks_env sc (dict_keys (secrethashes_to_task cs1)) cs1
  | SActionInitInitiator a =>
      manager_env (td_token_network_address (aii_transfer a)) None sc (chain_channels cs)
        (chain_addresses cs)
  | SActionInitMediator a =>
      mediator_env
        (token_network_address (sbp_canonical_identifier (lts_balance_proof (aim_from_transfer a))))
        None sc (chain_channels cs) (chain_addresses cs)
  | SActionInitTarget a =>
      let cid := sbp_canonical_identifier (lts_balance_proof (ait_transfer a)) in
      forall c, get_channelstate_by_canonical_identifier cs (token_network_address cid)
                  (channel_identifier cid) = Some c -> target_step_env None sc c
  | SActionTransferReroute a =>
      forall t,
        dict_get (lock_secrethash (lts_lock (atr_transfer a))) (secrethashes_to_task cs) = Some t ->
        paymenttask_env (set_tasks (dict_set (atr_secrethash a) t (secrethashes_to_task cs)) cs) sc
          (atr_secrethash a)
  | SReceiveTransferCancelRoute a =>
      paymenttask_env cs sc (lock_secrethash (lts_lock (rtc_transfer a)))
  | SContractReceiveSecretReveal a => paymenttask_env cs sc (crsr_secrethash a)
  | SReceiveSecretReveal a => paymenttask_env cs sc (rsr_secrethash a)
  | SReceiveTransferRefund a =>
      paymenttask_env cs sc (lock_secrethash (lts_lock (rtr_transfer a)))
  | SReceiveSecretRequest a => paymenttask_env cs sc (rsq_secrethash a)
  | SReceiveUnlock a => paymenttask_env cs sc (ru_secrethash a)
  | SReceiveLockExpired a => paymenttask_env cs sc (rle_secrethash a)
  | SContractReceiveNewTokenNetworkRegistry a => registry_reachable (cntr_token_network_registry a)
  | SContractReceiveNewTokenNetwork a => tn_reachable (cntn_token_network a)
  | SActionChannelSetRevealTimeout a =>
      network_env cs sc (token_network_address (art_canonical_identifier a))
  | SActionChannelWithdraw a => network_env cs sc (token_network_address (acw_canonical_identifier a))
  | SActionChannelCoopSettle a =>
      network_env cs sc (token_network_address (acs_canonical_identifier a))
  | SReceiveWithdrawRequest a =>
      network_env cs sc (token_network_address (rwr_canonical_identifier a))
  | SReceiveWithdrawConfirmation a =>
      network_env cs sc (token_network_address (rwc_canonical_identifier a))
  | SReceiveWithdrawExpired a =>
      network_env cs sc (token_network_address (rwe_canonical_identifier a))
  | _ =>
      match state_change_network sc with
      | Some net => network_env cs sc net
      | None => True
      end
  end.

Lemma maybe_add_tokennetwork_reachable cs registry tn :
  tn_reachable tn -> chain_reachable cs -> chain_reachable (maybe_add_tokennetwork cs registry tn).
Proof.
  intros Ht Hr. unfold maybe_add_tokennetwork, get_networks.
  assert (forall r, registry_reachable r -> registry_reachable (add_token_network r tn)) as Hadd.
  { intros r Hreg net tn'. cbn. intros Hin. apply dict_set_elem in Hin as [[-> ->]|Hin]; [done|].
    by eapply Hreg. }
  assert (forall r l, registry_reachable r ->
    (forall a r0, (a, r0) ∈ l -> registry_reachable r0) ->
    forall a r0, (a, r0) ∈ dict_set registry r l -> registry_reachable r0) as Hset.
  { intros r l Hreg Hl a r0 Hin. apply dict_set_elem in Hin as [[-> ->]|Hin]; [done|by eapply Hl]. }
  destruct (dict_get registry _) as [r|] eqn:Er; cbn [fst snd].
  - assert (registry_reachable r) as Hreg by (eapply Hr; by apply dict_get_In).
    destruct (match truthy _ with Some _ => _ | None => _ end); [done|].
    unfold chain_reachable. cbn. apply Hset; [by apply Hadd|exact Hr].
  - assert (registry_reachable (new_TokenNetworkRegistryState registry [tn] [])) as Hnew.
    { cbn. apply (Hadd (mkTokenNetworkRegistryState registry [] [] [])).
      intros net tn'. cbn. by intros Hin%elem_of_nil. }
    unfold chain_reachable. cbn. apply Hset; [by apply Hadd|]. by apply Hset.
Qed.

Lemma handle_state_change_reachable cs sc cs' evs :
  node_env cs sc -> chain_reachable cs ->
  handle_state_change cs sc = Ok (cs', evs) -> chain_reachable cs'.
Proof.
  intros Henv Hr Hok. unfold handle_state_change in Hok.
  destruct sc; cbn [state_change_network node_env] in Hok, Henv;
    try (by injection Hok as <- _);
    try (by eapply dispatch_to_token_network_reachable);
    try (by eapply paymenttask_reachable).
  - unfold node_handle_block in Hok. apply bind_Ok in Hok as ([cs2 evs2] & Hch & Hok).
    apply bind_Ok in Hok as ([cs3 evs3] & Hts & Hok). injection Hok as <- _.
    eapply (all_tasks_reachable _ _ _ _ (cs3, evs3)); [by eapply Henv| |exact Hts].
    by eapply all_channels_reachable; [|exact Hch].
  - unfold handle_contract_receive_channel_closed in Hok.
    eapply dispatch_to_token_network_reachable; [| |exact Hok].
    + case_match; exact Henv.
    + case_match; exact Hr.
  - injection Hok as <- _. case_if; [done|]. intros a r. cbn. intros Hin.
    apply dict_set_elem in Hin as [[-> ->]|Hin]; [done|by eapply Hr].
  - injection Hok as <- _. by apply maybe_add_tokennetwork_reachable.
  - unfold node_handle_receive_withdraw_confirmation in Hok.
    apply bind_Ok in Hok as ([cs1 evs1] & Hd & Hok). injection Hok as <- _.
    exact (dispatch_to_token_network_reachable _ _ _ _ _ Henv Hr Hd).
  - unfold subdispatch_initiatortask in Hok.
    repeat case_match; try (by injection Hok as <- _);
      (eapply run_initiator_reachable; [|exact Hr|exact Hok]; exact Henv).
  - unfold subdispatch_mediatortask in Hok.
    repeat case_match; try (by injection Hok as <- _);
      (eapply run_mediator_reachable; [|exact Hr|exact Hok]; exact Henv).
  - unfold subdispatch_targettask in Hok.
    destruct (get_channelstate_by_canonical_identifier cs _ _) as [c|] eqn:Hc.
    + destruct (Henv c eq_refl) as (Hbp & Hv & Hp).
      repeat case_match; try (by injection Hok as <- _);
        (eapply run_target_reachable; [exact Hc| |exact Hr|exact Hok]; by split_and!).
    + repeat case_match; by injection Hok as <- _.
  - unfold handle_action_transfer_reroute in Hok.
    destruct (dict_get _ (secrethashes_to_task cs)) as [t|] eqn:Ht; [|done].
    eapply paymenttask_reachable; [by apply Henv| |exact Hok]. exact Hr.
Qed.

(** C8: the node refines the channel.  A state change that satisfies the
    conditions of the channel or the task it goes to leaves the node with
    reachable channels only, each with the guarantees of a reachable channel:
    the node changes them by operations of the channels alone, whether it
    dispatches to a token network, to a task or, with a new block, to all of
    them. *)
Theorem node_keeps_channels_reachable cs sc cs' evs
    (Henv : node_env cs sc) (Hr : chain_reachable cs)
    (Hrun : node_state_transition cs sc = Ok (cs', evs)) :
  chain_reachable cs'
  /\ forall ref c, dict_get ref (chain_channels cs') = Some c -> sanity_check c = Ok tt.
Proof.
  unfold node_state_transition in Hrun. apply bind_Ok in Hrun as ([cs1 evs1] & Hh & Hrun).
  apply bind_Ok in Hrun as (cs2 & Hu & Hrun). injection Hrun as <- _.
  pose proof (handle_state_change_reachable _ _ _ _ Henv Hr Hh) as Hr1.
  assert (identifiers_to_tokennetworkregistries cs2 = identifiers_to_tokennetworkregistries cs1) as Heq.
  { unfold update_queues in Hu. apply bind_Ok in Hu as (cs3 & Hf & Hu). injection Hu as <-.
    assert (identifiers_to_tokennetworkregistries cs3 = identifiers_to_tokennetworkregistries cs1) as <-.
    { destruct (is_contract_receive sc); [apply bind_Ok in Hf as (? & _ & Hf)|]; by injection Hf as <-. }
    clear. revert cs3. induction evs1 as [|e evs IH]; intros cs3; cbn; [done|]. rewrite IH.
    unfold enqueue_event. by destruct (event_message e), (is_contract_send e). }
  assert (chain_reachable cs2) as Hr2 by (unfold chain_reachable; by rewrite Heq).
  split; [exact Hr2|]. intros ref c Hc. apply (sanity_check_ok true), reachable_solvent.
  exact (chain_reachable_store _ Hr2 _ _ Hc).
Qed.
End channels.
