(* ===== verification/Wal.v ===== *)
(** The write-ahead log ([storage/wal.py]) on its SQLite storage
    ([storage/sqlite.py]).

    The state machine is a parameter: its states, state changes and events, and
    its transition, which for the node is [Node.node_state_transition].  The
    database is modelled by its three tables, in the order of their
    identifiers.  The identifiers come from the factory of the [ulid] package
    and the serialized forms from the serializer, which are parameters too. *)

From S2P Require Import Prelude.

(** [MIN_ULID] and [MAX_ULID] *)
Definition LOW_STATECHANGE_ULID : Z := 0.
Definition HIGH_STATECHANGE_ULID : Z := 2 ^ 128 - 1.

(** [constants.py] *)
Definition SNAPSHOT_STATE_CHANGES_COUNT : Z := 500.

(** ** Parameters *)

(** The monotonic factory of the identifiers of a table: the next identifier
    after the last one. *)
Class UlidFactory : Type := {
  ulid_new : Z -> Z;
  ulid_new_lt : forall last, LOW_STATECHANGE_ULID <= last -> last < ulid_new last
}.

(** The serialized form of a value. *)
Class Serializer (Data A : Type) : Type := {
  serialize : A -> Data;
  deserialize : Data -> Py A;
  deserialize_serialize : forall a, deserialize (serialize a) = Ok a
}.

(** ** The tables *)

Record StateChangeEncodedRecord (Data : Type) : Type := mkStateChangeEncodedRecord {
  sc_identifier : Z;
  sc_data : Data
}.
Arguments mkStateChangeEncodedRecord {_} _ _.
Arguments sc_identifier {_} _.
Arguments sc_data {_} _.

Record EventEncodedRecord (Data : Type) : Type := mkEventEncodedRecord {
  ev_identifier : Z;
  ev_source_statechange_id : Z;
  ev_data : Data
}.
Arguments mkEventEncodedRecord {_} _ _ _.
Arguments ev_identifier {_} _.
Arguments ev_source_statechange_id {_} _.
Arguments ev_data {_} _.

(** The [statechange_id] of the first snapshot is [NULL]. *)
Record SnapshotEncodedRecord (Data : Type) : Type := mkSnapshotEncodedRecord {
  sn_identifier : Z;
  sn_state_change_qty : Z;
  sn_state_change_identifier : option Z;
  sn_data : Data
}.
Arguments mkSnapshotEncodedRecord {_} _ _ _ _.
Arguments sn_identifier {_} _.
Arguments sn_state_change_qty {_} _.
Arguments sn_state_change_identifier {_} _.
Arguments sn_data {_} _.

Record SQLiteStorage (Data : Type) : Type := mkSQLiteStorage {
  db_state_changes : list (StateChangeEncodedRecord Data);
  db_state_events : list (EventEncodedRecord Data);
  db_state_snapshot : list (SnapshotEncodedRecord Data)
}.
Arguments mkSQLiteStorage {_} _ _ _.
Arguments db_state_changes {_} _.
Arguments db_state_events {_} _.
Arguments db_state_snapshot {_} _.

(** An inclusive range of identifiers ([Range]). *)
Record Range : Type := mkRange {
  range_first : Z;
  range_last : Z
}.

(** [Range.__post_init__] *)
Definition new_Range (first last : Z) : Py Range :=
  _ ← raise_if (last <? first) (ValueError "last must be larger or equal to first");
  Ok (mkRange first last).

Section storage.
Context {Data : Type} `{UlidFactory}.
Implicit Types (db : SQLiteStorage Data).

(** The last identifier of a table, for the factory of the table. *)
Definition last_id (ids : list Z) : Z := default LOW_STATECHANGE_ULID (last ids).

(** [write_state_change] *)
Definition write_state_change (state_change : Data) db : Z * SQLiteStorage Data :=
  let new_id := ulid_new (last_id (map sc_identifier (db_state_changes db))) in
  (new_id,
   mkSQLiteStorage (db_state_changes db ++ [mkStateChangeEncodedRecord new_id state_change])
     (db_state_events db) (db_state_snapshot db)).

(** [write_events], one row after the other. *)
Definition write_event (source : Z) db (event : Data) : SQLiteStorage Data :=
  let new_id := ulid_new (last_id (map ev_identifier (db_state_events db))) in
  mkSQLiteStorage (db_state_changes db)
    (db_state_events db ++ [mkEventEncodedRecord new_id source event]) (db_state_snapshot db).

Definition write_events (source : Z) (evs : list Data) db : SQLiteStorage Data :=
  foldl (write_event source) db evs.

(** [has_snapshot] *)
Definition has_snapshot db : bool :=
  match db_state_snapshot db with [] => false | _ => true end.

Definition write_snapshot_row (statechange_id : option Z) (qty : Z) (snapshot : Data) db :
    SQLiteStorage Data :=
  let new_id := ulid_new (last_id (map sn_identifier (db_state_snapshot db))) in
  mkSQLiteStorage (db_state_changes db) (db_state_events db)
    (db_state_snapshot db ++ [mkSnapshotEncodedRecord new_id qty statechange_id snapshot]).

(** [write_first_state_snapshot] *)
Definition write_first_state_snapshot (snapshot : Data) db : Py (SQLiteStorage Data) :=
  _ ← raise_if (has_snapshot db)
        (RuntimeError "write_first_state_snapshot can only be used for an unitialized node.");
  Ok (write_snapshot_row None 0 snapshot db).

(** [write_state_snapshot]: the constraints of the table [state_snapshot] want
    [statechange_id] to be the identifier of a row of [state_changes] and to be
    unique in the table. *)
Definition write_state_snapshot (snapshot : Data) (statechange_id qty : Z) db :
    Py (SQLiteStorage Data) :=
  _ ← raise_if (negb (bool_decide (statechange_id ∈ map sc_identifier (db_state_changes db))))
        IntegrityError;
  _ ← raise_if (bool_decide (Some statechange_id ∈
                               map sn_state_change_identifier (db_state_snapshot db)))
        IntegrityError;
  Ok (write_snapshot_row (Some statechange_id) qty snapshot db).

(** [get_snapshot_before_state_change]: the newest snapshot of a state change
    that is not after the given one. *)
Definition get_snapshot_before_state_change (state_change_identifier : Z) db :
    option (SnapshotEncodedRecord Data) :=
  last (List.filter
          (fun r => match sn_state_change_identifier r with
                    | Some id => id <=? state_change_identifier
                    | None => true
                    end) (db_state_snapshot db)).

(** [get_statechanges_records_by_range]: [BETWEEN] includes both ends. *)
Definition get_statechanges_records_by_range (r : Range) db : list (StateChangeEncodedRecord Data) :=
  List.filter (fun row => (range_first r <=? sc_identifier row) && (sc_identifier row <=? range_last r))
    (db_state_changes db).
End storage.

(** ** The log *)

(** A transition function gets a state object, which it may change in place: it
    leaves the object in the first state and returns that same object ([None])
    or another one, with the events. *)
Definition Transition (State Change Ev : Type) : Type :=
  State -> Change -> Py (State * option State * list Ev).

Section wal.
Context {State Change Ev Data : Type} `{UlidFactory}.
Context `{!Serializer Data State} `{!Serializer Data Change} `{!Serializer Data Ev}.
Context (state_transition : Transition State Change Ev).
Implicit Types (db : SQLiteStorage Data).

(** [saved_state] is [None] until a state change was dispatched: reading the
    attribute raises. *)
Record WriteAheadLog : Type := mkWriteAheadLog {
  wal_storage : SQLiteStorage Data;
  wal_state : State;
  wal_saved_state : option (Z * State)
}.

(** [WriteAheadLog.__init__] *)
Definition new_WriteAheadLog (state : State) db : WriteAheadLog := mkWriteAheadLog db state None.

(** [dispatch]: the returned state and the events. *)
Definition wal_dispatch (state : State) (change : Change) : Py (State * list Ev) :=
  '(object, returned, evs) ← state_transition state change;
  Ok (default object returned, evs).

(** [_AtomicStateChangeDispatcher]: the cloned object the dispatcher was made
    with, the other object that is its state now, if it is another one, the
    storage, the last identifier and, for the caller, the events. *)
Record Dispatcher : Type := mkDispatcher {
  cloned_state : State;
  other_state : option State;
  dispatcher_storage : SQLiteStorage Data;
  last_state_change_id : option Z;
  dispatched_events : list Ev
}.

(** [_AtomicStateChangeDispatcher.latest_state] *)
Definition latest_state (d : Dispatcher) : State := default (cloned_state d) (other_state d).

(** [_AtomicStateChangeDispatcher.write_state_change_and_events] *)
Definition write_state_change_and_events (change : Change) (evs : list Ev) db :
    Z * SQLiteStorage Data :=
  let '(state_change_id, db1) := write_state_change (serialize change) db in
  (state_change_id, write_events state_change_id (map serialize evs) db1).

(** [_AtomicStateChangeDispatcher.dispatch] *)
Definition dispatcher_dispatch (d : Dispatcher) (change : Change) : Py Dispatcher :=
  '(object, returned, evs) ← state_transition (latest_state d) change;
  let '(state_change_id, db) := write_state_change_and_events change evs (dispatcher_storage d) in
  Ok (mkDispatcher
        match other_state d with None => object | Some _ => cloned_state d end
        match other_state d with None => returned | Some _ => Some (default object returned) end
        db (Some state_change_id) (dispatched_events d ++ evs)).

(** [process_state_change_atomically], with the body of the [with] statement:
    what the body computes, or the exception upon which the transaction is
    rolled back and the log stays as it was.  The log keeps the cloned object. *)
Definition run_atomically {A : Type} (wal : WriteAheadLog)
    (body : Dispatcher -> Py (Dispatcher * A)) : WriteAheadLog * Py A :=
  match body (mkDispatcher (wal_state wal) None (wal_storage wal) None []) with
  | Raise e => (wal, Raise e)
  | Ok (d, result) =>
      (mkWriteAheadLog (dispatcher_storage d) (cloned_state d)
         match last_state_change_id d with
         | Some id => Some (id, cloned_state d)
         | None => wal_saved_state wal
         end, Ok result)
  end.

(** The body that dispatches the state changes of a list and collects their
    events. *)
Definition process_state_change_atomically (wal : WriteAheadLog) (changes : list Change) :
    WriteAheadLog * Py (list Ev) :=
  run_atomically wal
    (fun dispatcher =>
       d ← py_foldl dispatcher_dispatch dispatcher changes;
       Ok (d, dispatched_events d)).

(** [snapshot] *)
Definition wal_snapshot (wal : WriteAheadLog) (statechange_qty : Z) : Py WriteAheadLog :=
  match wal_saved_state wal with
  | None => Raise AttributeError
  | Some (state_change_id, _) =>
      db ← write_state_snapshot (serialize (wal_state wal)) state_change_id statechange_qty
             (wal_storage wal);
      Ok (mkWriteAheadLog db (wal_state wal) (wal_saved_state wal))
  end.

(** ** Restoring *)

(** [SerializedSQLiteStorage.get_statechanges_by_range] *)
Definition get_statechanges_by_range (r : Range) db : Py (list Change) :=
  py_map (fun row => deserialize (sc_data row)) (get_statechanges_records_by_range r db).

(** [SerializedSQLiteStorage.get_snapshot_before_state_change]: the number of
    state changes, the identifier of the state change and the state. *)
Definition get_snapshot (state_change_identifier : Z) db : Py (option (Z * Z * State)) :=
  match get_snapshot_before_state_change state_change_identifier db with
  | None => Ok None
  | Some row =>
      state ← deserialize (sn_data row);
      Ok (Some (sn_state_change_qty row,
                default LOW_STATECHANGE_ULID (sn_state_change_identifier row), state))
  end.

(** [restore_or_init_snapshot]: the state, the identifier of its state change,
    the number of state changes and the storage. *)
Definition restore_or_init_snapshot db (initial_state : State) :
    Py (State * Z * Z * SQLiteStorage Data) :=
  snapshot ← get_snapshot HIGH_STATECHANGE_ULID db;
  match snapshot with
  | Some (qty, identifier, state) => Ok (state, identifier, qty, db)
  | None =>
      db' ← write_first_state_snapshot (serialize initial_state) db;
      Ok (initial_state, LOW_STATECHANGE_ULID, 0, db')
  end.

(** [replay_state_changes] *)
Definition replay (state : State) (changes : list Change) : Py State :=
  py_foldl (fun s change => '(s', _) ← wal_dispatch s change; Ok s') state changes.

Definition replay_state_changes (state : State) (r : Range) db : Py (State * Z) :=
  unapplied ← get_statechanges_by_range r db;
  state' ← replay state unapplied;
  Ok (state', Z.of_nat (length unapplied)).

(** [restore_state] *)
Definition restore_state db (state_change_identifier : Z) : Py (option State) :=
  snapshot ← get_snapshot state_change_identifier db;
  match snapshot with
  | None => Ok None
  | Some (_, identifier, state) =>
      r ← new_Range identifier state_change_identifier;
      '(state', _) ← replay_state_changes state r db;
      Ok (Some state')
  end.

(** ** The service *)

(** The log of [RaidenService] with its counters. *)
Record RaidenService : Type := mkRaidenService {
  rs_wal : WriteAheadLog;
  state_change_qty_snapshot : Z;
  state_change_qty : Z
}.

(** [_initialize_wal], from the storage on. *)
Definition initialize_wal db (initial_state : State) : Py RaidenService :=
  '(state_snapshot, state_change_start, qty_snapshot, db') ←
    restore_or_init_snapshot db initial_state;
  r ← new_Range state_change_start HIGH_STATECHANGE_ULID;
  '(state, qty_unapplied) ← replay_state_changes state_snapshot r db';
  Ok (mkRaidenService (new_WriteAheadLog state db') qty_snapshot (qty_snapshot + qty_unapplied)).

(** [_maybe_snapshot] *)
Definition maybe_snapshot (s : RaidenService) : Py RaidenService :=
  if state_change_qty_snapshot s + SNAPSHOT_STATE_CHANGES_COUNT <? state_change_qty s then
    wal ← wal_snapshot (rs_wal s) (state_change_qty s);
    Ok (mkRaidenService wal (state_change_qty s) (state_change_qty s))
  else Ok s.

(** The part of [_trigger_state_change_effects] that concerns the log. *)
Definition count_state_changes (s : RaidenService) (wal : WriteAheadLog) (n : nat) : RaidenService :=
  mkRaidenService wal (state_change_qty_snapshot s) (state_change_qty s + Z.of_nat n).

(** [handle_state_changes]: the service and the events, or the exception. *)
Definition handle_state_changes (s : RaidenService) (changes : list Change) :
    RaidenService * Py (list Ev) :=
  let '(wal, raiden_events) := process_state_change_atomically (rs_wal s) changes in
  match raiden_events with
  | Raise e => (s, Raise e)
  | Ok evs =>
      let s1 := count_state_changes s wal (length changes) in
      match maybe_snapshot s1 with
      | Raise e => (s1, Raise e)
      | Ok s2 => (s2, Ok evs)
      end
  end.
End wal.
