(* ===== verification/WalProofs.v ===== *)
(** What a restart restores ([storage/wal.py], [RaidenService]).

    The log is run from an empty database by batches of state changes, some of
    which may raise and are rolled back.  The state a restart computes is
    compared with the state the service had: they are the same until the first
    periodic snapshot, and after it the restart applies the state change of the
    snapshot once more. *)

From Stdlib Require Import Sorted.
From S2P Require Import Prelude Crypto MediationFee PyFloat StateChanges Node Wal.

(** ** Tables in the order of their identifiers *)

Section tables.
Context {A : Type} (key : A -> Z).

Definition ordered (rows : list A) : Prop := StronglySorted (fun a b => key a < key b) rows.

Lemma ordered_app_inv rows1 rows2 :
  ordered (rows1 ++ rows2) ->
  ordered rows2 /\ forall a b, a ∈ rows1 -> b ∈ rows2 -> key a < key b.
Proof.
  intros Hs. split.
  - induction rows1 as [|r rows1 IH]; [done|]. apply IH. by inversion Hs.
  - induction rows1 as [|r rows1 IH]; [set_solver|]. inversion Hs as [|?? Hs' Hall]; subst.
    intros a b [->|Ha]%elem_of_cons Hb; [|by apply IH].
    rewrite Forall_app in Hall. destruct Hall as [_ Hall].
    exact (proj1 (Forall_forall _ _) Hall b Hb).
Qed.

Lemma ordered_snoc rows r :
  ordered rows -> (forall a, a ∈ rows -> key a < key r) -> ordered (rows ++ [r]).
Proof.
  intros Hs Hr. induction Hs as [|a rows Hs IH Hall]; cbn; constructor.
  - constructor.
  - constructor.
  - apply IH. intros b Hb. apply Hr. set_solver.
  - apply Forall_app. split; [done|]. constructor; [|constructor]. apply Hr. set_solver.
Qed.

Lemma ordered_le_last rows r a :
  ordered (rows ++ [r]) -> a ∈ rows ++ [r] -> key a <= key r.
Proof.
  intros [_ Hlt]%ordered_app_inv [Ha|Ha]%elem_of_app.
  - pose proof (Hlt a r Ha). specialize (H ltac:(set_solver)). lia.
  - apply list_elem_of_singleton in Ha as ->. lia.
Qed.

Lemma filter_none (f : A -> bool) rows :
  (forall a, a ∈ rows -> f a = false) -> List.filter f rows = [].
Proof.
  intros Hf. induction rows as [|r rows IH]; [done|]. cbn.
  rewrite (Hf r ltac:(set_solver)). apply IH. set_solver.
Qed.

Lemma filter_every (f : A -> bool) rows :
  (forall a, a ∈ rows -> f a = true) -> List.filter f rows = rows.
Proof.
  intros Hf. apply List.forallb_filter_id, List.forallb_forall. intros a Ha.
  by apply Hf, list_elem_of_In.
Qed.

(** The rows from a row on are the suffix of the table. *)
Lemma ordered_from rows1 r rows2 hi :
  ordered (rows1 ++ r :: rows2) ->
  Forall (fun a => key a <= hi) (rows1 ++ r :: rows2) ->
  List.filter (fun a => (key r <=? key a) && (key a <=? hi)) (rows1 ++ r :: rows2) = r :: rows2.
Proof.
  intros [Hs Hlt]%ordered_app_inv Hhi. rewrite List.filter_app.
  rewrite filter_none.
  - cbn [app]. apply filter_every. intros a Ha.
    apply Forall_app in Hhi as [_ Hhi]. rewrite Forall_forall in Hhi. specialize (Hhi a Ha).
    cut (key r <= key a); [lia|]. inversion Hs as [|?? _ Hall]; subst.
    apply elem_of_cons in Ha as [->|Ha]; [lia|].
    pose proof (proj1 (Forall_forall _ _) Hall a Ha). cbn in *. lia.
  - intros a Ha. specialize (Hlt a r Ha ltac:(set_solver)). lia.
Qed.
End tables.

(** ** Writing the log *)

Section log.
Context {State Change Ev Data : Type} `{UlidFactory}.
Context `{!Serializer Data State} `{!Serializer Data Change} `{!Serializer Data Ev}.
Context (state_transition : Transition State Change Ev).

(** The transition function changes the state in place and returns it. *)
Definition in_place : Prop :=
  forall s c s' other evs, state_transition s c = Ok (s', other, evs) -> other = None.

Context (Hplace : in_place).
Implicit Types (db : SQLiteStorage Data).

Notation replay := (replay state_transition).
Notation row := (StateChangeEncodedRecord Data).

(** The table of the state changes is in the order of its identifiers, which
    are above the lowest one. *)
Definition log_ordered db : Prop :=
  ordered sc_identifier (db_state_changes db) /\
  Forall (fun r : row => LOW_STATECHANGE_ULID < sc_identifier r) (db_state_changes db).

(** [db'] is [db] with the state changes appended. *)
Definition logged db (changes : list Change) (rows : list row) db' : Prop :=
  db_state_changes db' = db_state_changes db ++ rows /\
  map sc_data rows = map serialize changes /\
  db_state_snapshot db' = db_state_snapshot db /\
  (log_ordered db -> log_ordered db').

Lemma logged_trans db1 c1 r1 db2 c2 r2 db3 :
  logged db1 c1 r1 db2 -> logged db2 c2 r2 db3 -> logged db1 (c1 ++ c2) (r1 ++ r2) db3.
Proof.
  intros (E1 & D1 & S1 & O1) (E2 & D2 & S2 & O2). repeat split.
  - by rewrite E2, E1, app_assoc.
  - by rewrite !map_app, D1, D2.
  - congruence.
  - apply O2, O1. assumption.
  - apply O2, O1. assumption.
Qed.

Lemma write_events_logs source evs db :
  db_state_changes (write_events source evs db) = db_state_changes db /\
  db_state_snapshot (write_events source evs db) = db_state_snapshot db.
Proof.
  unfold write_events. revert db. induction evs as [|e evs IH]; intros db; [done|].
  cbn [foldl]. destruct (IH (write_event source db e)) as [-> ->]. done.
Qed.

Lemma new_id_above db (r : row) :
  log_ordered db -> r ∈ db_state_changes db ->
  sc_identifier r < ulid_new (last_id (map sc_identifier (db_state_changes db))).
Proof.
  intros [Ho Hlow] Hr. unfold last_id.
  destruct (db_state_changes db) as [|r0 rows _] using rev_ind; [set_solver|].
  rewrite map_app. cbn [map]. rewrite last_snoc. cbn [default].
  pose proof (ordered_le_last _ _ _ _ Ho Hr).
  apply Forall_app in Hlow as [_ Hlow]. apply Forall_cons in Hlow as [Hlow _]. cbn in Hlow |- *.
  pose proof (ulid_new_lt (sc_identifier r0)). unfold LOW_STATECHANGE_ULID in *. lia.
Qed.

Lemma new_id_low db :
  log_ordered db ->
  LOW_STATECHANGE_ULID < ulid_new (last_id (map sc_identifier (db_state_changes db))).
Proof.
  intros Hlog. unfold last_id. destruct (last (map _ _)) as [i|] eqn:E; cbn [default].
  - apply last_Some in E as [l E].
    assert (Hi : i ∈ map sc_identifier (db_state_changes db)) by (rewrite E; set_solver).
    apply list_elem_of_fmap in Hi as (r & -> & Hr).
    destruct Hlog as [_ Hlow]. pose proof (proj1 (Forall_forall _ _) Hlow r Hr). cbn in *.
    pose proof (ulid_new_lt (sc_identifier r)). lia.
  - apply ulid_new_lt. reflexivity.
Qed.

Lemma write_state_change_logs change (evs : list Ev) db id db' :
  write_state_change_and_events change evs db = (id, db') ->
  exists r, logged db [change] [r] db' /\ sc_identifier r = id.
Proof.
  unfold write_state_change_and_events. cbn. intros [= <- <-].
  set (new := mkStateChangeEncodedRecord _ _). exists new.
  edestruct write_events_logs as [Hsc Hsn].
  split; [|done]. split; [by rewrite Hsc|]. split; [done|]. split; [by rewrite Hsn|].
  intros Hlog. split; rewrite Hsc; cbn [db_state_changes].
  - apply ordered_snoc; [by apply Hlog|]. intros a Ha. by apply new_id_above.
  - apply Forall_app. split; [by apply Hlog|]. apply Forall_singleton. by apply new_id_low.
Qed.

(** ** Dispatching a batch *)

Lemma wal_dispatch_in_place s c s' other evs :
  state_transition s c = Ok (s', other, evs) -> wal_dispatch state_transition s c = Ok (s', evs).
Proof. intros E. unfold wal_dispatch. rewrite E. cbn. by rewrite (Hplace _ _ _ _ _ E). Qed.

(** The dispatcher keeps the cloned object as its state, which is the replay
    of what it wrote to the log. *)
Lemma dispatch_batch changes (d d' : Dispatcher (Ev := Ev)) :
  other_state d = None ->
  py_foldl (dispatcher_dispatch state_transition) d changes = Ok d' ->
  other_state d' = None /\
  replay (cloned_state d) changes = Ok (cloned_state d') /\
  exists rows, logged (dispatcher_storage d) changes rows (dispatcher_storage d') /\
    last_state_change_id d' =
      match last rows with Some r => Some (sc_identifier r) | None => last_state_change_id d end.
Proof.
  revert d. induction changes as [|c changes IH]; intros d Hd Hrun.
  - cbn in Hrun. injection Hrun as <-. split; [done|]. split; [done|].
    exists []. split; [|done]. split; [by rewrite app_nil_r|]. split; [done|]. by split.
  - cbn [py_foldl] in Hrun. apply bind_Ok in Hrun as (d1 & H1 & Hrun).
    unfold dispatcher_dispatch, latest_state in H1. rewrite Hd in H1. cbn [default] in H1.
    apply bind_Ok in H1 as ([[s1 other] evs] & Ht & H1).
    pose proof (Hplace _ _ _ _ _ Ht) as ->.
    destruct (write_state_change_and_events _ _ _) as [id db1] eqn:Hw.
    injection H1 as <-.
    destruct (write_state_change_logs _ _ _ _ _ Hw) as (r & Hlog & Hid).
    apply IH in Hrun as (Ho & Hrep & rows & Hlogs & Hlast); [|done].
    split; [done|]. split.
    + unfold Wal.replay. cbn [py_foldl]. rewrite (wal_dispatch_in_place _ _ _ _ _ Ht). exact Hrep.
    + exists (r :: rows). split; [exact (logged_trans _ _ _ _ _ _ _ Hlog Hlogs)|].
      rewrite Hlast. cbn [last_state_change_id]. rewrite <- Hid.
      destruct rows as [|r' rows' _] using rev_ind; [done|].
      by rewrite app_comm_cons, !last_snoc.
Qed.

(** ** The service *)

(** The service after a run from [s0]: the log holds the state changes
    [before] and [after] (in the rows [rb] and [ra]), the newest snapshot is
    [sn], the state after [before], and the state of the service is the one
    after all of them. *)
Record service_inv (s0 : State) (s : RaidenService (Data := Data))
    (before after : list Change) (rb ra : list row) (sn : State) : Prop := {
  si_rows : db_state_changes (wal_storage (rs_wal s)) = rb ++ ra;
  si_before : map sc_data rb = map serialize before;
  si_after : map sc_data ra = map serialize after;
  si_ordered : log_ordered (wal_storage (rs_wal s));
  si_snapshot : replay s0 before = Ok sn;
  si_state : replay sn after = Ok (wal_state (rs_wal s));
  si_newest : exists id, last (db_state_snapshot (wal_storage (rs_wal s))) =
    Some (mkSnapshotEncodedRecord id (Z.of_nat (length before)) (sc_identifier <$> last rb)
            (serialize sn));
  si_snapshots : Forall (fun r => forall i, sn_state_change_identifier r = Some i ->
                                    i ∈ map sc_identifier rb)
                   (db_state_snapshot (wal_storage (rs_wal s)));
  si_qty_snapshot : state_change_qty_snapshot s = Z.of_nat (length before);
  si_qty : state_change_qty s = Z.of_nat (length (before ++ after));
  si_saved : fst <$> wal_saved_state (rs_wal s) = sc_identifier <$> last (rb ++ ra)
}.

Definition service_reached (s0 : State) (s : RaidenService (Data := Data)) : Prop :=
  exists before after rb ra sn, service_inv s0 s before after rb ra sn.

Lemma process_keeps_inv s0 s before after rb ra sn changes wal evs :
  service_inv s0 s before after rb ra sn ->
  process_state_change_atomically state_transition (rs_wal s) changes = (wal, Ok evs) ->
  exists rows, service_inv s0 (count_state_changes s wal (length changes))
    before (after ++ changes) rb (ra ++ rows) sn.
Proof.
  intros I Hrun. unfold process_state_change_atomically, run_atomically in Hrun.
  destruct (py_foldl _ _ _) as [d|] eqn:Hd; [|done]. injection Hrun as <- _.
  apply dispatch_batch in Hd as (_ & Hrep & rows & (Hrows & Hdata & Hsn & Hord) & Hlast); [|done].
  cbn [dispatcher_storage cloned_state last_state_change_id] in *.
  exists rows. destruct I. split; cbn [count_state_changes rs_wal wal_storage wal_state wal_saved_state
    state_change_qty_snapshot state_change_qty].
  - by rewrite Hrows, si_rows0, app_assoc.
  - done.
  - by rewrite !map_app, si_after0, Hdata.
  - by apply Hord.
  - done.
  - unfold Wal.replay in *. rewrite py_foldl_app, si_state0. exact Hrep.
  - by rewrite Hsn.
  - by rewrite Hsn.
  - done.
  - rewrite si_qty0, !length_app. lia.
  - rewrite Hlast, app_assoc. destruct rows as [|r rows _] using rev_ind.
    + by rewrite app_nil_r.
    + rewrite last_snoc, app_assoc, last_snoc. done.
Qed.

(** The identifier of the last state change has no snapshot yet when state
    changes were logged after the newest one. *)
Lemma snapshot_keeps_inv s0 s before after rb ra sn :
  service_inv s0 s before after rb ra sn -> after <> [] ->
  exists wal, wal_snapshot (rs_wal s) (state_change_qty s) = Ok wal /\
    service_inv s0 (mkRaidenService wal (state_change_qty s) (state_change_qty s))
      (before ++ after) [] (rb ++ ra) [] (wal_state (rs_wal s)).
Proof.
  intros [] Hafter.
  assert (Hra : ra <> []) by (intros ->; by destruct after).
  destruct ra as [|r ra _] using rev_ind; [done|].
  rewrite app_assoc, last_snoc in si_saved0. cbn in si_saved0.
  unfold wal_snapshot, write_state_snapshot.
  destruct (wal_saved_state (rs_wal s)) as [[i st]|] eqn:Esaved; [|done].
  injection si_saved0 as ->.
  assert (Hin : sc_identifier r ∈ map sc_identifier (rb ++ ra ++ [r])).
  { apply list_elem_of_fmap. exists r. set_solver. }
  assert (Hnew : Some (sc_identifier r) ∉
            map sn_state_change_identifier (db_state_snapshot (wal_storage (rs_wal s)))).
  { intros (x & Hx & Hxin)%list_elem_of_fmap.
    pose proof (proj1 (Forall_forall _ _) si_snapshots0 x Hxin _ (eq_sym Hx)) as Hold.
    apply list_elem_of_fmap in Hold as (r' & Hr' & Hin').
    destruct si_ordered0 as [Ho _]. rewrite si_rows0 in Ho.
    apply ordered_app_inv in Ho as [_ Hlt].
    specialize (Hlt r' r Hin' ltac:(set_solver)). lia. }
  rewrite si_rows0. rewrite (bool_decide_eq_true_2 _ Hin), (bool_decide_eq_false_2 _ Hnew).
  cbn [negb raise_if]. eexists. split; [reflexivity|]. split;
    cbn [rs_wal wal_storage wal_state wal_saved_state db_state_changes db_state_snapshot
         write_snapshot_row state_change_qty_snapshot state_change_qty].
  - by rewrite si_rows0, app_nil_r.
  - by rewrite map_app, si_before0, si_after0, map_app.
  - done.
  - done.
  - unfold Wal.replay in *. by rewrite py_foldl_app, si_snapshot0.
  - done.
  - eexists. rewrite last_snoc, si_qty0, app_assoc, last_snoc. reflexivity.
  - apply Forall_app. split.
    + eapply Forall_impl; [exact si_snapshots0|]. intros x Hx i Hi.
      rewrite map_app. apply elem_of_app. left. by apply Hx.
    + apply Forall_singleton. intros i [= <-]. done.
  - done.
  - by rewrite si_qty0, app_nil_r.
  - by rewrite app_nil_r, app_assoc, last_snoc.
Qed.

Lemma handle_keeps_reached s0 s changes :
  service_reached s0 s -> service_reached s0 (handle_state_changes state_transition s changes).1.
Proof.
  intros (before & after & rb & ra & sn & I). unfold handle_state_changes.
  destruct (process_state_change_atomically _ _ _) as [wal [evs|e]] eqn:Hp;
    [|by exists before, after, rb, ra, sn].
  destruct (process_keeps_inv _ _ _ _ _ _ _ _ _ _ I Hp) as [rows I1]. unfold maybe_snapshot.
  destruct (_ <? _) eqn:Hc; [|by exists before, (after ++ changes), rb, (ra ++ rows), sn].
  edestruct snapshot_keeps_inv as (wal' & Hw & I2); [exact I1| |].
  - intros Enil. apply (f_equal length) in Enil. rewrite length_app in Enil. cbn in *.
    rewrite (si_qty_snapshot _ _ _ _ _ _ _ I), (si_qty _ _ _ _ _ _ _ I), length_app in Hc.
    apply Z.ltb_lt in Hc. unfold SNAPSHOT_STATE_CHANGES_COUNT in Hc. lia.
  - cbn [rs_wal state_change_qty] in Hw |- *. rewrite Hw. cbn. eexists _, _, _, _, _. exact I2.
Qed.

(** The service after its batches, of which those that raised are undone. *)
Definition service_run (s : RaidenService (Data := Data)) (batches : list (list Change)) :
    RaidenService (Data := Data) :=
  foldl (fun s changes => (handle_state_changes state_transition s changes).1) s batches.

Lemma service_run_reached s0 s batches :
  service_reached s0 s -> service_reached s0 (service_run s batches).
Proof.
  unfold service_run. revert s. induction batches as [|b batches IH]; intros s Hs; [done|].
  apply IH, handle_keeps_reached, Hs.
Qed.

(** An empty database. *)
Definition empty_storage : SQLiteStorage Data := mkSQLiteStorage [] [] [].

Lemma first_start_reached s0 s :
  initialize_wal state_transition empty_storage s0 = Ok s -> service_reached s0 s.
Proof.
  unfold initialize_wal. cbn. intros [= <-]. exists [], [], [], [], s0.
  split; try done; cbn; [by split; constructor| |].
  - eexists. reflexivity.
  - constructor; [|constructor]. cbn. congruence.
Qed.

(** ** A restart *)

(** The identifiers of the log are identifiers of the factory. *)
Definition ids_in_range db : Prop :=
  Forall (fun r : row => sc_identifier r <= HIGH_STATECHANGE_ULID) (db_state_changes db).

Lemma read_rows (rows : list row) (changes : list Change) :
  map sc_data rows = map serialize changes ->
  py_map (fun r => deserialize (sc_data r)) rows = Ok changes.
Proof.
  revert changes. induction rows as [|r rows IH]; intros [|c changes] Hd; try done.
  cbn in Hd. injection Hd as Hr Hd. cbn. rewrite Hr, deserialize_serialize. cbn.
  by rewrite (IH _ Hd).
Qed.

Lemma restart_snapshot s0 s before after rb ra sn other :
  service_inv s0 s before after rb ra sn -> ids_in_range (wal_storage (rs_wal s)) ->
  restore_or_init_snapshot (wal_storage (rs_wal s)) other =
    Ok (sn, default LOW_STATECHANGE_ULID (sc_identifier <$> last rb),
        Z.of_nat (length before), wal_storage (rs_wal s)).
Proof.
  intros I Hids. destruct I. destruct si_newest0 as [id Hnew].
  unfold restore_or_init_snapshot, get_snapshot, get_snapshot_before_state_change.
  rewrite filter_every, Hnew; [cbn; by rewrite deserialize_serialize|].
  intros r Hr. destruct (sn_state_change_identifier r) as [i|] eqn:Hi; [|done].
  pose proof (proj1 (Forall_forall _ _) si_snapshots0 r Hr i Hi) as Hin.
  apply list_elem_of_fmap in Hin as (x & -> & Hx). unfold ids_in_range in Hids.
  rewrite si_rows0, Forall_app in Hids. destruct Hids as [Hids _].
  pose proof (proj1 (Forall_forall _ _) Hids x Hx). cbn in *. lia.
Qed.

Lemma range_to_high i : i <= HIGH_STATECHANGE_ULID -> new_Range i HIGH_STATECHANGE_ULID =
  Ok (mkRange i HIGH_STATECHANGE_ULID).
Proof. intros Hi. unfold new_Range. destruct (_ <? _) eqn:E; [lia|done]. Qed.

(** Without a snapshot of its own the log is replayed from the start. *)
Lemma restart_from_start s0 s after rb ra sn other :
  service_inv s0 s [] after rb ra sn -> ids_in_range (wal_storage (rs_wal s)) ->
  initialize_wal state_transition (wal_storage (rs_wal s)) other =
    Ok (mkRaidenService (new_WriteAheadLog (wal_state (rs_wal s)) (wal_storage (rs_wal s))) 0
          (state_change_qty s)).
Proof.
  intros I Hids. unfold initialize_wal. rewrite (restart_snapshot _ _ _ _ _ _ _ _ I Hids).
  destruct I. destruct rb as [|r rb]; [|done].
  rewrite bind_ret_l. cbv beta iota. rewrite range_to_high; [|done].
  rewrite bind_ret_l. unfold replay_state_changes, get_statechanges_by_range, get_statechanges_records_by_range.
  rewrite si_rows0. cbn [app range_first range_last]. rewrite filter_every.
  - rewrite (read_rows _ _ si_after0). cbn. rewrite si_state0. cbn. by rewrite si_qty0.
  - intros r Hr. destruct si_ordered0 as [_ Hlow]. unfold ids_in_range in Hids.
    rewrite si_rows0 in Hids, Hlow. cbn in Hids, Hlow.
    pose proof (proj1 (Forall_forall _ _) Hids r Hr).
    pose proof (proj1 (Forall_forall _ _) Hlow r Hr). cbn in *. lia.
Qed.

(** With one, its state change is replayed too. *)
Lemma restart_from_snapshot s0 s before c after rb ra sn other :
  service_inv s0 s (before ++ [c]) after rb ra sn -> ids_in_range (wal_storage (rs_wal s)) ->
  initialize_wal state_transition (wal_storage (rs_wal s)) other =
    (state ← replay sn (c :: after);
     Ok (mkRaidenService (new_WriteAheadLog state (wal_storage (rs_wal s)))
           (Z.of_nat (length (before ++ [c]))) (state_change_qty s + 1))).
Proof.
  intros I Hids. unfold initialize_wal. rewrite (restart_snapshot _ _ _ _ _ _ _ _ I Hids).
  destruct I. rewrite map_app in si_before0.
  destruct rb as [|r rb _] using rev_ind; [by destruct before|].
  rewrite map_app in si_before0. apply app_inj_tail in si_before0 as [_ Hr].
  rewrite last_snoc, bind_ret_l. cbv beta iota. unfold ids_in_range in Hids.
  destruct si_ordered0 as [Ho _]. rewrite si_rows0, <- app_assoc in Ho, Hids. cbn in Ho, Hids.
  rewrite range_to_high; [|apply (proj1 (Forall_forall _ _) Hids r); set_solver].
  rewrite bind_ret_l. unfold replay_state_changes, get_statechanges_by_range, get_statechanges_records_by_range.
  rewrite si_rows0, <- app_assoc. cbn [app range_first range_last].
  change (default _ (sc_identifier <$> Some r)) with (sc_identifier r).
  rewrite (ordered_from sc_identifier); [|done|done].
  rewrite (read_rows (r :: ra) (c :: after)); [|cbn; congruence]. rewrite bind_ret_l.
  destruct (replay sn (c :: after)) as [st|e]; [|done]. rewrite !bind_ret_l. cbv beta iota.
  rewrite si_qty0, !length_app. cbn [length]. f_equal. f_equal. lia.
Qed.
End log.

Section restart.
Context {State Change Ev Data : Type} `{UlidFactory}.
Context `{!Serializer Data State} `{!Serializer Data Change} `{!Serializer Data Ev}.
Context (state_transition : Transition State Change Ev).

Notation replay := (replay state_transition).
Notation in_place := (in_place state_transition).
Notation empty_storage := (empty_storage (Data := Data)).
Notation service_run := (service_run (Data := Data) state_transition).

(** C32: until its first periodic snapshot a service restores on a restart
    exactly the state it had: the database is started empty and the batches are
    handled, those that raise leaving no trace, and the state that is restored
    from the storage, with any initial state, is the service's own state, with
    the same number of state changes. *)
Theorem restart_restores_the_state s0 s batches other :
  in_place ->
  initialize_wal state_transition empty_storage s0 = Ok s ->
  let s1 := service_run s batches in
  state_change_qty_snapshot s1 = 0 ->
  ids_in_range (wal_storage (rs_wal s1)) ->
  initialize_wal state_transition (wal_storage (rs_wal s1)) other =
    Ok (mkRaidenService (new_WriteAheadLog (wal_state (rs_wal s1)) (wal_storage (rs_wal s1))) 0
          (state_change_qty s1)).
Proof.
  intros Hplace Hinit s1 Hqty Hids.
  destruct (service_run_reached state_transition Hplace s0 s batches (first_start_reached state_transition _ _ Hinit))
    as (before & after & rb & ra & sn & I).
  pose proof (si_qty_snapshot _ _ _ _ _ _ _ _ I) as Hb. fold s1 in Hb, I.
  destruct before as [|c before]; [|cbn in Hb; lia].
  exact (restart_from_start state_transition _ _ _ _ _ _ _ I Hids).
Qed.

(** C39: after a periodic snapshot a restart applies the state change of the
    snapshot a second time: with the logged state changes
    [before ++ c :: after], of which [c] produced the snapshot, the state of
    the service is the one after [before ++ c :: after], and the restored state
    is the one after [before ++ c :: c :: after], with one state change more
    counted, although the documentation of [restore_or_init_snapshot] says
    that the returned identifier is the one of a state change that is not
    applied. *)
Theorem restart_applies_snapshot_change_twice s0 s batches other :
  in_place ->
  initialize_wal state_transition empty_storage s0 = Ok s ->
  let s1 := service_run s batches in
  state_change_qty_snapshot s1 <> 0 ->
  ids_in_range (wal_storage (rs_wal s1)) ->
  exists before c after,
    map sc_data (db_state_changes (wal_storage (rs_wal s1))) =
      map serialize (before ++ c :: after) /\
    replay s0 (before ++ c :: after) = Ok (wal_state (rs_wal s1)) /\
    initialize_wal state_transition (wal_storage (rs_wal s1)) other =
      (state ← replay s0 (before ++ c :: c :: after);
       Ok (mkRaidenService (new_WriteAheadLog state (wal_storage (rs_wal s1)))
             (state_change_qty_snapshot s1) (state_change_qty s1 + 1))).
Proof.
  intros Hplace Hinit s1 Hqty Hids.
  destruct (service_run_reached state_transition Hplace s0 s batches (first_start_reached state_transition _ _ Hinit))
    as (before & after & rb & ra & sn & I). fold s1 in I.
  pose proof (si_qty_snapshot _ _ _ _ _ _ _ _ I) as Hb.
  destruct before as [|c before _] using rev_ind; [cbn in Hb; lia|].
  exists before, c, after.
  rewrite (restart_from_snapshot state_transition Hplace s0 s1 before c after rb ra sn other I Hids), Hb. destruct I.
  split; [|split].
  - by rewrite si_rows0, map_app, si_before0, si_after0, <- map_app, <- app_assoc.
  - unfold Wal.replay in *. rewrite (cons_middle c before after), app_assoc, py_foldl_app, si_snapshot0.
    exact si_state0.
  - unfold Wal.replay in *. rewrite (cons_middle c before (c :: after)), app_assoc, py_foldl_app,
      si_snapshot0. done.
Qed.
End restart.

(** ** The node

    The node changes its [ChainState] in place and returns it. *)

Section node_log.
Context `{Crypto} `{FloatPow}.

Definition node_transition cs sc : Py (ChainState * option ChainState * list Events.Event) :=
  '(cs', evs) ← node_state_transition cs sc;
  Ok (cs', None, evs).

Lemma node_transition_in_place : in_place node_transition.
Proof. intros cs sc cs' other evs. unfold node_transition. intros E. apply bind_Ok in E as ([cs1 evs1] & _ & [= _ <- _]). done. Qed.
End node_log.

(** ** An accumulator

    The state machine of the unit tests ([tests/unit/test_wal.py]), with
    numbers as state changes: the state is the list of the applied ones. *)

Module Accumulator.
#[export] Instance counter_ids : UlidFactory.
Proof. refine {| ulid_new last := last + 1 |}. intros last _. lia. Defined.

#[export] Instance state_serializer : Serializer (list Z) (list Z) :=
  {| serialize s := s; deserialize d := Ok d; deserialize_serialize s := eq_refl |}.

#[export] Instance change_serializer : Serializer (list Z) Z.
Proof.
  refine {| serialize c := [c];
            deserialize d := match d with [c] => Ok c | _ => Raise (ValueError "state change") end |}.
  reflexivity.
Defined.

#[export] Instance event_serializer : Serializer (list Z) unit.
Proof. refine {| serialize _ := []; deserialize _ := Ok tt |}. by intros []. Defined.

(** Negative numbers are refused, with an exception. *)
Definition accumulate : Transition (list Z) Z unit := fun s c =>
  if c <? 0 then Raise (ValueError "negative") else Ok (s ++ [c], None, [tt]).

(** The service after its first start. *)
Definition start : RaidenService (State := list Z) (Data := list Z) :=
  mkRaidenService
    (new_WriteAheadLog [] (mkSQLiteStorage [] [] [mkSnapshotEncodedRecord 1 0 None []])) 0 0.

Lemma started : initialize_wal accumulate empty_storage [] = Ok start.
Proof. vm_compute. reflexivity. Qed.

Notation service := (service_run accumulate start).

Lemma accumulate_in_place : in_place accumulate.
Proof. intros s c s' other evs. unfold accumulate. destruct (c <? 0); congruence. Qed.

Lemma ids_checked (db : SQLiteStorage (list Z)) :
  forallb (fun r => sc_identifier r <=? HIGH_STATECHANGE_ULID) (db_state_changes db) = true ->
  ids_in_range db.
Proof.
  intros Hall. apply Forall_forall. intros r Hr. rewrite List.forallb_forall in Hall.
  apply Z.leb_le, Hall, list_elem_of_In, Hr.
Qed.

(** The second batch raises after its first state change and is undone. *)
Lemma restart_restores_the_state_witness :
  rs_wal (service [[1; 2]; [3; -1]; [4]]) =
    mkWriteAheadLog (wal_storage (rs_wal (service [[1; 2]; [3; -1]; [4]]))) [1; 2; 4]
      (Some (3, [1; 2; 4])) /\
  initialize_wal accumulate (wal_storage (rs_wal (service [[1; 2]; [3; -1]; [4]]))) [7] =
    Ok (mkRaidenService
          (new_WriteAheadLog [1; 2; 4] (wal_storage (rs_wal (service [[1; 2]; [3; -1]; [4]]))))
          0 3).
Proof.
  split; [vm_compute; reflexivity|].
  etransitivity.
  - apply (restart_restores_the_state accumulate [] start [[1; 2]; [3; -1]; [4]] [7]
             accumulate_in_place started); [vm_compute; reflexivity|].
    apply ids_checked. vm_compute. reflexivity.
  - vm_compute. reflexivity.
Defined.

(** 501 state changes in one batch cause a snapshot, and a last one follows. *)
Definition long_run : list (list Z) := [repeat 5 501; [6]].

Lemma restart_applies_snapshot_change_twice_witness :
  wal_state (rs_wal (service long_run)) = repeat 5 501 ++ [6] /\
  (exists s, initialize_wal accumulate (wal_storage (rs_wal (service long_run))) [] = Ok s /\
     wal_state (rs_wal s) = repeat 5 502 ++ [6]) /\
  exists before c after,
    map sc_data (db_state_changes (wal_storage (rs_wal (service long_run)))) =
      map serialize (before ++ c :: after) /\
    replay accumulate [] (before ++ c :: after) = Ok (wal_state (rs_wal (service long_run))) /\
    initialize_wal accumulate (wal_storage (rs_wal (service long_run))) [] =
      (state ← replay accumulate [] (before ++ c :: c :: after);
       Ok (mkRaidenService (new_WriteAheadLog state (wal_storage (rs_wal (service long_run))))
             (state_change_qty_snapshot (service long_run))
             (state_change_qty (service long_run) + 1))).
Proof.
  split; [vm_compute; reflexivity|]. split.
  - eexists. split; [vm_compute; reflexivity|]. vm_compute. reflexivity.
  - apply (restart_applies_snapshot_change_twice accumulate [] start long_run []
              accumulate_in_place started).
    + vm_compute. discriminate.
    + apply ids_checked. vm_compute. reflexivity.
Defined.
End Accumulator.
