(* ===== verification/NodeExamples.v ===== *)
(** The token network and the target of a transfer on the channel of
    [ChannelExamples], and the behaviour of the target that differs from what
    the code means to do. *)

From S2P Require Import Prelude PyDict Bytes Crypto PyFloat MediationFee State Events.
From S2P Require Import StateChanges Channel ChannelValidation ChannelOps ChannelTransition.
From S2P Require Import ChannelLocks ChannelInvariant ChannelSend ChannelReceive ChannelMachine.
From S2P Require Import ChannelSystem ChannelProtocol ChannelLifecycle ChannelExamples.
From S2P Require Import TokenNetwork TokenNetworkProofs TransferTasks Target TargetProofs.

(** ** What the target gets wrong *)

Section findings.
Context `{CryptoLaws}.

(** The target never comes to rest after the lock has expired.  When the
    secret is known off-chain, each second block sends the secret to the
    contract again, for a lock that can no longer be unlocked, and each
    other block reports the failure again. *)
Theorem expired_target_reveals_again t c nr hsh hsh' prng
    (Hinv : target_inv t c) (Hnr : 0 < nr) (Hreveal : 0 < reveal_timeout c)
    (Hexp : reveal_timeout c < lock_expiration (tgt_lock t))
    (Hstate : tgt_state t = EXPIRED)
    (Hover : so_ok (is_lock_expired (our_state c) (tgt_lock t) nr
               (get_receiver_expiration_threshold (lock_expiration (tgt_lock t)))) = true)
    (Hknown : is_secret_known_offchain (partner_state c) (tgt_secrethash t) = true)
    (Hstatus : get_status c ∈ CHANNEL_STATES_UP_TO_CLOSED) :
  exists t1 t2 s reason,
    target_handle_block t c nr hsh prng
    = Ok (mkTransitionResult (Some t1)
            [EContractSendSecretReveal
               (mkContractSendSecretReveal hsh (lock_expiration (tgt_lock t)) s)], c, prng)
    /\ target_handle_block t1 c (nr + 1) hsh' prng
       = Ok (mkTransitionResult (Some t2)
               [EEventUnlockClaimFailed
                  (mkEventUnlockClaimFailed (lts_payment_identifier (tgt_transfer t))
                     (tgt_secrethash t) reason)], c, prng)
    /\ t2 = t.
Proof.
  assert (get_receiver_expiration_threshold (lock_expiration (tgt_lock t)) <= nr
    /\ dict_mem (tgt_secrethash t) (secrethashes_to_onchain_unlockedlocks (our_state c)) = false)
    as [Hthr Hchain].
  { revert Hover. unfold is_lock_expired, tgt_secrethash. destruct (dict_mem _ _); [done|].
    destruct (Z.ltb_spec nr (get_receiver_expiration_threshold (lock_expiration (tgt_lock t))));
      done. }
  assert (so_ok (is_lock_expired (our_state c) (tgt_lock t) (nr + 1)
    (get_receiver_expiration_threshold (lock_expiration (tgt_lock t)))) = true) as Hover'.
  { unfold is_lock_expired, tgt_secrethash in *. rewrite Hchain.
    by rewrite (proj2 (Z.ltb_ge _ _)) by lia. }
  assert (lock_expiration (tgt_lock t) - nr <= reveal_timeout c) as Hunsafe
    by (unfold get_receiver_expiration_threshold, DEFAULT_NUMBER_OF_BLOCK_CONFIRMATIONS in *; lia).
  destruct (onchain_reveal_run t c nr hsh Hinv Hnr Hreveal Hexp) as (t1 & evs & Hrun & Htr & Hrev).
  destruct (Hrev Hunsafe Hknown) as [Hst Hevs]; [by rewrite Hstate|].
  destruct (Hevs Hstatus) as (s & -> & _).
  assert (set_tgt_state EXPIRED t1 = t) as Hback.
  { revert Hrun. unfold target_events_for_onchain_secretreveal. intros Hrun.
    py_inv. destruct t as [? ? ? st ?]; cbn in *. subst st. case_match; py_inv; simplify_eq; done. }
  exists t1, t, s, [Msg "lock expired" []]. split_and!; [..|done].
  - unfold target_handle_block. rewrite Hover, bool_decide_eq_true_2 by done. cbn.
    unfold is_secret_known, is_secret_known_offchain, tgt_secrethash in *. rewrite Hknown. cbn.
    by rewrite Hrun.
  - unfold target_handle_block, tgt_secrethash, tgt_lock in *. rewrite Htr, Hover'.
    rewrite bool_decide_eq_false_2 by (by rewrite Hst). cbn. by rewrite Hback.
Qed.

(** The target looks for the secret in the wrong end of the channel.
    [handle_block] asks [is_lock_expired] about our end, but the lock and a
    secret registered on-chain are kept in the partner's end.  So a lock that
    was unlocked on-chain in time is reported as failed because it expired. *)
Theorem unlocked_lock_reported_as_failed t c nr hsh prng
    (Hchain : is_secret_known_onchain (partner_state c) (tgt_secrethash t) = true)
    (Hours : is_secret_known_onchain (our_state c) (tgt_secrethash t) = false)
    (Hstate : tgt_state t = ONCHAIN_UNLOCK)
    (Hlate : get_receiver_expiration_threshold (lock_expiration (tgt_lock t)) <= nr) :
  so_ok (is_lock_expired (partner_state c) (tgt_lock t) nr
    (get_receiver_expiration_threshold (lock_expiration (tgt_lock t)))) = false
  /\ target_handle_block t c nr hsh prng
     = Ok (mkTransitionResult (Some (set_tgt_state EXPIRED t))
             [EEventUnlockClaimFailed
                (mkEventUnlockClaimFailed (lts_payment_identifier (tgt_transfer t))
                   (tgt_secrethash t) [Msg "lock expired" []])], c, prng).
Proof.
  unfold is_secret_known_onchain, tgt_secrethash in *.
  unfold target_handle_block, is_lock_expired. rewrite Hchain, Hours, Hstate.
  rewrite (proj2 (Z.ltb_ge _ _) Hlate). done.
Qed.

(** The expiration of a received lock is not checked against the reveal
    timeout.  A transfer that the channel accepts but whose lock expires at or
    before block [reveal_timeout] makes [handle_inittarget] fail on the
    assertion of [is_safe_to_wait]. *)
Theorem short_expiration_crashes_target a c prng nr
    (Hc : solvent_inv c)
    (Hid : identifier c
           = channel_identifier (sbp_canonical_identifier (lts_balance_proof (ait_transfer a))))
    (Hok : exists c' evs,
       handle_receive_lockedtransfer c (ait_transfer a)
         (lts_payer_address_metadata (ait_transfer a)) = Ok (c', (true, evs, None)))
    (Hbp : received_bp (lts_balance_proof (ait_transfer a)))
    (Hsecret : ait_received_valid_secret a = false)
    (Hnr : 0 < nr) (Hreveal : 0 < reveal_timeout c)
    (Hshort : lock_expiration (lts_lock (ait_transfer a)) <= reveal_timeout c) :
  target_state_transition None (SActionInitTarget a) c prng nr
  = Raise (AssertionError "lock_expiration must be larger than reveal_timeout").
Proof.
  destruct Hok as (c0 & evs0 & Hok).
  unfold target_state_transition. cbn. unfold handle_inittarget. rewrite Hid, Z.eqb_refl. cbn.
  destruct (handle_receive_lockedtransfer_run true c (ait_transfer a)
    (lts_payer_address_metadata (ait_transfer a)) Hc Hbp)
    as [[_ Hrun]|(_ & m & Hrun)]; [|by rewrite Hrun in Hok].
  rewrite Hrun. cbn. rewrite Hsecret. unfold is_safe_to_wait. cbn.
  rewrite (proj2 (Z.ltb_lt _ _) Hnr), (proj2 (Z.ltb_lt _ _) Hreveal). cbn.
  by rewrite (proj2 (Z.ltb_ge _ _) Hshort).
Qed.
End findings.

#[local] Existing Instance toy_crypto.
#[local] Existing Instance toy_crypto_laws.
#[local] Existing Instance toy_pow.

(** ** A token network with one channel *)

Definition example_network : TokenNetworkState :=
  mkTokenNetworkState (be_encode 20 3) (be_encode 20 5) [(7, alice1)] [(bob, [7])].

Lemma singleton_network_inv a b c0 :
  channel_inv c0 ->
  tn_inv false
    (mkTokenNetworkState a b [(identifier c0, c0)] [(address (partner_state c0), [identifier c0])]).
Proof.
  intros Hc0. split.
  - cbn. apply NoDup_singleton.
  - intros id c. cbn. case_decide as Hid; [|done]. intros [= <-]. by subst id.
  - intros addr. unfold partner_ids. cbn. case_decide; cbn; [apply NoDup_singleton|constructor].
  - intros addr id. unfold partner_ids. cbn. split.
    + case_decide as Hb; cbn; [|by intros ?%elem_of_nil].
      intros ->%list_elem_of_singleton. exists c0. by rewrite decide_True.
    + intros (c & Hc & <-). case_decide as Hid; [|done]. injection Hc as <-. subst id.
      rewrite decide_True by done. by apply list_elem_of_singleton.
Qed.

Lemma example_network_inv : tn_inv false example_network.
Proof.
  replace example_network with
    (mkTokenNetworkState (be_encode 20 3) (be_encode 20 5) [(identifier alice1, alice1)]
       [(address (partner_state alice1), [identifier alice1])]) by (vm_compute; reflexivity).
  apply singleton_network_inv. exact (channel_inv_with_weaken true _ alice1_inv).
Qed.

(** Alice deposits in the channel. *)
Lemma token_network_consistent_witness :
  tn_handled false example_network (Some 7)
    (token_network_transition example_network example_deposit 20 [] example_prng).
Proof.
  destruct (token_network_consistent example_network example_deposit 20 [] example_prng)
    as [Hok|[[Hw _]|(id & c & e & _ & _ & _ & He)]].
  - exact example_network_inv.
  - intros id c Hid Hc. exact I.
  - exact Hok.
  - discriminate Hw.
  - exfalso. vm_compute in He. discriminate He.
Defined.

(** ** Bob is the target of Alice's transfer *)

Definition example_init : ActionInitTarget :=
  mkActionInitTarget alice (lts_balance_proof example_transfer) (mkHopState alice 7)
    example_transfer false.

Definition target1 : TargetTransferState :=
  mkTargetTransferState (mkHopState alice 7) example_transfer None SECRET_REQUEST None.

(** Bob after Alice revealed the secret to him, and after it was registered
    on-chain. *)
Definition bob1_secret : NettingChannelState :=
  register_offchain_secret bob1 example_secret example_secrethash.
Definition bob1_onchain : NettingChannelState :=
  ok_or bob1 (register_onchain_secret bob1 example_secret example_secrethash 30 true).

Lemma bob1_secret_inv : solvent_inv bob1_secret.
Proof. apply register_offchain_secret_inv, bob1_inv. Qed.

Lemma target1_inv : target_inv target1 bob1.
Proof. split; [vm_compute; reflexivity|]. intros p Hp. vm_compute in Hp. discriminate Hp. Qed.

Lemma target1_secret_inv st : target_inv (set_tgt_state st target1) bob1_secret.
Proof.
  split; [vm_compute; reflexivity|]. intros p Hp. vm_compute in Hp. injection Hp as <-.
  vm_compute. discriminate.
Qed.

Lemma example_init_env : target_env None (SActionInitTarget example_init) bob0 20.
Proof.
  split; [reflexivity|]. split; [reflexivity|]. intros transfer _.
  split; [vm_compute; reflexivity|]. split; [exact example_transfer_received|].
  split; [exact example_lock_valid|]. vm_compute; reflexivity.
Qed.

Lemma target_transition_safe_witness :
  exists iteration c' prng',
    target_state_transition None (SActionInitTarget example_init) bob0 example_prng 20
    = Ok (iteration, c', prng')
    /\ new_state iteration = Some target1 /\ target_inv target1 c'.
Proof.
  destruct (target_transition_safe None (SActionInitTarget example_init) bob0 example_prng 20
    (bob0_inv true) I example_init_env) as [(it & c' & prng' & Hrun & Hrest)|[Hshort _]];
    [|exfalso; vm_compute in Hshort; contradiction Hshort; reflexivity].
  exists it, c', prng'. split; [exact Hrun|].
  assert (new_state it = Some target1) as Hit.
  { vm_compute in Hrun. injection Hrun as <- _ _. vm_compute. reflexivity. }
  split; [exact Hit|]. destruct Hrest as (_ & Hinv & _). rewrite Hit in Hinv. exact Hinv.
Defined.

Lemma example_unlock_env :
  target_env (Some target1) (SReceiveUnlock example_unlock) bob1 20.
Proof.
  split; [reflexivity|]. split; [vm_compute; reflexivity|].
  exists target1. split; [reflexivity|]. split; [vm_compute; reflexivity|].
  exact example_unlock_received.
Qed.

Lemma reported_payment_was_received_witness :
  exists iteration c' prng' p,
    target_state_transition (Some target1) (SReceiveUnlock example_unlock) bob1 example_prng 20
    = Ok (iteration, c', prng')
    /\ prs_amount p = 10 /\ get_balance (our_state c') (partner_state c') = 60.
Proof.
  destruct (target_state_transition (Some target1) (SReceiveUnlock example_unlock) bob1
    example_prng 20) as [[[it c'] prng']|e] eqn:E; [|exfalso; vm_compute in E; discriminate E].
  assert (exists p, EEventPaymentReceivedSuccess p ∈ events it) as [p Hp].
  { vm_compute in E. injection E as <- _ _. eexists. apply elem_of_cons. right.
    apply elem_of_cons. left. reflexivity. }
  destruct (reported_payment_was_received target1 (SReceiveUnlock example_unlock) bob1 example_prng
    20 it c' prng' p bob1_inv target1_inv example_unlock_env E Hp) as (_ & _ & Ha & Hb & _).
  exists it, c', prng', p. split; [reflexivity|]. split; [rewrite Ha; reflexivity|].
  rewrite Hb, Ha. vm_compute. reflexivity.
Defined.

Lemma target_reveals_in_time_witness :
  exists t' c' prng' evs,
    target_state_transition (Some (set_tgt_state OFFCHAIN_SECRET_REVEAL target1))
      (SBlock (mkBlock 32 0 [])) bob1_secret example_prng 32
    = Ok (mkTransitionResult (Some t') evs, c', prng')
    /\ length evs = 1%nat /\ tgt_state t' = ONCHAIN_SECRET_REVEAL.
Proof.
  destruct (target_reveals_in_time (set_tgt_state OFFCHAIN_SECRET_REVEAL target1) bob1_secret
    (mkBlock 32 0 []) 32 example_prng bob1_secret_inv (target1_secret_inv _))
    as (t' & s & c' & prng' & Hrun & _ & Hst).
  - split; [reflexivity|]. split; [vm_compute; reflexivity|].
    split; [reflexivity|]. eexists. reflexivity.
  - vm_compute. reflexivity.
  - vm_compute. discriminate.
  - vm_compute. reflexivity.
  - vm_compute. reflexivity.
  - discriminate.
  - apply (bool_decide_unpack _). vm_compute. exact I.
  - exists t', c', prng'. eexists. split; [exact Hrun|]. split; [reflexivity|exact Hst].
Defined.

Lemma expired_target_reveals_again_witness :
  exists t1 evs,
    target_handle_block (set_tgt_state EXPIRED target1) bob1_secret 50 [] example_prng
    = Ok (mkTransitionResult (Some t1) evs, bob1_secret, example_prng).
Proof.
  destruct (expired_target_reveals_again (set_tgt_state EXPIRED target1) bob1_secret 50 [] []
    example_prng (target1_secret_inv _)) as (t1 & t2 & s & reason & Hrun & _);
    [vm_compute; reflexivity..| |].
  - apply (bool_decide_unpack _). vm_compute. exact I.
  - exists t1. eexists. exact Hrun.
Defined.

Lemma unlocked_lock_reported_as_failed_witness :
  exists failed,
    target_handle_block (set_tgt_state ONCHAIN_UNLOCK target1) bob1_onchain 50 [] example_prng
    = Ok (mkTransitionResult (Some (set_tgt_state EXPIRED target1))
            [EEventUnlockClaimFailed failed], bob1_onchain, example_prng).
Proof.
  destruct (unlocked_lock_reported_as_failed (set_tgt_state ONCHAIN_UNLOCK target1) bob1_onchain
    50 [] example_prng) as [_ Hrun]; [vm_compute; reflexivity || discriminate..|].
  eexists. exact Hrun.
Defined.

(** Alice's transfer, for a channel whose reveal timeout is 40 blocks. *)
Definition bob0_slow : NettingChannelState := set_reveal_timeout 40 bob0.

Lemma bob0_slow_inv : solvent_inv bob0_slow.
Proof. destruct (bob0_inv true). split; done. Qed.

Lemma short_expiration_crashes_target_witness :
  target_state_transition None (SActionInitTarget example_init) bob0_slow example_prng 20
  = Raise (AssertionError "lock_expiration must be larger than reveal_timeout").
Proof.
  apply (short_expiration_crashes_target example_init bob0_slow example_prng 20 bob0_slow_inv);
    [vm_compute; reflexivity| |exact example_transfer_received|
     vm_compute; reflexivity || discriminate..].
  destruct (handle_receive_lockedtransfer bob0_slow example_transfer None)
    as [[c' [[ok evs] m]]|e] eqn:E; [|exfalso; vm_compute in E; discriminate E].
  exists c', evs. vm_compute in E. injection E as <- <- <- <-. vm_compute. reflexivity.
Defined.
