(* ===== verification/TaskExamples.v ===== *)
(** A mediated transfer and a payment, on which the theorems about the
    mediator and the initiator are applied.

    Bob has a channel with Alice ([bob0] of [ChannelExamples]) and one with
    Carol; he mediates a transfer of 10 tokens from Alice to Carol. *)

From stdpp Require Import relations.
From S2P Require Import Prelude PyDict Bytes Crypto PyFloat MediationFee MediationFeeProofs State.
From S2P Require Import Events StateChanges Channel ChannelValidation ChannelOps.
From S2P Require Import ChannelTransition.
From S2P Require Import ChannelLocks ChannelInvariant ChannelSend ChannelReceive ChannelMachine.
From S2P Require Import ChannelSystem ChannelExamples TransferTasks TaskSteps.
From S2P Require Import Mediator MediatorFees MediatorSteps MediatorProofs.
From S2P Require Import Initiator InitiatorManager InitiatorSteps InitiatorProofs.

#[local] Existing Instance toy_crypto.
#[local] Existing Instance toy_crypto_laws.
#[local] Existing Instance toy_pow.

(** ** Bob's channels *)

Definition carol : bytes := be_encode 20 6.
Definition example_net : bytes := be_encode 20 3.
Definition carol_cid : CanonicalIdentifier := mkCanonicalIdentifier 1 example_net 8.

Definition bob_carol0 : NettingChannelState :=
  mkChannelState carol_cid (be_encode 20 4) (be_encode 20 5) 10 50 example_fees
    (fresh_end bob 50) (fresh_end carol 50) (mkSuccessfulTransactionState 1 None) None None None.

Definition bob_channels : Channels := [((example_net, 7), bob0); ((example_net, 8), bob_carol0)].
Definition bob_addresses : dict (bytes * bytes) ChannelRef :=
  [((example_net, alice), (example_net, 7)); ((example_net, carol), (example_net, 8))].

Lemma bob_carol0_opened : opened bob_carol0.
Proof.
  exists carol_cid, (be_encode 20 4), (be_encode 20 5), 10, 50, example_fees, bob, 50, carol, 50,
    (fresh_end bob 50), (fresh_end carol 50), (mkSuccessfulTransactionState 1 None).
  split_and!; reflexivity.
Qed.

Lemma bob_channels_reachable : store_reachable bob_channels.
Proof.
  intros ref c. cbn. case_decide; [intros [= <-]|case_decide; [intros [= <-]|done]].
  - exists bob0. split; [exact bob0_opened|apply rtc_refl].
  - exists bob_carol0. split; [exact bob_carol0_opened|apply rtc_refl].
Qed.

(** ** Alice's transfer to Carol *)

Definition example_route : RouteState := mkRouteState [alice; bob; carol] [] [] 0.

Definition send_mediated : Py (NettingChannelState * SendLockedTransfer) :=
  send_lockedtransfer alice0 alice carol 10 1 2 40 None example_secrethash [example_route] None None.

Definition mediated_transfer : LockedTransferSignedState :=
  match send_mediated with
  | Ok (_, ev) =>
      mkLockedTransferSignedState 2 (be_encode 20 4) example_lock alice carol 1 [example_route]
        (sign_bp alice (ltu_balance_proof (slt_transfer ev))) None None
  | Raise _ => example_transfer
  end.

Definition example_init_mediator : StateChange :=
  SActionInitMediator
    (mkActionInitMediator alice (lts_balance_proof mediated_transfer) (mkHopState alice 7)
       [example_route] mediated_transfer).

Definition mediation_init : Py (TransitionResult (option MediatorTransferState) * Channels * Random) :=
  mediator_state_transition example_net None example_init_mediator bob_channels bob_addresses
    example_prng 20 [].

(** Bob's task and channels after he forwarded the transfer. *)
Definition mediator1 : MediatorTransferState :=
  match mediation_init with
  | Ok (iteration, _, _) =>
      default (mkMediatorTransferState [] [] [] None [] None) (new_state iteration)
  | Raise _ => mkMediatorTransferState [] [] [] None [] None
  end.
Definition bob_channels1 : Channels :=
  match mediation_init with Ok (_, chans, _) => chans | Raise _ => bob_channels end.

Lemma example_init_mediator_env :
  mediator_env example_net None example_init_mediator bob_channels bob_addresses.
Proof.
  split; [vm_compute; reflexivity|]. split; [exact example_lock_valid|].
  intros c Hc. vm_compute in Hc. injection Hc as <-. split; [vm_compute; reflexivity|].
  intros r hop ref c Hr Hhop Hc. vm_compute in Hr.
  apply list_elem_of_singleton in Hr as ->. vm_compute in Hhop. injection Hhop as <-.
  vm_compute in Hc. injection Hc as _ <-. vm_compute. reflexivity.
Qed.

Lemma mediator_steps_channels_witness :
  exists iteration prng',
    mediation_init = Ok (iteration, bob_channels1, prng')
    /\ new_state iteration = Some mediator1 /\ length (events iteration) = 2%nat
    /\ length (mt_transfers_pair mediator1) = 1%nat
    /\ store_reachable bob_channels1.
Proof.
  destruct mediation_init as [[[iteration chans] prng']|e] eqn:E;
    [|exfalso; vm_compute in E; discriminate E].
  destruct (mediator_steps_channels example_net None example_init_mediator bob_channels bob_addresses
    example_prng 20 [] iteration chans prng' example_init_mediator_env bob_channels_reachable E)
    as [Hr _].
  assert (bob_channels1 = chans) as -> by (unfold bob_channels1; by rewrite E).
  exists iteration, prng'. split; [reflexivity|]. split; [|split; [|split; [|exact Hr]]].
  - vm_compute in E. injection E as <- _ _. vm_compute. reflexivity.
  - vm_compute in E. injection E as <- _ _. vm_compute. reflexivity.
  - vm_compute. reflexivity.
Defined.

Lemma bob_channels1_solvent : store_solvent bob_channels1.
Proof.
  apply store_reachable_solvent. unfold bob_channels1.
  destruct mediation_init as [[[iteration chans] prng']|e] eqn:E;
    [|exfalso; vm_compute in E; discriminate E].
  eapply store_evolves_reachable, bob_channels_reachable.
  exact (mediator_transition_evolves example_net None example_init_mediator bob_channels
    bob_addresses example_prng 20 [] iteration chans prng' example_init_mediator_env E).
Qed.

Lemma forwarded_transfer_is_covered_witness :
  exists p payee' evs prng',
    forward_transfer_pair mediated_transfer bob0 bob_carol0 example_prng 20
    = Ok (Some (p, payee', evs), prng')
    /\ 0 < lock_amount (ltu_lock (mp_payee_transfer p)) <= 10
    /\ lock_expiration (ltu_lock (mp_payee_transfer p)) = 40.
Proof.
  destruct (forward_transfer_pair mediated_transfer bob0 bob_carol0 example_prng 20)
    as [[[[[p payee'] evs]|] prng']|e] eqn:E; [|exfalso; vm_compute in E; discriminate E..].
  destruct (forwarded_transfer_is_covered mediated_transfer bob0 bob_carol0 example_prng 20 p payee'
    evs prng') as (_ & Ha & He & _);
    [apply bob0_inv|apply opened_inv, bob_carol0_opened|split; exact I|split; reflexivity|exact E|].
  exists p, payee', evs, prng'. split; [reflexivity|]. split; [exact Ha|exact He].
Defined.

(** ** Carol reveals the secret to Bob *)

Definition example_reveal : StateChange :=
  SReceiveSecretReveal (mkReceiveSecretReveal carol example_secret example_secrethash).

Definition mediation_reveal : Py (TransitionResult (option MediatorTransferState) * Channels * Random) :=
  mediator_state_transition example_net (Some mediator1) example_reveal bob_channels1 bob_addresses
    example_prng 22 [].

Definition bob_channels2 : Channels :=
  match mediation_reveal with Ok (_, chans, _) => chans | Raise _ => bob_channels end.
Definition mediator2 : MediatorTransferState :=
  match mediation_reveal with
  | Ok (iteration, _, _) => default mediator1 (new_state iteration)
  | Raise _ => mediator1
  end.

Lemma mediator_unlocks_when_safe_witness :
  exists iteration prng' u p payer,
    mediation_reveal = Ok (iteration, bob_channels2, prng')
    /\ ESendUnlock u ∈ events iteration /\ p ∈ mt_transfers_pair mediator1
    /\ get_payer_channel example_net bob_channels2 p = Some payer
    /\ is_secret_known (partner_state payer) example_secrethash = true.
Proof.
  destruct mediation_reveal as [[[iteration chans] prng']|e] eqn:E;
    [|exfalso; vm_compute in E; discriminate E].
  assert (exists u, ESendUnlock u ∈ events iteration) as [u Hu].
  { vm_compute in E. injection E as <- _ _. eexists. apply elem_of_cons. right.
    apply elem_of_cons. left. reflexivity. }
  assert (bob_channels2 = chans) as Hch by (unfold bob_channels2; by rewrite E).
  destruct (mediator_unlocks_when_safe example_net mediator1 example_reveal bob_channels1
    bob_addresses example_prng 22 [] iteration chans prng' u bob_channels1_solvent E Hu)
    as (p & payer & payer' & Hp & _ & Hpayer & Hpayer' & _ & Hknown).
  exists iteration, prng', u, p, payer'. rewrite Hch.
  split; [reflexivity|]. split; [exact Hu|]. split; [exact Hp|]. split; [exact Hpayer'|].
  apply Hknown. vm_compute in Hp. apply list_elem_of_singleton in Hp as ->.
  vm_compute in Hpayer. injection Hpayer as <-. vm_compute. reflexivity.
Defined.

(** ** Alice does not unlock, and her lock comes close to its expiration *)

Lemma mediator_registers_in_time_witness :
  exists e,
    events_for_onchain_secretreveal_if_dangerzone example_net bob_channels2 example_secrethash
      (mt_transfers_pair mediator2) 32 []
    = Ok (map (mark_danger example_net bob_channels2 32) (mt_transfers_pair mediator2), [e])
    /\ e = EContractSendSecretReveal (mkContractSendSecretReveal [] 40 example_secret).
Proof.
  destruct (mediator_registers_in_time example_net bob_channels2 example_secrethash
    (mt_transfers_pair mediator2) 32 []) as [(_ & evs & Hrun & Hevs)|[Hs _]].
  - reflexivity.
  - apply Forall_forall. intros p Hp. vm_compute in Hp. apply list_elem_of_singleton in Hp as ->.
    intros c Hc. vm_compute in Hc. injection Hc as <-. split; [vm_compute; reflexivity|].
    vm_compute. discriminate.
  - destruct (has_secret_registration_started _ _ _) eqn:Eb in Hevs;
      [exfalso; vm_compute in Eb; discriminate Eb|].
    destruct (first_in_danger _ _ _ _) as [p|] eqn:Ep in Hevs;
      [|exfalso; vm_compute in Ep; discriminate Ep].
    destruct Hevs as (c & s & Hc & Hs & Hopen & _). vm_compute in Ep. injection Ep as <-.
    vm_compute in Hc. injection Hc as <-. vm_compute in Hs. injection Hs as <-.
    rewrite Hopen in Hrun by (apply (bool_decide_unpack _); vm_compute; exact I).
    eexists. split; [exact Hrun|]. vm_compute. reflexivity.
  - exfalso. apply Exists_exists in Hs as (p & Hp & _ & c & Hc & Hle). vm_compute in Hp.
    apply list_elem_of_singleton in Hp as ->. vm_compute in Hc. injection Hc as <-.
    vm_compute in Hle. apply Hle. reflexivity.
Defined.

(** ** A payment of Alice to Bob *)

Definition alice_channels : Channels := [((example_net, 7), alice0)].
Definition alice_addresses : dict (bytes * bytes) ChannelRef :=
  [((example_net, bob), (example_net, 7))].

Lemma alice_channels_solvent : store_solvent alice_channels.
Proof.
  intros ref c. cbn. case_decide; [intros [= <-]|done]. apply opened_inv, alice0_opened.
Qed.

Definition payment_route : RouteState := mkRouteState [alice; bob] [] [] 0.
Definition payment_description : TransferDescriptionWithSecretState :=
  mkTransferDescription (be_encode 20 5) 2 10 example_net alice bob example_secret
    example_secrethash None.
Definition payment_init : StateChange :=
  SActionInitInitiator (mkActionInitInitiator payment_description [payment_route]).

Definition payment_start : Py PaymentResult :=
  manager_state_transition example_net None payment_init alice_addresses alice_channels
    example_prng 20.

Definition no_payment : InitiatorPaymentState := mkInitiatorPaymentState [] [] [].
Definition payment_of (r : Py PaymentResult) : InitiatorPaymentState :=
  match r with
  | Ok (iteration, _, _) => default no_payment (new_state iteration)
  | Raise _ => no_payment
  end.
Definition channels_of (r : Py PaymentResult) : Channels :=
  match r with Ok (_, chans, _) => chans | Raise _ => [] end.

Definition payment1 : InitiatorPaymentState := payment_of payment_start.
Definition alice_channels1 : Channels := channels_of payment_start.

Lemma new_transfer_within_limit_witness :
  exists iteration chans' prng' state,
    try_new_route alice_addresses alice_channels [payment_route] payment_description example_prng 20
    = Ok (iteration, chans', prng')
    /\ new_state iteration = Some state
    /\ exists amount limit,
         max_amount_limit 10 = Ok limit /\ amount <= limit
         /\ lock_amount (ltu_lock (it_transfer state)) = amount.
Proof.
  destruct (try_new_route alice_addresses alice_channels [payment_route] payment_description
    example_prng 20) as [[[iteration chans'] prng']|e] eqn:E;
    [|exfalso; vm_compute in E; discriminate E].
  pose proof (new_transfer_within_limit alice_addresses alice_channels [payment_route]
    payment_description example_prng 20 iteration chans' prng' E) as Hnew.
  destruct (new_state iteration) as [state|] eqn:Est.
  - destruct Hnew as (ref & c & c' & amount & limit & ev & _ & _ & _ & _ & _ & _ & _ & _ & Hl & Hle
                      & _ & _ & Hlock).
    exists iteration, chans', prng', state. split; [reflexivity|]. split; [exact Est|].
    exists amount, limit. split; [exact Hl|]. split; [exact Hle|]. rewrite Hlock. reflexivity.
  - exfalso. vm_compute in E. injection E as <- _ _. vm_compute in Est. discriminate Est.
Defined.

Lemma initiator_payment_well_formed_witness :
  payment_wf payment1 /\ length (ip_initiator_transfers payment1) = 1%nat.
Proof.
  split; [|vm_compute; reflexivity].
  destruct payment_start as [[[iteration chans'] prng']|e] eqn:E;
    [|exfalso; vm_compute in E; discriminate E].
  assert (new_state iteration = Some payment1) as Hst
    by (vm_compute in E; injection E as <- _ _; vm_compute; reflexivity).
  pose proof E as E'. unfold payment_start in E'.
  refine (proj1 (initiator_payment_well_formed example_net None payment_init alice_addresses
    alice_channels example_prng 20 iteration chans' prng' payment1 alice_channels_solvent _ I E' Hst)).
  intros payment Hp. discriminate Hp.
Defined.

Lemma payment1_wf : payment_wf payment1.
Proof.
  assert (exists state, ip_initiator_transfers payment1 = [(example_secrethash, state)]
            /\ it_secrethash state = example_secrethash
            /\ td_secrethash (it_transfer_description state) = example_secrethash)
    as (state & Ht & Hsh & Htd).
  { eexists. split; [vm_compute; reflexivity|]. split; vm_compute; reflexivity. }
  split; rewrite Ht; [apply NoDup_singleton|].
  intros k state' Hk. cbn in Hk. case_decide as Hd; [|done]. injection Hk as <-. subst k.
  split; [exact Hsh|exact Htd].
Qed.

Lemma alice_channels1_solvent : store_solvent alice_channels1.
Proof.
  apply store_reachable_solvent. unfold alice_channels1.
  destruct payment_start as [[[iteration chans'] prng']|e] eqn:E;
    [|exfalso; vm_compute in E; discriminate E].
  cbn [channels_of]. apply (store_evolves_reachable alice_channels).
  - unfold payment_start in E.
    refine (manager_transition_evolves example_net None payment_init alice_addresses alice_channels
      example_prng 20 iteration chans' prng' _ E).
    intros ref c. cbn. case_decide; [intros [= <-]|done]. vm_compute. reflexivity.
  - intros ref c. cbn. case_decide; [intros [= <-]|done].
    exists alice0. split; [exact alice0_opened|apply rtc_refl].
Qed.

Definition example_request : StateChange :=
  SReceiveSecretRequest (mkReceiveSecretRequest bob 2 10 39 example_secrethash None).

Definition payment_request : Py PaymentResult :=
  manager_state_transition example_net (Some payment1) example_request alice_addresses alice_channels1
    example_prng 21.
Definition alice_channels2 : Channels := channels_of payment_request.

Lemma initiator_reveals_only_on_request_witness :
  exists iteration prng' r,
    payment_request = Ok (iteration, alice_channels2, prng')
    /\ events iteration = [ESendSecretReveal r]
    /\ ssr_secret r = example_secret /\ sm_recipient (ssr_message r) = bob.
Proof.
  destruct payment_request as [[[iteration chans'] prng']|e] eqn:E;
    [|exfalso; vm_compute in E; discriminate E].
  assert (exists r, events iteration = [ESendSecretReveal r]) as [r Hr]
    by (vm_compute in E; injection E as <- _ _; eexists; reflexivity).
  pose proof E as E'. unfold payment_request in E'.
  destruct (initiator_reveals_only_on_request example_net (Some payment1) example_request
    alice_addresses alice_channels1 example_prng 21 iteration chans' prng' r alice_channels1_solvent)
    as (payment & payment' & a & state & c & Hp & Ha & Hst & _ & _ & _ & Hs & Hrcp & _).
  - intros payment Hp. apply (inj Some) in Hp as <-. exact payment1_wf.
  - exact I.
  - exact E'.
  - rewrite Hr. apply list_elem_of_singleton. reflexivity.
  - exists iteration, prng', r.
    split; [unfold alice_channels2; rewrite E; reflexivity|]. split; [exact Hr|].
    apply (inj Some) in Hp as <-. injection Ha as <-. vm_compute in Hst. injection Hst as <-.
    split; [exact Hs|exact Hrcp].
Defined.

(** ** Bob reveals the secret to Alice *)

Definition payment_reveal : StateChange :=
  SReceiveSecretReveal (mkReceiveSecretReveal bob example_secret example_secrethash).

Lemma initiator_pays_once_witness :
  exists iteration chans' prng' u s e,
    manager_state_transition example_net (Some payment1) payment_reveal alice_addresses
      alice_channels1 example_prng 22 = Ok (iteration, chans', prng')
    /\ events iteration = [ESendUnlock u; EEventPaymentSentSuccess s; EEventUnlockSuccess e]
    /\ pss_amount s = 10.
Proof.
  destruct (manager_state_transition example_net (Some payment1) payment_reveal alice_addresses
    alice_channels1 example_prng 22) as [[[iteration chans'] prng']|e] eqn:E;
    [|exfalso; vm_compute in E; discriminate E].
  assert (exists ev, ev ∈ events iteration
            /\ match ev with ESendUnlock _ | EEventPaymentSentSuccess _ => True | _ => False end)
    as (ev & Hev & Hpay).
  { vm_compute in E. injection E as <- _ _. eexists. split; [apply elem_of_cons; left; reflexivity|].
    exact I. }
  destruct (initiator_pays_once example_net (Some payment1) payment_reveal alice_addresses
    alice_channels1 example_prng 22 iteration chans' prng' ev alice_channels1_solvent)
    as (payment & k & state & c & u & s & e & Hp & Hst & _ & _ & _ & Hevs & _ & _ & Ham & _).
  - intros payment Hp. apply (inj Some) in Hp as <-. exact payment1_wf.
  - exact I.
  - exact E.
  - exact Hev.
  - exact Hpay.
  - exists iteration, chans', prng', u, s, e. split; [reflexivity|]. split; [exact Hevs|].
    apply (inj Some) in Hp as <-. rewrite Ham.
    assert (ip_initiator_transfers payment1 = [(example_secrethash,
      snd (hd (example_secrethash, state) (ip_initiator_transfers payment1)))]) as Ht
      by (vm_compute; reflexivity).
    rewrite Ht in Hst. cbn [dict_get] in Hst. case_decide; [|discriminate Hst].
    apply (inj Some) in Hst as <-. vm_compute. reflexivity.
Defined.
