(* ===== verification/ChainExamples.v ===== *)
(** The node of Bob, on which the theorems about the node are applied. *)

From stdpp Require Import relations.
From S2P Require Import Prelude PyDict Bytes Crypto PyFloat MediationFee State Events.
From S2P Require Import StateChanges Channel ChannelValidation ChannelOps ChannelTransition.
From S2P Require Import ChannelInvariant ChannelMachine ChannelSystem ChannelExamples.
From S2P Require Import TokenNetwork.
From S2P Require Import TransferTasks TaskSteps Mediator MediatorSteps TaskExamples.
From S2P Require Import Node NodeProofs NodeChannels.

#[local] Existing Instance toy_crypto.
#[local] Existing Instance toy_crypto_laws.
#[local] Existing Instance toy_pow.

(** A node with one token network. *)
Definition node_with (channels : dict Z NettingChannelState) (partners : dict bytes (list Z))
    (transactions : list Event) : ChainState :=
  let tn := mkTokenNetworkState example_net (be_encode 20 4) channels partners in
  let registry := mkTokenNetworkRegistryState (be_encode 20 5) [tn] [(be_encode 20 4, example_net)]
                    [(example_net, tn)] in
  mkChainState example_prng 20 [] bob 1 [(be_encode 20 5, registry)] [] transactions []
    [(example_net, be_encode 20 5)].

(** ** Bob mediates the transfer of Alice to Carol *)

Definition bob_node : ChainState :=
  node_with [(7, bob0); (8, bob_carol0)] [(alice, [7]); (carol, [8])] [].

Definition bob_node_mediates : Py NodeResult := node_state_transition bob_node example_init_mediator.

Lemma bob_node_reachable : chain_reachable bob_node.
Proof.
  intros a r Hr net tn Hn id c Hc. apply list_elem_of_singleton in Hr. injection Hr as -> ->.
  apply list_elem_of_singleton in Hn. injection Hn as -> ->.
  apply elem_of_cons in Hc as [Hc|Hc%list_elem_of_singleton]; injection Hc as -> ->.
  - exists bob0. split; [exact bob0_opened|apply rtc_refl].
  - exists bob_carol0. split; [exact bob_carol0_opened|apply rtc_refl].
Qed.

Lemma bob_node_channels : chain_channels bob_node = bob_channels.
Proof. reflexivity. Qed.

Lemma bob_node_env : node_env bob_node example_init_mediator.
Proof.
  unfold node_env, example_init_mediator. rewrite bob_node_channels.
  replace (chain_addresses bob_node) with bob_addresses by (vm_compute; reflexivity).
  replace (token_network_address _) with example_net by (vm_compute; reflexivity).
  exact example_init_mediator_env.
Qed.

Lemma node_keeps_channels_reachable_witness :
  exists cs' evs, bob_node_mediates = Ok (cs', evs)
    /\ length evs = 2%nat /\ length (secrethashes_to_task cs') = 1%nat
    /\ chain_reachable cs'.
Proof.
  destruct bob_node_mediates as [[cs' evs]|e] eqn:E; [|exfalso; vm_compute in E; discriminate E].
  pose proof E as E'. unfold bob_node_mediates in E'.
  destruct (node_keeps_channels_reachable bob_node example_init_mediator cs' evs bob_node_env
    bob_node_reachable E') as [Hr _].
  exists cs', evs. split; [reflexivity|]. split; [|split; [|exact Hr]];
    vm_compute in E; injection E as <- <-; vm_compute; reflexivity.
Defined.

Lemma node_loses_nothing_witness :
  exists cs' evs e,
    bob_node_mediates = Ok (cs', evs) /\ ESendLockedTransfer e ∈ evs
    /\ queued cs' (ESendLockedTransfer e).
Proof.
  destruct bob_node_mediates as [[cs' evs]|err] eqn:E; [|exfalso; vm_compute in E; discriminate E].
  assert (exists e, ESendLockedTransfer e ∈ evs) as [e He].
  { vm_compute in E. injection E as _ <-. eexists. apply elem_of_cons. right.
    apply elem_of_cons. left. reflexivity. }
  pose proof E as E'. unfold bob_node_mediates in E'.
  destruct (node_loses_nothing bob_node example_init_mediator cs' evs E') as [Hqueued _].
  exists cs', evs, e. split; [reflexivity|]. split; [exact He|].
  apply Hqueued; [exact He|]. eexists. reflexivity.
Defined.

(** ** The last unlock of Alice's channel, with one for Carol's pending *)

Definition settled : option TransactionExecutionStatus :=
  Some (mkTransactionExecutionStatus (Some 60) (Some 60) (Some SUCCESS)).

(** A settled channel with a lock of the partner to be unlocked. *)
Definition settled_channel (cid : CanonicalIdentifier) (partner : bytes) : NettingChannelState :=
  mkChannelState cid (be_encode 20 4) (be_encode 20 5) 10 50 example_fees (fresh_end bob 50)
    (set_onchain_locksroot (be_encode 32 77) (fresh_end partner 50))
    (mkSuccessfulTransactionState 1 None) settled settled None.

Definition unlock_of_carol : Event :=
  EContractSendChannelBatchUnlock (mkContractSendChannelBatchUnlock [] carol_cid carol).

Definition bob_node_settled : ChainState :=
  node_with [(7, settled_channel example_cid alice); (8, settled_channel carol_cid carol)]
    [(alice, [7]); (carol, [8])] [unlock_of_carol].

Definition alice_unlocked : ContractReceiveChannelBatchUnlock :=
  mkContractReceiveChannelBatchUnlock [] 61 [] example_cid bob alice (be_encode 32 77) 10 0.

Lemma batch_unlock_clears_other_channels_witness :
  exists cs',
    pending_transactions bob_node_settled = [unlock_of_carol]
    /\ node_state_transition bob_node_settled (SContractReceiveChannelBatchUnlock alice_unlocked)
       = Ok (cs', [])
    /\ unlock_of_carol ∉ pending_transactions cs'
    /\ exists c, get_channelstate_by_canonical_identifier cs' example_net 8 = Some c
                 /\ onchain_locksroot (partner_state c) = be_encode 32 77.
Proof.
  destruct (node_state_transition bob_node_settled (SContractReceiveChannelBatchUnlock alice_unlocked))
    as [[cs' evs]|e] eqn:E; [|exfalso; vm_compute in E; discriminate E].
  destruct (handle_state_change bob_node_settled (SContractReceiveChannelBatchUnlock alice_unlocked))
    as [[cs1 evs1]|e] eqn:E1; [|exfalso; vm_compute in E1; discriminate E1].
  assert (evs = [] /\ evs1 = []) as [-> ->].
  { vm_compute in E, E1. injection E as _ <-. injection E1 as _ <-. split; reflexivity. }
  exists cs'. split; [reflexivity|]. split; [reflexivity|]. split.
  - intros Hin. apply (not_elem_of_nil unlock_of_carol).
    refine (batch_unlock_clears_other_channels bob_node_settled alice_unlocked cs1 cs' [] E E1 _ _ _ _
              Hin); vm_compute in E1; injection E1 as <-; vm_compute; reflexivity || discriminate.
  - vm_compute in E. injection E as <-. eexists. split; vm_compute; reflexivity.
Defined.
