(* ===== verification/Messages.v ===== *)
(** The messages of the protocol ([messages/abstract.py], [transfers.py],
    [synchronization.py], [withdraw.py], [metadata.py], [encode.py] and
    [decode.py], and [LocalSigner] of [utils/signer.py]).

    A message is made from an event of the state machine, signed, and turned
    into a balance proof or a transfer by the receiver.  The JSON form of the
    metadata, the encryption of a secret and the signature of a hash are done
    by third-party packages, which are the class [MessageEnv] and the class
    [LocalSigner]. *)

From Stdlib Require Import Ascii.
From coqutil Require Import Byte.
From S2P Require Import Prelude PyDict Bytes Crypto PyFloat MediationFee State Events.

(** ** Data *)

(** [CmdId] *)
Definition PROCESSED : Z := 0.
Definition SECRETREQUEST : Z := 3.
Definition UNLOCK : Z := 4.
Definition LOCKEDTRANSFER : Z := 7.
Definition REFUNDTRANSFER : Z := 8.
Definition REVEALSECRET : Z := 11.
Definition DELIVERED : Z := 12.
Definition LOCKEXPIRED : Z := 13.
Definition WITHDRAW_REQUEST : Z := 15.
Definition WITHDRAW_CONFIRMATION : Z := 16.
Definition WITHDRAW_EXPIRED : Z := 17.

(** [constants.EMPTY_SIGNATURE] *)
Definition EMPTY_SIGNATURE : bytes := zero_bytes 65.

Record RouteMetadata : Type := mkRouteMetadata {
  rm_route : list bytes;
  rm_address_metadata : option (dict bytes AddressMetadata)
}.

(** The original data is the JSON object as it was received. *)
Record Metadata : Type := mkMetadata {
  md_routes : list RouteMetadata;
  md_original_data : option AddressMetadata;
  md_secret : option bytes
}.

(** [EnvelopeMessage], with the signature and the message identifier that it
    inherits. *)
Record EnvelopeMessage : Type := mkEnvelopeMessage {
  em_message_identifier : Z;
  em_signature : bytes;
  em_chain_id : Z;
  em_nonce : Z;
  em_transferred_amount : Z;
  em_locked_amount : Z;
  em_locksroot : bytes;
  em_channel_identifier : Z;
  em_token_network_address : bytes
}.

(** [LockedTransferBase], of a [LockedTransfer] and of a [RefundTransfer]. *)
Record LockedTransferBase : Type := mkLockedTransferBase {
  lt_envelope : EnvelopeMessage;
  lt_payment_identifier : Z;
  lt_token : bytes;
  lt_recipient : bytes;
  lt_lock : Lock.t;
  lt_target : bytes;
  lt_initiator : bytes;
  lt_metadata : Metadata
}.

Record Unlock : Type := mkUnlock {
  un_envelope : EnvelopeMessage;
  un_payment_identifier : Z;
  un_secret : bytes
}.

Record LockExpired : Type := mkLockExpired {
  le_envelope : EnvelopeMessage;
  le_recipient : bytes;
  le_secrethash : bytes
}.

Record SecretRequest : Type := mkSecretRequest {
  sr_message_identifier : Z;
  sr_signature : bytes;
  sr_payment_identifier : Z;
  sr_secrethash : bytes;
  sr_amount : Z;
  sr_expiration : Z
}.

Record RevealSecret : Type := mkRevealSecret {
  rs_message_identifier : Z;
  rs_signature : bytes;
  rs_secret : bytes
}.

Record Processed : Type := mkProcessed {
  pr_message_identifier : Z;
  pr_signature : bytes
}.

Record Delivered : Type := mkDelivered {
  de_signature : bytes;
  de_delivered_message_identifier : Z
}.

(** The fields that [WithdrawRequest], [WithdrawConfirmation] and
    [WithdrawExpired] share. *)
Record WithdrawFields : Type := mkWithdrawFields {
  wf_message_identifier : Z;
  wf_signature : bytes;
  wf_chain_id : Z;
  wf_token_network_address : bytes;
  wf_channel_identifier : Z;
  wf_participant : bytes;
  wf_total_withdraw : Z;
  wf_nonce : Z;
  wf_expiration : Z
}.

Inductive Message : Type :=
  | MLockedTransfer (m : LockedTransferBase)
  | MRefundTransfer (m : LockedTransferBase)
  | MUnlock (m : Unlock)
  | MLockExpired (m : LockExpired)
  | MSecretRequest (m : SecretRequest)
  | MRevealSecret (m : RevealSecret)
  | MProcessed (m : Processed)
  | MDelivered (m : Delivered)
  | MWithdrawRequest (m : WithdrawFields) (coop_settle : bool)
  | MWithdrawConfirmation (m : WithdrawFields)
  | MWithdrawExpired (m : WithdrawFields).

(** ** Third-party operations *)

(** [message_type_withdraw] is [MessageTypeId.WITHDRAW] of raiden_contracts;
    [to_dict] and [encode_canonical_json] are the serialization of the metadata
    (marshmallow, canonicaljson); [serialize_secret] and [deserialize_secret]
    are [SecretSerializer] (marshmallow), where [None] is a
    [SerializationError].  [encrypt] encrypts data for the public key that made
    the signature of a hash, and [decrypt] reads it with a private key (ecies);
    both may raise.  [decode_hex] and [to_canonical_address] are those of
    eth_utils. *)
Class MessageEnv : Type := {
  message_type_withdraw : Z;
  to_dict : Metadata -> AddressMetadata;
  encode_canonical_json : AddressMetadata -> bytes;
  serialize_secret : bytes * Z * Z -> bytes;
  deserialize_secret : bytes -> option (bytes * Z * Z);
  encrypt : bytes -> bytes -> bytes -> Py bytes;
  decrypt : bytes -> bytes -> Py bytes;
  decode_hex : string -> Py bytes;
  to_canonical_address : string -> bytes
}.

(** A private key: [sign_msg_hash] of eth_keys gives 64 bytes and a recovery
    bit, from which the address of the key is recovered. *)
Class PrivateKey `{Crypto} : Type := {
  key_address : bytes;
  sign_msg_hash : bytes -> bytes;
  key_address_length : length key_address = 20%nat;
  sign_msg_hash_form h :
    exists rs v, sign_msg_hash h = rs ++ [v] /\ length rs = 64%nat /\ 0 <= byte.unsigned v <= 1;
  sign_msg_hash_recover h : ecdsa_recover h (sign_msg_hash h) = Some key_address
}.

Section messages.
Context `{Crypto}.

(** [LocalSigner.sign], with [v = 27] *)
Definition local_sign `{!PrivateKey} (data : bytes) : bytes :=
  let sig_bytes := sign_msg_hash (eth_sign_sha3 data) in
  match last sig_bytes with
  | Some v => take (length sig_bytes - 1) sig_bytes ++ [byte.of_Z (byte.unsigned v + 27)]
  | None => []
  end.

(** ** Checks *)

Definition assert_envelope_values (nonce channel_identifier transferred_amount locked_amount : Z)
    (locksroot : bytes) : Py unit :=
  _ ← raise_if (nonce <=? 0) (ValueError "nonce cannot be zero or negative");
  _ ← raise_if (UINT64_MAX <? nonce) (ValueError "nonce is too large");
  _ ← raise_if (channel_identifier <=? 0) (ValueError "channel id cannot be zero or negative");
  _ ← raise_if (UINT256_MAX <? channel_identifier) (ValueError "channel id is too large");
  _ ← raise_if (transferred_amount <? 0) (ValueError "transferred_amount cannot be negative");
  _ ← raise_if (UINT256_MAX <? transferred_amount) (ValueError "transferred_amount is too large");
  _ ← raise_if (locked_amount <? 0) (ValueError "locked_amount cannot be negative");
  _ ← raise_if (UINT256_MAX <? locked_amount) (ValueError "locked_amount is too large");
  raise_if (negb (bool_decide (length locksroot = 32%nat)))
    (ValueError "locksroot must have length 32").

Definition assert_transfer_values (payment_identifier : Z) (token recipient : bytes) : Py unit :=
  _ ← raise_if (payment_identifier <? 0) (ValueError "payment_identifier cannot be negative");
  _ ← raise_if (UINT64_MAX <? payment_identifier) (ValueError "payment_identifier is too large");
  _ ← raise_if (negb (bool_decide (length token = 20%nat))) (ValueError "token is an invalid address");
  raise_if (negb (bool_decide (length recipient = 20%nat)))
    (ValueError "recipient is an invalid address").

(** [EnvelopeMessage.__post_init__] *)
Definition new_EnvelopeMessage (message_identifier : Z) (signature : bytes)
    (chain_id nonce transferred_amount locked_amount : Z) (locksroot : bytes)
    (channel_identifier : Z) (token_network_address : bytes) : Py EnvelopeMessage :=
  _ ← assert_envelope_values nonce channel_identifier transferred_amount locked_amount locksroot;
  Ok (mkEnvelopeMessage message_identifier signature chain_id nonce transferred_amount
        locked_amount locksroot channel_identifier token_network_address).

(** [LockedTransferBase.__post_init__], after the one of the envelope. *)
Definition new_LockedTransferBase (envelope : EnvelopeMessage) (payment_identifier : Z)
    (token recipient : bytes) (lock : Lock.t) (target initiator : bytes) (metadata : Metadata) :
    Py LockedTransferBase :=
  _ ← assert_transfer_values payment_identifier token recipient;
  _ ← raise_if (negb (bool_decide (length target = 20%nat)))
        (ValueError "target is an invalid address");
  _ ← raise_if (negb (bool_decide (length initiator = 20%nat)))
        (ValueError "initiator is an invalid address");
  Ok (mkLockedTransferBase envelope payment_identifier token recipient lock target initiator metadata).

(** [Unlock.__post_init__], after the one of the envelope. *)
Definition new_Unlock (envelope : EnvelopeMessage) (payment_identifier : Z) (secret : bytes) :
    Py Unlock :=
  _ ← raise_if (payment_identifier <? 0) (ValueError "payment_identifier cannot be negative");
  _ ← raise_if (UINT64_MAX <? payment_identifier) (ValueError "payment_identifier is too large");
  _ ← raise_if (negb (bool_decide (length secret = 32%nat))) (ValueError "secret must have 32 bytes");
  Ok (mkUnlock envelope payment_identifier secret).

(** ** The signed data *)

Context `{MessageEnv}.

Definition cmd_byte (cmdid : Z) : bytes := [byte.of_Z cmdid].
Definition cmd_bytes (cmdid : Z) : bytes := cmd_byte cmdid ++ zero_bytes 3.

(** [LockedTransferBase._pack_locked_transfer_data] *)
Definition pack_locked_transfer_data (cmdid message_identifier payment_identifier : Z)
    (token recipient target initiator : bytes) (lock : Lock.t) : Py bytes :=
  mid ← int_to_bytes 8 message_identifier;
  pid ← int_to_bytes 8 payment_identifier;
  expiration ← int_to_bytes 32 (Lock.expiration lock);
  amount ← int_to_bytes 32 (Lock.amount lock);
  Ok (cmd_byte cmdid ++ mid ++ pid ++ expiration ++ token ++ recipient ++ target ++ initiator
      ++ Lock.secrethash lock ++ amount).

(** [LockedTransferBase._packed_data] *)
Definition packed_data (cmdid : Z) (m : LockedTransferBase) : Py bytes :=
  pack_locked_transfer_data cmdid (em_message_identifier (lt_envelope m)) (lt_payment_identifier m)
    (lt_token m) (lt_recipient m) (lt_target m) (lt_initiator m) (lt_lock m).

(** [Metadata.hash] *)
Definition metadata_hash (md : Metadata) : bytes := keccak (encode_canonical_json (to_dict md)).

(** [message_hash] of the envelopes *)
Definition LockedTransfer_message_hash (m : LockedTransferBase) : Py bytes :=
  data ← packed_data LOCKEDTRANSFER m;
  Ok (keccak (data ++ metadata_hash (lt_metadata m))).

Definition RefundTransfer_message_hash (m : LockedTransferBase) : Py bytes :=
  data ← packed_data REFUNDTRANSFER m;
  Ok (keccak data).

Definition Unlock_message_hash (m : Unlock) : Py bytes :=
  mid ← int_to_bytes 8 (em_message_identifier (un_envelope m));
  pid ← int_to_bytes 8 (un_payment_identifier m);
  Ok (keccak (cmd_byte UNLOCK ++ mid ++ pid ++ un_secret m)).

Definition LockExpired_message_hash (m : LockExpired) : Py bytes :=
  mid ← int_to_bytes 8 (em_message_identifier (le_envelope m));
  Ok (keccak (cmd_byte LOCKEXPIRED ++ mid ++ le_recipient m ++ le_secrethash m)).

(** [EnvelopeMessage._data_to_sign] *)
Definition envelope_cid (e : EnvelopeMessage) : CanonicalIdentifier :=
  mkCanonicalIdentifier (em_chain_id e) (em_token_network_address e) (em_channel_identifier e).

Definition envelope_data_to_sign (e : EnvelopeMessage) (message_hash : Py bytes) : Py bytes :=
  balance_hash ← hash_balance_data (em_transferred_amount e) (em_locked_amount e) (em_locksroot e);
  h ← message_hash;
  Ok (pack_balance_proof (em_nonce e) balance_hash h (envelope_cid e)).

(** The data that a withdraw request and a confirmation sign. *)
Definition withdraw_data (m : WithdrawFields) : Py bytes :=
  chain ← int_to_bytes 32 (wf_chain_id m);
  message_type ← int_to_bytes 32 message_type_withdraw;
  channel ← int_to_bytes 32 (wf_channel_identifier m);
  total ← int_to_bytes 32 (wf_total_withdraw m);
  expiration ← int_to_bytes 32 (wf_expiration m);
  Ok (wf_token_network_address m ++ chain ++ message_type ++ channel ++ wf_participant m ++ total
      ++ expiration).

(** [_data_to_sign] of the other messages *)
Definition SecretRequest_data_to_sign (t : SecretRequest) : Py bytes :=
  mid ← int_to_bytes 8 (sr_message_identifier t);
  pid ← int_to_bytes 8 (sr_payment_identifier t);
  amount ← int_to_bytes 32 (sr_amount t);
  expiration ← int_to_bytes 32 (sr_expiration t);
  Ok (cmd_bytes SECRETREQUEST ++ mid ++ pid ++ sr_secrethash t ++ amount ++ expiration).

Definition RevealSecret_data_to_sign (t : RevealSecret) : Py bytes :=
  mid ← int_to_bytes 8 (rs_message_identifier t);
  Ok (cmd_bytes REVEALSECRET ++ mid ++ rs_secret t).

Definition Processed_data_to_sign (t : Processed) : Py bytes :=
  mid ← int_to_bytes 8 (pr_message_identifier t);
  Ok (cmd_bytes PROCESSED ++ mid).

Definition Delivered_data_to_sign (t : Delivered) : Py bytes :=
  mid ← int_to_bytes 8 (de_delivered_message_identifier t);
  Ok (cmd_bytes DELIVERED ++ mid).

Definition WithdrawExpired_data_to_sign (t : WithdrawFields) : Py bytes :=
  nonce ← int_to_bytes 32 (wf_nonce t);
  mid ← int_to_bytes 8 (wf_message_identifier t);
  data ← withdraw_data t;
  Ok (cmd_bytes WITHDRAW_EXPIRED ++ nonce ++ mid ++ data).

(** [_data_to_sign] *)
Definition data_to_sign (m : Message) : Py bytes :=
  match m with
  | MLockedTransfer t => envelope_data_to_sign (lt_envelope t) (LockedTransfer_message_hash t)
  | MRefundTransfer t => envelope_data_to_sign (lt_envelope t) (RefundTransfer_message_hash t)
  | MUnlock t => envelope_data_to_sign (un_envelope t) (Unlock_message_hash t)
  | MLockExpired t => envelope_data_to_sign (le_envelope t) (LockExpired_message_hash t)
  | MSecretRequest t => SecretRequest_data_to_sign t
  | MRevealSecret t => RevealSecret_data_to_sign t
  | MProcessed t => Processed_data_to_sign t
  | MDelivered t => Delivered_data_to_sign t
  | MWithdrawRequest t _ | MWithdrawConfirmation t => withdraw_data t
  | MWithdrawExpired t => WithdrawExpired_data_to_sign t
  end.

(** ** Signatures *)

Definition signature (m : Message) : bytes :=
  match m with
  | MLockedTransfer t | MRefundTransfer t => em_signature (lt_envelope t)
  | MUnlock t => em_signature (un_envelope t)
  | MLockExpired t => em_signature (le_envelope t)
  | MSecretRequest t => sr_signature t
  | MRevealSecret t => rs_signature t
  | MProcessed t => pr_signature t
  | MDelivered t => de_signature t
  | MWithdrawRequest t _ | MWithdrawConfirmation t | MWithdrawExpired t => wf_signature t
  end.

Definition set_em_signature (v : bytes) (e : EnvelopeMessage) : EnvelopeMessage :=
  mkEnvelopeMessage (em_message_identifier e) v (em_chain_id e) (em_nonce e)
    (em_transferred_amount e) (em_locked_amount e) (em_locksroot e) (em_channel_identifier e)
    (em_token_network_address e).
Definition set_lt_signature (v : bytes) (m : LockedTransferBase) : LockedTransferBase :=
  mkLockedTransferBase (set_em_signature v (lt_envelope m)) (lt_payment_identifier m) (lt_token m)
    (lt_recipient m) (lt_lock m) (lt_target m) (lt_initiator m) (lt_metadata m).
Definition set_wf_signature (v : bytes) (m : WithdrawFields) : WithdrawFields :=
  mkWithdrawFields (wf_message_identifier m) v (wf_chain_id m) (wf_token_network_address m)
    (wf_channel_identifier m) (wf_participant m) (wf_total_withdraw m) (wf_nonce m)
    (wf_expiration m).

Definition set_signature (v : bytes) (m : Message) : Message :=
  match m with
  | MLockedTransfer t => MLockedTransfer (set_lt_signature v t)
  | MRefundTransfer t => MRefundTransfer (set_lt_signature v t)
  | MUnlock t =>
      MUnlock (mkUnlock (set_em_signature v (un_envelope t)) (un_payment_identifier t) (un_secret t))
  | MLockExpired t =>
      MLockExpired (mkLockExpired (set_em_signature v (le_envelope t)) (le_recipient t)
                      (le_secrethash t))
  | MSecretRequest t =>
      MSecretRequest (mkSecretRequest (sr_message_identifier t) v (sr_payment_identifier t)
                        (sr_secrethash t) (sr_amount t) (sr_expiration t))
  | MRevealSecret t => MRevealSecret (mkRevealSecret (rs_message_identifier t) v (rs_secret t))
  | MProcessed t => MProcessed (mkProcessed (pr_message_identifier t) v)
  | MDelivered t => MDelivered (mkDelivered v (de_delivered_message_identifier t))
  | MWithdrawRequest t coop_settle => MWithdrawRequest (set_wf_signature v t) coop_settle
  | MWithdrawConfirmation t => MWithdrawConfirmation (set_wf_signature v t)
  | MWithdrawExpired t => MWithdrawExpired (set_wf_signature v t)
  end.

(** [SignedMessage.sign] *)
Definition sign `{!PrivateKey} (m : Message) : Py Message :=
  message_data ← data_to_sign m;
  Ok (set_signature (local_sign message_data) m).

(** [SignedMessage.sender] *)
Definition sender (m : Message) : Py (option bytes) :=
  match signature m with
  | [] => Ok None
  | _ =>
      data_that_was_signed ← data_to_sign m;
      Ok (recover data_that_was_signed (signature m))
  end.

(** The class of a message, as its [cmdid]. *)
Definition cmdid (m : Message) : Z :=
  match m with
  | MLockedTransfer _ => LOCKEDTRANSFER
  | MRefundTransfer _ => REFUNDTRANSFER
  | MUnlock _ => UNLOCK
  | MLockExpired _ => LOCKEXPIRED
  | MSecretRequest _ => SECRETREQUEST
  | MRevealSecret _ => REVEALSECRET
  | MProcessed _ => PROCESSED
  | MDelivered _ => DELIVERED
  | MWithdrawRequest _ _ => WITHDRAW_REQUEST
  | MWithdrawConfirmation _ => WITHDRAW_CONFIRMATION
  | MWithdrawExpired _ => WITHDRAW_EXPIRED
  end.

(** [SignedMessage.__hash__] and [__eq__]: messages of the same class with the
    same signed data and the same signature are equal. *)
Definition message_key (m : Message) : Py (Z * bytes * bytes) :=
  data ← data_to_sign m;
  Ok (cmdid m, data, signature m).

(** [set(messages)]: a message is dropped if an equal one was seen before. *)
Fixpoint unique_messages (seen : list (Z * bytes * bytes)) (messages : list Message) :
    Py (list Message) :=
  match messages with
  | [] => Ok []
  | m :: messages' =>
      key ← message_key m;
      if bool_decide (key ∈ seen) then unique_messages seen messages'
      else
        rest ← unique_messages (key :: seen) messages';
        Ok (m :: rest)
  end.

(** [assert message.sender], and the sender. *)
Definition checked_sender (m : Message) (msg : string) : Py bytes :=
  address ← sender m;
  match address with
  | None | Some [] => Raise (AssertionError msg)
  | Some a => Ok a
  end.

(** ** The metadata of addresses *)

Definition is_lower_hex (c : Ascii.ascii) : bool :=
  let n := Ascii.nat_of_ascii c in
  ((48 <=? n) && (n <=? 57) || (97 <=? n) && (n <=? 102))%nat.
Definition is_hex (c : Ascii.ascii) : bool :=
  let n := Ascii.nat_of_ascii c in is_lower_hex c || ((65 <=? n) && (n <=? 70))%nat.

Definition newline : Ascii.ascii := Ascii.ascii_of_nat 10.

(** The end of a pattern, [$]: also before a newline at the end. *)
Definition at_end (s : list Ascii.ascii) : bool :=
  match s with [] => true | [c] => bool_decide (c = newline) | _ => false end.

(** [(?::.+)?$] *)
Definition match_server (s : list Ascii.ascii) : bool :=
  at_end s ||
  match s with
  | (":" :: rest)%char =>
      let name := match last rest with
                  | Some c => if bool_decide (c = newline) then take (length rest - 1) rest else rest
                  | None => rest
                  end in
      match name with [] => false | _ => forallb (fun c => negb (bool_decide (c = newline))) name end
  | _ => false
  end.

(** [USERID_RE.match]: the group of the address. *)
Definition match_user_id (user_id : string) : option string :=
  match String.list_ascii_of_string user_id with
  | ("@" :: "0" :: "x" :: rest)%char =>
      let digits := take 40 rest in
      let suffix := drop 40 rest in
      let device :=
        match suffix with
        | ("." :: rest')%char =>
            bool_decide (length (take 8 rest') = 8%nat) && forallb is_lower_hex (take 8 rest')
            && match_server (drop 8 rest')
        | _ => false
        end in
      if bool_decide (length digits = 40%nat) && forallb is_lower_hex digits
         && (match_server suffix || device)
      then Some (String.string_of_list_ascii ("0" :: "x" :: digits)%char) else None
  | _ => None
  end.

(** [DISPLAY_NAME_HEX_RE.match] *)
Definition match_displayname (displayname : string) : bool :=
  match String.list_ascii_of_string displayname with
  | ("0" :: "x" :: rest)%char =>
      bool_decide (length (take 130 rest) = 130%nat) && forallb is_hex (take 130 rest)
      && at_end (drop 130 rest)
  | _ => false
  end.

(** [validate_user_id_signature]; the errors of [decode_hex] ([binascii.Error]
    and [TypeError]) are caught. *)
Definition validate_user_id_signature (user_id : string) (displayname : option string) :
    option bytes :=
  match match_user_id user_id, displayname with
  | Some encoded_address, Some displayname =>
      let address := to_canonical_address encoded_address in
      if match_displayname displayname then
        match decode_hex displayname with
        | Ok signature_bytes =>
            match recover (bytes_of_string user_id) signature_bytes with
            | Some recovered =>
                if bool_decide (address <> []) && bool_decide (recovered <> [])
                   && bool_decide (recovered = address)
                then Some address else None
            | None => None
            end
        | Raise _ => None
        end
      else None
  | _, _ => None
  end.

(** The flags of [MetadataValidationError]. *)
Record MetadataValidationError : Type := mkMetadataValidationError {
  USER_ID_MISSING : bool;
  DISPLAY_NAME_MISSING : bool;
  INVALID_SIGNATURE : bool
}.

(** One address of [validate_address_metadata]. *)
Definition validate_address (metadata : dict bytes AddressMetadata)
    (errors : dict bytes MetadataValidationError) (a : bytes) : dict bytes MetadataValidationError :=
  match dict_get a metadata with
  | None | Some [] => errors
  | Some address_metadata =>
      match dict_get "user_id"%string address_metadata,
            dict_get "displayname"%string address_metadata with
      | Some user_id, Some displayname =>
          if bool_decide (validate_user_id_signature user_id (Some displayname) = Some a) then errors
          else dict_set a (mkMetadataValidationError false false true) errors
      | user_id, displayname =>
          dict_set a (mkMetadataValidationError (match user_id with None => true | _ => false end)
                        (match displayname with None => true | _ => false end) false) errors
      end
  end.

(** [MetadataValidation.validate_address_metadata] *)
Definition validate_address_metadata (route : list bytes)
    (metadata : option (dict bytes AddressMetadata)) : dict bytes MetadataValidationError :=
  match metadata with
  | None | Some [] => []
  | Some md => foldl (validate_address md) [] route
  end.

(** [RouteMetadata.__post_init__] *)
Definition new_RouteMetadata (route : list bytes) (address_metadata : option (dict bytes AddressMetadata)) :
    RouteMetadata :=
  let errors := validate_address_metadata route address_metadata in
  mkRouteMetadata route
    ((fun md => foldl (fun d a => dict_del a d) md (dict_keys errors)) <$> address_metadata).

(** [RouteState.__post_init__], without swaps and fee. *)
Definition new_RouteState (route : list bytes) (address_to_metadata : dict bytes AddressMetadata) :
    Py RouteState :=
  match validate_address_metadata route (Some address_to_metadata) with
  | [] => Ok (mkRouteState route address_to_metadata [] 0)
  | _ => Raise (ValueError "Could not validate metadata")
  end.

(** [transfer.utils.secret.encrypt_secret] *)
Definition encrypt_secret (secret : option bytes) (target_metadata : option AddressMetadata)
    (amount payment_identifier : Z) : Py (option bytes) :=
  match target_metadata, secret with
  | None, _ | Some [], _ | _, None | _, Some [] => Ok None
  | Some metadata, Some secret =>
      match dict_get "user_id"%string metadata with
      | None => Raise KeyError
      | Some user_id =>
          match dict_get "displayname"%string metadata with
          | None => Raise KeyError
          | Some displayname =>
              signature ← decode_hex displayname;
              match signature with
              | [] => Raise IndexError
              | _ =>
                  match get_public_key (bytes_of_string user_id) signature with
                  | None => Raise InvalidSignature
                  | Some _ =>
                      encrypted ← encrypt (eth_sign_sha3 (bytes_of_string user_id)) signature
                                    (serialize_secret (secret, amount, payment_identifier));
                      Ok (Some encrypted)
                  end
              end
          end
      end
  end.

(** [transfer.utils.secret.decrypt_secret] *)
Definition decrypt_secret (encrypted_secret private_key : bytes) : Py (bytes * Z * Z) :=
  decrypted_secret_raw ← decrypt private_key encrypted_secret;
  match deserialize_secret decrypted_secret_raw with
  | Some decrypted => Ok decrypted
  | None => Raise InvalidSecret
  end.

(** ** From events to messages *)

(** [Metadata.from_event] *)
Definition Metadata_from_event (event : SendLockedTransfer) : Py Metadata :=
  let transfer := slt_transfer event in
  let routes := map (fun r => new_RouteMetadata (route r) (Some (address_to_metadata r)))
                  (ltu_route_states transfer) in
  let target_metadata := get_address_metadata (ltu_target transfer) (ltu_route_states transfer) in
  encrypted_secret ← encrypt_secret (ltu_secret transfer) target_metadata
                       (lock_amount (ltu_lock transfer)) (ltu_payment_identifier transfer);
  Ok (mkMetadata routes (ltu_metadata transfer) encrypted_secret).

(** The envelope of a balance proof, not signed yet. *)
Definition envelope_from (message_identifier : Z) (bp : BalanceProofUnsignedState) :
    Py EnvelopeMessage :=
  let cid := ubp_canonical_identifier bp in
  new_EnvelopeMessage message_identifier EMPTY_SIGNATURE (chain_identifier cid) (ubp_nonce bp)
    (ubp_transferred_amount bp) (ubp_locked_amount bp) (ubp_locksroot bp) (channel_identifier cid)
    (token_network_address cid).

(** [LockedTransferBase.from_event] *)
Definition LockedTransfer_from_event (event : SendLockedTransfer) : Py LockedTransferBase :=
  let transfer := slt_transfer event in
  lock ← Lock.new (lock_amount (ltu_lock transfer)) (lock_expiration (ltu_lock transfer))
           (lock_secrethash (ltu_lock transfer));
  metadata ← Metadata_from_event event;
  envelope ← envelope_from (sm_message_identifier (slt_message event)) (ltu_balance_proof transfer);
  new_LockedTransferBase envelope (ltu_payment_identifier transfer) (ltu_token transfer)
    (sm_recipient (slt_message event)) lock (ltu_target transfer) (ltu_initiator transfer) metadata.

(** [Unlock.from_event] *)
Definition Unlock_from_event (event : SendUnlock) : Py Unlock :=
  envelope ← envelope_from (sm_message_identifier (su_message event)) (su_balance_proof event);
  new_Unlock envelope (su_payment_identifier event) (su_secret event).

(** [LockExpired.from_event] *)
Definition LockExpired_from_event (event : SendLockExpired) : Py LockExpired :=
  envelope ← envelope_from (sm_message_identifier (sle_message event)) (sle_balance_proof event);
  Ok (mkLockExpired envelope (sm_recipient (sle_message event)) (sle_secrethash event)).

(** [SecretRequest.from_event] *)
Definition SecretRequest_from_event (event : SendSecretRequest) : SecretRequest :=
  mkSecretRequest (sm_message_identifier (ssq_message event)) EMPTY_SIGNATURE
    (ssq_payment_identifier event) (ssq_secrethash event) (ssq_amount event) (ssq_expiration event).

(** [RevealSecret.from_event] *)
Definition RevealSecret_from_event (event : SendSecretReveal) : RevealSecret :=
  mkRevealSecret (sm_message_identifier (ssr_message event)) EMPTY_SIGNATURE (ssr_secret event).

(** [Processed.from_event] *)
Definition Processed_from_event (event : SendProcessed) : Processed :=
  mkProcessed (sm_message_identifier (sp_message event)) EMPTY_SIGNATURE.

(** [from_event] of the withdraw messages *)
Definition withdraw_from (m : SendMessageEvent) (participant : bytes)
    (total_withdraw nonce expiration : Z) : WithdrawFields :=
  let cid := sm_canonical_identifier m in
  mkWithdrawFields (sm_message_identifier m) EMPTY_SIGNATURE (chain_identifier cid)
    (token_network_address cid) (channel_identifier cid) participant total_withdraw nonce expiration.

Definition WithdrawRequest_from_event (e : SendWithdrawRequest) : Message :=
  MWithdrawRequest (withdraw_from (swr_message e) (swr_participant e) (swr_total_withdraw e)
                      (swr_nonce e) (swr_expiration e)) (swr_coop_settle e).

Definition WithdrawConfirmation_from_event (e : SendWithdrawConfirmation) : Message :=
  MWithdrawConfirmation (withdraw_from (swc_message e) (swc_participant e) (swc_total_withdraw e)
                           (swc_nonce e) (swc_expiration e)).

Definition WithdrawExpired_from_event (e : SendWithdrawExpired) : Message :=
  MWithdrawExpired (withdraw_from (swe_message e) (swe_participant e) (swe_total_withdraw e)
                      (swe_nonce e) (swe_expiration e)).

(** [message_from_sendevent] *)
Definition message_from_sendevent (event : Event) : Py Message :=
  match event with
  | ESendLockedTransfer e => m ← LockedTransfer_from_event e; Ok (MLockedTransfer m)
  | ESendUnlock e => m ← Unlock_from_event e; Ok (MUnlock m)
  | ESendLockExpired e => m ← LockExpired_from_event e; Ok (MLockExpired m)
  | ESendSecretRequest e => Ok (MSecretRequest (SecretRequest_from_event e))
  | ESendSecretReveal e => Ok (MRevealSecret (RevealSecret_from_event e))
  | ESendProcessed e => Ok (MProcessed (Processed_from_event e))
  | ESendWithdrawRequest e => Ok (WithdrawRequest_from_event e)
  | ESendWithdrawConfirmation e => Ok (WithdrawConfirmation_from_event e)
  | ESendWithdrawExpired e => Ok (WithdrawExpired_from_event e)
  | _ => Raise (ValueError "Unknown event type")
  end.

(** ** From messages to balance proofs and transfers *)

(** [balanceproof_from_envelope], of a message that is an envelope. *)
Definition balanceproof_from_envelope (m : Message) (e : EnvelopeMessage) (message_hash : Py bytes) :
    Py BalanceProofSignedState :=
  a ← checked_sender m "envelope_message must be signed";
  h ← message_hash;
  new_BalanceProofSignedState (em_nonce e) (em_transferred_amount e) (em_locked_amount e)
    (em_locksroot e) h (em_signature e) a (envelope_cid e).

(** The loop of [lockedtransfersigned_from_message] over the routes. *)
Definition received_routes (routes : list RouteMetadata) : list RouteState :=
  omap (fun r => match new_RouteState (rm_route r) (default [] (rm_address_metadata r)) with
                 | Ok rs => Some rs
                 | Raise _ => None
                 end) routes.

(** [LockedTransferSignedState.__post_init__] *)
Definition new_LockedTransferSignedState (t : LockedTransferSignedState) :
    Py LockedTransferSignedState :=
  _ ← raise_if (bool_decide (sbp_locksroot (lts_balance_proof t) = LOCKSROOT_OF_NO_LOCKS))
        (ValueError "balance_proof must not be empty");
  Ok t.

(** [lockedtransfersigned_from_message], of a [LockedTransfer] or a
    [RefundTransfer] with its message hash. *)
Definition lockedtransfersigned_from_message (m : Message) (t : LockedTransferBase)
    (message_hash : Py bytes) : Py LockedTransferSignedState :=
  balance_proof ← balanceproof_from_envelope m (lt_envelope t) message_hash;
  lock ← new_HashTimeLockState (Lock.amount (lt_lock t)) (Lock.expiration (lt_lock t))
           (Lock.secrethash (lt_lock t));
  new_LockedTransferSignedState
    (mkLockedTransferSignedState (lt_payment_identifier t) (lt_token t) lock (lt_initiator t)
       (lt_target t) (em_message_identifier (lt_envelope t))
       (received_routes (md_routes (lt_metadata t))) balance_proof
       (Some (to_dict (lt_metadata t))) None).
End messages.
