(* ===== verification/MessageHandler.v ===== *)
(** The handling of received messages ([message_handler.py]): each message
    becomes state changes, and the state changes of a batch are sorted before
    they are dispatched to the node.

    The node's address, private key and state, the secret registry of the
    blockchain, the path finding service and the source of new secrets are
    parameters. *)

From S2P Require Import Prelude PyDict Bytes Crypto PyFloat MediationFee State Events.
From S2P Require Import StateChanges Channel ChannelValidation ChannelOps ChannelTransition.
From S2P Require Import TokenNetwork TransferTasks Target Mediator Initiator InitiatorManager.
From S2P Require Import Node.
From S2P Require Import Messages.

(** ** Views of the tasks ([transfer/views.py]) *)

(** [secret_from_transfer_task] *)
Definition secret_from_transfer_task (task : TransferTask) (secrethash : bytes) : Py (option bytes) :=
  match task with
  | InitiatorTask _ manager_state =>
      Ok ((fun s => td_secret (it_transfer_description s))
            <$> dict_get secrethash (ip_initiator_transfers manager_state))
  | _ => Raise (AssertionError "mypy")
  end.

(** [get_transfer_role] *)
Definition get_transfer_role (cs : ChainState) (secrethash : bytes) : option TransferRole :=
  role <$> dict_get secrethash (secrethashes_to_task cs).

(** [get_transfer_secret] *)
Definition get_transfer_secret (cs : ChainState) (secrethash : bytes) : Py (option bytes) :=
  match dict_get secrethash (secrethashes_to_task cs) with
  | None => Ok None
  | Some task => secret_from_transfer_task task secrethash
  end.

(** ** The handlers *)

Section handlers.
Context `{Crypto} `{FloatPow} `{MessageEnv}.
Context (our_address privkey : bytes) (chain_state : ChainState).
(** [default_secret_registry.is_secret_registered] at the latest block *)
Context (is_secret_registered : bytes -> bool).
(** [pfs_proxy.query_address_metadata]; [None] when the request failed. *)
Context (query_address_metadata : bytes -> option AddressMetadata).
(** [random_secret] *)
Context (random_secret : bytes).

Definition withdraw_cid (m : WithdrawFields) : CanonicalIdentifier :=
  mkCanonicalIdentifier (wf_chain_id m) (wf_token_network_address m) (wf_channel_identifier m).

(** [ReceiveSecretReveal.__post_init__] and [ReceiveUnlock.__post_init__] *)
Definition new_ReceiveSecretReveal (secret sender : bytes) : ReceiveSecretReveal :=
  mkReceiveSecretReveal sender secret (sha256_secrethash secret).
Definition new_ReceiveUnlock (message_identifier : Z) (secret : bytes)
    (balance_proof : BalanceProofSignedState) (sender : bytes) : ReceiveUnlock :=
  mkReceiveUnlock sender balance_proof message_identifier secret (sha256_secrethash secret).

(** [handle_message_refundtransfer] *)
Definition handle_message_refundtransfer (t : LockedTransferBase) : Py (list StateChange) :=
  from_transfer ← lockedtransfersigned_from_message (MRefundTransfer t) t
                    (RefundTransfer_message_hash t);
  let bp := lts_balance_proof from_transfer in
  let secrethash := lock_secrethash (lts_lock from_transfer) in
  match get_transfer_role chain_state secrethash with
  | Some INITIATOR =>
    old_secret ← get_transfer_secret chain_state secrethash;
    let is_secret_known :=
      match old_secret with Some s => bool_decide (s <> ABSENT_SECRET) | None => false end in
    Ok (SReceiveTransferCancelRoute (mkReceiveTransferCancelRoute (sbp_sender bp) bp from_transfer)
        :: if is_secret_known
           then [SActionTransferReroute
                   (mkActionTransferReroute (sbp_sender bp) bp from_transfer random_secret
                      (sha256_secrethash random_secret))]
           else [])
  | _ => Ok [SReceiveTransferRefund (mkReceiveTransferRefund (sbp_sender bp) bp from_transfer)]
  end.

(** The routes of [handle_message_lockedtransfer] that lead to a channel. *)
Fixpoint forward_routes (net : bytes) (route_states : list RouteState) : Py (list RouteState) :=
  match route_states with
  | [] => Ok []
  | r :: rest =>
      match next_hop_of r our_address with
      | None => forward_routes net rest
      | Some next_hop =>
          channel_state ← get_channelstate_by_token_network_and_partner chain_state net next_hop;
          rest' ← forward_routes net rest;
          Ok (match channel_state with Some _ => r :: rest' | None => rest' end)
      end
  end.

(** The [try] block of [handle_message_lockedtransfer]; [None] when the secret
    is invalid. *)
Definition received_secret (t : LockedTransferSignedState) (encrypted : bytes) : Py (option bytes) :=
  match decrypt_secret encrypted privkey with
  | Ok (secret, amount, payment_identifier) =>
      Ok (if (lock_amount (lts_lock t) <? amount)
             || negb (lts_payment_identifier t =? payment_identifier)
          then None else Some secret)
  | Raise InvalidSecret => Ok None
  | Raise e => Raise e
  end.

(** [handle_message_lockedtransfer] *)
Definition handle_message_lockedtransfer (t : LockedTransferBase) : Py (list StateChange) :=
  if is_secret_registered (Lock.secrethash (lt_lock t)) then Ok []
  else
    a ← checked_sender (MLockedTransfer t) "Invalid message dispatched, it should be signed";
    from_transfer ← lockedtransfersigned_from_message (MLockedTransfer t) t
                      (LockedTransfer_message_hash t);
    match md_routes (lt_metadata t) with
    | [] => Ok []
    | _ =>
        let bp := lts_balance_proof from_transfer in
        let from_hop := mkHopState a (channel_identifier (sbp_canonical_identifier bp)) in
        if bool_decide (lt_target t = our_address) then
          secret ← match md_secret (lt_metadata t) with
                   | Some encrypted => received_secret from_transfer encrypted
                   | None => Ok None
                   end;
          Ok match secret with
             | Some secret =>
                 [SActionInitTarget (mkActionInitTarget (sbp_sender bp) bp from_hop from_transfer true);
                  SReceiveSecretReveal (new_ReceiveSecretReveal secret a)]
             | None =>
                 [SActionInitTarget (mkActionInitTarget (sbp_sender bp) bp from_hop from_transfer false)]
             end
        else
          filtered ← forward_routes (token_network_address (sbp_canonical_identifier bp))
                       (lts_route_states from_transfer);
          Ok [SActionInitMediator
                (mkActionInitMediator (sbp_sender bp) bp from_hop filtered from_transfer)]
    end.

Definition handle_message_unlock (t : Unlock) : Py (list StateChange) :=
  bp ← balanceproof_from_envelope (MUnlock t) (un_envelope t) (Unlock_message_hash t);
  Ok [SReceiveUnlock (new_ReceiveUnlock (em_message_identifier (un_envelope t)) (un_secret t) bp
                        (sbp_sender bp))].

Definition handle_message_lockexpired (t : LockExpired) : Py (list StateChange) :=
  bp ← balanceproof_from_envelope (MLockExpired t) (le_envelope t) (LockExpired_message_hash t);
  Ok [SReceiveLockExpired (mkReceiveLockExpired (sbp_sender bp) bp (le_secrethash t)
                             (em_message_identifier (le_envelope t)))].

(** [assert message.sender] of the other handlers *)
Definition signed_sender (m : Message) : Py bytes := checked_sender m "message must be signed".

Definition handle_message_secretrequest (t : SecretRequest) : Py (list StateChange) :=
  a ← signed_sender (MSecretRequest t);
  Ok [SReceiveSecretRequest (mkReceiveSecretRequest a (sr_payment_identifier t) (sr_amount t)
                               (sr_expiration t) (sr_secrethash t) None)].

Definition handle_message_revealsecret (t : RevealSecret) : Py (list StateChange) :=
  a ← signed_sender (MRevealSecret t);
  Ok [SReceiveSecretReveal (new_ReceiveSecretReveal (rs_secret t) a)].

Definition handle_message_processed (t : Processed) : Py (list StateChange) :=
  a ← signed_sender (MProcessed t);
  Ok [SReceiveProcessed (mkReceiveProcessed a (pr_message_identifier t))].

Definition handle_message_delivered (t : Delivered) : Py (list StateChange) :=
  a ← signed_sender (MDelivered t);
  Ok [SReceiveDelivered (mkReceiveDelivered a (de_delivered_message_identifier t))].

Definition handle_message_withdrawrequest (t : WithdrawFields) (coop_settle : bool) :
    Py (list StateChange) :=
  a ← signed_sender (MWithdrawRequest t coop_settle);
  Ok [SReceiveWithdrawRequest
        (mkReceiveWithdrawRequest a (wf_message_identifier t) (withdraw_cid t)
           (wf_total_withdraw t) (wf_nonce t) (wf_expiration t) (wf_signature t)
           (wf_participant t) coop_settle (query_address_metadata a))].

Definition handle_message_withdraw_confirmation (t : WithdrawFields) : Py (list StateChange) :=
  a ← signed_sender (MWithdrawConfirmation t);
  Ok [SReceiveWithdrawConfirmation
        (mkReceiveWithdrawConfirmation a (wf_message_identifier t) (withdraw_cid t)
           (wf_total_withdraw t) (wf_nonce t) (wf_expiration t) (wf_signature t)
           (wf_participant t))].

Definition handle_message_withdraw_expired (t : WithdrawFields) : Py (list StateChange) :=
  a ← signed_sender (MWithdrawExpired t);
  Ok [SReceiveWithdrawExpired
        (mkReceiveWithdrawExpired a (wf_message_identifier t) (withdraw_cid t)
           (wf_total_withdraw t) (wf_expiration t) (wf_nonce t) (wf_participant t))].

(** The [handler_map] of [on_messages] *)
Definition handle_message (m : Message) : Py (list StateChange) :=
  match m with
  | MLockedTransfer t => handle_message_lockedtransfer t
  | MRefundTransfer t => handle_message_refundtransfer t
  | MUnlock t => handle_message_unlock t
  | MLockExpired t => handle_message_lockexpired t
  | MSecretRequest t => handle_message_secretrequest t
  | MRevealSecret t => handle_message_revealsecret t
  | MProcessed t => handle_message_processed t
  | MDelivered t => handle_message_delivered t
  | MWithdrawRequest t coop_settle => handle_message_withdrawrequest t coop_settle
  | MWithdrawConfirmation t => handle_message_withdraw_confirmation t
  | MWithdrawExpired t => handle_message_withdraw_expired t
  end.

(** ** A batch of messages *)

(** [by_canonical_identifier]: the channel and the nonce; [None] is
    [(inf, inf)]. *)
Definition by_canonical_identifier (sc : StateChange) : option (Z * Z) :=
  match change_balance_proof sc, sc with
  | Some bp, _ => Some (channel_identifier (sbp_canonical_identifier bp), sbp_nonce bp)
  | None, SReceiveSecretReveal _ => None
  | None, _ => Some (0, 0)
  end.

(** [k1 <= k2] of the keys *)
Definition key_leb (k1 k2 : option (Z * Z)) : bool :=
  match k1, k2 with
  | _, None => true
  | None, Some _ => false
  | Some (c1, n1), Some (c2, n2) => (c1 <? c2) || (c1 =? c2) && (n1 <=? n2)
  end.

(** [all_state_changes.sort(key=by_canonical_identifier)] *)
Definition sort_changes (l : list StateChange) : list StateChange :=
  py_sort by_canonical_identifier key_leb l.

(** The state changes of messages without duplicates.  The messages are in the
    order in which their greenlets end, which is not determined. *)
Definition handle_messages (messages : list Message) : Py (list StateChange) :=
  changes ← py_map handle_message messages;
  Ok (sort_changes (concat changes)).

(** [on_messages]: the state changes that are dispatched. *)
Definition on_messages (messages : list Message) : Py (list StateChange) :=
  unique ← unique_messages [] messages;
  handle_messages unique.
End handlers.
