(* ===== verification/MessageProofs.v ===== *)
(** From an event to the partner's channel, through a signed message.

    What a node sends is signed with its key, and the receiver recovers the
    address of the key from the signature.  [ChannelProtocol] shows that the
    partner accepts a balance proof that was delivered; here the delivery is
    carried out: the event becomes a message, the message is signed, and the
    handler of the receiver makes the state change. *)

From stdpp Require Import sorting.
From coqutil Require Import Byte.
From S2P Require Import Prelude PyDict Bytes Crypto PyFloat MediationFee State Events.
From S2P Require Import StateChanges Channel ChannelValidation ChannelOps ChannelTransition.
From S2P Require Import ChannelLocks ChannelInvariant ChannelSend ChannelReceive ChannelMachine.
From S2P Require Import ChannelSystem ChannelProtocol TransferTasks TaskSteps Node.
From S2P Require Import Messages MessageHandler.

(** ** Signatures *)

Section signatures.
Context `{CryptoLaws} `{!PrivateKey}.

Lemma of_Z_unsigned_small z : 0 <= z < 256 -> byte.unsigned (byte.of_Z z) = z.
Proof. intros Hz. rewrite byte.unsigned_of_Z. unfold byte.wrap. by apply Z.mod_small. Qed.

Lemma local_sign_form data :
  exists rs v, sign_msg_hash (eth_sign_sha3 data) = rs ++ [v] /\ length rs = 64%nat
    /\ 0 <= byte.unsigned v <= 1
    /\ local_sign data = rs ++ [byte.of_Z (byte.unsigned v + 27)].
Proof.
  destruct (sign_msg_hash_form (eth_sign_sha3 data)) as (rs & v & E & Hl & Hv).
  exists rs, v. split_and!; try done; try lia. unfold local_sign. rewrite E, last_snoc.
  rewrite length_app. cbn [length]. rewrite Nat.add_sub, take_app_length. done.
Qed.

Lemma length_local_sign data : length (local_sign data) = 65%nat.
Proof.
  destruct (local_sign_form data) as (rs & v & _ & Hl & _ & ->). rewrite length_app, Hl. done.
Qed.

(** The recovery bit is shifted by 27 when signing and shifted back when
    recovering. *)
Lemma recover_local_sign data : recover data (local_sign data) = Some key_address.
Proof.
  destruct (local_sign_form data) as (rs & v & E & Hl & Hv & ->).
  unfold recover, get_public_key. rewrite last_snoc, of_Z_unsigned_small by lia.
  rewrite (proj2 (Z.leb_le _ _)) by lia.
  rewrite length_app. cbn [length]. rewrite Nat.add_sub, take_app_length.
  replace (byte.unsigned v + 27 - 27) with (byte.unsigned v) by lia.
  rewrite byte.of_Z_unsigned, <- E. apply sign_msg_hash_recover.
Qed.
End signatures.

Section delivery.
Context `{CryptoLaws} `{FloatPow} `{MessageEnv} `{!PrivateKey}.

(** The signature is not part of the signed data. *)
Lemma set_signature_data v m : data_to_sign (set_signature v m) = data_to_sign m.
Proof. by destruct m. Qed.

Lemma set_signature_signature v m : signature (set_signature v m) = v.
Proof. by destruct m. Qed.

(** The receiver of a signed message sees the address of the key. *)
Lemma sign_sender m m' msg : sign m = Ok m' -> checked_sender m' msg = Ok key_address.
Proof.
  unfold sign, checked_sender, sender. intros Hs. apply bind_Ok in Hs as (data & Hd & Hs).
  injection Hs as <-. rewrite set_signature_signature, set_signature_data, Hd.
  pose proof (length_local_sign data) as Hl.
  destruct (local_sign data) as [|b bs] eqn:E; [done|]. cbn. rewrite <- E, recover_local_sign. cbn.
  pose proof key_address_length as Hk. by destruct key_address.
Qed.

(** ** Balance proofs in envelopes *)

(** A balance proof that was built by [BalanceProofUnsignedState], for a
    channel with an identifier. *)
Definition sendable (bp : BalanceProofUnsignedState) : Prop :=
  new_BalanceProofUnsignedState (ubp_nonce bp) (ubp_transferred_amount bp) (ubp_locked_amount bp)
    (ubp_locksroot bp) (ubp_canonical_identifier bp) = Ok bp
  /\ 0 < channel_identifier (ubp_canonical_identifier bp).

Lemma hash_balance_data_locked t l root h :
  hash_balance_data t l root = Ok h -> 0 <= l <= UINT256_MAX.
Proof.
  unfold hash_balance_data. intros Hok. rewrite UINT256_MAX_eq.
  apply bind_Ok in Hok as (? & _ & Hok). apply bind_Ok in Hok as (? & _ & Hok).
  destruct (_ && _) eqn:Ez; [bool_hyps; lia|].
  apply bind_Ok in Hok as (? & _ & Hok). apply bind_Ok in Hok as (? & Hl & _).
  unfold int_to_bytes in Hl. destruct ((0 <=? l) && _) eqn:Eb; [|done].
  apply andb_true_iff in Eb as [?%Z.leb_le Hlt%Z.ltb_lt].
  change (2 ^ (Z.of_nat 32 * 8)) with (2 ^ 256) in Hlt. lia.
Qed.

Lemma envelope_from_run mid bp :
  sendable bp ->
  envelope_from mid bp =
    Ok (mkEnvelopeMessage mid EMPTY_SIGNATURE (chain_identifier (ubp_canonical_identifier bp))
          (ubp_nonce bp) (ubp_transferred_amount bp) (ubp_locked_amount bp) (ubp_locksroot bp)
          (channel_identifier (ubp_canonical_identifier bp))
          (token_network_address (ubp_canonical_identifier bp))).
Proof.
  intros [Hbp Hid]. unfold new_BalanceProofUnsignedState in Hbp.
  apply bind_Ok in Hbp as (? & Hv & Hbp). apply bind_Ok in Hbp as (? & Hc & Hbp).
  apply bind_Ok in Hbp as (h & Hh & _). apply hash_balance_data_locked in Hh.
  unfold validate_balance_proof, CanonicalIdentifier_validate in *. py_inv. bool_hyps.
  unfold envelope_from, new_EnvelopeMessage, assert_envelope_values, raise_if.
  rewrite !(proj2 (Z.leb_gt _ _)), !(proj2 (Z.ltb_ge _ _)) by lia.
  rewrite bool_decide_eq_true_2 by done. done.
Qed.

Lemma canonical_identifier_eta (cid : CanonicalIdentifier) :
  mkCanonicalIdentifier (chain_identifier cid) (token_network_address cid) (channel_identifier cid)
  = cid.
Proof. by destruct cid. Qed.

(** The balance proof with a signature of its packed form is accepted as signed
    by the key. *)
Lemma signed_bp_delivered bp h bh :
  sendable bp -> length h = 32%nat ->
  hash_balance_data (ubp_transferred_amount bp) (ubp_locked_amount bp) (ubp_locksroot bp) = Ok bh ->
  let sig := local_sign (pack_balance_proof (ubp_nonce bp) bh h (ubp_canonical_identifier bp)) in
  let sbp := mkBalanceProofSignedState (ubp_nonce bp) (ubp_transferred_amount bp)
               (ubp_locked_amount bp) (ubp_locksroot bp) h sig key_address
               (ubp_canonical_identifier bp) bh in
  new_BalanceProofSignedState (ubp_nonce bp) (ubp_transferred_amount bp) (ubp_locked_amount bp)
    (ubp_locksroot bp) h sig key_address (ubp_canonical_identifier bp) = Ok sbp
  /\ delivered key_address bp sbp.
Proof.
  intros [Hnew _] Hh Hbh sig sbp.
  assert (Hrun : new_BalanceProofSignedState (ubp_nonce bp) (ubp_transferred_amount bp)
      (ubp_locked_amount bp) (ubp_locksroot bp) h sig key_address (ubp_canonical_identifier bp)
      = Ok sbp).
  { unfold new_BalanceProofUnsignedState in Hnew.
    apply bind_Ok in Hnew as ([] & Hv & Hnew). apply bind_Ok in Hnew as ([] & Hc & _).
    unfold new_BalanceProofSignedState. rewrite Hv. cbn.
    rewrite !bool_decide_eq_true_2 by (done || apply length_local_sign). cbn. by rewrite Hc, Hbh. }
  split; [done|]. split; try done.
  unfold is_valid_balanceproof_signature, is_valid_signature. cbn.
  rewrite Hbh, canonical_identifier_eta. cbn.
  unfold sig. rewrite recover_local_sign, bool_decide_eq_true_2 by done. done.
Qed.

(** The balance proof that the receiver reads from a signed envelope. *)
Lemma signed_envelope_delivered m e h mid bp m' :
  sendable bp -> length h = 32%nat ->
  envelope_from mid bp = Ok e ->
  data_to_sign m = envelope_data_to_sign e (Ok h) ->
  sign m = Ok m' ->
  exists sbp,
    balanceproof_from_envelope m' (set_em_signature (signature m') e) (Ok h) = Ok sbp
    /\ delivered key_address bp sbp.
Proof.
  intros Hbp Hh He Hdata Hsign.
  pose proof (sign_sender _ _ "envelope_message must be signed" Hsign) as Hs.
  rewrite (envelope_from_run _ _ Hbp) in He. injection He as <-.
  unfold sign in Hsign. apply bind_Ok in Hsign as (data & Hd & Hsign). injection Hsign as <-.
  rewrite set_signature_signature. rewrite Hdata in Hd.
  unfold envelope_data_to_sign in Hd. cbn in Hd. apply bind_Ok in Hd as (bh & Hbh & Hd).
  injection Hd as <-. destruct (signed_bp_delivered bp h bh Hbp Hh Hbh) as [Hrun Hdel].
  unfold balanceproof_from_envelope. rewrite Hs. unfold envelope_cid in *. cbn in *.
  rewrite canonical_identifier_eta in *. eexists. split; [exact Hrun|exact Hdel].
Qed.

Lemma sign_envelope m e h mid bp :
  sendable bp -> envelope_from mid bp = Ok e -> data_to_sign m = envelope_data_to_sign e (Ok h) ->
  exists m', sign m = Ok m' /\ m' = set_signature (signature m') m.
Proof.
  intros Hbp He Hdata. rewrite (envelope_from_run _ _ Hbp) in He. injection He as <-.
  destruct Hbp as [Hnew _]. unfold new_BalanceProofUnsignedState in Hnew.
  apply bind_Ok in Hnew as (? & _ & Hnew). apply bind_Ok in Hnew as (? & _ & Hnew).
  apply bind_Ok in Hnew as (bh & Hbh & _).
  unfold sign. rewrite Hdata. unfold envelope_data_to_sign. cbn. rewrite Hbh. cbn.
  eexists. split; [reflexivity|]. by rewrite set_signature_signature.
Qed.

(** ** Locked transfers *)

(** The new balance proof is the one that the class checked. *)
Lemma new_unsigned_fields n t l root cid bp :
  new_BalanceProofUnsignedState n t l root cid = Ok bp ->
  new_BalanceProofUnsignedState (ubp_nonce bp) (ubp_transferred_amount bp) (ubp_locked_amount bp)
    (ubp_locksroot bp) (ubp_canonical_identifier bp) = Ok bp
  /\ ubp_canonical_identifier bp = cid.
Proof.
  intros Hok. pose proof Hok as Hok'. unfold new_BalanceProofUnsignedState in Hok.
  apply bind_Ok in Hok as (? & _ & Hok). apply bind_Ok in Hok as (? & _ & Hok).
  apply bind_Ok in Hok as (bh & _ & Hok). injection Hok as <-. done.
Qed.

Lemma sent_transfer_event c initiator target amount mid pid expiration secret sh routes rmd pmd c' ev :
  send_lockedtransfer c initiator target amount mid pid expiration secret sh routes rmd pmd
    = Ok (c', ev) ->
  0 < identifier c ->
  sm_recipient (slt_message ev) = address (partner_state c)
  /\ sm_message_identifier (slt_message ev) = mid
  /\ ltu_secret (slt_transfer ev) = secret /\ ltu_metadata (slt_transfer ev) = pmd
  /\ sendable (ltu_balance_proof (slt_transfer ev))
  /\ ubp_locksroot (ltu_balance_proof (slt_transfer ev)) <> LOCKSROOT_OF_NO_LOCKS.
Proof.
  intros Hok Hid. unfold send_lockedtransfer in Hok.
  apply bind_Ok in Hok as ([ev' pl] & Hc & Hok). injection Hok as _ <-.
  unfold create_sendlockedtransfer in Hc.
  do 5 (apply bind_Ok in Hc as (? & _ & Hc)). apply bind_Ok in Hc as (bp & Hbp & Hc).
  apply bind_Ok in Hc as (t & Ht & Hc). injection Hc as <- _.
  apply new_unsigned_fields in Hbp as [Hbp Hcid].
  unfold new_LockedTransferUnsignedState in Ht. apply bind_Ok in Ht as ([] & Hne & Ht).
  injection Ht as <-. cbn. apply raise_if_Ok, bool_decide_eq_false in Hne.
  split_and!; try done. split; [done|]. by rewrite Hcid.
Qed.

(** The conditions that the message adds to those of the channel: the
    identifiers fit their fields and the addresses have 20 bytes. *)
Record transfer_fits c (initiator target : bytes) (mid pid : Z) : Prop := {
  tf_channel : 0 < identifier c;
  tf_mid : 0 <= mid <= UINT64_MAX;
  tf_pid : 0 <= pid <= UINT64_MAX;
  tf_token : length (token_address c) = 20%nat;
  tf_partner : length (address (partner_state c)) = 20%nat;
  tf_target : length target = 20%nat;
  tf_initiator : length initiator = 20%nat
}.

Lemma int_to_bytes_uint64 z : 0 <= z <= UINT64_MAX -> int_to_bytes 8 z = Ok (be_encode 8 z).
Proof.
  intros Hz. unfold int_to_bytes. rewrite UINT64_MAX_eq in Hz.
  rewrite (proj2 (Z.leb_le _ _)), (proj2 (Z.ltb_lt _ _)); [done| |lia].
  change (Z.of_nat 8 * 8) with 64. lia.
Qed.

Lemma int_to_bytes_uint256 z : 0 <= z <= UINT256_MAX -> int_to_bytes 32 z = Ok (be_encode 32 z).
Proof.
  intros Hz. unfold int_to_bytes. rewrite UINT256_MAX_eq in Hz.
  rewrite (proj2 (Z.leb_le _ _)), (proj2 (Z.ltb_lt _ _)); [done| |lia].
  change (Z.of_nat 32 * 8) with 256. lia.
Qed.

Lemma Lock_new_valid l :
  lock_valid l ->
  Lock.new (lock_amount l) (lock_expiration l) (lock_secrethash l)
  = Ok (Lock.mk (lock_amount l) (lock_expiration l) (lock_secrethash l)).
Proof.
  intros [Ha He Hs]. unfold Lock.new, raise_if. rewrite !(proj2 (Z.ltb_ge _ _)) by lia.
  by rewrite bool_decide_eq_true_2.
Qed.

(** The message of a transfer: it can be made and has a hash. *)
Lemma transfer_message ev c initiator target mid pid e md :
  transfer_fits c initiator target mid pid ->
  lock_valid (ltu_lock (slt_transfer ev)) ->
  ltu_payment_identifier (slt_transfer ev) = pid -> ltu_token (slt_transfer ev) = token_address c ->
  ltu_initiator (slt_transfer ev) = initiator -> ltu_target (slt_transfer ev) = target ->
  sm_recipient (slt_message ev) = address (partner_state c) ->
  sm_message_identifier (slt_message ev) = mid ->
  Metadata_from_event ev = Ok md ->
  envelope_from mid (ltu_balance_proof (slt_transfer ev)) = Ok e ->
  em_message_identifier e = mid ->
  exists m h,
    message_from_sendevent (ESendLockedTransfer ev) = Ok (MLockedTransfer m)
    /\ lt_envelope m = e /\ lt_payment_identifier m = pid /\ lt_target m = target
    /\ lt_initiator m = initiator /\ lt_token m = token_address c /\ lt_metadata m = md
    /\ Lock.amount (lt_lock m) = lock_amount (ltu_lock (slt_transfer ev))
    /\ Lock.expiration (lt_lock m) = lock_expiration (ltu_lock (slt_transfer ev))
    /\ Lock.secrethash (lt_lock m) = lock_secrethash (ltu_lock (slt_transfer ev))
    /\ LockedTransfer_message_hash m = Ok h /\ length h = 32%nat.
Proof.
  intros [T0 T1 T2 T3 T4 T5 T6] Hl Hpid Htok Hini Htgt Hrcp Hmid Hmd He Hem.
  eexists. eexists. split.
  - unfold message_from_sendevent, LockedTransfer_from_event. rewrite (Lock_new_valid _ Hl). cbn.
    rewrite Hmd. cbn. rewrite Hmid, He. cbn.
    unfold new_LockedTransferBase, assert_transfer_values, raise_if.
    rewrite Hpid, Htok, Hrcp, Htgt, Hini. rewrite !(proj2 (Z.ltb_ge _ _)) by lia.
    rewrite !bool_decide_eq_true_2 by done. reflexivity.
  - cbn. split_and!; try done.
    + unfold LockedTransfer_message_hash, packed_data, pack_locked_transfer_data. cbn.
      rewrite Hem, !int_to_bytes_uint64 by done. cbn.
      destruct Hl. rewrite !int_to_bytes_uint256 by done. reflexivity.
    + apply keccak_length.
Qed.

(** A signed transfer message and what its receiver reads from it. *)
Lemma signed_transfer_received m h mid bp l :
  sendable bp -> envelope_from mid bp = Ok (lt_envelope m) ->
  ubp_locksroot bp <> LOCKSROOT_OF_NO_LOCKS ->
  LockedTransfer_message_hash m = Ok h -> length h = 32%nat -> lock_valid l ->
  Lock.amount (lt_lock m) = lock_amount l -> Lock.expiration (lt_lock m) = lock_expiration l ->
  Lock.secrethash (lt_lock m) = lock_secrethash l ->
  exists m' t,
    sign (MLockedTransfer m) = Ok (MLockedTransfer m')
    /\ checked_sender (MLockedTransfer m') "Invalid message dispatched, it should be signed"
       = Ok key_address
    /\ m' = set_lt_signature (em_signature (lt_envelope m')) m
    /\ lockedtransfersigned_from_message (MLockedTransfer m') m' (LockedTransfer_message_hash m')
       = Ok t
    /\ delivered key_address bp (lts_balance_proof t) /\ lts_lock t = l
    /\ lts_payment_identifier t = lt_payment_identifier m /\ lts_target t = lt_target m
    /\ lts_initiator t = lt_initiator m /\ lts_token t = lt_token m.
Proof.
  intros Hbp He Hroot Hh Hlen Hl Ea Ee Es.
  assert (data_to_sign (MLockedTransfer m) = envelope_data_to_sign (lt_envelope m) (Ok h)) as Hdata
    by (cbn; by rewrite Hh).
  destruct (sign_envelope _ _ _ _ _ Hbp He Hdata) as (m1 & Hsign & Hm1).
  pose proof (sign_sender _ _ "Invalid message dispatched, it should be signed" Hsign) as Hsender.
  destruct (signed_envelope_delivered _ _ _ _ _ _ Hbp Hlen He Hdata Hsign) as (sbp & Hsbp & Hdel).
  rewrite Hm1 in Hsign, Hsbp, Hsender. rewrite set_signature_signature in Hsbp. cbn in Hsign, Hsbp, Hsender.
  set (sig := signature m1) in *. eexists (set_lt_signature sig m), _.
  split; [exact Hsign|]. split; [exact Hsender|]. split; [done|].
  assert (LockedTransfer_message_hash (set_lt_signature sig m) = Ok h) as Hh' by exact Hh.
  unfold lockedtransfersigned_from_message. rewrite Hh'.
  change (lt_envelope (set_lt_signature sig m)) with (set_em_signature sig (lt_envelope m)).
  assert (balanceproof_from_envelope (MLockedTransfer (set_lt_signature sig m))
            (set_em_signature sig (lt_envelope m)) (Ok h) = Ok sbp) as -> by exact Hsbp.
  cbn. rewrite Ea, Ee, Es.
  rewrite (proj2 (new_HashTimeLockState_Ok _ _ _ l)) by (by destruct l). cbn.
  unfold new_LockedTransferSignedState. cbn.
  rewrite (dl_locksroot _ _ _ Hdel), bool_decide_eq_false_2 by done. cbn.
  split; [reflexivity|]. cbn. done.
Qed.

(** The receiver that is the target of the transfer starts its task with it,
    and reveals the secret to it if it came with the transfer. *)
Lemma target_starts m t a privkey cs registered query rs :
  checked_sender (MLockedTransfer m) "Invalid message dispatched, it should be signed" = Ok a ->
  lockedtransfersigned_from_message (MLockedTransfer m) m (LockedTransfer_message_hash m) = Ok t ->
  registered (Lock.secrethash (lt_lock m)) = false -> md_routes (lt_metadata m) <> [] ->
  exists init, ait_transfer init = t
    /\ (md_secret (lt_metadata m) = None ->
        handle_message (lt_target m) privkey cs registered query rs (MLockedTransfer m)
        = Ok [SActionInitTarget init])
    /\ (forall enc s amount,
          md_secret (lt_metadata m) = Some enc ->
          decrypt_secret enc privkey = Ok (s, amount, lts_payment_identifier t) ->
          amount <= lock_amount (lts_lock t) ->
          exists init', ait_transfer init' = t /\ ait_received_valid_secret init' = true
            /\ handle_message (lt_target m) privkey cs registered query rs (MLockedTransfer m)
               = Ok [SActionInitTarget init';
                     SReceiveSecretReveal (mkReceiveSecretReveal a s (sha256_secrethash s))]).
Proof.
  intros Hs Ht Hreg Hr.
  eexists (mkActionInitTarget _ _ _ t false). split; [done|].
  cbn. unfold handle_message_lockedtransfer. rewrite Hreg, Hs. cbn.
  rewrite Ht. cbn. destruct (md_routes (lt_metadata m)); [done|].
  rewrite bool_decide_eq_true_2 by done. split.
  - intros ->. reflexivity.
  - intros enc s amount -> Hdec Hle. unfold received_secret. rewrite Hdec. cbn.
    rewrite (proj2 (Z.ltb_ge _ _)), Z.eqb_refl by done. cbn. eexists. split; [|split; [|reflexivity]]; done.
Qed.

(** C3: a transfer survives the way over the wire.  The event of
    [send_lockedtransfer] becomes a message, the message can be signed, and
    from the signed message the partner reads the same transfer and accepts it:
    both copies of the channel mirror each other again.  If the receiver is the
    target, its handler starts the task of the target with this transfer, and
    reveals the secret to it if it was sent along, encrypted for the target. *)
Theorem transfer_over_the_wire ca cb l initiator target mid pid secret routes rmd pmd enc md
    (Ha : solvent_inv ca) (Hb : solvent_inv cb) (Hm : mirrored ca cb)
    (Ho : get_status cb = STATE_OPENED) (Hcan : can_send_lock ca l)
    (Hlimit : get_number_of_pending_transfers (our_state ca) < MAXIMUM_PENDING_TRANSFERS)
    (Hkey : key_address = address (our_state ca))
    (Hfits : transfer_fits ca initiator target mid pid)
    (Henc : encrypt_secret secret (get_address_metadata target routes) (lock_amount l) pid = Ok enc) :
  exists ca' ev m m' t cb' evs,
    send_lockedtransfer ca initiator target (lock_amount l) mid pid (lock_expiration l) secret
      (lock_secrethash l) routes rmd pmd = Ok (ca', ev)
    /\ message_from_sendevent (ESendLockedTransfer ev) = Ok (MLockedTransfer m)
    /\ sign (MLockedTransfer m) = Ok (MLockedTransfer m')
    /\ lockedtransfersigned_from_message (MLockedTransfer m') m' (LockedTransfer_message_hash m')
       = Ok t
    /\ lts_lock t = l /\ lts_payment_identifier t = pid /\ lts_target t = target
    /\ lts_initiator t = initiator /\ lts_token t = token_address ca
    /\ handle_receive_lockedtransfer cb t md = Ok (cb', (true, evs, None))
    /\ mirrored ca' cb'
    /\ (forall privkey cs registered query rs,
          registered (lock_secrethash l) = false -> routes <> [] ->
          exists init, ait_transfer init = t
            /\ (enc = None ->
                handle_message target privkey cs registered query rs (MLockedTransfer m')
                = Ok [SActionInitTarget init])
            /\ (forall e s, enc = Some e ->
                  decrypt_secret e privkey = Ok (s, lock_amount l, pid) ->
                  exists init', ait_transfer init' = t /\ ait_received_valid_secret init' = true
                    /\ handle_message target privkey cs registered query rs (MLockedTransfer m')
                       = Ok [SActionInitTarget init';
                             SReceiveSecretReveal
                               (mkReceiveSecretReveal key_address s (sha256_secrethash s))])).
Proof.
  destruct (locked_transfer_agreement ca cb l initiator target mid pid secret routes rmd pmd Ha Hb Hm
    Ho Hcan Hlimit) as (ca' & ev & Hsend & Hacc).
  destruct (send_lockedtransfer_transfer _ _ _ _ _ _ _ _ _ _ _ _ _ _ Hsend)
    as (Tl & Tv & Tp & Tt & Ti & Tg & Tr & _).
  destruct (sent_transfer_event _ _ _ _ _ _ _ _ _ _ _ _ _ _ Hsend (tf_channel _ _ _ _ _ Hfits))
    as (Erc & Emid & Esec & Emd & Hbp & Hroot).
  assert (ltu_lock (slt_transfer ev) = l) as Hl by (rewrite Tl; by destruct l).
  assert (exists meta, Metadata_from_event ev = Ok meta /\ md_secret meta = enc
            /\ (routes <> [] -> md_routes meta <> [])) as (meta & Hmeta & Hmsec & Hmr).
  { unfold Metadata_from_event. rewrite Hl, Tp, Tg, Tr, Esec, Henc. cbn. eexists.
    split; [reflexivity|]. cbn. split; [done|]. by destruct routes. }
  destruct (transfer_message ev ca initiator target mid pid _ meta Hfits Tv Tp Tt Ti Tg Erc Emid Hmeta
    (envelope_from_run mid _ Hbp) eq_refl)
    as (m & h & Hmsg & He & Mp & Mt & Mi & Mk & Mm & Ma & Me & Ms & Hh & Hlen).
  rewrite Hl in Ma, Me, Ms, Tv.
  destruct (signed_transfer_received m h mid _ l Hbp) as (m' & t & Hsign & Hsender & Hm' & Ht & Hdel &
    Hlock & Ep & Et & Ei & Ek); try done.
  { rewrite He. by apply envelope_from_run. }
  rewrite Hkey in Hdel. destruct (Hacc t md Hlock Hdel) as (cb' & evs & Hrecv & Hmir & _ & _).
  exists ca', ev, m, m', t, cb', evs. split_and!; try done; try congruence.
  intros privkey cs registered query rs Hreg Hroutes.
  assert (lt_target m' = target) as <- by (by rewrite Hm'; cbn).
  assert (lt_metadata m' = meta /\ Lock.secrethash (lt_lock m') = lock_secrethash l) as [Mm' Ms']
    by (rewrite Hm'; cbn; by rewrite Mm).
  destruct (target_starts m' t key_address privkey cs registered query rs Hsender Ht)
    as (init & Hi & Hnone & Hsome); [by rewrite Ms'|rewrite Mm'; by apply Hmr|].
  exists init. split; [done|]. rewrite Mm', Hmsec in *. split; [done|].
  intros e s Hes Hdec. apply (Hsome e s (lock_amount l)); [done| |by rewrite Hlock].
  by rewrite Ep, Mp.
Qed.

(** ** Unlocks and expirations *)

Lemma sent_unlock_event c mid pid secret sh block rmd c' ev :
  send_unlock c mid pid secret sh block rmd = Ok (c', ev) -> 0 < identifier c ->
  sm_message_identifier (su_message ev) = mid /\ su_payment_identifier ev = pid
  /\ su_secret ev = secret /\ sendable (su_balance_proof ev).
Proof.
  intros Hok Hid. unfold send_unlock, create_unlock in Hok.
  apply bind_Ok in Hok as (l & _ & Hok). apply bind_Ok in Hok as ([c1 [u pl]] & Hc & Hok).
  apply bind_Ok in Hok as (? & _ & Hok). injection Hok as _ <-.
  do 5 (apply bind_Ok in Hc as (? & _ & Hc)). apply bind_Ok in Hc as (bp & Hbp & Hc).
  injection Hc as _ <- _. apply new_unsigned_fields in Hbp as [Hbp Hcid]. cbn.
  split_and!; try done. split; [done|]. by rewrite Hcid.
Qed.

Lemma sent_expired_event c l prng rmd c' ev prng' :
  send_lock_expired c l prng rmd = Ok (c', [ev], prng') -> 0 < identifier c ->
  sm_message_identifier (sle_message ev) = (message_identifier_from_prng prng).1
  /\ sle_secrethash ev = lock_secrethash l /\ sendable (sle_balance_proof ev).
Proof.
  intros Hok Hid. unfold send_lock_expired, create_sendexpiredlock in Hok.
  apply bind_Ok in Hok as (? & _ & Hok). apply bind_Ok in Hok as ([res p] & Hc & Hok).
  apply bind_Ok in Hc as (? & _ & Hc). destruct (compute_locks_without _ _); [|by injection Hc as <- <-].
  apply bind_Ok in Hc as (bp & Hbp & Hc). injection Hc as <- <-. injection Hok as _ <- _.
  apply new_unsigned_fields in Hbp as [Hbp Hcid]. cbn.
  split_and!; try done. split; [done|]. by rewrite Hcid.
Qed.

(** A signed unlock and what its receiver reads from it. *)
Lemma signed_unlock_received e pid secret mid bp our_address privkey cs registered query rs :
  sendable bp -> envelope_from mid bp = Ok e -> em_message_identifier e = mid ->
  0 <= mid <= UINT64_MAX -> 0 <= pid <= UINT64_MAX ->
  exists m' u,
    sign (MUnlock (mkUnlock e pid secret)) = Ok m'
    /\ handle_message our_address privkey cs registered query rs m' = Ok [SReceiveUnlock u]
    /\ ru_secrethash u = sha256_secrethash secret
    /\ delivered key_address bp (ru_balance_proof u).
Proof.
  intros Hbp He Hem Hmid Hpid.
  assert (exists h, Unlock_message_hash (mkUnlock e pid secret) = Ok h /\ length h = 32%nat)
    as (h & Hh & Hlen).
  { eexists. unfold Unlock_message_hash. cbn. rewrite Hem, !int_to_bytes_uint64 by done. cbn.
    split; [reflexivity|apply keccak_length]. }
  assert (data_to_sign (MUnlock (mkUnlock e pid secret)) = envelope_data_to_sign e (Ok h)) as Hdata
    by (cbn; by rewrite Hh).
  destruct (sign_envelope _ _ _ _ _ Hbp He Hdata) as (m1 & Hsign & Hm1).
  destruct (signed_envelope_delivered _ _ _ _ _ _ Hbp Hlen He Hdata Hsign) as (sbp & Hsbp & Hdel).
  exists m1. eexists. split; [done|]. rewrite Hm1 in Hsbp |- *.
  rewrite set_signature_signature in Hsbp. cbn. unfold handle_message_unlock, Unlock_message_hash in *. cbn in *. rewrite Hh.
  set (sig := signature m1) in *.
  assert (balanceproof_from_envelope (MUnlock (mkUnlock (set_em_signature sig e) pid secret))
            (set_em_signature sig e) (Ok h) = Ok sbp) as -> by exact Hsbp.
  cbn. split; [reflexivity|]. done.
Qed.

Lemma message_identifier_fits prng : 0 <= (message_identifier_from_prng prng).1 <= UINT64_MAX.
Proof.
  cbn [message_identifier_from_prng fst].
  pose proof (Z.mod_pos_bound (rng_stream prng (rng_position prng)) (UINT64_MAX + 1)) as Hb.
  rewrite UINT64_MAX_eq in *. lia.
Qed.

(** A signed expiration and what its receiver reads from it. *)
Lemma signed_expired_received e recipient sh mid bp our_address privkey cs registered query rs :
  sendable bp -> envelope_from mid bp = Ok e -> em_message_identifier e = mid ->
  0 <= mid <= UINT64_MAX ->
  exists m' x,
    sign (MLockExpired (mkLockExpired e recipient sh)) = Ok m'
    /\ handle_message our_address privkey cs registered query rs m' = Ok [SReceiveLockExpired x]
    /\ rle_secrethash x = sh /\ delivered key_address bp (rle_balance_proof x).
Proof.
  intros Hbp He Hem Hmid.
  assert (exists h, LockExpired_message_hash (mkLockExpired e recipient sh) = Ok h /\ length h = 32%nat)
    as (h & Hh & Hlen).
  { eexists. unfold LockExpired_message_hash. cbn. rewrite Hem, !int_to_bytes_uint64 by done. cbn.
    split; [reflexivity|apply keccak_length]. }
  assert (data_to_sign (MLockExpired (mkLockExpired e recipient sh)) = envelope_data_to_sign e (Ok h))
    as Hdata by (cbn; by rewrite Hh).
  destruct (sign_envelope _ _ _ _ _ Hbp He Hdata) as (m1 & Hsign & Hm1).
  destruct (signed_envelope_delivered _ _ _ _ _ _ Hbp Hlen He Hdata Hsign) as (sbp & Hsbp & Hdel).
  exists m1. eexists. split; [done|]. rewrite Hm1 in Hsbp |- *.
  rewrite set_signature_signature in Hsbp. cbn. unfold handle_message_lockexpired, LockExpired_message_hash in *. cbn in *.
  rewrite Hh. set (sig := signature m1) in *.
  assert (balanceproof_from_envelope (MLockExpired (mkLockExpired (set_em_signature sig e) recipient sh))
            (set_em_signature sig e) (Ok h) = Ok sbp) as -> by exact Hsbp.
  cbn. split; [reflexivity|]. done.
Qed.

(** C4: an unlock survives the way over the wire: the event of [send_unlock]
    becomes a message that can be signed, the partner's handler turns it into a
    state change, and the partner's channel accepts the state change, takes the
    amount of the lock into its balance and mirrors the sender's copy again. *)
Theorem unlock_over_the_wire ca cb l mid pid secret block rmd md our_address privkey cs registered
    query rs
    (Ha : solvent_inv ca) (Hb : solvent_inv cb) (Hm : mirrored ca cb)
    (Ho : get_status cb = STATE_OPENED) (Hcan : can_unlock ca (sha256_secrethash secret) l block)
    (Hkey : key_address = address (our_state ca)) (Hid : 0 < identifier ca)
    (Hmid : 0 <= mid <= UINT64_MAX) (Hpid : 0 <= pid <= UINT64_MAX) (Hs : length secret = 32%nat) :
  exists ca' ev m m' u cb' evs,
    send_unlock ca mid pid secret (sha256_secrethash secret) block rmd = Ok (ca', ev)
    /\ message_from_sendevent (ESendUnlock ev) = Ok m /\ sign m = Ok m'
    /\ handle_message our_address privkey cs registered query rs m' = Ok [SReceiveUnlock u]
    /\ handle_unlock cb u md = Ok (cb', (true, evs, None))
    /\ mirrored ca' cb'
    /\ get_balance (our_state cb') (partner_state cb')
       = get_balance (our_state cb) (partner_state cb) + lock_amount l.
Proof.
  destruct (unlock_agreement ca cb _ l mid pid secret block rmd Ha Hb Hm Ho Hcan)
    as (ca' & ev & Hsend & Hacc).
  destruct (sent_unlock_event _ _ _ _ _ _ _ _ _ Hsend Hid) as (Emid & Epid & Esec & Hbp).
  pose proof (envelope_from_run mid _ Hbp) as He.
  destruct (signed_unlock_received _ pid secret mid _ our_address privkey cs registered query rs Hbp He
    eq_refl Hmid Hpid) as (m' & u & Hsign & Hh & Hu & Hdel).
  rewrite Hkey in Hdel. destruct (Hacc u md Hu Hdel) as (cb' & evs & Hrecv & Hmir & _ & _ & Hbal).
  eexists ca', ev, _, m', u, cb', evs. split_and!; try done.
  unfold message_from_sendevent, Unlock_from_event. rewrite Emid, He. cbn.
  unfold new_Unlock, raise_if. rewrite Epid, Esec, !(proj2 (Z.ltb_ge _ _)) by lia.
  by rewrite bool_decide_eq_true_2.
Qed.

(** The expiration of a lock survives the way over the wire: the event of
    [send_lock_expired] becomes a message that can be signed, the partner's
    handler turns it into a state change, and the partner's channel drops the
    lock once its block is past the receiver's threshold. *)
Theorem lock_expired_over_the_wire ca cb l prng rmd block md our_address privkey cs registered query rs
    (Ha : solvent_inv ca) (Hb : solvent_inv cb) (Hm : mirrored ca cb)
    (Hoa : get_status ca = STATE_OPENED) (Ho : get_status cb = STATE_OPENED)
    (Hg : get_lock (our_state ca) (lock_secrethash l) = Some l)
    (Hon : is_secret_known_onchain (our_state ca) (lock_secrethash l) = false)
    (Honp : is_secret_known_onchain (partner_state cb) (lock_secrethash l) = false)
    (Hono : is_secret_known_onchain (our_state cb) (lock_secrethash l) = false)
    (Hn : nonce (our_state ca) < UINT64_MAX)
    (Hblock : get_receiver_expiration_threshold (lock_expiration l) <= block)
    (Hkey : key_address = address (our_state ca)) (Hid : 0 < identifier ca) :
  exists ca' ev prng' m m' x cb' evs,
    send_lock_expired ca l prng rmd = Ok (ca', [ev], prng')
    /\ message_from_sendevent (ESendLockExpired ev) = Ok m /\ sign m = Ok m'
    /\ handle_message our_address privkey cs registered query rs m' = Ok [SReceiveLockExpired x]
    /\ handle_receive_lock_expired cb x block md = Ok (mkTransitionResult cb' evs)
    /\ get_lock (partner_state cb') (lock_secrethash l) = None
    /\ mirrored ca' cb'.
Proof.
  destruct (lock_expired_agreement ca cb l prng rmd block Ha Hb Hm Hoa Ho Hg Hon Honp Hono Hn Hblock)
    as (ca' & ev & prng' & Hsend & Hacc).
  destruct (sent_expired_event _ _ _ _ _ _ _ Hsend Hid) as (Emid & Esh & Hbp).
  pose proof (envelope_from_run (message_identifier_from_prng prng).1 _ Hbp) as He.
  destruct (signed_expired_received _ (sm_recipient (sle_message ev)) (sle_secrethash ev) _ _ our_address
    privkey cs registered query rs Hbp He eq_refl (message_identifier_fits prng)) as (m' & x & Hsign & Hh & Hx & Hdel).
  rewrite Hkey in Hdel. destruct (Hacc x md Hx Hdel) as (cb' & evs & Hrecv & Hlock & Hmir & _).
  eexists ca', ev, prng', _, m', x, cb', evs. split_and!; try done.
  unfold message_from_sendevent, LockExpired_from_event. by rewrite Emid, He.
Qed.
End delivery.

(** ** The order of a batch *)

Lemma key_leb_Some c1 n1 c2 n2 :
  key_leb (Some (c1, n1)) (Some (c2, n2)) = true <-> c1 < c2 \/ c1 = c2 /\ n1 <= n2.
Proof. cbn. rewrite orb_true_iff, andb_true_iff, Z.ltb_lt, Z.eqb_eq, Z.leb_le. done. Qed.

#[export] Instance key_le_trans : Transitive (key_le key_leb).
Proof.
  intros [[c1 n1]|] [[c2 n2]|] [[c3 n3]|]; unfold key_le; rewrite ?key_leb_Some; cbn; try done. lia.
Qed.

#[export] Instance key_le_total : Total (key_le key_leb).
Proof.
  intros [[c1 n1]|] [[c2 n2]|]; unfold key_le; rewrite ?key_leb_Some; cbn; auto. lia.
Qed.

#[export] Instance key_le_antisymm : AntiSymm (=) (key_le key_leb).
Proof.
  intros [[c1 n1]|] [[c2 n2]|]; unfold key_le; rewrite ?key_leb_Some; cbn; try done.
  intros L1 L2. f_equal. f_equal; lia.
Qed.

Section batches.
Context `{Crypto} `{FloatPow} `{MessageEnv}.

(** The messages that are kept: some of those that were received, each key
    once, and no key is lost. *)
Lemma unique_messages_spec seen messages unique :
  unique_messages seen messages = Ok unique ->
  unique `sublist_of` messages
  /\ exists keys, py_map message_key unique = Ok keys /\ NoDup keys
     /\ (forall k, k ∈ keys -> k ∉ seen)
     /\ forall m, m ∈ messages -> exists k, message_key m = Ok k /\ (k ∈ seen \/ k ∈ keys).
Proof.
  revert seen unique. induction messages as [|m messages IH]; intros seen unique; cbn.
  - intros [= <-]. split; [done|]. exists []. split_and!; try done; [constructor|set_solver..].
  - intros Hok. apply bind_Ok in Hok as (key & Hkey & Hok).
    destruct (bool_decide (key ∈ seen)) eqn:Eb.
    + apply bool_decide_eq_true in Eb. destruct (IH _ _ Hok) as (Hsub & keys & K1 & K2 & K3 & K4).
      split; [by apply sublist_cons|]. exists keys. split_and!; try done.
      intros m' [->|Hm']%elem_of_cons; eauto.
    + apply bool_decide_eq_false in Eb. apply bind_Ok in Hok as (rest & Hrest & Hok).
      injection Hok as <-. destruct (IH _ _ Hrest) as (Hsub & keys & K1 & K2 & K3 & K4).
      split; [by apply sublist_skip|]. exists (key :: keys). cbn. rewrite Hkey, K1. cbn.
      split_and!; [done|constructor; [set_solver|done]|set_solver|].
      intros m' [->|Hm']%elem_of_cons; [set_solver|].
      destruct (K4 _ Hm') as (k & Hk & Hin). exists k. split; [done|]. set_solver.
Qed.

(** The messages are handled in any order: the same keys end up in the same
    places. *)
Lemma handle_messages_perm our_address privkey cs registered query rs messages messages' scs :
  messages ≡ₚ messages' ->
  handle_messages our_address privkey cs registered query rs messages = Ok scs ->
  exists scs', handle_messages our_address privkey cs registered query rs messages' = Ok scs'
    /\ scs ≡ₚ scs' /\ by_canonical_identifier <$> scs = by_canonical_identifier <$> scs'.
Proof.
  unfold handle_messages. intros Hp Hok. apply bind_Ok in Hok as (changes & Hc & Hok).
  injection Hok as <-. destruct (py_map_perm _ _ _ _ Hp Hc) as (changes' & Hc' & Hp').
  rewrite Hc'. eexists. split; [reflexivity|].
  assert (concat changes ≡ₚ concat changes') as Hcc by (by rewrite Hp').
  unfold sort_changes. split; [by rewrite !py_sort_perm|by apply py_sort_keys; try apply _].
Qed.

(** In a sorted list the balance proofs of a channel are in the order of their
    nonces, and revealed secrets are last. *)
Lemma sorted_changes_order scs i j s1 s2 :
  StronglySorted (by_key by_canonical_identifier key_leb) scs -> scs !! i = Some s1 -> scs !! j = Some s2 -> (i < j)%nat ->
  (forall b1 b2, change_balance_proof s1 = Some b1 -> change_balance_proof s2 = Some b2 ->
     channel_identifier (sbp_canonical_identifier b1)
     = channel_identifier (sbp_canonical_identifier b2) -> sbp_nonce b1 <= sbp_nonce b2)
  /\ (forall r1, s1 = SReceiveSecretReveal r1 -> exists r2, s2 = SReceiveSecretReveal r2).
Proof.
  intros Hs L1 L2 Hij. pose proof (sorted_lookup _ _ _ _ _ _ _ Hs L1 L2 Hij) as Hle.
  unfold by_key, key_le, by_canonical_identifier in Hle. split.
  - intros b1 b2 E1 E2 Ec. rewrite E1, E2, key_leb_Some in Hle. lia.
  - intros r1 ->. cbn in Hle. destruct (change_balance_proof s2); [done|]. destruct s2; try done. eauto.
Qed.

(** C33: a batch of messages is dispatched in a safe order.  Each message is
    handled once however often it was received; the order in which the handlers
    end decides only between state changes with the same key.  No state change
    is lost or made up, the balance proofs of a channel are dispatched in the
    order of their nonces, revealed secrets come after everything else, and
    state changes with the same key keep their order. *)
Theorem batch_is_ordered our_address privkey cs registered query rs messages scs
    (Hok : on_messages our_address privkey cs registered query rs messages = Ok scs) :
  exists unique keys changes,
    unique_messages [] messages = Ok unique /\ unique `sublist_of` messages
    /\ py_map message_key unique = Ok keys /\ NoDup keys
    /\ (forall m, m ∈ messages -> exists k, message_key m = Ok k /\ k ∈ keys)
    /\ py_map (handle_message our_address privkey cs registered query rs) unique = Ok changes
    /\ scs ≡ₚ concat changes
    /\ (forall k, filter (fun s => by_canonical_identifier s = k) scs
                 = filter (fun s => by_canonical_identifier s = k) (concat changes))
    /\ (forall unique', unique ≡ₚ unique' ->
          exists scs', handle_messages our_address privkey cs registered query rs unique' = Ok scs'
            /\ scs ≡ₚ scs' /\ by_canonical_identifier <$> scs = by_canonical_identifier <$> scs')
    /\ forall i j s1 s2, scs !! i = Some s1 -> scs !! j = Some s2 -> (i < j)%nat ->
         (forall b1 b2, change_balance_proof s1 = Some b1 -> change_balance_proof s2 = Some b2 ->
            channel_identifier (sbp_canonical_identifier b1)
            = channel_identifier (sbp_canonical_identifier b2) -> sbp_nonce b1 <= sbp_nonce b2)
         /\ (forall r1, s1 = SReceiveSecretReveal r1 -> exists r2, s2 = SReceiveSecretReveal r2).
Proof.
  unfold on_messages in Hok. apply bind_Ok in Hok as (unique & Hu & Hok).
  destruct (unique_messages_spec _ _ _ Hu) as (Hsub & keys & K1 & K2 & _ & K4).
  pose proof Hok as Hok'. unfold handle_messages in Hok'.
  apply bind_Ok in Hok' as (changes & Hc & Hok'). injection Hok' as Hscs.
  exists unique, keys, changes. rewrite <- Hscs in Hok |- *. split_and!; try done.
  - intros m Hm. destruct (K4 m Hm) as (k & Hk & [Hin|Hin]); [set_solver|eauto].
  - apply py_sort_perm.
  - intros k. apply py_sort_stable, _.
  - intros unique' Hp. exact (handle_messages_perm _ _ _ _ _ _ _ _ _ Hp Hok).
  - intros i j s1 s2. apply sorted_changes_order, py_sort_sorted; apply _.
Qed.
End batches.
