(* ===== verification/MessageExamples.v ===== *)
(** The messages between Alice and Bob: the theorems of [MessageProofs] applied
    to the channel of [ChannelExamples] and to Bob's node. *)

From coqutil Require Import Byte.
From S2P Require Import Prelude PyDict Bytes Crypto PyFloat MediationFee State Events.
From S2P Require Import StateChanges Channel ChannelValidation ChannelOps ChannelTransition.
From S2P Require Import ChannelLocks ChannelInvariant ChannelSend ChannelReceive ChannelMachine.
From S2P Require Import ChannelSystem ChannelProtocol ChannelLifecycle ChannelExamples.
From S2P Require Import TransferTasks TaskSteps Node NodeExamples ChainExamples.
From S2P Require Import Messages MessageHandler MessageProofs.

#[local] Existing Instance toy_crypto.
#[local] Existing Instance toy_crypto_laws.
#[local] Existing Instance toy_pow.

(** The metadata is not serialized, and a secret is not really encrypted: it is
    sent in the clear. *)
Definition plain_messages : MessageEnv := {|
  message_type_withdraw := 3;
  to_dict := fun _ => [];
  encode_canonical_json := fun _ => [];
  serialize_secret := fun '(secret, amount, pid) =>
    secret ++ be_encode 32 amount ++ be_encode 8 pid;
  deserialize_secret := fun raw =>
    Some (take 32 raw, int_from_bytes (take 32 (drop 32 raw)), int_from_bytes (drop 64 raw));
  encrypt := fun _ _ raw => Ok raw;
  decrypt := fun _ raw => Ok raw;
  decode_hex := fun _ => Ok (bob ++ zero_bytes 45);
  to_canonical_address := fun _ => bob
|}.
#[local] Existing Instance plain_messages.

(** A key whose signatures [toy_crypto] attributes to Alice. *)
Lemma alice_sign_form (h : bytes) :
  exists rs v, alice ++ zero_bytes 45 = rs ++ [v] /\ length rs = 64%nat /\ 0 <= byte.unsigned v <= 1.
Proof.
  exists (alice ++ zero_bytes 44), Byte.x00. split_and!; try (vm_compute; reflexivity);
    vm_compute; discriminate.
Qed.

Definition alice_key : PrivateKey := {|
  key_address := alice;
  sign_msg_hash := fun _ => alice ++ zero_bytes 45;
  key_address_length := eq_refl;
  sign_msg_hash_form := alice_sign_form;
  sign_msg_hash_recover := fun _ => eq_refl
|}.
#[local] Existing Instance alice_key.

(** A route to Bob, with the metadata that Alice knows of him. *)
Definition example_routes : list RouteState :=
  [mkRouteState [alice; bob] [(bob, [("user_id", "@bob"); ("displayname", "0x00")]%string)] [] 0].

(** The secret as Alice sends it along. *)
Definition example_encrypted : bytes :=
  default [] (ok_or None (encrypt_secret (Some example_secret)
                            (get_address_metadata bob example_routes) (lock_amount example_lock) 2)).

(** The handler of Bob's node. *)
Definition bob_handles : Message -> Py (list StateChange) :=
  handle_message bob [] bob_node (fun _ => false) (fun _ => None) (zero_bytes 32).

Lemma alice0_fits : transfer_fits alice0 alice bob 1 2.
Proof. split; vm_compute; try reflexivity; split; discriminate. Qed.

Lemma transfer_over_the_wire_witness :
  exists ca' ev m m' init cb' evs,
    send_lockedtransfer alice0 alice bob (lock_amount example_lock) 1 2
      (lock_expiration example_lock) (Some example_secret) (lock_secrethash example_lock)
      example_routes None None = Ok (ca', ev)
    /\ message_from_sendevent (ESendLockedTransfer ev) = Ok (MLockedTransfer m)
    /\ sign (MLockedTransfer m) = Ok (MLockedTransfer m')
    /\ bob_handles (MLockedTransfer m')
       = Ok [SActionInitTarget init;
             SReceiveSecretReveal (mkReceiveSecretReveal alice example_secret example_secrethash)]
    /\ handle_receive_lockedtransfer bob0 (ait_transfer init) None = Ok (cb', (true, evs, None))
    /\ mirrored ca' cb'.
Proof.
  destruct (transfer_over_the_wire alice0 bob0 example_lock alice bob 1 2 (Some example_secret)
    example_routes None None (Some example_encrypted) None (alice0_inv true) (bob0_inv true) mirrored_0
    eq_refl alice0_can_send ltac:(vm_compute; reflexivity) eq_refl alice0_fits
    ltac:(vm_compute; reflexivity))
    as (ca' & ev & m & m' & t & cb' & evs & H1 & H2 & H3 & _ & _ & _ & _ & _ & _ & H4 & H5 & H6).
  destruct (H6 [] bob_node (fun _ => false) (fun _ => None) (zero_bytes 32) eq_refl
    ltac:(discriminate)) as (_ & _ & _ & H7).
  destruct (H7 example_encrypted example_secret eq_refl ltac:(vm_compute; reflexivity))
    as (init & H8 & _ & H9).
  exists ca', ev, m, m', init, cb', evs. rewrite H8.
  exact (conj H1 (conj H2 (conj H3 (conj H9 (conj H4 H5))))).
Defined.

Lemma unlock_over_the_wire_witness :
  exists ca' ev m m' u cb' evs,
    send_unlock alice1 3 2 example_secret example_secrethash 20 None = Ok (ca', ev)
    /\ message_from_sendevent (ESendUnlock ev) = Ok m /\ sign m = Ok m'
    /\ bob_handles m' = Ok [SReceiveUnlock u]
    /\ handle_unlock bob1 u None = Ok (cb', (true, evs, None)) /\ mirrored ca' cb'.
Proof.
  destruct (unlock_over_the_wire alice1 bob1 example_lock 3 2 example_secret 20 None None bob []
    bob_node (fun _ => false) (fun _ => None) (zero_bytes 32) alice1_inv bob1_inv mirrored_1
    ltac:(vm_compute; reflexivity) alice1_can_unlock ltac:(vm_compute; reflexivity)
    ltac:(vm_compute; reflexivity) ltac:(vm_compute; split; discriminate)
    ltac:(vm_compute; split; discriminate) eq_refl)
    as (ca' & ev & m & m' & u & cb' & evs & H1 & H2 & H3 & H4 & H5 & H6 & _).
  exists ca', ev, m, m', u, cb', evs.
  exact (conj H1 (conj H2 (conj H3 (conj H4 (conj H5 H6))))).
Defined.

Lemma lock_expired_over_the_wire_witness :
  exists ca' ev prng' m m' x cb' evs,
    send_lock_expired alice1 example_lock (mkRandom (fun _ => 9) 0) None = Ok (ca', [ev], prng')
    /\ message_from_sendevent (ESendLockExpired ev) = Ok m /\ sign m = Ok m'
    /\ bob_handles m' = Ok [SReceiveLockExpired x]
    /\ handle_receive_lock_expired bob1 x 45 None = Ok (mkTransitionResult cb' evs)
    /\ mirrored ca' cb'.
Proof.
  destruct (lock_expired_over_the_wire alice1 bob1 example_lock (mkRandom (fun _ => 9) 0) None 45 None
    bob [] bob_node (fun _ => false) (fun _ => None) (zero_bytes 32) alice1_inv bob1_inv mirrored_1)
    as (ca' & ev & prng' & m & m' & x & cb' & evs & H1 & H2 & H3 & H4 & H5 & _ & H6);
    [vm_compute; reflexivity || discriminate..|].
  exists ca', ev, prng', m, m', x, cb', evs.
  exact (conj H1 (conj H2 (conj H3 (conj H4 (conj H5 H6))))).
Defined.

(** ** A batch *)

(** Alice's secret, an unlock, an acknowledgement and the secret again, signed,
    in a bad order. *)
Definition signed_by_alice (m : Message) : Message := ok_or m (sign m).

Definition alice_reveal : Message :=
  MRevealSecret (mkRevealSecret 5 EMPTY_SIGNATURE example_secret).

Definition example_batch : list Message :=
  map signed_by_alice
    [alice_reveal;
     MUnlock (mkUnlock (ok_or (mkEnvelopeMessage 0 [] 0 0 0 0 [] 0 []) (envelope_from 3 unlock_bp)) 2
                example_secret);
     MProcessed (mkProcessed 6 EMPTY_SIGNATURE);
     alice_reveal].

Definition dispatched : Py (list StateChange) :=
  on_messages bob [] bob_node (fun _ => false) (fun _ => None) (zero_bytes 32) example_batch.

Lemma batch_is_ordered_witness :
  exists u r changes,
    dispatched
    = Ok [SReceiveProcessed (mkReceiveProcessed alice 6); SReceiveUnlock u; SReceiveSecretReveal r]
    /\ concat changes ≡ₚ
       [SReceiveProcessed (mkReceiveProcessed alice 6); SReceiveUnlock u; SReceiveSecretReveal r].
Proof.
  destruct dispatched as [scs|] eqn:E; [|vm_compute in E; discriminate E].
  pose proof E as Hrun. unfold dispatched in Hrun.
  destruct (batch_is_ordered bob [] bob_node (fun _ => false) (fun _ => None) (zero_bytes 32)
    example_batch scs Hrun) as (unique & keys & changes & _ & _ & _ & _ & _ & _ & Hp & _).
  vm_compute in E. apply (f_equal (ok_or [])) in E. cbn in E. subst scs.
  eexists _, _, changes. split; [reflexivity|]. symmetry. exact Hp.
Defined.
