(* ===== verification/Services.v ===== *)
(** The messages to the path finding and monitoring services
    ([messages/path_finding_service.py], [messages/monitoring_service.py]), when
    they are sent ([services.py], [RaidenService._trigger_state_change_effects])
    and how a monitoring request is checked. *)

From S2P Require Import Prelude PyDict Bytes Crypto PyFloat MediationFee State Events.
From S2P Require Import StateChanges Channel TokenNetwork Node Views Messages.

(** [settings.py] and [constants.py] *)
Definition MONITORING_REWARD : Z := 80 * 10 ^ 18.
Definition MIN_MONITORING_AMOUNT_DAI : Z := 1 * 10 ^ 18.
Definition MIN_MONITORING_AMOUNT_WETH : Z := 900 * 10 ^ 12.
Definition WETH_TOKEN_ADDRESS : bytes := be_encode 20 0xC02aaA39b223FE8D0A0e5C4F27eAD9083C756Cc2.
Definition DAI_TOKEN_ADDRESS : bytes := be_encode 20 0x6B175474E89094C44Da98b954EedeAC495271d0F.

(** [isinstance(e, ServiceRequestFailed)] *)
Definition service_request_failed (e : exn) : bool :=
  match e with
  | RaidenError cls _ =>
      bool_decide (cls ∈ ["ServiceRequestFailed"; "PFSReturnedError"; "ServiceRequestIOURejected"]%string)
  | _ => false
  end.

(** The packing and a message type of raiden_contracts and the encoding of
    [rlp], for the points of a penalty or zero. *)
Class ServiceProofs : Type := {
  BALANCE_PROOF_UPDATE : Z;
  proofs_pack_balance_proof_message :
    string -> Z -> Z -> Z -> Z -> bytes -> bytes -> bytes -> bytes;
  proofs_pack_reward_proof : string -> Z -> string -> string -> bytes -> Z -> bytes;
  rlp_encode : option (list (Z * Z)) -> bytes
}.

(** ** Messages *)

Record PFSCapacityUpdate : Type := mkPFSCapacityUpdate {
  pcu_canonical_identifier : CanonicalIdentifier;
  pcu_updating_participant : bytes;
  pcu_other_participant : bytes;
  pcu_updating_nonce : Z;
  pcu_other_nonce : Z;
  pcu_updating_capacity : Z;
  pcu_other_capacity : Z;
  pcu_reveal_timeout : Z;
  pcu_signature : bytes
}.

(** The timestamp is the text that is signed. *)
Record PFSFeeUpdate : Type := mkPFSFeeUpdate {
  pfu_canonical_identifier : CanonicalIdentifier;
  pfu_updating_participant : bytes;
  pfu_fee_schedule : FeeScheduleState;
  pfu_timestamp : bytes;
  pfu_signature : bytes
}.

Record SignedBlindedBalanceProof : Type := mkSignedBlindedBalanceProof {
  sbb_channel_identifier : Z;
  sbb_token_network_address : bytes;
  sbb_nonce : Z;
  sbb_additional_hash : bytes;
  sbb_chain_id : Z;
  sbb_balance_hash : bytes;
  sbb_signature : bytes
}.

Record RequestMonitoring : Type := mkRequestMonitoring {
  rqm_balance_proof : SignedBlindedBalanceProof;
  rqm_reward_amount : Z;
  rqm_monitoring_service_contract_address : bytes;
  rqm_non_closing_participant : bytes;
  rqm_non_closing_signature : option bytes;
  rqm_signature : bytes
}.

(** What is broadcast, to the services of the device. *)
Inductive Broadcast : Type :=
  | PFSCapacity (m : PFSCapacityUpdate)
  | PFSFee (m : PFSFeeUpdate)
  | MSRequest (m : RequestMonitoring).

Section messages.
Context `{Crypto} `{ServiceProofs}.

(** [pack_signed_balance_proof] *)
Definition pack_signed_balance_proof (msg_type nonce : Z) (balance_hash additional_hash : bytes)
    (cid : CanonicalIdentifier) (partner_signature : bytes) : bytes :=
  proofs_pack_balance_proof_message (to_hex_address (token_network_address cid))
    (chain_identifier cid) (channel_identifier cid) msg_type nonce balance_hash additional_hash
    partner_signature.

(** [pack_reward_proof] *)
Definition pack_reward_proof (chain_id : Z) (token_network : bytes) (reward_amount : Z)
    (monitoring_service_contract non_closing_participant non_closing_signature : bytes) : bytes :=
  proofs_pack_reward_proof (to_hex_address monitoring_service_contract) chain_id
    (to_hex_address token_network) (to_hex_address non_closing_participant) non_closing_signature
    reward_amount.

(** [PFSCapacityUpdate.from_channel_state] *)
Definition PFSCapacityUpdate_from_channel_state (c : NettingChannelState) : PFSCapacityUpdate :=
  mkPFSCapacityUpdate (canonical_identifier c) (address (our_state c)) (address (partner_state c))
    (get_current_nonce (our_state c)) (get_current_nonce (partner_state c))
    (get_distributable (our_state c) (partner_state c))
    (get_distributable (partner_state c) (our_state c))
    (reveal_timeout c) EMPTY_SIGNATURE.

(** The identifier of the channel in the signed data. *)
Definition channel_data (cid : CanonicalIdentifier) : Py bytes :=
  chain ← int_to_bytes 32 (chain_identifier cid);
  id ← int_to_bytes 32 (channel_identifier cid);
  Ok (chain ++ token_network_address cid ++ id).

(** [PFSCapacityUpdate._data_to_sign] *)
Definition capacity_data_to_sign (m : PFSCapacityUpdate) : Py bytes :=
  cid ← channel_data (pcu_canonical_identifier m);
  updating_nonce ← int_to_bytes 8 (pcu_updating_nonce m);
  other_nonce ← int_to_bytes 8 (pcu_other_nonce m);
  updating_capacity ← int_to_bytes 32 (pcu_updating_capacity m);
  other_capacity ← int_to_bytes 32 (pcu_other_capacity m);
  reveal ← int_to_bytes 32 (pcu_reveal_timeout m);
  Ok (cid ++ pcu_updating_participant m ++ pcu_other_participant m ++ updating_nonce ++ other_nonce
      ++ updating_capacity ++ other_capacity ++ reveal).

(** [PFSFeeUpdate.from_channel_state], at the time [timestamp] *)
Definition PFSFeeUpdate_from_channel_state (c : NettingChannelState) (timestamp : bytes) :
    PFSFeeUpdate :=
  mkPFSFeeUpdate (canonical_identifier c) (address (our_state c)) (fee_schedule c) timestamp
    EMPTY_SIGNATURE.

(** [imbalance_penalty or 0] *)
Definition penalty_or_zero (p : option (list (Z * Z))) : option (list (Z * Z)) :=
  match p with Some (_ :: _) => p | _ => None end.

(** [PFSFeeUpdate._data_to_sign] *)
Definition fee_data_to_sign (m : PFSFeeUpdate) : Py bytes :=
  cid ← channel_data (pfu_canonical_identifier m);
  let fees := pfu_fee_schedule m in
  cap ← int_to_bytes 1 (if cap_fees fees then 1 else 0);
  flat_fee ← int_to_bytes 32 (flat fees);
  proportional_fee ← int_to_bytes 32 (proportional fees);
  Ok (cid ++ pfu_updating_participant m ++ cap ++ flat_fee ++ proportional_fee
      ++ rlp_encode (penalty_or_zero (imbalance_penalty fees)) ++ pfu_timestamp m).

(** [sign] of the two messages *)
Definition sign_capacity `{!PrivateKey} (m : PFSCapacityUpdate) : Py PFSCapacityUpdate :=
  data ← capacity_data_to_sign m;
  Ok (mkPFSCapacityUpdate (pcu_canonical_identifier m) (pcu_updating_participant m)
        (pcu_other_participant m) (pcu_updating_nonce m) (pcu_other_nonce m)
        (pcu_updating_capacity m) (pcu_other_capacity m) (pcu_reveal_timeout m) (local_sign data)).

Definition sign_fee `{!PrivateKey} (m : PFSFeeUpdate) : Py PFSFeeUpdate :=
  data ← fee_data_to_sign m;
  Ok (mkPFSFeeUpdate (pfu_canonical_identifier m) (pfu_updating_participant m)
        (pfu_fee_schedule m) (pfu_timestamp m) (local_sign data)).

(** [SignedBlindedBalanceProof.from_balance_proof_signed_state] *)
Definition blinded_from_balance_proof (bp : BalanceProofSignedState) : Py SignedBlindedBalanceProof :=
  let cid := sbp_canonical_identifier bp in
  balance_hash ← hash_balance_data (sbp_transferred_amount bp) (sbp_locked_amount bp)
                   (sbp_locksroot bp);
  _ ← raise_if (bool_decide (sbp_signature bp = EMPTY_SIGNATURE))
        (ValueError "balance proof is not signed");
  Ok (mkSignedBlindedBalanceProof (channel_identifier cid) (token_network_address cid)
        (sbp_nonce bp) (sbp_message_hash bp) (chain_identifier cid) balance_hash (sbp_signature bp)).

Definition blinded_cid (b : SignedBlindedBalanceProof) : CanonicalIdentifier :=
  mkCanonicalIdentifier (sbb_chain_id b) (sbb_token_network_address b) (sbb_channel_identifier b).

(** [SignedBlindedBalanceProof._data_to_sign] *)
Definition blinded_data_to_sign (b : SignedBlindedBalanceProof) : bytes :=
  pack_signed_balance_proof BALANCE_PROOF_UPDATE (sbb_nonce b) (sbb_balance_hash b)
    (sbb_additional_hash b) (blinded_cid b) (sbb_signature b).

(** [RequestMonitoring.from_balance_proof_signed_state] *)
Definition RequestMonitoring_from_balance_proof (bp : BalanceProofSignedState)
    (non_closing_participant : bytes) (reward_amount : Z) (msc_address : bytes) :
    Py RequestMonitoring :=
  onchain_balance_proof ← blinded_from_balance_proof bp;
  Ok (mkRequestMonitoring onchain_balance_proof reward_amount msc_address non_closing_participant
        None EMPTY_SIGNATURE).

(** [RequestMonitoring._data_to_sign], for its participant or another address *)
Definition reward_data (m : RequestMonitoring) (participant : bytes) : Py bytes :=
  signature ← assert_some (rqm_non_closing_signature m) "Message is not signed yet.";
  let b := rqm_balance_proof m in
  Ok (pack_reward_proof (sbb_chain_id b) (sbb_token_network_address b) (rqm_reward_amount m)
        (rqm_monitoring_service_contract_address m) participant signature).

(** [RequestMonitoring.sign] *)
Definition sign_monitoring `{!PrivateKey} (m : RequestMonitoring) : Py RequestMonitoring :=
  let m1 := mkRequestMonitoring (rqm_balance_proof m) (rqm_reward_amount m)
              (rqm_monitoring_service_contract_address m) (rqm_non_closing_participant m)
              (Some (local_sign (blinded_data_to_sign (rqm_balance_proof m)))) (rqm_signature m) in
  message_data ← reward_data m1 (rqm_non_closing_participant m1);
  Ok (mkRequestMonitoring (rqm_balance_proof m1) (rqm_reward_amount m1)
        (rqm_monitoring_service_contract_address m1) (rqm_non_closing_participant m1)
        (rqm_non_closing_signature m1) (local_sign message_data)).

(** [recover(data, signature) == address] *)
Definition recovers (data signature addr : bytes) : Py bool :=
  match recover data signature with
  | None => Raise InvalidSignature
  | Some signer => Ok (bool_decide (signer = addr))
  end.

(** [RequestMonitoring.verify_request_monitoring] *)
Definition verify_request_monitoring (m : RequestMonitoring)
    (partner_address requesting_address : bytes) : Py bool :=
  match rqm_non_closing_signature m with
  | None | Some [] => Ok false
  | Some non_closing_signature =>
      let b := rqm_balance_proof m in
      let balance_proof_data :=
        pack_balance_proof (sbb_nonce b) (sbb_balance_hash b) (sbb_additional_hash b) (blinded_cid b) in
      reward_proof_data ← reward_data m requesting_address;
      let reward_proof_signature :=
        match rqm_signature m with [] => EMPTY_SIGNATURE | s => s end in
      partner_signed ← recovers balance_proof_data (sbb_signature b) partner_address;
      if negb partner_signed then Ok false
      else
        non_closing_signed ← recovers (blinded_data_to_sign b) non_closing_signature requesting_address;
        if negb non_closing_signed then Ok false
        else recovers reward_proof_data reward_proof_signature requesting_address
  end.
End messages.

(** ** When they are sent *)

Inductive RoutingMode : Type := PFS | PRIVATE.
Inductive Environment : Type := PRODUCTION | DEVELOPMENT.

(** The configuration of the service and its contracts; [effective_balance] is
    the deposit of the node in the user deposit contract, if there is one. *)
Record ServiceEnv : Type := mkServiceEnv {
  se_routing_mode : RoutingMode;
  se_environment_type : Environment;
  se_monitoring_enabled : bool;
  se_default_msc_address : option bytes;
  se_default_registry : bytes;
  se_effective_balance : option Z;
  se_address : bytes;
  se_timestamp : bytes
}.

Section services.
Context `{Crypto} `{ServiceProofs} `{!PrivateKey} (env : ServiceEnv).
Implicit Types (cs : ChainState) (sc : StateChange).

Definition channel_of cs (cid : CanonicalIdentifier) : option NettingChannelState :=
  get_channelstate_by_canonical_identifier cs (token_network_address cid) (channel_identifier cid).

(** [send_pfs_update]: the messages that are broadcast, and the exception that
    ends it. *)
Definition send_pfs_update cs (cid : CanonicalIdentifier) (update_fee_schedule : bool) :
    list Broadcast * Py unit :=
  match se_routing_mode env with
  | PRIVATE => ([], Ok tt)
  | PFS =>
      match channel_of cs cid with
      | None => ([], Ok tt)
      | Some c =>
          match sign_capacity (PFSCapacityUpdate_from_channel_state c) with
          | Raise e => ([], Raise e)
          | Ok capacity_msg =>
              if update_fee_schedule then
                match sign_fee (PFSFeeUpdate_from_channel_state c (se_timestamp env)) with
                | Raise e => ([PFSCapacity capacity_msg], Raise e)
                | Ok fee_msg => ([PFSCapacity capacity_msg; PFSFee fee_msg], Ok tt)
                end
              else ([PFSCapacity capacity_msg], Ok tt)
          end
      end
  end.

(** The balance of a channel is too small to be monitored in production. *)
Definition below_monitoring_threshold cs (c : NettingChannelState) : bool :=
  let net_of token := get_token_network_address_by_token_address cs (se_default_registry env) token in
  let channel_balance := get_balance (our_state c) (partner_state c) in
  let is_network token :=
    bool_decide (Some (token_network_address (canonical_identifier c)) = net_of token) in
  match se_environment_type env with
  | DEVELOPMENT => false
  | PRODUCTION =>
      is_network DAI_TOKEN_ADDRESS && (channel_balance <? MIN_MONITORING_AMOUNT_DAI)
      || is_network WETH_TOKEN_ADDRESS && (channel_balance <? MIN_MONITORING_AMOUNT_WETH)
  end.

(** [update_monitoring_service_from_balance_proof] *)
Definition update_monitoring_service_from_balance_proof cs (bp : BalanceProofSignedState)
    (non_closing_participant : bytes) : Py (list Broadcast) :=
  if negb (se_monitoring_enabled env) then Ok []
  else
    msc ← assert_some (se_default_msc_address env)
            "Monitoring is enabled but the default monitoring service address is None.";
    c ← assert_some (channel_of cs (sbp_canonical_identifier bp))
          "Failed to update monitoring service due to inability to find channel";
    rei_balance ← assert_some (se_effective_balance env)
                    "Monitoring is enabled but the `UserDeposit` contract is None.";
    if rei_balance <? MONITORING_REWARD then Ok []
    else if below_monitoring_threshold cs c then Ok []
    else
      monitoring_message ←
        RequestMonitoring_from_balance_proof bp non_closing_participant MONITORING_REWARD msc;
      signed ← sign_monitoring monitoring_message;
      Ok [MSRequest signed].

(** ** The effects of a batch of state changes *)

(** The channel of a state change of [PFS_UPDATE_CAPACITY_STATE_CHANGES]; [true]
    for those of [PFS_UPDATE_FEE_STATE_CHANGES]. *)
Definition pfs_update_of_change sc : option (CanonicalIdentifier * bool) :=
  match sc with
  | SContractReceiveChannelDeposit a => Some (crd_canonical_identifier a, true)
  | SReceiveUnlock a => Some (sbp_canonical_identifier (ru_balance_proof a), false)
  | SReceiveWithdrawRequest a => Some (rwr_canonical_identifier a, true)
  | SReceiveWithdrawExpired a => Some (rwe_canonical_identifier a, true)
  | SReceiveTransferCancelRoute a => Some (sbp_canonical_identifier (rtc_balance_proof a), false)
  | SReceiveLockExpired a => Some (sbp_canonical_identifier (rle_balance_proof a), false)
  | SReceiveTransferRefund a => Some (sbp_canonical_identifier (rtr_balance_proof a), false)
  | _ => None
  end.

(** The same for [PFS_UPDATE_CAPACITY_EVENTS] and [PFS_UPDATE_FEE_EVENTS] *)
Definition pfs_update_of_event (e : Event) : option (CanonicalIdentifier * bool) :=
  match e with
  | ESendUnlock e => Some (sm_canonical_identifier (su_message e), false)
  | ESendLockedTransfer e => Some (sm_canonical_identifier (slt_message e), false)
  | ESendWithdrawRequest e => Some (sm_canonical_identifier (swr_message e), true)
  | ESendWithdrawExpired e => Some (sm_canonical_identifier (swe_message e), true)
  | _ => None
  end.

(** The three collections of [_trigger_state_change_effects]: the last balance
    proof of each channel, and the channels of the two kinds of updates. *)
Definition monitoring_updates (state_changes : list StateChange) :
    dict CanonicalIdentifier BalanceProofSignedState :=
  if se_monitoring_enabled env then
    foldl (fun d sc =>
             match change_balance_proof sc with
             | Some bp => dict_set (sbp_canonical_identifier bp) bp d
             | None => d
             end) [] state_changes
  else [].

Definition pfs_updates (fee : bool) (state_changes : list StateChange) (evs : list Event) :
    list CanonicalIdentifier :=
  let of_kind u :=
    match u with
    | Some (cid, f) => if Bool.eqb f fee then [cid] else []
    | None => []
    end in
  foldl set_add []
    (flat_map (fun sc => of_kind (pfs_update_of_change sc)) state_changes
     ++ flat_map (fun e => of_kind (pfs_update_of_event e)) evs).

(** A loop over broadcasts: what was sent before the first exception. *)
Fixpoint broadcast_all (steps : list (list Broadcast * Py unit)) : list Broadcast * Py unit :=
  match steps with
  | [] => ([], Ok tt)
  | (sent, Raise e) :: _ => (sent, Raise e)
  | (sent, Ok _) :: rest =>
      let '(sent', r) := broadcast_all rest in (sent ++ sent', r)
  end.

Definition monitoring_step cs (bp : BalanceProofSignedState) : list Broadcast * Py unit :=
  match update_monitoring_service_from_balance_proof cs bp (se_address env) with
  | Raise e => ([], Raise e)
  | Ok sent => (sent, Ok tt)
  end.

(** [_trigger_state_change_effects], as far as it concerns the services *)
Definition trigger_state_change_effects (new_state : ChainState) (state_changes : list StateChange)
    (evs : list Event) : list Broadcast * Py unit :=
  broadcast_all
    (map (monitoring_step new_state) (dict_values (monitoring_updates state_changes))
     ++ map (fun cid => send_pfs_update new_state cid false) (pfs_updates false state_changes evs)
     ++ map (fun cid => send_pfs_update new_state cid true) (pfs_updates true state_changes evs)).
End services.
