(* ===== verification/ServicesProofs.v ===== *)
(** What the services get to know: the capacities of a channel can always be
    reported, the newest balance proof of a batch is handed to the monitoring
    service in a request that it can verify, and the channels whose updates are
    sent are exactly those of the batch. *)

From stdpp Require Import sorting.
From S2P Require Import Prelude PyDict Bytes Crypto PyFloat MediationFee State Events.
From S2P Require Import StateChanges Channel ChannelValidation ChannelLocks ChannelInvariant.
From S2P Require Import ChannelReceive ChannelSystem TokenNetwork Node Views Messages.
From S2P Require Import MessageHandler MessageProofs Services.

Section proofs.
Context `{CryptoLaws} `{FloatPow} `{ServiceProofs} `{!PrivateKey} (env : ServiceEnv).
Implicit Types (cs : ChainState) (c : NettingChannelState) (cid : CanonicalIdentifier).

(** ** Capacities *)

Lemma int_to_bytes_fits n z :
  0 <= z < 2 ^ (Z.of_nat n * 8) -> int_to_bytes n z = Ok (be_encode n z).
Proof.
  intros [Hlo Hhi]. unfold int_to_bytes.
  by rewrite (proj2 (Z.leb_le _ _) Hlo), (proj2 (Z.ltb_lt _ _) Hhi).
Qed.

Lemma distributable_fits sender receiver :
  locks_inv sender -> bp_inv sender ->
  get_amount_locked sender <= get_balance sender receiver ->
  0 <= get_distributable sender receiver < 2 ^ 256.
Proof.
  intros Hl Hb Hc. rewrite get_distributable_eq by done.
  pose proof (transferred_bounds sender Hl Hb). pose proof (locked_nonneg sender Hl).
  rewrite UINT256_MAX_eq in *. lia.
Qed.

(** The numbers of a channel that nothing but their size is required of. *)
Definition channel_fits c : Prop :=
  0 <= chain_identifier (canonical_identifier c) < 2 ^ 256
  /\ 0 <= reveal_timeout c < 2 ^ 256
  /\ 0 <= nonce (our_state c) < 2 ^ 64 /\ 0 <= nonce (partner_state c) < 2 ^ 64.

Lemma capacity_data_defined c :
  solvent_inv c -> channel_fits c ->
  exists data, capacity_data_to_sign (PFSCapacityUpdate_from_channel_state c) = Ok data.
Proof.
  intros [[L1 B1 _ _ _] [L2 B2 _ _ _] _ _ I5 I6 _ I8 _] (F1 & F2 & F3 & F4).
  unfold capacity_data_to_sign, channel_data, identifier in *. rewrite UINT256_MAX_eq in I8.
  pose proof (distributable_fits _ _ L1 B1 I5). pose proof (distributable_fits _ _ L2 B2 I6).
  cbn [pcu_canonical_identifier PFSCapacityUpdate_from_channel_state pcu_updating_nonce
    pcu_other_nonce pcu_updating_capacity pcu_other_capacity pcu_reveal_timeout].
  rewrite !int_to_bytes_fits; unfold get_current_nonce; try (cbn [Z.of_nat]; lia).
  rewrite !bind_ret_l. eexists. reflexivity.
Qed.

(** The capacities of a reachable channel can always be reported to the path
    finding services: both fit their fields, since a pending lock is always
    covered, and the message is signed by the node and has the amounts that the
    two ends can still send. *)
Theorem capacity_update_defined c
    (Hr : reachable c) (Hfits : channel_fits c) :
  exists m data,
    sign_capacity (PFSCapacityUpdate_from_channel_state c) = Ok m
    /\ pcu_updating_capacity m = get_distributable (our_state c) (partner_state c)
    /\ pcu_other_capacity m = get_distributable (partner_state c) (our_state c)
    /\ 0 <= pcu_updating_capacity m <= UINT256_MAX /\ 0 <= pcu_other_capacity m <= UINT256_MAX
    /\ capacity_data_to_sign m = Ok data /\ recover data (pcu_signature m) = Some key_address.
Proof.
  assert (solvent_inv c) as Hs
    by (destruct Hr as (c0 & Ho & Hst); eapply steps_inv; [exact Hst|by apply opened_inv]).
  destruct (capacity_data_defined c Hs Hfits) as [data Hd]. unfold sign_capacity. rewrite Hd.
  eexists _, data. rewrite bind_ret_l. split; [reflexivity|]. cbn -[capacity_data_to_sign].
  destruct Hs as [[L1 B1 _ _ _] [L2 B2 _ _ _] _ _ I5 I6 _ _ _].
  pose proof (distributable_fits _ _ L1 B1 I5). pose proof (distributable_fits _ _ L2 B2 I6).
  rewrite UINT256_MAX_eq. split_and!; try done; try lia. apply recover_local_sign.
Qed.

(** ** Monitoring *)

(** The node can have its channels monitored. *)
Record monitoring_ready cs cid (msc : bytes) : Prop := {
  mr_enabled : se_monitoring_enabled env = true;
  mr_contract : se_default_msc_address env = Some msc;
  mr_channel : exists c, channel_of cs cid = Some c /\ below_monitoring_threshold env cs c = false;
  mr_deposit : exists b, se_effective_balance env = Some b /\ MONITORING_REWARD <= b
}.

(** The partner's signature of a balance proof, as the channel checks it. *)
Definition signed_by (bp : BalanceProofSignedState) (partner : bytes) : Prop :=
  is_valid_balanceproof_signature bp partner = Ok success
  /\ sbp_signature bp <> EMPTY_SIGNATURE.

Lemma is_valid_signature_recovers data sig a :
  is_valid_signature data sig a = success -> recovers data sig a = Ok true.
Proof.
  unfold is_valid_signature, recovers. destruct (recover data sig) as [s|]; [|done].
  case_bool_decide; [|done]. intros _. by rewrite bool_decide_eq_true_2.
Qed.

Lemma recovers_local_sign data : recovers data (local_sign data) key_address = Ok true.
Proof. unfold recovers. rewrite recover_local_sign. by rewrite bool_decide_eq_true_2. Qed.

Lemma local_sign_cons data : exists x s, local_sign data = x :: s.
Proof.
  pose proof (length_local_sign data) as Hl. destruct (local_sign data) as [|x s]; [done|]. eauto.
Qed.

(** A request that is signed by the participant verifies. *)
Lemma signed_request_verifies m m' partner :
  sign_monitoring m = Ok m' -> rqm_non_closing_participant m = key_address ->
  recovers (pack_balance_proof (sbb_nonce (rqm_balance_proof m))
              (sbb_balance_hash (rqm_balance_proof m)) (sbb_additional_hash (rqm_balance_proof m))
              (blinded_cid (rqm_balance_proof m))) (sbb_signature (rqm_balance_proof m)) partner
    = Ok true ->
  verify_request_monitoring m' partner key_address = Ok true.
Proof.
  unfold sign_monitoring, reward_data. cbn [assert_some rqm_non_closing_signature].
  rewrite !bind_ret_l. intros [= <-] Hp Hrec. unfold verify_request_monitoring, reward_data.
  cbn -[local_sign pack_balance_proof recovers pack_reward_proof blinded_data_to_sign].
  destruct (local_sign_cons (blinded_data_to_sign (rqm_balance_proof m))) as (x & s & E).
  rewrite E, <- E, Hrec. cbn -[local_sign recovers pack_reward_proof blinded_data_to_sign].
  rewrite recovers_local_sign. cbn -[local_sign recovers pack_reward_proof blinded_data_to_sign].
  rewrite Hp. set (rd := pack_reward_proof _ _ _ _ _ _).
  destruct (local_sign_cons rd) as (y & t & E'). rewrite E', <- E'. apply recovers_local_sign.
Qed.

(** The request for a balance proof, signed by the node. *)
Lemma monitoring_request bp partner cs msc :
  signed_by bp partner -> monitoring_ready cs (sbp_canonical_identifier bp) msc ->
  key_address = se_address env ->
  exists m, update_monitoring_service_from_balance_proof env cs bp (se_address env)
            = Ok [MSRequest m]
    /\ blinded_from_balance_proof bp = Ok (rqm_balance_proof m)
    /\ verify_request_monitoring m partner (se_address env) = Ok true.
Proof.
  intros [Hsig Hne] [M1 M2 (c & M3 & M4) (b & M5 & M6)] Hkey.
  unfold is_valid_balanceproof_signature in Hsig. apply bind_Ok in Hsig as (bh & Hbh & [= Hsig]).
  unfold update_monitoring_service_from_balance_proof. rewrite M1, M2, M3, M5.
  cbn [negb assert_some]. rewrite !bind_ret_l, (proj2 (Z.ltb_ge _ _) M6), M4.
  unfold RequestMonitoring_from_balance_proof, blinded_from_balance_proof. rewrite Hbh, !bind_ret_l.
  rewrite bool_decide_eq_false_2 by done. cbn [raise_if]. rewrite !bind_ret_l.
  destruct (sign_monitoring _) as [m|e] eqn:Hm; [|done]. exists m. split; [done|].
  split; [by injection Hm as <-|]. rewrite <- Hkey. eapply signed_request_verifies; [exact Hm|done|].
  by apply is_valid_signature_recovers.
Qed.

(** ** The effects of a batch *)

(** The balance proofs of a channel in a batch. *)
Definition batch_proofs cid (scs : list StateChange) : list BalanceProofSignedState :=
  List.filter (fun bp => bool_decide (sbp_canonical_identifier bp = cid))
    (omap (M := list) change_balance_proof scs).

Lemma monitoring_updates_last cid scs :
  se_monitoring_enabled env = true ->
  dict_get cid (monitoring_updates env scs) = last (batch_proofs cid scs).
Proof.
  intros He. unfold monitoring_updates, batch_proofs. rewrite He.
  induction scs as [|sc scs IH] using rev_ind; [done|].
  rewrite foldl_app, omap_app. cbn. destruct (change_balance_proof sc) as [bp|] eqn:Ebp; cbn.
  - rewrite List.filter_app. cbn.
    destruct (decide (sbp_canonical_identifier bp = cid)) as [->|Hne].
    + by rewrite dict_get_set_eq, bool_decide_eq_true_2, last_snoc.
    + by rewrite dict_get_set_ne, bool_decide_eq_false_2, app_nil_r by done.
  - by rewrite app_nil_r.
Qed.

Lemma monitoring_updates_key cid bp scs :
  (cid, bp) ∈ monitoring_updates env scs -> sbp_canonical_identifier bp = cid.
Proof.
  unfold monitoring_updates. case_if; [|set_solver].
  induction scs as [|sc scs IH] using rev_ind; [set_solver|].
  rewrite foldl_app. cbn. destruct (change_balance_proof sc) as [bp0|]; [|done].
  intros [[-> ->]|Hin]%dict_set_elem; auto.
Qed.

Lemma monitoring_updates_from bp scs :
  bp ∈ dict_values (monitoring_updates env scs) ->
  exists sc, sc ∈ scs /\ change_balance_proof sc = Some bp.
Proof.
  intros (cid & Hin)%dict_values_elem. revert Hin.
  unfold monitoring_updates. case_if; [|set_solver].
  induction scs as [|sc scs IH] using rev_ind; [set_solver|].
  rewrite foldl_app. cbn. destruct (change_balance_proof sc) as [bp0|] eqn:E; [|set_solver].
  intros [[_ ->]|Hin]%dict_set_elem; [|set_solver]. exists sc. set_solver.
Qed.

Lemma monitoring_updates_wf scs : dict_wf (monitoring_updates env scs).
Proof.
  unfold monitoring_updates. case_if; [|apply dict_wf_nil].
  induction scs as [|sc scs IH] using rev_ind; [apply dict_wf_nil|].
  rewrite foldl_app. cbn. case_match; [by apply dict_wf_set|done].
Qed.

(** The steps are carried out in order, up to the first that raises. *)
Lemma broadcast_all_app steps steps' sent r :
  broadcast_all steps = (sent, r) ->
  broadcast_all (steps ++ steps')
  = match r with
    | Ok _ => (sent ++ fst (broadcast_all steps'), snd (broadcast_all steps'))
    | Raise e => (sent, Raise e)
    end.
Proof.
  revert sent r. induction steps as [|[s1 [[]|e]] steps IH]; intros sent r Hb; cbn in Hb.
  - injection Hb as <- <-. cbn. by rewrite <- surjective_pairing.
  - destruct (broadcast_all steps) as [s2 r2] eqn:E2. injection Hb as <- <-. cbn.
    rewrite (IH _ _ eq_refl). destruct r2 as [[]|e]; [|done]. by rewrite app_assoc.
  - by injection Hb as <- <-.
Qed.

Lemma broadcast_all_raises steps sent e :
  broadcast_all steps = (sent, Raise e) -> exists step, step ∈ steps /\ snd step = Raise e.
Proof.
  revert sent. induction steps as [|[s1 [[]|e1]] steps IH]; intros sent Hb; cbn in Hb; [done| |].
  - destruct (broadcast_all steps) as [s2 r2] eqn:E2. injection Hb as _ ->.
    destruct (IH _ eq_refl) as (step & Hin & He). exists step. split; [by right|done].
  - injection Hb as _ ->. eexists. split; [left|done].
Qed.

Definition request_cid (m : RequestMonitoring) : CanonicalIdentifier :=
  blinded_cid (rqm_balance_proof m).

(** The monitoring requests for a channel among the messages of a batch, in the
    order in which they are sent and with repetitions. *)
Definition requests_for cid (sent : list Broadcast) : list RequestMonitoring :=
  omap (fun x => match x with
                 | MSRequest m => if decide (request_cid m = cid) then Some m else None
                 | _ => None
                 end) sent.

Lemma requests_for_app cid sent sent' :
  requests_for cid (sent ++ sent') = requests_for cid sent ++ requests_for cid sent'.
Proof. apply omap_app. Qed.

(** Steps without a request for the channel. *)
Lemma broadcast_all_silent cid steps :
  Forall (fun step => requests_for cid (fst step) = []) steps ->
  requests_for cid (fst (broadcast_all steps)) = [].
Proof.
  induction 1 as [|[s1 [[]|e]] steps Hs _ IH]; [done| |done].
  cbn [broadcast_all fst] in *. destruct (broadcast_all steps). cbn [fst] in *. by rewrite requests_for_app, Hs, IH.
Qed.

Lemma blinded_fields bp b :
  blinded_from_balance_proof bp = Ok b ->
  blinded_cid b = sbp_canonical_identifier bp /\ sbb_nonce b = sbp_nonce bp.
Proof.
  unfold blinded_from_balance_proof. intros Hb. py_inv. subst b. cbn. split; [|done].
  unfold blinded_cid. cbn. by destruct (sbp_canonical_identifier bp).
Qed.

(** What a step of the monitoring broadcasts. *)
Lemma monitoring_step_request cs bp x :
  x ∈ fst (monitoring_step env cs bp) ->
  exists m, x = MSRequest m /\ blinded_from_balance_proof bp = Ok (rqm_balance_proof m).
Proof.
  unfold monitoring_step, update_monitoring_service_from_balance_proof.
  destruct (negb _); [set_solver|].
  destruct (assert_some (se_default_msc_address env) _) as [msc|]; cbn; [|set_solver].
  destruct (assert_some (channel_of cs _) _) as [c|]; cbn; [|set_solver].
  destruct (assert_some (se_effective_balance env) _) as [b|]; cbn; [|set_solver].
  destruct (b <? MONITORING_REWARD); [set_solver|].
  destruct (below_monitoring_threshold env cs c); [set_solver|].
  unfold RequestMonitoring_from_balance_proof.
  destruct (blinded_from_balance_proof bp) as [bb|] eqn:Eb; cbn; [|set_solver].
  intros ->%list_elem_of_singleton. eauto.
Qed.

Lemma monitoring_step_silent cs cid bp :
  sbp_canonical_identifier bp <> cid -> requests_for cid (fst (monitoring_step env cs bp)) = [].
Proof.
  intros Hne. destruct (requests_for cid _) as [|m rest] eqn:E; [done|]. exfalso.
  assert (m ∈ requests_for cid (fst (monitoring_step env cs bp))) as Hin by (rewrite E; left).
  apply list_elem_of_omap in Hin as (x & Hx & Hm).
  apply monitoring_step_request in Hx as (m' & -> & Hb). case_decide as Hc; [|done].
  destruct (blinded_fields _ _ Hb) as [Hbc _]. unfold request_cid in Hc. congruence.
Qed.

Lemma pfs_step_silent cs cid cid' fee : requests_for cid (fst (send_pfs_update env cs cid' fee)) = [].
Proof. unfold send_pfs_update. repeat case_match; reflexivity. Qed.

(** A step of the monitoring raises only for a channel that the node does not
    have, or for a balance proof that cannot be put into a request. *)
Lemma monitoring_step_raises cs cid msc bp e :
  monitoring_ready cs cid msc -> snd (monitoring_step env cs bp) = Raise e ->
  channel_of cs (sbp_canonical_identifier bp) = None \/ blinded_from_balance_proof bp = Raise e.
Proof.
  intros [M1 M2 _ (b & M5 & _)].
  unfold monitoring_step, update_monitoring_service_from_balance_proof. rewrite M1, M2, M5.
  cbn [negb assert_some]. rewrite !bind_ret_l.
  destruct (channel_of cs _) as [c|]; [|by left]. cbn [assert_some]. rewrite !bind_ret_l.
  destruct (b <? MONITORING_REWARD); [done|]. destruct (below_monitoring_threshold env cs c); [done|].
  unfold RequestMonitoring_from_balance_proof.
  destruct (blinded_from_balance_proof bp) as [bb|e']; [done|]. intros [= ->]. by right.
Qed.

(** The balance proof of a channel among those of a batch. *)
Lemma monitoring_updates_split cid bp scs :
  dict_get cid (monitoring_updates env scs) = Some bp ->
  exists before after,
    dict_values (monitoring_updates env scs) = before ++ bp :: after
    /\ (forall bp', bp' ∈ before \/ bp' ∈ after -> sbp_canonical_identifier bp' <> cid).
Proof.
  intros Hin%dict_get_In. pose proof (monitoring_updates_wf scs) as Hwf.
  pose proof (fun cid bp => monitoring_updates_key cid bp scs) as Hkey.
  apply list_elem_of_split in Hin as (d1 & d2 & E). rewrite E in *.
  exists (dict_values d1), (dict_values d2). unfold dict_values. rewrite map_app. split; [done|].
  unfold dict_wf, dict_keys in Hwf. rewrite map_app in Hwf. cbn in Hwf.
  apply NoDup_app in Hwf as (_ & Hd & [Hn _]%NoDup_cons).
  intros bp' [Hb|Hb]; apply elem_of_map in Hb as ([k v] & -> & Hkv); cbn.
  - rewrite (Hkey k v) by set_solver. intros ->.
    apply (Hd cid); [by apply elem_of_map; exists (cid, v)|left].
  - rewrite (Hkey k v) by set_solver. intros ->. by apply Hn, elem_of_map; exists (cid, v).
Qed.

(** The request of one channel in a batch: it is sent once, unless the request
    of another channel raised before. *)
Lemma batch_requests cs scs evs cid bp m :
  dict_get cid (monitoring_updates env scs) = Some bp ->
  monitoring_step env cs bp = ([MSRequest m], Ok tt) -> request_cid m = cid ->
  let '(sent, r) := trigger_state_change_effects env cs scs evs in
  requests_for cid sent = [m]
  \/ requests_for cid sent = []
     /\ exists bp' e, bp' ∈ dict_values (monitoring_updates env scs)
          /\ sbp_canonical_identifier bp' <> cid
          /\ snd (monitoring_step env cs bp') = Raise e /\ r = Raise e.
Proof.
  intros Hget Hstep Hm. apply monitoring_updates_split in Hget as (d1 & d2 & E & Hne).
  unfold trigger_state_change_effects. rewrite E, map_app, <- app_assoc.
  set (before := map (monitoring_step env cs) d1). cbn [map app]. rewrite Hstep.
  set (rest := _ ++ _ ++ _).
  assert (Forall (fun step => requests_for cid (fst step) = []) rest) as Hrest.
  { apply Forall_forall. intros step. unfold rest. rewrite !elem_of_app, !elem_of_map.
    intros [(bp' & -> & Hin)|[(cid' & -> & _)|(cid' & -> & _)]]; [|apply pfs_step_silent..].
    apply monitoring_step_silent. auto. }
  assert (Forall (fun step => requests_for cid (fst step) = []) before) as Hbefore.
  { apply Forall_forall. intros step (bp' & -> & Hin)%elem_of_map.
    apply monitoring_step_silent. auto. }
  apply broadcast_all_silent in Hrest, Hbefore.
  destruct (broadcast_all before) as [sent r] eqn:Eb. rewrite (broadcast_all_app _ _ _ _ Eb).
  destruct r as [[]|e].
  - left. cbn [broadcast_all]. destruct (broadcast_all rest) as [sent' r']. cbn [fst snd] in *.
    rewrite !requests_for_app, Hbefore, Hrest. cbn. by rewrite decide_True.
  - right. split; [done|]. apply broadcast_all_raises in Eb as (step & Hin & He).
    apply elem_of_map in Hin as (bp' & -> & Hin). exists bp', e. split_and!; [set_solver|auto|done..].
Qed.

Lemma batch_proofs_elem cid scs bp :
  bp ∈ batch_proofs cid scs <->
  sbp_canonical_identifier bp = cid /\ exists sc, sc ∈ scs /\ change_balance_proof sc = Some bp.
Proof.
  unfold batch_proofs. rewrite elem_of_filter_bool, list_elem_of_omap, bool_decide_eq_true.
  naive_solver.
Qed.

(** The nonces of a channel rise in the order in which its balance proofs are
    dispatched. *)
Lemma by_key_nonce sc sc' bp bp' :
  by_key by_canonical_identifier key_leb sc sc' ->
  change_balance_proof sc = Some bp -> change_balance_proof sc' = Some bp' ->
  sbp_canonical_identifier bp = sbp_canonical_identifier bp' -> sbp_nonce bp <= sbp_nonce bp'.
Proof.
  unfold by_key, key_le, by_canonical_identifier. intros Hle E1 E2 Heq.
  rewrite E1, E2, key_leb_Some, Heq in Hle. lia.
Qed.

Lemma last_proof_newest cid scs bp bp' :
  StronglySorted (by_key by_canonical_identifier key_leb) scs ->
  last (batch_proofs cid scs) = Some bp -> bp' ∈ batch_proofs cid scs ->
  sbp_nonce bp' <= sbp_nonce bp.
Proof.
  induction 1 as [|sc scs Hs IH Hall]; [done|].
  replace (batch_proofs cid (sc :: scs)) with (batch_proofs cid [sc] ++ batch_proofs cid scs)
    by (unfold batch_proofs; rewrite <- List.filter_app, <- omap_app; done).
  intros Hl [Hin|Hin]%elem_of_app.
  - destruct (last (batch_proofs cid scs)) as [bp1|] eqn:E1.
    + rewrite last_app, E1 in Hl. injection Hl as ->. apply last_Some_elem_of in E1.
      apply batch_proofs_elem in Hin as (Hc1 & sc1 & ->%list_elem_of_singleton & Hb1).
      apply batch_proofs_elem in E1 as (Hc2 & sc2 & Hin2 & Hb2).
      eapply by_key_nonce; [|exact Hb1|exact Hb2|congruence].
      exact (proj1 (Forall_forall _ _) Hall sc2 Hin2).
    + apply last_None in E1. rewrite E1, app_nil_r in Hl. revert Hl Hin. unfold batch_proofs. cbn.
      destruct (change_balance_proof sc); cbn; [|set_solver]. case_if; [|set_solver].
      intros [= <-] ->%list_elem_of_singleton. done.
  - apply IH; [|done]. rewrite last_app in Hl.
    destruct (last (batch_proofs cid scs)) eqn:E1; [done|]. apply last_None in E1.
    rewrite E1 in Hin. by apply not_elem_of_nil in Hin.
Qed.

(** C34: the monitoring services get the newest balance proof, once.  A batch of
    state changes, in the order in which received messages are dispatched, has
    balance proofs of a channel that can be monitored, and the last of them is
    signed by the partner.  Then it has the highest nonce of those of the channel,
    and among the messages that the batch sends there is exactly one request for
    the channel: the one for this balance proof, with the partner's and the node's
    signatures, which the services verify.  The one exception: the request for
    another channel of the batch raises before, since the node does not have that
    channel or its balance proof cannot be put into a request; then the batch
    raises and no request for the channel is sent.  The channel can be monitored
    ([monitoring_ready]) when monitoring is enabled, the contract is known, the
    node has the channel and its balance is not below the threshold, and the
    deposit covers the reward. *)
Theorem newest_balance_proof_is_monitored cs changes evs cid bp partner msc
    (Hbp : last (batch_proofs cid (sort_changes changes)) = Some bp)
    (Hsigned : signed_by bp partner)
    (Hready : monitoring_ready cs cid msc)
    (Hkey : key_address = se_address env) :
  let '(sent, r) := trigger_state_change_effects env cs (sort_changes changes) evs in
  (forall sc bp', sc ∈ changes -> change_balance_proof sc = Some bp' ->
     sbp_canonical_identifier bp' = cid -> sbp_nonce bp' <= sbp_nonce bp)
  /\ ((exists m, requests_for cid sent = [m]
         /\ blinded_from_balance_proof bp = Ok (rqm_balance_proof m)
         /\ verify_request_monitoring m partner (se_address env) = Ok true)
      \/ requests_for cid sent = []
         /\ exists sc bp' e, sc ∈ changes /\ change_balance_proof sc = Some bp'
              /\ sbp_canonical_identifier bp' <> cid /\ r = Raise e
              /\ (channel_of cs (sbp_canonical_identifier bp') = None
                  \/ blinded_from_balance_proof bp' = Raise e)).
Proof.
  assert (sbp_canonical_identifier bp = cid) as Hcid
    by (by apply last_Some_elem_of, batch_proofs_elem in Hbp as [? _]).
  assert (dict_get cid (monitoring_updates env (sort_changes changes)) = Some bp) as Hget
    by (by rewrite monitoring_updates_last by apply Hready).
  assert (exists m, monitoring_step env cs bp = ([MSRequest m], Ok tt)
    /\ blinded_from_balance_proof bp = Ok (rqm_balance_proof m)
    /\ verify_request_monitoring m partner (se_address env) = Ok true) as (m & Hstep & Hb & Hv).
  { rewrite <- Hcid in Hready.
    destruct (monitoring_request bp partner cs msc Hsigned Hready Hkey) as (m & Hu & Hbv).
    exists m. split; [|done]. unfold monitoring_step. by rewrite Hu. }
  assert (request_cid m = cid) as Hm by (destruct (blinded_fields _ _ Hb); by rewrite <- Hcid).
  pose proof (batch_requests cs (sort_changes changes) evs cid bp m Hget Hstep Hm) as Hone.
  destruct (trigger_state_change_effects _ _ _ _) as [sent r]. split.
  - intros sc bp' Hsc Hb' Hc. eapply last_proof_newest; [|exact Hbp|].
    + apply py_sort_sorted; apply _.
    + apply batch_proofs_elem. split; [done|]. exists sc. split; [|done].
      by apply py_sort_elem.
  - destruct Hone as [Hone|(Hnone & bp' & e & Hin & Hne & Hr & ->)]; [left; eauto|right].
    split; [done|]. apply monitoring_updates_from in Hin as (sc & Hsc & Hb').
    exists sc, bp', e. apply py_sort_elem in Hsc. split_and!; try done.
    by eapply monitoring_step_raises.
Qed.

(** The monitoring services also get balance proofs that the node did not
    accept.  An unlock that belongs to no transfer of the node is ignored, the
    state stays as it was, whatever the nonce and the amounts of its balance
    proof; still the node signs a request for exactly this balance proof, which
    the services verify. *)
Theorem ignored_balance_proof_is_monitored cs a partner msc
    (Hunknown : dict_get (ru_secrethash a) (secrethashes_to_task cs) = None)
    (Hsigned : signed_by (ru_balance_proof a) partner)
    (Hready : monitoring_ready cs (sbp_canonical_identifier (ru_balance_proof a)) msc)
    (Hkey : key_address = se_address env) :
  node_state_transition cs (SReceiveUnlock a) = Ok (cs, [])
  /\ exists m rest r,
       trigger_state_change_effects env cs [SReceiveUnlock a] [] = (MSRequest m :: rest, r)
       /\ blinded_from_balance_proof (ru_balance_proof a) = Ok (rqm_balance_proof m)
       /\ verify_request_monitoring m partner (se_address env) = Ok true.
Proof.
  split.
  - unfold node_state_transition, handle_state_change, subdispatch_to_paymenttask.
    by rewrite Hunknown.
  - destruct (monitoring_request _ partner cs msc Hsigned Hready Hkey) as (m & Hu & Hb & Hv).
    unfold trigger_state_change_effects, monitoring_updates. rewrite (mr_enabled _ _ _ Hready).
    cbn [foldl change_balance_proof dict_set dict_values map snd app broadcast_all].
    unfold monitoring_step at 1. rewrite Hu. destruct (broadcast_all _) as [rest r].
    exists m, rest, r. done.
Qed.
End proofs.
