(* ===== verification/ServicesExamples.v ===== *)
(** Bob's node and the services, on which the theorems of [ServicesProofs] are
    applied. *)

From stdpp Require Import relations.
From coqutil Require Import Byte.
From S2P Require Import Prelude PyDict Bytes Crypto PyFloat MediationFee State Events.
From S2P Require Import StateChanges Channel ChannelValidation ChannelSystem ChannelExamples.
From S2P Require Import TaskExamples Node ChainExamples Messages MessageHandler.
From S2P Require Import Services ServicesProofs.

#[local] Existing Instance toy_crypto.
#[local] Existing Instance toy_crypto_laws.
#[local] Existing Instance toy_pow.

#[local] Instance no_packing : ServiceProofs := {|
  BALANCE_PROOF_UPDATE := 0;
  proofs_pack_balance_proof_message := fun _ _ _ _ _ _ _ _ => [];
  proofs_pack_reward_proof := fun _ _ _ _ _ _ => [];
  rlp_encode := fun _ => []
|}.

Lemma bob_sign_form (h : bytes) :
  exists rs v, bob ++ zero_bytes 45 = rs ++ [v] /\ length rs = 64%nat /\ 0 <= byte.unsigned v <= 1.
Proof.
  exists (bob ++ zero_bytes 44), Byte.x00. split_and!; try (vm_compute; reflexivity);
    vm_compute; discriminate.
Qed.

#[local] Instance bob_key : PrivateKey := {|
  key_address := bob;
  sign_msg_hash := fun _ => bob ++ zero_bytes 45;
  key_address_length := eq_refl;
  sign_msg_hash_form := bob_sign_form;
  sign_msg_hash_recover := fun _ => eq_refl
|}.

Definition bob_env : ServiceEnv :=
  mkServiceEnv PFS PRODUCTION true (Some (be_encode 20 9)) (be_encode 20 5)
    (Some (100 * 10 ^ 18)) bob [].

(** A balance proof of Alice for the channel with Bob. *)
Definition alice_proof (nonce : Z) : BalanceProofSignedState :=
  mkBalanceProofSignedState nonce 0 0 LOCKSROOT_OF_NO_LOCKS (be_encode 32 1) (alice ++ zero_bytes 45)
    alice example_cid (zero_bytes 32).

Definition alice_unlock (nonce : Z) : ReceiveUnlock :=
  mkReceiveUnlock alice (alice_proof nonce) nonce [] (be_encode 32 3).

Lemma alice_signed nonce : signed_by (alice_proof nonce) alice.
Proof.
  split; [vm_compute; reflexivity|]. intros E. apply (f_equal (take 20)) in E. vm_compute in E.
  discriminate E.
Qed.

Lemma bob_monitored : monitoring_ready bob_env bob_node example_cid (be_encode 20 9).
Proof.
  split; [reflexivity|reflexivity| |].
  - exists bob0. split; vm_compute; reflexivity.
  - eexists. split; [reflexivity|]. vm_compute. discriminate.
Qed.

Lemma capacity_update_defined_witness :
  exists m, sign_capacity (PFSCapacityUpdate_from_channel_state bob0) = Ok m
    /\ pcu_updating_capacity m = 50 /\ pcu_other_capacity m = 100.
Proof.
  destruct (capacity_update_defined bob0) as (m & data & Hm & H1 & H2 & _).
  - exists bob0. split; [exact bob0_opened|apply rtc_refl].
  - unfold channel_fits. vm_compute. repeat split; discriminate.
  - exists m. split; [exact Hm|]. rewrite H1, H2. vm_compute. by split.
Defined.

(** Two unlocks of one batch: the one with the higher nonce is monitored. *)
Definition two_unlocks : list StateChange :=
  [SReceiveUnlock (alice_unlock 4); SReceiveUnlock (alice_unlock 3)].

Lemma newest_balance_proof_is_monitored_witness :
  exists sent m,
    trigger_state_change_effects bob_env bob_node (sort_changes two_unlocks) [] = (sent, Ok tt)
    /\ requests_for example_cid sent = [m] /\ sbb_nonce (rqm_balance_proof m) = 4
    /\ verify_request_monitoring m alice bob = Ok true.
Proof.
  pose proof (newest_balance_proof_is_monitored bob_env bob_node two_unlocks [] example_cid
    (alice_proof 4) alice (be_encode 20 9) ltac:(vm_compute; reflexivity) (alice_signed 4)
    bob_monitored eq_refl) as Hone.
  destruct (trigger_state_change_effects bob_env bob_node (sort_changes two_unlocks) [])
    as [sent r] eqn:E.
  assert (r = Ok tt) as -> by (vm_compute in E; injection E as _ <-; reflexivity).
  destruct Hone as [_ [(m & Hm & Hb & Hv)|(_ & _ & _ & e & _ & _ & _ & He & _)]]; [|discriminate He].
  exists sent, m. split; [reflexivity|]. split; [exact Hm|]. split; [|exact Hv].
  by destruct (blinded_fields _ _ Hb).
Defined.

(** A balance proof far ahead of the channel, for a transfer that Bob does not
    know. *)
Lemma ignored_balance_proof_is_monitored_witness :
  node_state_transition bob_node (SReceiveUnlock (alice_unlock 1000)) = Ok (bob_node, [])
  /\ exists m rest r,
       trigger_state_change_effects bob_env bob_node [SReceiveUnlock (alice_unlock 1000)] []
       = (MSRequest m :: rest, r)
       /\ sbb_nonce (rqm_balance_proof m) = 1000
       /\ verify_request_monitoring m alice bob = Ok true.
Proof.
  destruct (ignored_balance_proof_is_monitored bob_env bob_node (alice_unlock 1000) alice
    (be_encode 20 9)) as (Hn & m & rest & r & Ht & Hb & Hv).
  - reflexivity.
  - apply alice_signed.
  - apply bob_monitored.
  - reflexivity.
  - split; [exact Hn|]. exists m, rest, r. split; [exact Ht|]. split; [|exact Hv].
    by destruct (blinded_fields _ _ Hb).
Defined.
