(* ===== verification/ChainEvents.v ===== *)
(** The events of the smart contracts ([blockchain/events.py], [filters.py],
    [utils.py]): which logs are asked for, how they are decoded, and the polling
    in batches whose size adapts to the Ethereum client.

    The Ethereum client and the decoding of a log by web3 are the class
    [Web3]. *)

From Stdlib Require Import QArith SpecFloat.
From S2P Require Import Prelude PyDict Bytes Crypto PyFloat Formatting.

#[local] Open Scope Z_scope.

(** ** Events and logs *)

Inductive Contract : Type :=
  | CONTRACT_TOKEN_NETWORK_REGISTRY | CONTRACT_TOKEN_NETWORK
  | CONTRACT_SECRET_REGISTRY | CONTRACT_SERVICE_REGISTRY.

(** The names of the events of raiden_contracts. *)
Inductive EventName : Type :=
  | EVENT_TOKEN_NETWORK_CREATED
  | CHANNEL_OPENED | CHANNEL_DEPOSIT | CHANNEL_WITHDRAW | CHANNEL_BALANCE_PROOF_UPDATED
  | CHANNEL_CLOSED | CHANNEL_SETTLED | CHANNEL_UNLOCKED
  | EVENT_SECRET_REVEALED
  | EVENT_REGISTERED_SERVICE
  | OTHER_EVENT (name : string).

#[export] Instance EventName_eq_dec : EqDecision EventName.
Proof. solve_decision. Defined.

(** The arguments of an event.  [A] is the type of the addresses that are
    converted when an event is decoded: text before, bytes after. *)
Inductive EventArgs (A : Type) : Type :=
  | TokenNetworkCreated (token_network_address token_address : A)
  | ChannelOpened (channel_identifier : Z) (participant1 participant2 : A) (settle_timeout : Z)
  | ChannelNewDeposit (channel_identifier : Z) (participant : A) (total_deposit : Z)
  | ChannelWithdraw (channel_identifier : Z) (participant : A) (total_withdraw : Z)
  | NonClosingBalanceProofUpdated (channel_identifier : Z) (closing_participant : A) (nonce : Z)
  | ChannelClosed (channel_identifier : Z) (closing_participant : A)
  | ChannelSettled (channel_identifier : Z) (participant1 : string) (participant1_amount : Z)
      (participant1_locksroot : bytes) (participant2 : string) (participant2_amount : Z)
      (participant2_locksroot : bytes)
  | ChannelUnlocked (receiver sender : A) (locksroot : bytes) (unlocked_amount returned_tokens : Z)
  | SecretRevealed (secrethash secret : bytes)
  | RegisteredService (service : A) (valid_till : Z)
  | OtherArgs (name : string).
Arguments TokenNetworkCreated {_}.
Arguments ChannelOpened {_}.
Arguments ChannelNewDeposit {_}.
Arguments ChannelWithdraw {_}.
Arguments NonClosingBalanceProofUpdated {_}.
Arguments ChannelClosed {_}.
Arguments ChannelSettled {_}.
Arguments ChannelUnlocked {_}.
Arguments SecretRevealed {_}.
Arguments RegisteredService {_}.
Arguments OtherArgs {_}.

(** [data["event"]] *)
Definition event_name {A} (d : EventArgs A) : EventName :=
  match d with
  | TokenNetworkCreated _ _ => EVENT_TOKEN_NETWORK_CREATED
  | ChannelOpened _ _ _ _ => CHANNEL_OPENED
  | ChannelNewDeposit _ _ _ => CHANNEL_DEPOSIT
  | ChannelWithdraw _ _ _ => CHANNEL_WITHDRAW
  | NonClosingBalanceProofUpdated _ _ _ => CHANNEL_BALANCE_PROOF_UPDATED
  | ChannelClosed _ _ => CHANNEL_CLOSED
  | ChannelSettled _ _ _ _ _ _ _ => CHANNEL_SETTLED
  | ChannelUnlocked _ _ _ _ _ => CHANNEL_UNLOCKED
  | SecretRevealed _ _ => EVENT_SECRET_REVEALED
  | RegisteredService _ _ => EVENT_REGISTERED_SERVICE
  | OtherArgs name => OTHER_EVENT name
  end.

(** A log of the Ethereum client ([LogReceipt]). *)
Record Log : Type := mkLog {
  log_address : string;
  log_topics : list bytes;
  log_data : bytes;
  log_block_number : Z;
  log_block_hash : bytes;
  log_transaction_hash : bytes
}.

(** The arguments of [eth_getLogs].  A position of the topics is [None] when
    every topic is accepted, and the list of the accepted topics otherwise. *)
Record FilterParams : Type := mkFilterParams {
  fp_fromBlock : Z;
  fp_toBlock : Z;
  fp_address : list string;
  fp_topics : list (option (list bytes))
}.

(** The logs that a filter selects, as Ethereum defines it. *)
Fixpoint topics_match (wanted : list (option (list bytes))) (topics : list bytes) : bool :=
  match wanted, topics with
  | [], _ => true
  | None :: wanted', _ :: topics' => topics_match wanted' topics'
  | Some ts :: wanted', t :: topics' => bool_decide (t ∈ ts) && topics_match wanted' topics'
  | _, [] => false
  end.

Definition log_matches (p : FilterParams) (l : Log) : bool :=
  (fp_fromBlock p <=? log_block_number l) && (log_block_number l <=? fp_toBlock p)
  && bool_decide (log_address l ∈ fp_address p) && topics_match (fp_topics p) (log_topics l).

(** An event after decoding. *)
Record DecodedEvent : Type := mkDecodedEvent {
  de_chain_id : Z;
  de_block_number : Z;
  de_block_hash : bytes;
  de_transaction_hash : bytes;
  de_originating_contract : bytes;
  de_event_data : EventArgs bytes
}.

Record PollResult : Type := mkPollResult {
  polled_block_number : Z;
  polled_block_hash : bytes;
  polled_block_gas_limit : Z;
  poll_events : list DecodedEvent
}.

(** ** Third-party operations *)

(** [event_topic] and [contract_events] are the ABIs of raiden_contracts;
    [get_event_data] is the decoding of web3, where [None] stands for empty
    data; [to_canonical_address] is that of eth_utils.  [eth_getLogs] is the
    answer to the n-th request with its duration, or [None] when the request
    timed out, and [get_block] gives the hash and the gas limit of a block. *)
Class Web3 : Type := {
  event_topic : EventName -> bytes;
  contract_events : Contract -> list EventName;
  get_event_data : EventName -> Log -> option (EventArgs string);
  to_canonical_address : string -> bytes;
  eth_getLogs : nat -> FilterParams -> option (list Log * Q);
  get_block : Z -> bytes * Z
}.

(** [math.log(x, base)] *)
Class FloatLog : Type := { math_log : Z -> float -> Py float }.

(** ** The size of a batch *)

Record BlockBatchSizeConfig : Type := mkBlockBatchSizeConfig {
  bbs_min : Z;
  bbs_warn_threshold : Z;
  bbs_initial : Z;
  bbs_max : Z
}.

Definition default_batch_size_config : BlockBatchSizeConfig :=
  mkBlockBatchSizeConfig 5 50 1000 100000.

Record BlockBatchSizeAdjuster : Type := mkBlockBatchSizeAdjuster {
  block_batch_size_config : BlockBatchSizeConfig;
  ba_base : float;
  ba_step_size : float;
  ba_scale_current : float
}.

Definition float_1_0 : float := binary_normalize prec emax 1 0 false.
Definition float_2_0 : float := binary_normalize prec emax 2 0 false.

Section adjuster.
Context `{FloatPow} `{FloatLog}.
Implicit Types (a : BlockBatchSizeAdjuster).

(** [BlockBatchSizeAdjuster.__init__] *)
Definition new_BlockBatchSizeAdjuster (config : BlockBatchSizeConfig) : Py BlockBatchSizeAdjuster :=
  scale ← math_log (bbs_initial config) float_2_0;
  Ok (mkBlockBatchSizeAdjuster config float_2_0 float_1_0 scale).

(** [batch_size] *)
Definition batch_size a : Py Z :=
  x ← float_pow (ba_base a) (ba_scale_current a);
  n ← float_trunc x;
  let config := block_batch_size_config a in
  Ok (Z.max (bbs_min config) (Z.min (bbs_max config) n)).

Definition set_scale_current (v : float) a : BlockBatchSizeAdjuster :=
  mkBlockBatchSizeAdjuster (block_batch_size_config a) (ba_base a) (ba_step_size a) v.

(** [increase]; [_log] reads the new size. *)
Definition increase a : Py BlockBatchSizeAdjuster :=
  previous_batch_size ← batch_size a;
  if bbs_max (block_batch_size_config a) <=? previous_batch_size then Ok a
  else
    let a' := set_scale_current (float_add (ba_scale_current a) (ba_step_size a)) a in
    _ ← batch_size a';
    Ok a'.

(** [decrease] *)
Definition decrease a : Py BlockBatchSizeAdjuster :=
  previous_batch_size ← batch_size a;
  _ ← raise_if (previous_batch_size <=? bbs_min (block_batch_size_config a)) BlockBatchSizeTooSmall;
  let a' := set_scale_current (float_sub (ba_scale_current a) (ba_step_size a)) a in
  _ ← batch_size a';
  Ok a'.
End adjuster.

(** ** Filters *)

(** The sets are lists without an order that matters; the order in which
    Python iterates over a set is not determined. *)
Record RaidenContractFilter : Type := mkRaidenContractFilter {
  token_network_registry_addresses : list bytes;
  token_network_addresses : list bytes;
  channels_of_token_network : dict bytes (list Z);
  secret_registry_address : option bytes;
  ignore_secret_registry_until_channel_found : bool;
  service_registry : option bytes
}.

(** [a | b] *)
Definition set_union {A} `{EqDecision A} (a b : list A) : list A :=
  a ++ List.filter (fun x => negb (bool_decide (x ∈ a))) b.

(** [RaidenContractFilter.__bool__] *)
Definition filter_bool (f : RaidenContractFilter) : bool :=
  match token_network_registry_addresses f, token_network_addresses f with
  | [], [] =>
      existsb (fun channels : list Z => match channels with [] => false | _ => true end)
        (dict_values (channels_of_token_network f))
      || match secret_registry_address f with None | Some [] => false | _ => true end
  | _, _ => true
  end.

(** [RaidenContractFilter.union] *)
Definition filter_union (f g : RaidenContractFilter) : Py RaidenContractFilter :=
  _ ← raise_if
        match secret_registry_address f, secret_registry_address g with
        | Some a, Some b => negb (bool_decide (a = b))
        | _, _ => false
        end (AssertionError "Mismatching secret_registry_address");
  let channels tn d := default [] (dict_get tn d) in
  let cf := channels_of_token_network f in
  let cg := channels_of_token_network g in
  Ok (mkRaidenContractFilter
        (set_union (token_network_registry_addresses f) (token_network_registry_addresses g))
        (set_union (token_network_addresses f) (token_network_addresses g))
        (map (fun tn => (tn, set_union (channels tn cf) (channels tn cg)))
           (set_union (dict_keys cf) (dict_keys cg)))
        match secret_registry_address f with Some a => Some a | None => secret_registry_address g end
        (ignore_secret_registry_until_channel_found f
         && ignore_secret_registry_until_channel_found g)
        match service_registry f with Some a => Some a | None => service_registry g end).

(** [new_filters_from_events] *)
Definition created_network (e : DecodedEvent) : list bytes :=
  match de_event_data e with TokenNetworkCreated tn _ => [tn] | _ => [] end.

Definition follow_channel (f : RaidenContractFilter) (e : DecodedEvent) : RaidenContractFilter :=
  match de_event_data e with
  | ChannelOpened id _ _ _ =>
      let tn := de_originating_contract e in
      let d := channels_of_token_network f in
      mkRaidenContractFilter (token_network_registry_addresses f) (token_network_addresses f)
        (dict_set tn (set_union (default [] (dict_get tn d)) [id]) d)
        (secret_registry_address f) false (service_registry f)
  | _ => f
  end.

Definition new_filters_from_events (events : list DecodedEvent) : RaidenContractFilter :=
  foldl follow_channel
    (mkRaidenContractFilter []
       (foldl (fun s e => set_union s (created_network e)) [] events) [] None true None)
    events.

Section events.
Context `{Crypto} `{FloatPow} `{FloatLog} `{Web3}.
Context (chain_id : Z) (node_address : bytes).

(** [RaidenContractFilter.to_web3_filters]; an address is in the form in which
    the client reports it. *)
Definition to_web3_filters (f : RaidenContractFilter) (from_block to_block : Z) : list FilterParams :=
  let at_addresses addresses topics :=
    mkFilterParams from_block to_block (map to_checksum_address addresses) topics in
  let topic ev := Some [event_topic ev] in
  let node_topic := Some [zero_bytes 12 ++ node_address] in
  match token_network_registry_addresses f with
  | [] => []
  | addresses => [at_addresses addresses [topic EVENT_TOKEN_NETWORK_CREATED]]
  end
  ++ match secret_registry_address f with
     | None | Some [] => []
     | Some address =>
         if ignore_secret_registry_until_channel_found f then []
         else [at_addresses [address] [topic EVENT_SECRET_REVEALED]]
     end
  ++ match token_network_addresses f with
     | [] => []
     | addresses =>
         [at_addresses addresses [topic CHANNEL_OPENED; None; node_topic];
          at_addresses addresses [topic CHANNEL_OPENED; None; None; node_topic]]
     end
  ++ map (fun tc =>
            at_addresses [fst tc]
              [Some (map event_topic [CHANNEL_CLOSED; CHANNEL_SETTLED; CHANNEL_DEPOSIT;
                                      CHANNEL_WITHDRAW; CHANNEL_UNLOCKED]);
               Some (map (be_encode 32) (snd tc))]) (channels_of_token_network f)
  ++ match service_registry f with
     | None => []
     | Some address => [at_addresses [address] [topic EVENT_REGISTERED_SERVICE]]
     end.

(** [RaidenContractFilter.abi_of_contract_address] *)
Definition abi_of_contract_address (f : RaidenContractFilter) : dict bytes Contract :=
  let add contract d a := dict_set a contract d in
  let abis :=
    foldl (add CONTRACT_TOKEN_NETWORK)
      (foldl (add CONTRACT_TOKEN_NETWORK_REGISTRY) [] (token_network_registry_addresses f))
      (token_network_addresses f) in
  let abis :=
    match secret_registry_address f with
    | None | Some [] => abis
    | Some a => dict_set a CONTRACT_SECRET_REGISTRY abis
    end in
  match service_registry f with
  | None => abis
  | Some a => dict_set a CONTRACT_SERVICE_REGISTRY abis
  end.

(** ** Decoding *)

(** [decode_event] *)
Definition decode_event (abi : Contract) (event_log : Log) : Py (option (EventArgs string)) :=
  match log_topics event_log with
  | [] => Raise IndexError
  | event_id :: _ =>
      match last (List.filter (fun ev => bool_decide (event_topic ev = event_id))
                    (contract_events abi)) with
      | None => Raise KeyError
      | Some ev => Ok (get_event_data ev event_log)
      end
  end.

(** The conversions of [decode_raiden_event_to_internal] *)
Definition canonical_args (args : EventArgs string) : EventArgs bytes :=
  let c := to_canonical_address in
  match args with
  | TokenNetworkCreated tn token => TokenNetworkCreated (c tn) (c token)
  | ChannelOpened id p1 p2 timeout => ChannelOpened id (c p1) (c p2) timeout
  | ChannelNewDeposit id p total => ChannelNewDeposit id (c p) total
  | ChannelWithdraw id p total => ChannelWithdraw id (c p) total
  | NonClosingBalanceProofUpdated id p n => NonClosingBalanceProofUpdated id (c p) n
  | ChannelClosed id p => ChannelClosed id (c p)
  | ChannelSettled id p1 a1 r1 p2 a2 r2 => ChannelSettled id p1 a1 r1 p2 a2 r2
  | ChannelUnlocked receiver sender root u r => ChannelUnlocked (c receiver) (c sender) root u r
  | SecretRevealed h s => SecretRevealed h s
  | RegisteredService s v => RegisteredService (c s) v
  | OtherArgs name => OtherArgs name
  end.

(** [decode_raiden_event_to_internal] *)
Definition decode_raiden_event_to_internal (abi : Contract) (log_event : Log) : Py DecodedEvent :=
  decoded_event ← decode_event abi log_event;
  match decoded_event with
  | None => Raise UnknownRaidenEventType
  | Some args =>
      _ ← py_assert (negb (log_block_number log_event =? 0)) "The event must have the block_number";
      _ ← py_assert (negb (bool_decide (log_transaction_hash log_event = [])))
            "The event must have the transaction hash field";
      _ ← py_assert (negb (bool_decide (log_block_hash log_event = [])))
            "The event must have the block_hash";
      Ok (mkDecodedEvent chain_id (log_block_number log_event) (log_block_hash log_event)
            (log_transaction_hash log_event) (to_canonical_address (log_address log_event))
            (canonical_args args))
  end.

(** [sort_events] *)
Definition sort_events (events : list DecodedEvent) : list DecodedEvent :=
  py_sort de_block_number Z.leb events.

(** ** Polling *)

(** [BlockchainEvents]; [be_requests] counts the requests so far. *)
Record BlockchainEvents : Type := mkBlockchainEvents {
  last_fetched_block : Z;
  event_filter : RaidenContractFilter;
  block_batch_size_adjuster : BlockBatchSizeAdjuster;
  address_to_abi : dict bytes Contract;
  be_requests : nat
}.

(** [BlockchainEvents.__init__] *)
Definition new_BlockchainEvents (last_fetched_block : Z) (f : RaidenContractFilter)
    (config : BlockBatchSizeConfig) : Py BlockchainEvents :=
  adjuster ← new_BlockBatchSizeAdjuster config;
  Ok (mkBlockchainEvents last_fetched_block f adjuster (abi_of_contract_address f) 0).

Definition set_requests (n : nat) (s : BlockchainEvents) : BlockchainEvents :=
  mkBlockchainEvents (last_fetched_block s) (event_filter s) (block_batch_size_adjuster s)
    (address_to_abi s) n.
Definition set_adjuster (a : BlockBatchSizeAdjuster) (s : BlockchainEvents) : BlockchainEvents :=
  mkBlockchainEvents (last_fetched_block s) (event_filter s) a (address_to_abi s) (be_requests s).
Definition set_last_fetched_block (n : Z) (s : BlockchainEvents) : BlockchainEvents :=
  mkBlockchainEvents n (event_filter s) (block_batch_size_adjuster s) (address_to_abi s)
    (be_requests s).

(** The new filters are registered. *)
Definition track (f new_filter : RaidenContractFilter) (s : BlockchainEvents) : BlockchainEvents :=
  mkBlockchainEvents (last_fetched_block s) f (block_batch_size_adjuster s)
    (foldl (fun d ac => dict_set (fst ac) (snd ac) d) (address_to_abi s)
       (abi_of_contract_address new_filter)) (be_requests s).

Definition Qmax_py (a b : Q) : Q := if Qle_bool b a then a else b.

(** The requests of a round: the logs and the longest duration. *)
Fixpoint request_logs (params : list FilterParams) (n : nat) (max_duration : Q) :
    nat * Py (list Log * Q) :=
  match params with
  | [] => (n, Ok ([], max_duration))
  | p :: params' =>
      match eth_getLogs n p with
      | None => (S n, Raise EthGetLogsTimeout)
      | Some (new_events, request_duration) =>
          let '(n', rest) := request_logs params' (S n) (Qmax_py max_duration request_duration) in
          (n', '(logs, d) ← rest; Ok (new_events ++ logs, d))
      end
  end.

(** The decoding of a round. *)
Definition decode_log (abis : dict bytes Contract) (l : Log) : Py DecodedEvent :=
  match dict_get (to_canonical_address (log_address l)) abis with
  | None => Raise KeyError
  | Some abi => decode_raiden_event_to_internal abi l
  end.

(** The loop of [_query_and_track]; [None] when it has not ended after [rounds]
    rounds. *)
Fixpoint query_loop (rounds : nat) (from_block to_block : Z) (f : RaidenContractFilter)
    (max_duration : Q) (result : list DecodedEvent) (s : BlockchainEvents) :
    option (BlockchainEvents * Py (list DecodedEvent * Q)) :=
  if filter_bool f then
    match rounds with
    | O => None
    | S rounds' =>
        let '(n, answer) :=
          request_logs (to_web3_filters f from_block to_block) (be_requests s) max_duration in
        let s1 := set_requests n s in
        match answer with
        | Raise e => Some (s1, Raise e)
        | Ok ([], d) => Some (s1, Ok (result, d))
        | Ok (blockchain_events, d) =>
            match py_map (decode_log (address_to_abi s1)) blockchain_events with
            | Raise e => Some (s1, Raise e)
            | Ok decoded =>
                let decoded_events := sort_events decoded in
                let new_filter := new_filters_from_events decoded_events in
                match filter_union (event_filter s1) new_filter with
                | Raise e => Some (s1, Raise e)
                | Ok u =>
                    query_loop rounds' from_block to_block new_filter d (result ++ decoded_events)
                      (track u new_filter s1)
                end
            end
        end
    end
  else Some (s, Ok (result, max_duration)).

(** Three rounds are enough: registries, token networks, channels. *)
Definition QUERY_ROUNDS : nat := 3.

(** [_query_and_track] *)
Definition query_and_track (from_block to_block : Z) (s : BlockchainEvents) :
    BlockchainEvents * Py (list DecodedEvent * Q) :=
  match query_loop QUERY_ROUNDS from_block to_block (event_filter s) 0%Q [] s with
  | Some r => r
  | None => (s, Raise (RuntimeError "a fourth round"))
  end.

Definition ETH_GET_LOGS_TIMEOUT : Z := 10.
Definition ETH_GET_LOGS_THRESHOLD_FAST : Z := ETH_GET_LOGS_TIMEOUT / 4.
Definition ETH_GET_LOGS_THRESHOLD_SLOW : Z := ETH_GET_LOGS_TIMEOUT / 2.

Definition Qlt_bool (a b : Q) : bool := negb (Qle_bool b a).

(** The adjustment of the batch size after a successful query. *)
Definition adjust_batch_size (a : BlockBatchSizeAdjuster) (target from_block : Z) (duration : Q) :
    Py BlockBatchSizeAdjuster :=
  size ← batch_size a;
  let can_use_bigger_batches := size <? target - from_block in
  if Qlt_bool duration (inject_Z ETH_GET_LOGS_THRESHOLD_FAST) then
    if can_use_bigger_batches then increase a else Ok a
  else if Qlt_bool (inject_Z ETH_GET_LOGS_THRESHOLD_SLOW) duration then decrease a
  else Ok a.

(** [fetch_logs_in_batch] *)
Definition fetch_logs_in_batch (target_block_number : Z) (s : BlockchainEvents) :
    BlockchainEvents * Py (option PollResult) :=
  if target_block_number <=? last_fetched_block s then
    (s, Raise (ValueError "target is in the past, the block has been fetched already"))
  else
    let from_block := last_fetched_block s + 1 in
    match batch_size (block_batch_size_adjuster s) with
    | Raise e => (s, Raise e)
    | Ok size =>
        let to_block := Z.min (from_block + size) target_block_number in
        let '(s1, answer) := query_and_track from_block to_block s in
        match answer with
        | Raise EthGetLogsTimeout =>
            match decrease (block_batch_size_adjuster s1) with
            | Raise e => (s1, Raise e)
            | Ok a => (set_adjuster a s1, Ok None)
            end
        | Raise e => (s1, Raise e)
        | Ok (decoded_result, duration) =>
            match adjust_batch_size (block_batch_size_adjuster s1) target_block_number from_block
                    duration with
            | Raise e => (s1, Raise e)
            | Ok a =>
                let '(hsh, gas_limit) := get_block to_block in
                (set_last_fetched_block to_block (set_adjuster a s1),
                 Ok (Some (mkPollResult to_block hsh gas_limit decoded_result)))
            end
        end
    end.
End events.
