(* ===== verification/ChainEventsProofs.v ===== *)
(** The polling of the blockchain in batches.

    A batch may contain the event that creates a token network or opens a
    channel; the events of the new contract in the same batch are queried
    before the batch is given out.  This file shows that these rounds end, and
    that afterwards every log that the filters select was decoded, but for the
    secret registry in the batch of the first channel. *)

From Stdlib Require Import QArith.
From S2P Require Import Prelude PyDict Bytes Crypto PyFloat Formatting ChainEvents.

#[local] Open Scope Z_scope.

(** What the code relies on of the Ethereum client and of web3: different
    events have different topics, a decoded event has the name of the event it
    was decoded for, the text of an address can be read back, and the answer to
    a request has exactly the logs of the chain that the filter selects. *)
Class Web3Laws `{Crypto} `{Web3} (chain : list Log) : Prop := {
  event_topic_inj :: Inj (=) (=) event_topic;
  get_event_data_name ev l d : get_event_data ev l = Some d -> event_name d = ev;
  to_canonical_checksum a : to_canonical_address (to_checksum_address a) = a;
  eth_getLogs_answer n p logs d :
    eth_getLogs n p = Some (logs, d) -> forall l, l ∈ logs <-> l ∈ chain /\ log_matches p l = true
}.

(** ** Sets *)

Lemma set_union_elem {A} `{EqDecision A} (a b : list A) x : x ∈ set_union a b <-> x ∈ a \/ x ∈ b.
Proof.
  unfold set_union. rewrite elem_of_app, elem_of_filter_bool.
  destruct (bool_decide (x ∈ a)) eqn:E; cbn.
  - apply bool_decide_eq_true in E. tauto.
  - apply bool_decide_eq_false in E. naive_solver.
Qed.

Lemma set_union_nodup {A} `{EqDecision A} (a b : list A) :
  NoDup a -> NoDup b -> NoDup (set_union a b).
Proof.
  intros Ha Hb. unfold set_union. apply NoDup_app. split_and!; [done| |].
  - intros x Hx. rewrite elem_of_filter_bool, bool_decide_eq_true_2 by done.
    by intros [_ ?].
  - apply NoDup_ListNoDup, List.NoDup_filter, NoDup_ListNoDup, Hb.
Qed.

(** ** What a filter selects *)

(** A channel of a token network is followed. *)
Definition follows (f : RaidenContractFilter) (tn : bytes) (id : Z) : Prop :=
  exists ids, (tn, ids) ∈ channels_of_token_network f /\ id ∈ ids.

Definition filter_wf (f : RaidenContractFilter) : Prop := dict_wf (channels_of_token_network f).

Lemma follows_get f tn id :
  filter_wf f ->
  follows f tn id <-> id ∈ default [] (dict_get tn (channels_of_token_network f)).
Proof.
  intros Hf. split.
  - intros (ids & Hin & Hid). apply dict_get_Some in Hin; [|done]. by rewrite Hin.
  - destruct (dict_get tn (channels_of_token_network f)) as [ids|] eqn:E; cbn; [|set_solver].
    intros Hid. exists ids. split; [by apply dict_get_In|done].
Qed.

Lemma follows_union f g u tn id :
  filter_wf f -> filter_wf g -> filter_union f g = Ok u ->
  filter_wf u /\ (follows u tn id <-> follows f tn id \/ follows g tn id).
Proof.
  intros Hf Hg Hu. unfold filter_union in Hu. apply bind_Ok in Hu as (? & _ & Hu).
  injection Hu as <-. unfold filter_wf, follows at 1. cbn.
  assert (dict_wf (map (fun tn0 => (tn0, set_union
      (default [] (dict_get tn0 (channels_of_token_network f)))
      (default [] (dict_get tn0 (channels_of_token_network g)))))
    (set_union (dict_keys (channels_of_token_network f)) (dict_keys (channels_of_token_network g)))))
    as Hwf.
  { unfold dict_wf, dict_keys at 1. rewrite map_map, map_id. by apply set_union_nodup. }
  split; [exact Hwf|]. rewrite !follows_get by done. split.
  - intros (ids & Hin & Hid). apply elem_of_map in Hin as (tn0 & Heq & _).
    injection Heq as <- ->. by apply set_union_elem in Hid.
  - intros Hid. eexists. split; [|by apply set_union_elem, Hid].
    apply elem_of_map. eexists. split; [reflexivity|].
    apply set_union_elem. rewrite <- !dict_mem_keys, !dict_mem_true.
    destruct (dict_get tn (channels_of_token_network f)), (dict_get tn (channels_of_token_network g));
      cbn in Hid; set_solver.
Qed.

(** When a filter is true. *)
Lemma filter_bool_iff f :
  filter_bool f = true
  <-> (exists a, a ∈ token_network_registry_addresses f) \/ (exists a, a ∈ token_network_addresses f)
      \/ (exists tn id, follows f tn id) \/ exists a, secret_registry_address f = Some a /\ a <> [].
Proof.
  unfold filter_bool, follows.
  destruct (token_network_registry_addresses f) as [|a r]; [|split; [|done]; left; exists a; left].
  destruct (token_network_addresses f) as [|a r]; [|split; [|done]; right; left; exists a; left].
  rewrite orb_true_iff, existsb_exists. split.
  - intros [(ids & Hin & Hids)|Hs].
    + right. right. left. destruct ids as [|id ids]; [done|].
      apply list_elem_of_In, dict_values_elem in Hin as (tn & Hin). exists tn, id, (id :: ids).
      split; [done|left].
    + right. right. right. destruct (secret_registry_address f) as [[|b a]|]; try done. eauto.
  - intros [[a Ha]|[[a Ha]|[(tn & id & ids & Hin & Hid)|(a & -> & Ha)]]]; [set_solver..| |].
    + left. exists ids. split; [apply list_elem_of_In, dict_values_elem; eauto|].
      destruct ids; [set_solver|done].
    + right. by destruct a.
Qed.

Section selection.
Context `{Crypto} `{Web3} (node_address : bytes).
Implicit Types (f g u : RaidenContractFilter) (l : Log).

Definition channel_events : list EventName :=
  [CHANNEL_CLOSED; CHANNEL_SETTLED; CHANNEL_DEPOSIT; CHANNEL_WITHDRAW; CHANNEL_UNLOCKED].

Definition node_topic : option (list bytes) := Some [zero_bytes 12 ++ node_address].
Definition topic (ev : EventName) : option (list bytes) := Some [event_topic ev].

Definition logs_of (a : bytes) (wanted : list (option (list bytes))) l : Prop :=
  log_address l = to_checksum_address a /\ topics_match wanted (log_topics l) = true.

(** The logs that a filter selects, by the contract that wrote them. *)
Inductive selected f l : Prop :=
  | selected_registry a :
      a ∈ token_network_registry_addresses f -> logs_of a [topic EVENT_TOKEN_NETWORK_CREATED] l ->
      selected f l
  | selected_secret a :
      secret_registry_address f = Some a -> a <> [] ->
      ignore_secret_registry_until_channel_found f = false ->
      logs_of a [topic EVENT_SECRET_REVEALED] l -> selected f l
  | selected_network a :
      a ∈ token_network_addresses f ->
      logs_of a [topic CHANNEL_OPENED; None; node_topic] l
      \/ logs_of a [topic CHANNEL_OPENED; None; None; node_topic] l -> selected f l
  | selected_channel tn id :
      follows f tn id ->
      logs_of tn [Some (map event_topic channel_events); Some [be_encode 32 id]] l -> selected f l
  | selected_service a :
      service_registry f = Some a -> logs_of a [topic EVENT_REGISTERED_SERVICE] l -> selected f l.

Definition watched f (from_block to_block : Z) l : Prop :=
  exists p, p ∈ to_web3_filters node_address f from_block to_block /\ log_matches p l = true.

Lemma topics_match_ids evs ids ts :
  topics_match [Some evs; Some (map (be_encode 32) ids)] ts = true
  <-> exists id, id ∈ ids /\ topics_match [Some evs; Some [be_encode 32 id]] ts = true.
Proof.
  destruct ts as [|t1 [|t2 ts]]; cbn.
  - split; [done|]. by intros (? & _ & ?).
  - rewrite !andb_false_r. split; [done|]. by intros (? & _ & ?).
  - split.
    + intros [M1 [M2%bool_decide_eq_true _]%andb_true_iff]%andb_true_iff.
      apply elem_of_map in M2 as (id & -> & Hid). exists id. split; [done|].
      by rewrite M1, bool_decide_eq_true_2 by set_solver.
    + intros (id & Hid & [M1 [M2%bool_decide_eq_true _]%andb_true_iff]%andb_true_iff).
      apply list_elem_of_singleton in M2 as ->.
      rewrite M1, bool_decide_eq_true_2 by (apply elem_of_map; eauto). done.
Qed.

Lemma log_matches_at from_block to_block addresses wanted l :
  log_matches (mkFilterParams from_block to_block (map to_checksum_address addresses) wanted) l = true
  <-> from_block <= log_block_number l <= to_block /\ exists a, a ∈ addresses /\ logs_of a wanted l.
Proof.
  unfold log_matches, logs_of. cbn. rewrite !andb_true_iff, !Z.leb_le, bool_decide_eq_true.
  rewrite elem_of_map. naive_solver.
Qed.

(** The characterization of [to_web3_filters]. *)
Lemma watched_iff f from_block to_block l :
  watched f from_block to_block l
  <-> from_block <= log_block_number l <= to_block /\ selected f l.
Proof.
  unfold watched, to_web3_filters. setoid_rewrite elem_of_app. setoid_rewrite elem_of_app.
  setoid_rewrite elem_of_app. setoid_rewrite elem_of_app. split.
  - intros (p & [Hp|[Hp|[Hp|[Hp|Hp]]]] & Hm).
    + destruct (token_network_registry_addresses f) as [|a0 r] eqn:E; [set_solver|].
      apply list_elem_of_singleton in Hp as ->. apply log_matches_at in Hm as (Hr & a & Ha & Hl).
      split; [done|]. eapply selected_registry; [by rewrite E|done].
    + destruct (secret_registry_address f) as [[|b r]|] eqn:E; [set_solver| |set_solver].
      destruct (ignore_secret_registry_until_channel_found f) eqn:Ei; [set_solver|].
      apply list_elem_of_singleton in Hp as ->. apply log_matches_at in Hm as (Hr & a & Ha & Hl).
      apply list_elem_of_singleton in Ha as ->. split; [done|]. by eapply selected_secret.
    + destruct (token_network_addresses f) as [|a0 r] eqn:E; [set_solver|].
      apply elem_of_cons in Hp as [->|[->|?]%elem_of_cons]; [| |set_solver];
        apply log_matches_at in Hm as (Hr & a & Ha & Hl);
        (split; [done|]; eapply selected_network; [by rewrite E|auto]).
    + apply elem_of_map in Hp as ([tn ids] & -> & Hin).
      apply log_matches_at in Hm as (Hr & a & Ha & Hadr & Ht). apply list_elem_of_singleton in Ha as ->.
      cbn [fst snd] in *. apply topics_match_ids in Ht as (id & Hid & Ht). split; [done|].
      eapply selected_channel; [by exists ids|by split].
    + destruct (service_registry f) as [a0|] eqn:E; [|set_solver].
      apply list_elem_of_singleton in Hp as ->. apply log_matches_at in Hm as (Hr & a & Ha & Hl).
      apply list_elem_of_singleton in Ha as ->. split; [done|]. by eapply selected_service.
  - intros [Hr [a Ha Hl|a Ha Hne Hi Hl|a Ha Hl|tn id (ids & Hin & Hid) Hl|a Ha Hl]].
    + destruct (token_network_registry_addresses f) as [|a0 r] eqn:E; [set_solver|].
      eexists. split; [left; by apply list_elem_of_singleton|]. apply log_matches_at. eauto.
    + rewrite Ha, Hi. destruct a as [|b r]; [done|].
      eexists. split; [right; left; by apply list_elem_of_singleton|]. apply log_matches_at.
      split; [done|]. eexists. split; [by apply list_elem_of_singleton|done].
    + destruct (token_network_addresses f) as [|a0 r] eqn:E; [set_solver|].
      destruct Hl as [Hl|Hl]; eexists; (split; [right; right; left|apply log_matches_at; eauto]);
        [apply elem_of_cons; left; reflexivity|apply elem_of_cons; right; by apply list_elem_of_singleton].
    + eexists. split; [right; right; right; left; apply elem_of_map; eexists; split; [reflexivity|exact Hin]|].
      apply log_matches_at. split; [done|]. exists tn. split; [by apply list_elem_of_singleton|].
      destruct Hl as [Hadr Ht]. split; [done|]. apply topics_match_ids. by exists id.
    + rewrite Ha. eexists. split; [right; right; right; right; by apply list_elem_of_singleton|].
      apply log_matches_at. split; [done|]. eexists. split; [by apply list_elem_of_singleton|done].
Qed.
(** ** Unions *)

(** The filters that [new_filters_from_events] makes. *)
Record child_filter g : Prop := {
  child_wf : filter_wf g;
  child_registries : token_network_registry_addresses g = [];
  child_secret : secret_registry_address g = None;
  child_service : service_registry g = None
}.

Lemma union_child f g :
  child_filter g -> exists u, filter_union f g = Ok u
    /\ (forall a, a ∈ token_network_registry_addresses u <-> a ∈ token_network_registry_addresses f)
    /\ (forall a, a ∈ token_network_addresses u
                  <-> a ∈ token_network_addresses f \/ a ∈ token_network_addresses g)
    /\ secret_registry_address u = secret_registry_address f
    /\ ignore_secret_registry_until_channel_found u
       = ignore_secret_registry_until_channel_found f
         && ignore_secret_registry_until_channel_found g
    /\ service_registry u = service_registry f.
Proof.
  intros [_ Hr Hs Hv]. unfold filter_union. rewrite Hs, Hv, Hr.
  destruct (secret_registry_address f) eqn:Es; cbn; eexists; (split; [reflexivity|]); cbn;
    split_and!; try done; try (intros a; rewrite set_union_elem; set_solver);
    by destruct (service_registry f).
Qed.

(** The union selects what one of the filters selects, and the logs of the
    secret registry once it is no longer ignored. *)
Lemma union_selected f g u l :
  filter_wf f -> child_filter g -> filter_union f g = Ok u ->
  filter_wf u
  /\ (selected f l -> selected u l) /\ (selected g l -> selected u l)
  /\ (selected u l -> selected f l \/ selected g l
       \/ ignore_secret_registry_until_channel_found f = true
          /\ exists a, secret_registry_address f = Some a /\ log_address l = to_checksum_address a).
Proof.
  intros Hf Hg Hu. destruct (union_child f g Hg) as (u' & Hu' & Ur & Un & Us & Ui & Uv).
  rewrite Hu in Hu'. injection Hu' as <-.
  pose proof (fun tn id => follows_union f g u tn id Hf (child_wf _ Hg) Hu) as Hch.
  split; [by destruct (Hch [] 0)|]. split_and!.
  - intros [a Ha Hl|a Ha Hne Hi Hl|a Ha Hl|tn id Hin Hl|a Ha Hl].
    + eapply selected_registry; [by apply Ur|done].
    + eapply selected_secret; [by rewrite Us|done|by rewrite Ui, Hi|done].
    + eapply selected_network; [apply Un; eauto|done].
    + eapply selected_channel; [apply Hch; eauto|done].
    + eapply selected_service; [by rewrite Uv|done].
  - intros [a Ha Hl|a Ha Hne Hi Hl|a Ha Hl|tn id Hin Hl|a Ha Hl].
    + rewrite (child_registries _ Hg) in Ha. set_solver.
    + by rewrite (child_secret _ Hg) in Ha.
    + eapply selected_network; [apply Un; eauto|done].
    + eapply selected_channel; [apply Hch; eauto|done].
    + by rewrite (child_service _ Hg) in Ha.
  - intros [a Ha Hl|a Ha Hne Hi Hl|a Ha Hl|tn id Hin Hl|a Ha Hl].
    + left. eapply selected_registry; [by apply Ur|done].
    + rewrite Us in Ha. destruct (ignore_secret_registry_until_channel_found f) eqn:Ef.
      * right. right. split; [done|]. exists a. split; [done|]. apply Hl.
      * left. by eapply selected_secret.
    + apply Un in Ha as [Ha|Ha]; [left|right; left]; by eapply selected_network.
    + apply Hch in Hin as [Hin|Hin]; [left|right; left]; by eapply selected_channel.
    + rewrite Uv in Ha. left. by eapply selected_service.
Qed.

(** ** New filters *)

Lemma foldl_created evs s a :
  a ∈ foldl (fun s e => set_union s (created_network e)) s evs
  <-> a ∈ s \/ exists e, e ∈ evs /\ a ∈ created_network e.
Proof.
  revert s. induction evs as [|e evs IH]; intros s; cbn; [set_solver|].
  rewrite IH, set_union_elem. set_solver.
Qed.

(** The channel that an event opens. *)
Definition opened_channel (e : DecodedEvent) : option (bytes * Z) :=
  match de_event_data e with
  | ChannelOpened id _ _ _ => Some (de_originating_contract e, id)
  | _ => None
  end.

Lemma follow_channel_spec f e tn id :
  filter_wf f ->
  filter_wf (follow_channel f e)
  /\ (follows (follow_channel f e) tn id <-> follows f tn id \/ opened_channel e = Some (tn, id)).
Proof.
  intros Hf. unfold follow_channel, opened_channel.
  destruct (de_event_data e) as [| i p1 p2 t | | | | | | | | |];
    try (split; [done|]; split; [by left|by intros [?|?]]).
  assert (filter_wf (mkRaidenContractFilter (token_network_registry_addresses f)
    (token_network_addresses f)
    (dict_set (de_originating_contract e)
       (set_union (default [] (dict_get (de_originating_contract e) (channels_of_token_network f))) [i])
       (channels_of_token_network f)) (secret_registry_address f) false (service_registry f))) as Hwf
    by (unfold filter_wf; cbn; by apply dict_wf_set).
  split; [exact Hwf|]. rewrite !follows_get by done. cbn.
  destruct (decide (tn = de_originating_contract e)) as [->|Hne].
  - rewrite dict_get_set_eq. cbn. rewrite set_union_elem, list_elem_of_singleton. naive_solver.
  - rewrite dict_get_set_ne by done. naive_solver.
Qed.

Lemma follow_channels_spec evs f :
  filter_wf f ->
  let g := foldl follow_channel f evs in
  filter_wf g /\ token_network_registry_addresses g = token_network_registry_addresses f
  /\ token_network_addresses g = token_network_addresses f
  /\ secret_registry_address g = secret_registry_address f
  /\ service_registry g = service_registry f
  /\ forall tn id, follows g tn id
       <-> follows f tn id \/ exists e, e ∈ evs /\ opened_channel e = Some (tn, id).
Proof.
  revert f. induction evs as [|e evs IH]; intros f Hf; cbn.
  - split_and!; try done. set_solver.
  - destruct (follow_channel_spec f e [] 0 Hf) as [Hwf _].
    destruct (IH _ Hwf) as (I1 & I2 & I3 & I4 & I5 & I6).
    rewrite I2, I3, I4, I5.
    split; [done|]. split_and!; try (unfold follow_channel; by destruct (de_event_data e)).
    intros tn id. rewrite I6. destruct (follow_channel_spec f e tn id Hf) as [_ ->]. set_solver.
Qed.

Lemma new_filters_spec evs :
  let g := new_filters_from_events evs in
  child_filter g
  /\ (forall a, a ∈ token_network_addresses g <-> exists e, e ∈ evs /\ a ∈ created_network e)
  /\ (forall tn id, follows g tn id <-> exists e, e ∈ evs /\ opened_channel e = Some (tn, id)).
Proof.
  unfold new_filters_from_events.
  destruct (follow_channels_spec evs (mkRaidenContractFilter []
    (foldl (fun s e => set_union s (created_network e)) [] evs) [] None true None))
    as (I1 & I2 & I3 & I4 & I5 & I6); [apply dict_wf_nil|].
  split; [done|]. split.
  - intros a. rewrite I3. cbn. rewrite foldl_created. set_solver.
  - intros tn id. rewrite I6. split; [|by right]. intros [(ids & Hin & _)|?]; [|done].
    cbn in Hin. set_solver.
Qed.
End selection.

(** ** Rounds *)

Section polling.
Context `{Crypto} `{FloatPow} `{FloatLog} `{Web3} (chain : list Log) `{!Web3Laws chain}.
Context (chain_id : Z) (node_address : bytes).
Implicit Types (f g u : RaidenContractFilter) (l : Log) (s : BlockchainEvents).

Local Abbreviation watched := (watched node_address).
Local Abbreviation selected := (selected node_address).

(** The event of a log. *)
Definition decodes l (e : DecodedEvent) : Prop :=
  exists abi, decode_raiden_event_to_internal chain_id abi l = Ok e.

Lemma request_logs_answer params n d n' logs d' :
  request_logs params n d = (n', Ok (logs, d')) ->
  forall l, l ∈ logs <-> l ∈ chain /\ exists p, p ∈ params /\ log_matches p l = true.
Proof.
  revert n d logs d'. induction params as [|p params IH]; intros n d logs d'; cbn.
  - intros [= _ <- _]. set_solver.
  - destruct (eth_getLogs n p) as [[new dur]|] eqn:E; [|done].
    destruct (request_logs params (S n) (Qmax_py d dur)) as [n1 r] eqn:Er.
    intros [= -> Hr]. apply bind_Ok in Hr as ([logs1 d1] & -> & Hr). injection Hr as <- _.
    intros l. rewrite elem_of_app, (eth_getLogs_answer _ _ _ _ E), (IH _ _ _ _ Er).
    set_solver.
Qed.

Lemma decoded_name l e :
  decodes l e ->
  exists t ts, log_topics l = t :: ts /\ event_topic (event_name (de_event_data e)) = t.
Proof.
  intros (abi & Hd). unfold decode_raiden_event_to_internal in Hd.
  apply bind_Ok in Hd as (args & Hdec & Hd). destruct args as [args|]; [|done].
  do 3 apply bind_Ok in Hd as (? & _ & Hd). injection Hd as <-. cbn.
  unfold decode_event in Hdec. destruct (log_topics l) as [|t ts]; [done|]. exists t, ts.
  split; [done|]. destruct (last _) as [ev|] eqn:El; [|done]. injection Hdec as Hdec.
  apply last_Some_elem_of, elem_of_filter_bool in El as [_ Ht%bool_decide_eq_true].
  rewrite <- Ht, <- (get_event_data_name _ _ _ Hdec). by destruct args.
Qed.

(** The names of the events that a filter selects. *)
Lemma logs_of_name a evs wanted l e :
  logs_of a (Some (map event_topic evs) :: wanted) l -> decodes l e ->
  event_name (de_event_data e) ∈ evs.
Proof.
  intros [_ Hm] Hd. destruct (decoded_name l e Hd) as (t & ts & E & Ht). rewrite E in Hm. cbn in Hm.
  apply andb_true_iff in Hm as [Hm%bool_decide_eq_true _].
  apply elem_of_map in Hm as (ev & Hev & Hin). rewrite <- Ht in Hev.
  apply (inj event_topic) in Hev. by rewrite Hev.
Qed.

(** How many rounds a filter can still lead to: registries create token
    networks, token networks open channels, channels lead to nothing. *)
Definition level f : nat :=
  if filter_bool f then
    match token_network_registry_addresses f, secret_registry_address f, service_registry f with
    | [], None, None => match token_network_addresses f with [] => 1 | _ => 2 end
    | _, _, _ => 3
    end
  else 0.

Lemma level_child g : child_filter g -> (level g <= 2)%nat.
Proof.
  intros [_ Hr Hs Hv]. unfold level. rewrite Hr, Hs, Hv.
  destruct (filter_bool g), (token_network_addresses g); lia.
Qed.

Lemma no_child g :
  child_filter g -> token_network_addresses g = [] -> (forall tn id, ~ follows g tn id) ->
  filter_bool g = false.
Proof.
  intros [_ Hr Hs _] Hn Hf. apply not_true_iff_false. rewrite filter_bool_iff, Hr, Hn, Hs.
  intros [[a Ha]|[[a Ha]|[(tn & id & Hin)|(a & ? & _)]]]; [set_solver..| |done]. by eapply Hf.
Qed.

(** The filter for the new contracts of a round leads to fewer rounds. *)
Lemma level_decreases f from_block to_block (logs : list Log) evs :
  (forall l, l ∈ logs -> watched f from_block to_block l) ->
  (forall e, e ∈ evs -> exists l, l ∈ logs /\ decodes l e) ->
  filter_bool f = true -> (level (new_filters_from_events evs) < level f)%nat.
Proof.
  intros Hw Hd Hb. destruct (new_filters_spec evs) as (Hc & Hn & Hch).
  pose proof (level_child _ Hc) as Hle.
  assert (Hname : forall e, e ∈ evs -> exists l, selected f l /\ decodes l e).
  { intros e He. destruct (Hd e He) as (l & Hl & Hdec). exists l. split; [|done].
    by apply (watched_iff node_address f from_block to_block l), Hw. }
  unfold level at 2. rewrite Hb.
  destruct (token_network_registry_addresses f) as [|a r] eqn:Er; [|lia].
  destruct (secret_registry_address f) eqn:Es; [lia|]. destruct (service_registry f) eqn:Ev; [lia|].
  assert (Hnone : token_network_addresses (new_filters_from_events evs) = []).
  { apply elem_of_nil_inv. intros a Ha. apply Hn in Ha as (e & He & Ha).
    destruct (Hname e He) as (l & Hl & Hdec). unfold created_network in Ha.
    assert (event_name (de_event_data e) = EVENT_TOKEN_NETWORK_CREATED) as Hnm
      by (destruct (de_event_data e); set_solver).
    destruct Hl as [b Hb' Hl|b Hb' _ _ Hl|b Hb' [Hl|Hl]|tn id Hin Hl|b Hb' Hl].
    - rewrite Er in Hb'. set_solver.
    - congruence.
    - apply (logs_of_name _ [CHANNEL_OPENED]) with (e := e) in Hl; [|done]. rewrite Hnm in Hl. set_solver.
    - apply (logs_of_name _ [CHANNEL_OPENED]) with (e := e) in Hl; [|done]. rewrite Hnm in Hl. set_solver.
    - apply (logs_of_name _ channel_events) with (e := e) in Hl; [|done]. rewrite Hnm in Hl.
      unfold channel_events in Hl. set_solver.
    - congruence. }
  unfold level. destruct (token_network_addresses f) as [|b r] eqn:En.
  - rewrite (no_child _ Hc Hnone); [lia|]. intros tn id (e & He & Ho)%Hch.
    destruct (Hname e He) as (l & Hl & Hdec). unfold opened_channel in Ho.
    assert (event_name (de_event_data e) = CHANNEL_OPENED) as Hnm
      by (by destruct (de_event_data e)).
    destruct Hl as [b Hb' Hl|b Hb' _ _ Hl|b Hb' Hl|tn' id' Hin Hl|b Hb' Hl].
    + rewrite Er in Hb'. set_solver.
    + congruence.
    + rewrite En in Hb'. set_solver.
    + apply (logs_of_name _ channel_events) with (e := e) in Hl; [|done]. rewrite Hnm in Hl.
      unfold channel_events in Hl. set_solver.
    + congruence.
  - rewrite Hnone, (child_registries _ Hc), (child_secret _ Hc), (child_service _ Hc).
    clear. destruct (filter_bool (new_filters_from_events evs)); [|]; cbn; lia.
Qed.

(** ** The loop *)

(** The filter has grown. *)
Record grows f g : Prop := {
  grows_wf : filter_wf g;
  grows_selected l : selected f l -> selected g l;
  grows_registries a :
    a ∈ token_network_registry_addresses f -> a ∈ token_network_registry_addresses g;
  grows_networks a : a ∈ token_network_addresses f -> a ∈ token_network_addresses g;
  grows_channels tn id : follows f tn id -> follows g tn id;
  grows_secret : secret_registry_address g = secret_registry_address f;
  grows_ignore : ignore_secret_registry_until_channel_found g = true ->
                 ignore_secret_registry_until_channel_found f = true
}.

Lemma grows_refl f : filter_wf f -> grows f f.
Proof. by split. Qed.

Lemma grows_trans f g u : grows f g -> grows g u -> grows f u.
Proof. intros [A1 A2 A3 A4 A5 A6 A7] [B1 B2 B3 B4 B5 B6 B7]. split; eauto; congruence. Qed.

Lemma union_grows f g u : filter_wf f -> child_filter g -> filter_union f g = Ok u -> grows f u.
Proof.
  intros Hf Hg Hu. destruct (union_child f g Hg) as (u' & Hu' & Ur & Un & Us & Ui & Uv).
  rewrite Hu in Hu'. injection Hu' as <-. split.
  - by destruct (follows_union f g u [] 0 Hf (child_wf _ Hg) Hu).
  - intros l. by destruct (union_selected node_address f g u l Hf Hg Hu) as (_ & ? & _).
  - intros a Ha. by apply Ur.
  - intros a Ha. apply Un. by left.
  - intros tn id Hin. apply (follows_union f g u tn id Hf (child_wf _ Hg) Hu). by left.
  - done.
  - rewrite Ui. by intros [? _]%andb_true_iff.
Qed.

(** The contracts that an event creates are followed. *)
Definition tracked f (e : DecodedEvent) : Prop :=
  (forall a, a ∈ created_network e -> a ∈ token_network_addresses f)
  /\ forall tn id, opened_channel e = Some (tn, id) -> follows f tn id.

Lemma tracked_grows f g e : grows f g -> tracked f e -> tracked g e.
Proof. intros [_ _ _ Hn Hc _ _] [T1 T2]. split; eauto. Qed.

Lemma union_tracks f evs u e :
  filter_wf f -> filter_union f (new_filters_from_events evs) = Ok u -> e ∈ evs -> tracked u e.
Proof.
  intros Hf Hu He. destruct (new_filters_spec evs) as (Hc & Hn & Hch).
  destruct (union_child f _ Hc) as (u' & Hu' & _ & Un & _). rewrite Hu in Hu'. injection Hu' as <-.
  split.
  - intros a Ha. apply Un. right. apply Hn. eauto.
  - intros tn id Ho. apply (follows_union f _ u tn id Hf (child_wf _ Hc) Hu). right. apply Hch. eauto.
Qed.

(** A log of the secret registry while it is ignored. *)
Definition ignored_secret f l : Prop :=
  ignore_secret_registry_until_channel_found f = true
  /\ exists a, secret_registry_address f = Some a /\ log_address l = to_checksum_address a.

(** What the rounds from the filter [f] on, with the state [s], add up to. *)
Record rounds_result (from_block to_block : Z) f s (s' : BlockchainEvents) (evs : list DecodedEvent) :
    Prop := {
  rr_complete l :
    filter_bool f = true \/ service_registry f = None ->
    l ∈ chain -> watched f from_block to_block l -> exists e, e ∈ evs /\ decodes l e;
  rr_closed l :
    l ∈ chain -> watched (event_filter s') from_block to_block l ->
    selected (event_filter s) l \/ (exists e, e ∈ evs /\ decodes l e)
    \/ ignored_secret (event_filter s) l;
  rr_sound e :
    e ∈ evs ->
    exists l, l ∈ chain /\ watched (event_filter s') from_block to_block l /\ decodes l e;
  rr_tracked e : e ∈ evs -> tracked (event_filter s') e
}.

Lemma round_decodes abis logs decoded :
  py_map (decode_log chain_id abis) logs = Ok decoded ->
  (forall l, l ∈ logs -> exists e, e ∈ sort_events decoded /\ decodes l e)
  /\ forall e, e ∈ sort_events decoded -> exists l, l ∈ logs /\ decodes l e.
Proof.
  intros Hm. apply py_map_Forall2 in Hm.
  assert (forall l e, decode_log chain_id abis l = Ok e -> decodes l e) as Hdec.
  { intros l e. unfold decode_log. destruct (dict_get _ abis) as [abi|]; [|done]. by exists abi. }
  unfold sort_events. setoid_rewrite py_sort_elem. split.
  - intros l (i & Hi)%list_elem_of_lookup. destruct (Forall2_lookup_l _ _ _ _ _ Hm Hi) as (e & He & Hd).
    exists e. split; [by eapply list_elem_of_lookup_2|auto].
  - intros e (i & Hi)%list_elem_of_lookup. destruct (Forall2_lookup_r _ _ _ _ _ Hm Hi) as (l & Hl & Hd).
    exists l. split; [by eapply list_elem_of_lookup_2|auto].
Qed.

(** A filter that is false selects nothing but the service registry. *)
Lemma falsy_selects_nothing f l :
  filter_bool f = false -> service_registry f = None -> ~ selected f l.
Proof.
  intros Hb Hv Hl. apply not_true_iff_false in Hb. apply Hb, filter_bool_iff.
  destruct Hl; try congruence; eauto 10.
Qed.

Lemma rounds_none from_block to_block f s :
  (forall l, l ∈ chain -> watched f from_block to_block l ->
     filter_bool f = true \/ service_registry f = None -> False) ->
  rounds_result from_block to_block f s s [].
Proof.
  intros Hno. split.
  - intros l Hs Hl Hw. by destruct (Hno l Hl Hw Hs).
  - intros l _ Hw. left. by apply watched_iff in Hw as [_ ?].
  - intros e He. set_solver.
  - intros e He. set_solver.
Qed.

(** One more round before the others. *)
Lemma rounds_cons from_block to_block f s u s' (logs : list Log) evs1 evs2 :
  (forall l, l ∈ logs <-> l ∈ chain /\ watched f from_block to_block l) ->
  (forall l, l ∈ logs -> exists e, e ∈ evs1 /\ decodes l e) ->
  (forall e, e ∈ evs1 -> exists l, l ∈ logs /\ decodes l e) ->
  filter_wf (event_filter s) -> (forall l, selected f l -> selected (event_filter s) l) ->
  filter_union (event_filter s) (new_filters_from_events evs1) = Ok u ->
  grows u (event_filter s') ->
  (forall s1, event_filter s1 = u ->
     rounds_result from_block to_block (new_filters_from_events evs1) s1 s' evs2) ->
  rounds_result from_block to_block f s s' (evs1 ++ evs2).
Proof.
  intros Hlogs Hdec Hsound Hwf Hsub Hu Hg Hrest.
  destruct (new_filters_spec evs1) as (Hc & _ & _).
  pose proof (union_grows _ _ _ Hwf Hc Hu) as Hgu.
  destruct (Hrest (mkBlockchainEvents 0 u (block_batch_size_adjuster s) [] 0) eq_refl)
    as [C1 C2 C3 C4]. cbn in C2. split.
  - intros l _ Hl Hw. destruct (Hdec l) as (e & He & Hd); [by apply Hlogs|].
    exists e. split; [apply elem_of_app; by left|done].
  - intros l Hl Hw. destruct (C2 l Hl Hw) as [Hs|[(e & He & Hd)|Hi]].
    + destruct (union_selected node_address _ _ _ l Hwf Hc Hu) as (_ & _ & _ & Hcase).
      destruct (Hcase Hs) as [?|[Hn|?]]; [by left| |by right; right].
      destruct (C1 l) as (e & He & Hd); [right; apply Hc|done| |].
      { apply watched_iff. by apply watched_iff in Hw as [? _]. }
      right. left. exists e. split; [apply elem_of_app; by right|done].
    + right. left. exists e. split; [apply elem_of_app; by right|done].
    + right. right. destruct Hi as [Hi (a & Ha & Hadr)]. split; [by apply (grows_ignore _ _ Hgu)|].
      exists a. by rewrite <- (grows_secret _ _ Hgu).
  - intros e [He|He]%elem_of_app; [|by apply C3]. destruct (Hsound e He) as (l & Hl & Hd).
    apply Hlogs in Hl as [Hl Hw]. exists l. split; [done|]. split; [|done].
    apply watched_iff in Hw as [Hr Hs]. apply watched_iff. split; [done|].
    by apply (grows_selected _ _ Hg), (grows_selected _ _ Hgu), Hsub.
  - intros e [He|He]%elem_of_app; [|by apply C4].
    eapply tracked_grows; [exact Hg|]. by eapply union_tracks.
Qed.

(** A result with the filter that was there before. *)
Ltac same_filter :=
  split; [reflexivity|]; split; [reflexivity|]; split; [reflexivity|]; split; [by apply grows_refl|].

Lemma query_loop_spec rounds from_block to_block f d result s :
  (level f <= rounds)%nat -> filter_wf (event_filter s) ->
  (forall l, selected f l -> selected (event_filter s) l) ->
  exists s' r,
    query_loop chain_id node_address rounds from_block to_block f d result s = Some (s', r)
    /\ last_fetched_block s' = last_fetched_block s
    /\ block_batch_size_adjuster s' = block_batch_size_adjuster s
    /\ grows (event_filter s) (event_filter s')
    /\ forall events d', r = Ok (events, d') ->
         exists evs, events = result ++ evs /\ rounds_result from_block to_block f s s' evs.
Proof.
  revert f d result s. induction rounds as [|rounds IH]; intros f d result s Hlevel Hwf Hsub.
  all: destruct (filter_bool f) eqn:Hb;
    [|exists s, (Ok (result, d)); cbn; rewrite Hb; same_filter;
      intros events d' [= <- <-]; exists []; rewrite app_nil_r; split; [done|];
      apply rounds_none; intros l _ [_ Hs]%watched_iff [?|Hv]; [congruence|];
      by eapply falsy_selects_nothing].
  - unfold level in Hlevel. rewrite Hb in Hlevel.
    destruct (token_network_registry_addresses f), (secret_registry_address f), (service_registry f),
      (token_network_addresses f); lia.
  - cbn [query_loop]. rewrite Hb.
    destruct (request_logs _ _ _) as [n answer] eqn:Ereq.
    set (s1 := set_requests n s).
    destruct answer as [[[|log0 logs0] d1]|e]; [| |exists s1, (Raise e); same_filter; done].
    + exists s1, (Ok (result, d1)). same_filter.
      intros events d' [= <- <-]. exists []. rewrite app_nil_r. split; [done|].
      assert (rounds_result from_block to_block f s1 s1 []) as [R1 R2 R3 R4]; [|by split].
      apply rounds_none. intros l Hl Hw _.
      assert (l ∈ ([] : list Log)) as Hin by (by apply (request_logs_answer _ _ _ _ _ _ Ereq)). set_solver.
    + set (logs := log0 :: logs0) in *.
      destruct (py_map (decode_log chain_id (address_to_abi s1)) logs) as [decoded|e] eqn:Edec;
        [|exists s1, (Raise e); same_filter; done].
      set (evs1 := sort_events decoded). destruct (round_decodes _ _ _ Edec) as [Hdec Hsound].
      fold evs1 in Hdec, Hsound. destruct (new_filters_spec evs1) as (Hc & _ & _).
      destruct (union_child (event_filter s1) _ Hc) as (u & Hu & _). rewrite Hu.
      assert (forall l, l ∈ logs <-> l ∈ chain /\ watched f from_block to_block l) as Hlogs
        by exact (request_logs_answer _ _ _ _ _ _ Ereq).
      assert (grows (event_filter s) u) as Hgu by exact (union_grows _ _ _ Hwf Hc Hu).
      destruct (IH (new_filters_from_events evs1) d1 (result ++ evs1)
        (track u (new_filters_from_events evs1) s1)) as (s' & r & Hrun & L1 & L2 & L3 & L4).
      * pose proof (level_decreases f from_block to_block logs evs1) as Hdecr.
        assert (level (new_filters_from_events evs1) < level f)%nat; [|lia].
        apply Hdecr; [by intros l [_ ?]%Hlogs|done|done].
      * apply Hgu.
      * intros l Hl. by apply (union_selected node_address _ _ _ l Hwf Hc Hu).
      * exists s', r. split; [exact Hrun|]. split; [exact L1|]. split; [exact L2|].
        split; [by apply (grows_trans _ _ _ Hgu)|]. intros events d' ->.
        destruct (L4 events d' eq_refl) as (evs2 & -> & [R1 R2 R3 R4]).
        exists (evs1 ++ evs2). split; [by rewrite app_assoc|].
        eapply (rounds_cons _ _ f s u s' logs); try done. intros sx Hsx. split; try done.
        by rewrite Hsx.
Qed.

Lemma level_le f : (level f <= QUERY_ROUNDS)%nat.
Proof.
  unfold level, QUERY_ROUNDS. destruct (filter_bool f); [|lia].
  destruct (token_network_registry_addresses f), (secret_registry_address f), (service_registry f),
    (token_network_addresses f); lia.
Qed.

Lemma query_and_track_spec from_block to_block s :
  filter_wf (event_filter s) ->
  exists s' r,
    query_loop chain_id node_address QUERY_ROUNDS from_block to_block (event_filter s) 0%Q [] s
      = Some (s', r)
    /\ query_and_track chain_id node_address from_block to_block s = (s', r)
    /\ last_fetched_block s' = last_fetched_block s
    /\ block_batch_size_adjuster s' = block_batch_size_adjuster s
    /\ grows (event_filter s) (event_filter s')
    /\ forall events d, r = Ok (events, d) ->
         rounds_result from_block to_block (event_filter s) s s' events.
Proof.
  intros Hwf. destruct (query_loop_spec QUERY_ROUNDS from_block to_block (event_filter s) 0%Q [] s)
    as (s' & r & Hrun & L1 & L2 & L3 & L4); [apply level_le|done|done|].
  exists s', r. unfold query_and_track. rewrite Hrun. split_and!; try done.
  intros events d Hr. by destruct (L4 _ _ Hr) as (evs & -> & Hres).
Qed.

(** ** Batches *)

Lemma batch_size_bounds a n :
  bbs_min (block_batch_size_config a) <= bbs_max (block_batch_size_config a) ->
  batch_size a = Ok n ->
  bbs_min (block_batch_size_config a) <= n <= bbs_max (block_batch_size_config a).
Proof.
  unfold batch_size. intros Hc Hn. apply bind_Ok in Hn as (? & _ & Hn).
  apply bind_Ok in Hn as (? & _ & Hn). injection Hn as <-. lia.
Qed.

Lemma increase_config a a' : increase a = Ok a' -> block_batch_size_config a' = block_batch_size_config a.
Proof.
  unfold increase. intros Hok. apply bind_Ok in Hok as (? & _ & Hok). case_match; [by simplify_eq|].
  apply bind_Ok in Hok as (? & _ & Hok). by injection Hok as <-.
Qed.

Lemma decrease_config a a' : decrease a = Ok a' -> block_batch_size_config a' = block_batch_size_config a.
Proof.
  unfold decrease. intros Hok. do 3 apply bind_Ok in Hok as (? & _ & Hok). by injection Hok as <-.
Qed.

Lemma adjust_config a target from_block d a' :
  adjust_batch_size a target from_block d = Ok a' ->
  block_batch_size_config a' = block_batch_size_config a.
Proof.
  unfold adjust_batch_size. intros Hok. apply bind_Ok in Hok as (? & _ & Hok).
  repeat case_match; simplify_eq; eauto using increase_config, decrease_config.
Qed.

(** The configuration of the batch sizes is usable. *)
Definition config_ok s : Prop :=
  let c := block_batch_size_config (block_batch_size_adjuster s) in
  0 <= bbs_min c <= bbs_max c.

(** The state from which blocks are fetched. *)
Record ready s : Prop := {
  ready_wf : filter_wf (event_filter s);
  ready_filter : filter_bool (event_filter s) = true;
  ready_config : config_ok s
}.

Lemma grows_bool f g : grows f g -> filter_bool f = true -> filter_bool g = true.
Proof.
  intros [_ _ Hr Hn Hc Hs _]. rewrite !filter_bool_iff, Hs. naive_solver.
Qed.

(** The events of a batch: those of the logs that the filters select at the end,
    whose contracts are all followed.  Only logs of the secret registry may be
    missing, when it was ignored at the start. *)
Record batch_events (from_block to_block : Z) s (s' : BlockchainEvents) (events : list DecodedEvent) :
    Prop := {
  be_complete l :
    l ∈ chain -> watched (event_filter s') from_block to_block l ->
    (exists e, e ∈ events /\ decodes l e) \/ ignored_secret (event_filter s) l;
  be_sound e :
    e ∈ events ->
    exists l, l ∈ chain /\ watched (event_filter s') from_block to_block l /\ decodes l e;
  be_tracked e : e ∈ events -> tracked (event_filter s') e
}.

Lemma rounds_batch from_block to_block s s' events :
  filter_bool (event_filter s) = true ->
  rounds_result from_block to_block (event_filter s) s s' events ->
  batch_events from_block to_block s s' events.
Proof.
  intros Hb [C1 C2 C3 C4]. split; try done. intros l Hl Hw.
  destruct (C2 l Hl Hw) as [Hs|[?|?]]; [|by left|by right].
  left. apply C1; [by left|done|]. apply watched_iff. by apply watched_iff in Hw as [? _].
Qed.

(** A poll of the next batch. *)
Lemma fetch_logs_in_batch_spec target s s' r :
  ready s -> fetch_logs_in_batch chain_id node_address target s = (s', r) ->
  ready s' /\ grows (event_filter s) (event_filter s')
  /\ match r with
     | Ok (Some poll) =>
         last_fetched_block s < last_fetched_block s' <= target
         /\ polled_block_number poll = last_fetched_block s'
         /\ last_fetched_block s'
            <= last_fetched_block s + 1
               + bbs_max (block_batch_size_config (block_batch_size_adjuster s))
         /\ batch_events (last_fetched_block s + 1) (last_fetched_block s') s s' (poll_events poll)
     | _ => last_fetched_block s' = last_fetched_block s
     end.
Proof.
  intros [Hwf Hb Hc] Hrun.
  unfold fetch_logs_in_batch in Hrun.
  destruct (target <=? last_fetched_block s) eqn:Et.
  { injection Hrun as <- <-. split; [by split|]. split; [by apply grows_refl|done]. }
  apply Z.leb_gt in Et.
  destruct (batch_size (block_batch_size_adjuster s)) as [size|e] eqn:Es;
    [|injection Hrun as <- <-; split; [by split|]; split; [by apply grows_refl|done]].
  apply batch_size_bounds in Es; [|apply Hc]. unfold config_ok in Hc.
  set (to_block := Z.min (last_fetched_block s + 1 + size) target) in *.
  destruct (query_and_track_spec (last_fetched_block s + 1) to_block s Hwf)
    as (s1 & r1 & _ & Hq & Q1 & Q2 & Q3 & Q4). rewrite Hq in Hrun.
  assert (ready s1) as Hr1
    by (split; [apply Q3|by apply (grows_bool _ _ Q3)|unfold config_ok; by rewrite Q2]).
  assert (forall n a, block_batch_size_config a
            = block_batch_size_config (block_batch_size_adjuster s1) ->
          ready (set_last_fetched_block n (set_adjuster a s1))) as Hset.
  { intros n a Ha. destruct Hr1 as [R1 R2 R3]. split; try done. unfold config_ok in *. cbn.
    by rewrite Ha. }
  destruct r1 as [[events d]|e].
  - destruct (adjust_batch_size _ target _ d) as [a|e] eqn:Ea;
      [|injection Hrun as <- <-; by rewrite Q1]. apply adjust_config in Ea.
    destruct (get_block to_block) as [hsh gas]. injection Hrun as <- <-. cbn.
    split; [by apply Hset|]. split; [done|]. split; [lia|]. split; [done|]. split; [lia|].
    pose proof (rounds_batch _ _ s s1 events Hb (Q4 _ _ eq_refl)) as [C1 C2 C3]. by split.
  - destruct (decide (e = EthGetLogsTimeout)) as [->|Hne].
    + destruct (decrease (block_batch_size_adjuster s1)) as [a|e] eqn:Ed; injection Hrun as <- <-;
        [|by rewrite Q1]. apply decrease_config in Ed.
      split; [destruct (Hset 0 a Ed) as [R1 R2 R3]; by split|]. by split.
    + assert ((s1, Raise (A := option PollResult) e) = (s', r)) as Hrun' by (by destruct e).
      injection Hrun' as <- <-. by rewrite Q1.
Qed.

(** C22: polling the blockchain in batches.  The rounds for the contracts that a
    batch creates end after at most three.  A batch either fails or times out and
    leaves the position as it was, or it advances to a later block that is not
    after the target.  Then every event of the batch is that of a log of these
    blocks that the filters select afterwards, and every such log has its event in
    the batch, those of the token networks and channels that the batch creates
    included, with one exception: when the batch started while the node had no
    channel, so that the secret registry was ignored, the logs of the secret
    registry in these blocks may be missing ([ignored_secret]).  The filters
    select them once the batch has brought the first channel, but the registry is
    not queried again for the blocks of this batch. *)
Theorem polled_batch_events target s s' r
    (Hready : ready s)
    (Hrun : fetch_logs_in_batch chain_id node_address target s = (s', r)) :
  (forall from_block to_block, exists out,
     query_loop chain_id node_address QUERY_ROUNDS from_block to_block (event_filter s) 0%Q [] s
     = Some out)
  /\ ready s' /\ grows (event_filter s) (event_filter s')
  /\ match r with
     | Ok (Some poll) =>
         last_fetched_block s < last_fetched_block s' <= target
         /\ polled_block_number poll = last_fetched_block s'
         /\ last_fetched_block s'
            <= last_fetched_block s + 1
               + bbs_max (block_batch_size_config (block_batch_size_adjuster s))
         /\ batch_events (last_fetched_block s + 1) (last_fetched_block s') s s' (poll_events poll)
     | _ => last_fetched_block s' = last_fetched_block s
     end.
Proof.
  split; [|by apply fetch_logs_in_batch_spec].
  intros from_block to_block.
  destruct (query_and_track_spec from_block to_block s (ready_wf _ Hready)) as (s1 & r1 & Hq & _).
  eauto.
Qed.

(** The events whose logs the filters ask for. *)
Definition asked_events : list EventName :=
  [EVENT_TOKEN_NETWORK_CREATED; EVENT_SECRET_REVEALED; CHANNEL_OPENED; EVENT_REGISTERED_SERVICE]
  ++ channel_events.

Lemma selected_topic f l :
  selected f l -> exists ev ts, ev ∈ asked_events /\ log_topics l = event_topic ev :: ts.
Proof.
  assert (forall evs wanted a, logs_of a (Some (map event_topic evs) :: wanted) l ->
            exists ev ts, ev ∈ evs /\ log_topics l = event_topic ev :: ts) as Hmap.
  { intros evs wanted a [_ Hm]. destruct (log_topics l) as [|t ts]; [done|]. cbn in Hm.
    apply andb_true_iff in Hm as [Hm _].
    apply bool_decide_eq_true, elem_of_map in Hm as (ev & -> & Hev). eauto. }
  assert (forall ev wanted a, logs_of a (topic ev :: wanted) l -> ev ∈ asked_events ->
            exists ev ts, ev ∈ asked_events /\ log_topics l = event_topic ev :: ts) as Hone.
  { intros ev wanted a Hl Hev. destruct (Hmap [ev] wanted a Hl) as (ev' & ts & Hin & Heq).
    apply list_elem_of_singleton in Hin as ->. eauto. }
  intros [a _ Hl|a _ _ _ Hl|a _ [Hl|Hl]|tn id _ Hl|a _ Hl];
    try (eapply Hone; [exact Hl|set_solver]).
  destruct (Hmap _ _ _ Hl) as (ev & ts & Hin & Heq). exists ev, ts. split; [|done].
  apply elem_of_app. by right.
Qed.

(** Although the updates of balance proofs are decoded and dispatched, the
    filters do not ask for them: the events of a batch are never of that kind,
    so that no [ContractReceiveUpdateTransfer] is dispatched. *)
Theorem balance_proof_updates_are_not_polled target s s' poll
    (Hready : ready s)
    (Hrun : fetch_logs_in_batch chain_id node_address target s = (s', Ok (Some poll))) :
  forall e, e ∈ poll_events poll -> event_name (de_event_data e) <> CHANNEL_BALANCE_PROOF_UPDATED.
Proof.
  destruct (fetch_logs_in_batch_spec _ _ _ _ Hready Hrun) as (_ & _ & _ & _ & _ & Hb).
  intros e He Hname. destruct (be_sound _ _ _ _ _ Hb e He) as (l & _ & [_ Hs]%watched_iff & Hd).
  destruct (selected_topic _ _ Hs) as (ev & ts & Hev & Ht).
  destruct (decoded_name l e Hd) as (t & ts' & Ht' & Htopic). rewrite Ht in Ht'.
  injection Ht' as <- _. apply (inj event_topic) in Htopic. rewrite Hname in Htopic. set_solver.
Qed.
End polling.
