(* ===== verification/ChainDecode.v ===== *)
(** From the events of the smart contracts to state changes
    ([blockchain/decode.py], [blockchain/state.py]), with the lookups of balance
    proofs in the log that this needs ([storage/restore.py]). *)

From S2P Require Import Prelude PyDict Bytes Crypto PyFloat MediationFee State Events.
From S2P Require Import StateChanges Channel TokenNetwork TransferTasks Node Views.
From S2P Require Import Formatting ChainEvents.

(** [constants.EMPTY_LOCKSROOT] *)
Definition EMPTY_LOCKSROOT : bytes := zero_bytes 32.

(** The part of [RaidenConfig] that is used. *)
Record RaidenConfig : Type := mkRaidenConfig {
  rc_reveal_timeout : Z;
  rc_mediation_fees : MediationFeeConfig
}.

Record ChannelConfig : Type := mkChannelConfig {
  cc_reveal_timeout : Z;
  cc_fee_schedule : FeeScheduleState
}.

Record ChannelSettleState : Type := mkChannelSettleState {
  css_canonical_identifier : CanonicalIdentifier;
  css_our_transferred_amount : Z;
  css_our_locksroot : bytes;
  css_partner_transferred_amount : Z;
  css_partner_locksroot : bytes
}.

Record NewChannelDetails : Type := mkNewChannelDetails {
  ncd_chain_id : Z;
  ncd_token_network_registry_address : bytes;
  ncd_token_address : bytes;
  ncd_token_network_address : bytes;
  ncd_our_address : bytes;
  ncd_partner_address : bytes
}.

(** The storage, as the state changes and the events that it holds, in the
    order of their identifiers. *)
Record Stored : Type := mkStored {
  stored_state_changes : list StateChange;
  stored_events : list Event
}.

(** ** Balance proofs of the log *)

(** The filter of [get_state_change_with_balance_proof_by_locksroot] *)
Definition received_with_locksroot (cid : CanonicalIdentifier) (locksroot sender : bytes)
    (sc : StateChange) : bool :=
  match change_balance_proof sc with
  | Some bp =>
      bool_decide (sbp_canonical_identifier bp = cid) && bool_decide (sbp_locksroot bp = locksroot)
      && bool_decide (sbp_sender bp = sender)
  | None => false
  end.

(** [get_state_change_with_balance_proof_by_locksroot]: the balance proof of the
    newest state change. *)
Definition get_state_change_with_balance_proof_by_locksroot (storage : Stored)
    (cid : CanonicalIdentifier) (locksroot sender : bytes) : option BalanceProofSignedState :=
  last (List.filter (received_with_locksroot cid locksroot sender) (stored_state_changes storage))
  ≫= change_balance_proof.

(** The recipient and the balance proof of an event, in [balance_proof] or in
    [transfer.balance_proof]. *)
Definition sent_balance_proof (e : Event) : option (bytes * BalanceProofUnsignedState) :=
  match e with
  | ESendUnlock e => Some (sm_recipient (su_message e), su_balance_proof e)
  | ESendLockExpired e => Some (sm_recipient (sle_message e), sle_balance_proof e)
  | ESendLockedTransfer e =>
      Some (sm_recipient (slt_message e), ltu_balance_proof (slt_transfer e))
  | _ => None
  end.

Definition sent_with_locksroot (cid : CanonicalIdentifier) (locksroot recipient : bytes)
    (e : Event) : bool :=
  match sent_balance_proof e with
  | Some (r, bp) =>
      bool_decide (ubp_canonical_identifier bp = cid) && bool_decide (ubp_locksroot bp = locksroot)
      && bool_decide (r = recipient)
  | None => false
  end.

(** [get_event_with_balance_proof_by_locksroot] *)
Definition get_event_with_balance_proof_by_locksroot (storage : Stored) (cid : CanonicalIdentifier)
    (locksroot recipient : bytes) : option BalanceProofUnsignedState :=
  snd <$> (last (List.filter (sent_with_locksroot cid locksroot recipient) (stored_events storage))
           ≫= sent_balance_proof).

Section decode.
Context `{Crypto}.
Implicit Types (cs : ChainState) (event : DecodedEvent).

(** ** The data of an event ([blockchain/state.py]) *)

Definition event_cid cs event (id : Z) : CanonicalIdentifier :=
  mkCanonicalIdentifier (cs_chain_id cs) (de_originating_contract event) id.

(** [views.get_channelstate_by_canonical_identifier] of the event's channel *)
Definition event_channel cs event (id : Z) : option NettingChannelState :=
  get_channelstate_by_canonical_identifier cs (de_originating_contract event) id.

(** [get_contractreceivechannelsettled_data_from_event] *)
Definition get_contractreceivechannelsettled_data_from_event cs event (id : Z)
    (participant1 : string) (amount1 : Z) (locksroot1 : bytes)
    (participant2 : string) (amount2 : Z) (locksroot2 : bytes) : Py (option ChannelSettleState) :=
  _ ← assert_some
        (find_token_network (identifiers_to_tokennetworkregistries cs) (de_originating_contract event))
        "Could not find token network for address";
  let cid := event_cid cs event id in
  let our := to_checksum_address (cs_our_address cs) in
  match event_channel cs event id with
  | None => Ok None
  | Some _ =>
      if bool_decide (participant1 = our) then
        Ok (Some (mkChannelSettleState cid amount1 locksroot1 amount2 locksroot2))
      else if bool_decide (participant2 = our) then
        Ok (Some (mkChannelSettleState cid amount2 locksroot2 amount1 locksroot1))
      else Raise (RaidenUnrecoverableError "Received settle event that we're not a part of. ")
  end.

(** [get_contractreceivechannelbatchunlock_data_from_event]: the first channel
    with the partner whose log has a balance proof with the locksroot.  (The
    lookup of a new partner also adds an empty list to the [defaultdict].) *)
Definition unlocked_channel cs (storage : Stored) event (partner sender locksroot : bytes) (id : Z) :
    option CanonicalIdentifier :=
  let cid := event_cid cs event id in
  if bool_decide (partner = sender) then
    sbp_canonical_identifier <$>
      get_state_change_with_balance_proof_by_locksroot storage cid locksroot partner
  else
    ubp_canonical_identifier <$>
      get_event_with_balance_proof_by_locksroot storage cid locksroot partner.

Definition get_contractreceivechannelbatchunlock_data_from_event cs (storage : Stored) event
    (receiver sender locksroot : bytes) : Py (option CanonicalIdentifier) :=
  tn ← assert_some
         (find_token_network (identifiers_to_tokennetworkregistries cs) (de_originating_contract event))
         "Could not find token network for address";
  let partner :=
    if bool_decide (receiver = cs_our_address cs) then Some sender
    else if bool_decide (sender = cs_our_address cs) then Some receiver
    else None in
  Ok match partner with
     | None => None
     | Some partner =>
         let ids := default [] (dict_get partner (partneraddresses_to_channelidentifiers tn)) in
         head (omap (M := list) (unlocked_channel cs storage event partner sender locksroot) ids)
     end.

(** [get_contractreceivechannelnew_data_from_event] *)
Definition get_contractreceivechannelnew_data_from_event cs event (participant1 participant2 : bytes) :
    Py (option NewChannelDetails) :=
  let our_address := cs_our_address cs in
  let partner_address :=
    if bool_decide (our_address = participant1) then Some participant2
    else if bool_decide (our_address = participant2) then Some participant1
    else None in
  match partner_address with
  | None => Ok None
  | Some partner_address =>
      let net := de_originating_contract event in
      registry ← assert_some (get_token_network_registry_by_token_network_address cs net)
                   "Token network registry missing";
      tn ← assert_some (find_token_network (identifiers_to_tokennetworkregistries cs) net)
             "Token network missing";
      Ok (Some (mkNewChannelDetails (de_chain_id event) (tnr_address registry) (tn_token_address tn)
                  net our_address partner_address))
  end.

(** ** The state changes ([blockchain/decode.py]) *)

Definition contractreceivenewtokennetwork_from_event event (net token : bytes) :
    ContractReceiveNewTokenNetwork :=
  mkContractReceiveNewTokenNetwork (de_transaction_hash event) (de_block_number event)
    (de_block_hash event) (de_originating_contract event) (mkTokenNetworkState net token [] []).

Definition contract_cid event (id : Z) : CanonicalIdentifier :=
  mkCanonicalIdentifier (de_chain_id event) (de_originating_contract event) id.

Definition contractreceiveroutenew_from_event event (id : Z) (participant1 participant2 : bytes) :
    ContractReceiveRouteNew :=
  mkContractReceiveRouteNew (de_transaction_hash event) (de_block_number event)
    (de_block_hash event) (contract_cid event id) participant1 participant2.

Definition contractreceivechannelnew_from_event (details : NewChannelDetails)
    (config : ChannelConfig) event (id settle_timeout : Z) : Py ContractReceiveChannelNew :=
  our_state ← new_NettingChannelEndState (ncd_our_address details) 0;
  partner_state ← new_NettingChannelEndState (ncd_partner_address details) 0;
  channel_state ←
    new_NettingChannelState
      (mkCanonicalIdentifier (ncd_chain_id details) (de_originating_contract event) id)
      (ncd_token_address details) (ncd_token_network_registry_address details)
      (cc_reveal_timeout config) settle_timeout (cc_fee_schedule config) our_state partner_state
      (mkSuccessfulTransactionState (de_block_number event) None);
  Ok (mkContractReceiveChannelNew (de_transaction_hash event) (de_block_number event)
        (de_block_hash event) channel_state).

Definition contractreceivechanneldeposit_from_event event (id : Z) (participant : bytes)
    (total_deposit : Z) (fee_config : MediationFeeConfig) : ContractReceiveChannelDeposit :=
  mkContractReceiveChannelDeposit (de_transaction_hash event) (de_block_number event)
    (de_block_hash event) (contract_cid event id)
    (mkTransactionChannelDeposit participant total_deposit (de_block_number event)) fee_config.

Definition contractreceivechannelwithdraw_from_event event (id : Z) (participant : bytes)
    (total_withdraw : Z) (fee_config : MediationFeeConfig) : ContractReceiveChannelWithdraw :=
  mkContractReceiveChannelWithdraw (de_transaction_hash event) (de_block_number event)
    (de_block_hash event) (contract_cid event id) participant total_withdraw fee_config.

Definition contractreceivechannelclosed_from_event (cid : CanonicalIdentifier) event
    (closing_participant : bytes) : ContractReceiveChannelClosed :=
  mkContractReceiveChannelClosed (de_transaction_hash event) (de_block_number event)
    (de_block_hash event) closing_participant cid.

Definition contractreceiveupdatetransfer_from_event (c : NettingChannelState) event (nonce : Z) :
    ContractReceiveUpdateTransfer :=
  mkContractReceiveUpdateTransfer (de_transaction_hash event) (de_block_number event)
    (de_block_hash event) (canonical_identifier c) nonce.

(** On-chain the empty locksroot stands for the one without locks. *)
Definition unblind_locksroot (locksroot : bytes) : bytes :=
  if bool_decide (locksroot = EMPTY_LOCKSROOT) then LOCKSROOT_OF_NO_LOCKS else locksroot.

Definition contractreceivechannelsettled_from_event (css : ChannelSettleState) event :
    ContractReceiveChannelSettled :=
  mkContractReceiveChannelSettled (de_transaction_hash event) (de_block_number event)
    (de_block_hash event) (css_canonical_identifier css) (unblind_locksroot (css_our_locksroot css))
    (css_our_transferred_amount css) (unblind_locksroot (css_partner_locksroot css))
    (css_partner_transferred_amount css).

Definition contractreceivesecretreveal_from_event event (secrethash secret : bytes) :
    ContractReceiveSecretReveal :=
  mkContractReceiveSecretReveal (de_transaction_hash event) (de_block_number event)
    (de_block_hash event) (de_originating_contract event) secrethash secret.

Definition contractreceivechannelbatchunlock_from_event (cid : CanonicalIdentifier) event
    (receiver sender locksroot : bytes) (unlocked_amount returned_tokens : Z) :
    ContractReceiveChannelBatchUnlock :=
  mkContractReceiveChannelBatchUnlock (de_transaction_hash event) (de_block_number event)
    (de_block_hash event) cid receiver sender locksroot unlocked_amount returned_tokens.

Definition update_service_addresses_from_event (service : bytes) (valid_till : Z) :
    UpdateServicesAddressesStateChange :=
  mkUpdateServicesAddressesStateChange service valid_till.

(** The new channel or the new route of a [ChannelOpened] event. *)
Definition channel_opened (config : RaidenConfig) cs event (id : Z)
    (participant1 participant2 : bytes) (settle_timeout : Z) : Py StateChange :=
  details ← get_contractreceivechannelnew_data_from_event cs event participant1 participant2;
  match details with
  | Some details =>
      let fee_config := rc_mediation_fees config in
      fee_schedule ←
        new_FeeScheduleState (cap_mediation_fees fee_config)
          (get_flat_fee fee_config (ncd_token_address details))
          (get_proportional_fee fee_config (ncd_token_address details)) None;
      sc ← contractreceivechannelnew_from_event details
             (mkChannelConfig (rc_reveal_timeout config) fee_schedule) event id settle_timeout;
      Ok (SContractReceiveChannelNew sc)
  | None =>
      Ok (SContractReceiveRouteNew
            (contractreceiveroutenew_from_event event id participant1 participant2))
  end.

(** [blockchainevent_to_statechange] *)
Definition blockchainevent_to_statechange (config : RaidenConfig) (storage : Stored) cs event :
    Py (option StateChange) :=
  let fees := rc_mediation_fees config in
  match de_event_data event with
  | TokenNetworkCreated net token =>
      Ok (Some (SContractReceiveNewTokenNetwork
                  (contractreceivenewtokennetwork_from_event event net token)))
  | ChannelOpened id p1 p2 timeout =>
      sc ← channel_opened config cs event id p1 p2 timeout;
      Ok (Some sc)
  | ChannelNewDeposit id p total =>
      Ok (Some (SContractReceiveChannelDeposit
                  (contractreceivechanneldeposit_from_event event id p total fees)))
  | ChannelWithdraw id p total =>
      Ok (Some (SContractReceiveChannelWithdraw
                  (contractreceivechannelwithdraw_from_event event id p total fees)))
  | NonClosingBalanceProofUpdated id _ nonce =>
      Ok (option_map (fun c => SContractReceiveUpdateTransfer
                                 (contractreceiveupdatetransfer_from_event c event nonce))
            (event_channel cs event id))
  | ChannelClosed id p =>
      Ok (option_map (fun c => SContractReceiveChannelClosed
                                 (contractreceivechannelclosed_from_event (canonical_identifier c)
                                    event p)) (event_channel cs event id))
  | ChannelSettled id p1 a1 r1 p2 a2 r2 =>
      css ← get_contractreceivechannelsettled_data_from_event cs event id p1 a1 r1 p2 a2 r2;
      Ok (option_map (fun css => SContractReceiveChannelSettled
                                   (contractreceivechannelsettled_from_event css event)) css)
  | SecretRevealed h s =>
      Ok (Some (SContractReceiveSecretReveal (contractreceivesecretreveal_from_event event h s)))
  | ChannelUnlocked receiver sender root unlocked returned =>
      cid ← get_contractreceivechannelbatchunlock_data_from_event cs storage event receiver sender root;
      Ok (option_map (fun cid => SContractReceiveChannelBatchUnlock
                                   (contractreceivechannelbatchunlock_from_event cid event receiver
                                      sender root unlocked returned)) cid)
  | RegisteredService s v =>
      Ok (Some (SUpdateServicesAddressesStateChange (update_service_addresses_from_event s v)))
  | OtherArgs _ => Ok None
  end.
End decode.
