(* ===== verification/ChainSync.v ===== *)
(** Synchronization with the blockchain ([raiden_service.py]): the filters of a
    started node, the loop that polls the confirmed blocks in batches and the
    transaction in which the events of a batch and its [Block] are dispatched. *)

From Stdlib Require Import QArith.
From S2P Require Import Prelude PyDict Bytes Crypto PyFloat MediationFee State Events.
From S2P Require Import StateChanges Node Views Wal WalProofs Formatting ChainEvents ChainDecode.

Open Scope Z_scope.

Definition GENESIS_BLOCK_NUMBER : Z := 0.

(** [SyncTimeout], without the start of its clock: the readings of
    [time_elapsed] are arguments. *)
Record SyncTimeout : Type := mkSyncTimeout {
  current_confirmed_head : Z;
  sync_timeout : Q
}.

(** [SyncTimeout.should_continue] *)
Definition should_continue (guard : SyncTimeout) (time_elapsed : Q) (last_fetched : Z) : bool :=
  Qle_bool time_elapsed (sync_timeout guard) && (last_fetched <? current_confirmed_head guard).

Inductive SynchronizationState : Type :=
  | FULLY_SYNCED
  | PARTIALLY_SYNCED.

(** [smart_contract_filters_from_node_state] *)
Definition smart_contract_filters_from_node_state (cs : ChainState) (secret_registry : bytes)
    (service_registry : option bytes) : RaidenContractFilter :=
  let token_network_registries := registries cs in
  let token_networks := flat_map token_network_list token_network_registries in
  let channels_of_token_network :=
    foldl (fun d tn =>
             match channelidentifiers_to_channels tn with
             | [] => d
             | chans => dict_set (tn_address tn) (dict_keys chans) d
             end) [] token_networks in
  mkRaidenContractFilter
    (foldl (fun addresses r => set_add addresses (tnr_address r)) [] token_network_registries)
    (foldl (fun addresses tn => set_add addresses (tn_address tn)) [] token_networks)
    channels_of_token_network (Some secret_registry)
    match channels_of_token_network with [] => true | _ => false end
    service_registry.

Section sync.
Context `{Crypto} `{FloatPow} `{FloatLog} `{Web3} `{UlidFactory} {Data : Type}.
Context `{!Serializer Data ChainState} `{!Serializer Data StateChange} `{!Serializer Data Event}.
Context (config : RaidenConfig).

Notation dispatcher := (Dispatcher (State := ChainState) (Ev := Event) (Data := Data)).
Notation log := (WriteAheadLog (State := ChainState) (Data := Data)).
Notation service_log := (RaidenService (State := ChainState) (Data := Data)).

(** The state changes and events of the storage. *)
Definition read_storage (db : SQLiteStorage Data) : Py Stored :=
  scs ← py_map (fun r => deserialize (sc_data r)) (db_state_changes db);
  evs ← py_map (fun r => deserialize (ev_data r)) (db_state_events db);
  Ok (mkStored scs evs).

(** The body of the loop over the events of a batch. *)
Definition sync_event (acc : dispatcher * list StateChange) (event : DecodedEvent) :
    Py (dispatcher * list StateChange) :=
  let '(d, state_changes) := acc in
  raiden_storage ← read_storage (dispatcher_storage d);
  maybe_state_change ←
    blockchainevent_to_statechange config raiden_storage (latest_state d) event;
  match maybe_state_change with
  | None => Ok (d, state_changes)
  | Some sc =>
      d' ← dispatcher_dispatch node_transition d sc;
      Ok (d', state_changes ++ [sc])
  end.

(** The [Block] of a batch. *)
Definition poll_block (poll_result : PollResult) : StateChange :=
  SBlock (mkBlock (polled_block_number poll_result) (polled_block_gas_limit poll_result)
            (polled_block_hash poll_result)).

(** The body of the transaction: the state changes and the events of a batch. *)
Definition sync_batch (poll_result : PollResult) (d : dispatcher) :
    Py (dispatcher * (list StateChange * list Event)) :=
  '(d1, state_changes) ← py_foldl sync_event (d, []) (poll_events poll_result);
  d2 ← dispatcher_dispatch node_transition d1 (poll_block poll_result);
  Ok (d2, (state_changes ++ [poll_block poll_result], dispatched_events d2)).

(** The loop of [_best_effort_synchronize_with_confirmed_head] with the readings
    of the clock; [None] when it has not ended with the last reading. *)
Fixpoint sync_loop (chain_id : Z) (node_address : bytes) (guard : SyncTimeout) (clock : list Q)
    (wal : log) (be : BlockchainEvents) (state_changes : list StateChange)
    (raiden_events : list Event) :
    option (log * BlockchainEvents * Py (list StateChange * list Event)) :=
  match clock with
  | [] => None
  | elapsed :: clock' =>
      if should_continue guard elapsed (last_fetched_block be) then
        let '(be1, poll_result) :=
          fetch_logs_in_batch chain_id node_address (current_confirmed_head guard) be in
        match poll_result with
        | Raise e => Some (wal, be1, Raise e)
        | Ok None =>
            sync_loop chain_id node_address guard clock' wal be1 state_changes raiden_events
        | Ok (Some poll_result) =>
            let '(wal1, result) := run_atomically wal (sync_batch poll_result) in
            match result with
            | Raise e => Some (wal1, be1, Raise e)
            | Ok (scs, evs) =>
                sync_loop chain_id node_address guard clock' wal1 be1 (state_changes ++ scs)
                  (raiden_events ++ evs)
            end
        end
      else Some (wal, be, Ok (state_changes, raiden_events))
  end.

(** The log of the service and its poller. *)
Record SyncService : Type := mkSyncService {
  sync_log : service_log;
  sync_events : BlockchainEvents
}.

Definition sync_state (s : SyncService) : ChainState := wal_state (rs_wal (sync_log s)).

(** [_best_effort_synchronize_with_confirmed_head]; the effects on the services
    and the transport are those of [trigger_state_change_effects]. *)
Definition best_effort_synchronize_with_confirmed_head (head : Z) (timeout : Q) (clock : list Q)
    (s : SyncService) : option (SyncService * Py (SynchronizationState * list Event)) :=
  match sync_loop (cs_chain_id (sync_state s)) (cs_our_address (sync_state s))
          (mkSyncTimeout head timeout) clock (rs_wal (sync_log s)) (sync_events s) [] [] with
  | None => None
  | Some (wal, be, Raise e) =>
      Some (mkSyncService (count_state_changes (sync_log s) wal 0) be, Raise e)
  | Some (wal, be, Ok (state_changes, raiden_events)) =>
      let log1 := count_state_changes (sync_log s) wal (length state_changes) in
      match maybe_snapshot log1 with
      | Raise e => Some (mkSyncService log1 be, Raise e)
      | Ok log2 =>
          let synched := cs_block_number (wal_state (rs_wal log2)) in
          Some (mkSyncService log2 be,
                _ ← py_assert (synched <=? head)
                      "current_synched_block_number is larger than current_confirmed_head";
                Ok (if synched <? head then PARTIALLY_SYNCED else FULLY_SYNCED, raiden_events))
      end
  end.

(** [_best_effort_synchronize], for the number of the latest block. *)
Definition best_effort_synchronize (confirmation_blocks : Z) (timeout : Q) (latest_block : Z)
    (clock : list Q) (s : SyncService) :
    option (SyncService * Py (SynchronizationState * list Event)) :=
  best_effort_synchronize_with_confirmed_head
    (Z.max GENESIS_BLOCK_NUMBER (latest_block - confirmation_blocks)) timeout clock s.

(** The poller of [_synchronize_with_blockchain] *)
Definition start_synchronization (secret_registry : bytes) (service_registry : option bytes)
    (batch_config : BlockBatchSizeConfig) (l : service_log) : Py SyncService :=
  let cs := wal_state (rs_wal l) in
  be ← new_BlockchainEvents (cs_block_number cs)
         (smart_contract_filters_from_node_state cs secret_registry service_registry) batch_config;
  Ok (mkSyncService l be).

(** The loop of [_synchronize_with_blockchain], with the latest blocks and the
    clocks of its rounds; [None] when it has not ended with the last one. *)
Fixpoint synchronize_rounds (confirmation_blocks : Z) (timeout : Q)
    (rounds : list (Z * list Q)) (s : SyncService) : option (SyncService * Py unit) :=
  match rounds with
  | [] => None
  | (latest_block, clock) :: rounds' =>
      match best_effort_synchronize confirmation_blocks timeout latest_block clock s with
      | None => None
      | Some (s', Raise e) => Some (s', Raise e)
      | Some (s', Ok (FULLY_SYNCED, _)) => Some (s', Ok tt)
      | Some (s', Ok (PARTIALLY_SYNCED, _)) =>
          synchronize_rounds confirmation_blocks timeout rounds' s'
      end
  end.
End sync.
