(* ===== verification/ChainSyncProofs.v ===== *)
(** The synchronization refines an abstract node that has a log and a state and
    takes the confirmed blocks in contiguous batches: every event of a batch is
    dispatched, followed by the [Block], and a batch is applied as a whole or not
    at all.  The contracts and channels the node has are always followed. *)

From Stdlib Require Import QArith.
From S2P Require Import Prelude PyDict Bytes Crypto Formatting PyFloat MediationFee State Events.
From S2P Require Import StateChanges Channel ChannelSystem Node Views NodeFrame Wal WalProofs.
From S2P Require Import ChainEvents ChainEventsProofs ChainDecode ChainSync.

#[local] Open Scope Z_scope.

(** ** The abstract node *)

Record AbstractNode : Type := mkAbstractNode {
  an_log : Stored;
  an_state : ChainState
}.

Definition log_change (st : Stored) (sc : StateChange) (evs : list Event) : Stored :=
  mkStored (stored_state_changes st ++ [sc]) (stored_events st ++ evs).

Section abstract.
Context `{Crypto} `{FloatPow} `{FloatLog} `{Web3} (chain : list Log).
Context (config : RaidenConfig) (chain_id : Z) (node_address : bytes).
Implicit Types (a : AbstractNode) (be : BlockchainEvents).

(** A state change is logged and applied. *)
Definition takes a (sc : StateChange) a' : Prop :=
  exists evs, node_state_transition (an_state a) sc = Ok (an_state a', evs)
    /\ an_log a' = log_change (an_log a) sc evs.

(** The events of the blockchain are decoded and applied in their order. *)
Inductive applies : AbstractNode -> list DecodedEvent -> AbstractNode -> Prop :=
  | applies_nil a : applies a [] a
  | applies_none a e es a' :
      blockchainevent_to_statechange config (an_log a) (an_state a) e = Ok None ->
      applies a es a' -> applies a (e :: es) a'
  | applies_some a e es sc a1 a' :
      blockchainevent_to_statechange config (an_log a) (an_state a) e = Ok (Some sc) ->
      takes a sc a1 -> applies a1 es a' -> applies a (e :: es) a'.

(** The node catches up by whole batches, at most to the block [head].  A batch
    has exactly the events of the watched logs from the block after the one of
    the batch before it to its own. *)
Inductive catches_up (head : Z) :
    BlockchainEvents -> AbstractNode -> list PollResult -> BlockchainEvents -> AbstractNode -> Prop :=
  | catches_up_done be a : catches_up head be a [] be a
  | catches_up_again be be1 a polls be2 a2 :
      last_fetched_block be1 = last_fetched_block be ->
      grows node_address (event_filter be) (event_filter be1) ->
      catches_up head be1 a polls be2 a2 -> catches_up head be a polls be2 a2
  | catches_up_batch be be1 poll a a1 a2 polls be2 a3 :
      last_fetched_block be < last_fetched_block be1 <= head ->
      polled_block_number poll = last_fetched_block be1 ->
      grows node_address (event_filter be) (event_filter be1) ->
      batch_events chain chain_id node_address (last_fetched_block be + 1) (last_fetched_block be1)
        be be1 (poll_events poll) ->
      applies a (poll_events poll) a1 -> takes a1 (poll_block poll) a2 ->
      catches_up head be1 a2 polls be2 a3 -> catches_up head be a (poll :: polls) be2 a3.

(** ** The contracts the node has are followed *)

Definition filter_cover (f : RaidenContractFilter) : Cover :=
  mkCover (fun _ => True) (fun net => net ∈ token_network_addresses f) (follows f).

Definition followed (f : RaidenContractFilter) (cs : ChainState) : Prop :=
  chain_covered (filter_cover f) cs.

Lemma followed_grows f g cs : grows node_address f g -> followed f cs -> followed g cs.
Proof.
  intros [_ _ _ Hn Hc _ _] Hf a r Hin. destruct (Hf a r Hin) as [R1 R2 R3]. split; [done| |done].
  intros tn Htn. destruct (R2 tn Htn) as [? ?]. split; cbn in *; eauto.
Qed.

(** The new channel is opened with the token network and the identifier of its
    event. *)
Lemma new_channel_identifier cid token registry reveal settle fees e1 e2 tx c :
  new_NettingChannelState cid token registry reveal settle fees e1 e2 tx = Ok c ->
  canonical_identifier c = cid.
Proof. unfold new_NettingChannelState. intros Hd. py_inv. by subst. Qed.

Lemma channel_new_from_event details cc e id timeout sc :
  contractreceivechannelnew_from_event details cc e id timeout = Ok sc ->
  opened (crn_channel_state sc)
  /\ canonical_identifier (crn_channel_state sc)
     = mkCanonicalIdentifier (ncd_chain_id details) (de_originating_contract e) id.
Proof.
  unfold contractreceivechannelnew_from_event. intros (e1 & H1' & Hd)%bind_Ok.
  apply bind_Ok in Hd as (e2 & H2' & Hd). apply bind_Ok in Hd as (c & Hc & [= <-]). cbn.
  split; [|by apply new_channel_identifier in Hc]. do 13 eexists.
  split_and!; [exact H1'|exact H2'|exact Hc].
Qed.

Lemma decoded_covered f st cs e sc :
  tracked f e -> blockchainevent_to_statechange config st cs e = Ok (Some sc) ->
  change_covered (filter_cover f) sc.
Proof.
  intros [T1 T2] Hd. unfold blockchainevent_to_statechange, created_network, opened_channel in *.
  destruct (de_event_data e) eqn:Ee; cbn in Hd; try discriminate Hd;
    try (by injection Hd as <-).
  - injection Hd as <-. cbn. split; [done|]. split; cbn; [apply T1; left|set_solver].
  - apply bind_Ok in Hd as (sc1 & Hd & [= ->]). unfold channel_opened in Hd.
    apply bind_Ok in Hd as (details & _ & Hd). destruct details as [details|]; [|by injection Hd as <-].
    apply bind_Ok in Hd as (fs & _ & Hd). apply bind_Ok in Hd as (a & Ha & [= <-]).
    apply channel_new_from_event in Ha as [_ Ha]. cbn. unfold channel_token_network_address, identifier.
    rewrite Ha. by apply T2.
  - destruct (event_channel cs e channel_identifier); [by injection Hd as <-|done].
  - destruct (event_channel cs e channel_identifier); [by injection Hd as <-|done].
  - apply bind_Ok in Hd as (o & _ & Hd). destruct o; [by injection Hd as <-|done].
  - apply bind_Ok in Hd as (o & _ & Hd). destruct o; [by injection Hd as <-|done].
Qed.

Lemma takes_framed f a sc a' :
  change_covered f sc -> takes a sc a' -> framed_by f sc (an_state a) (an_state a').
Proof. intros Hc (evs & Hn & _). by eapply node_state_transition_framed. Qed.

(** The block of the node is the last one that was fetched, and its contracts
    are followed. *)
Definition in_step be a : Prop :=
  cs_block_number (an_state a) = last_fetched_block be /\ followed (event_filter be) (an_state a).

Lemma decoded_not_block st cs e b :
  blockchainevent_to_statechange config st cs e <> Ok (Some (SBlock b)).
Proof.
  unfold blockchainevent_to_statechange. destruct (de_event_data e); cbn; try done.
  - intros (sc & Hd & [= ->])%bind_Ok. unfold channel_opened in Hd.
    apply bind_Ok in Hd as ([d|] & _ & Hd); [|done].
    apply bind_Ok in Hd as (? & _ & Hd). by apply bind_Ok in Hd as (? & _ & ?).
  - by destruct (event_channel cs e channel_identifier).
  - by destruct (event_channel cs e channel_identifier).
  - by intros ([?|] & _ & ?)%bind_Ok.
  - by intros ([?|] & _ & ?)%bind_Ok.
Qed.

Lemma applies_in_step f a es a' :
  applies a es a' -> (forall e, e ∈ es -> tracked f e) -> followed f (an_state a) ->
  cs_block_number (an_state a') = cs_block_number (an_state a) /\ followed f (an_state a').
Proof.
  induction 1 as [a|a e es a' Hd _ IH|a e es sc a1 a' Hd Ht _ IH]; intros Htr Hf; [done|..].
  - apply IH; [|done]. intros e1 He1. apply Htr. by right.
  - apply (takes_framed (filter_cover f)) in Ht as (F1 & _ & _ & F4);
      [|eapply decoded_covered; [apply Htr; left|exact Hd]].
    destruct IH as [I1 I2]; [intros e1 He1; apply Htr; by right|by apply F4|]. split; [|done].
    rewrite I1, F1. destruct sc; try done. by apply decoded_not_block in Hd.
Qed.

Lemma catches_up_in_step head be a polls be' a' :
  catches_up head be a polls be' a' -> in_step be a -> in_step be' a'.
Proof.
  induction 1 as [|be be1 a polls be2 a2 Hl Hg _ IH
                 |be be1 poll a a1 a2 polls be2 a3 Hl Hp Hg Hb Ha Ht _ IH]; intros [Hn Hf]; [done|..].
  - apply IH. split; [congruence|by eapply followed_grows].
  - apply IH.
    destruct (applies_in_step (event_filter be1) _ _ _ Ha (be_tracked _ _ _ _ _ _ _ _ Hb))
      as [I1 I2]; [by eapply followed_grows|].
    destruct (takes_framed (filter_cover (event_filter be1)) _ (poll_block poll) _ I Ht) as (F1 & _ & _ & F4).
    split; [by rewrite F1|by apply F4].
Qed.

(** Every log that is selected at the start, up to the block that is reached, is
    an event of a batch. *)
Lemma catches_up_complete head be a polls be' a' l :
  catches_up head be a polls be' a' -> l ∈ chain ->
  last_fetched_block be + 1 <= log_block_number l <= last_fetched_block be' ->
  selected node_address (event_filter be) l ->
  (exists poll e, poll ∈ polls /\ e ∈ poll_events poll /\ decodes chain_id l e)
  \/ ignored_secret (event_filter be) l.
Proof.
  intros Hc Hl. induction Hc as [be a|be be1 a polls be2 a2 Hn Hg _ IH
    |be be1 poll a a1 a2 polls be2 a3 Hn Hp Hg Hb Ha Ht _ IH]; intros Hr Hs; [lia|..].
  - destruct IH as [Hd|[Hi Hx]]; [lia|by eapply grows_selected|by left|].
    right. split; [by eapply grows_ignore|]. by rewrite <- (grows_secret _ _ _ Hg).
  - destruct (Z.le_gt_cases (log_block_number l) (last_fetched_block be1)) as [Hle|Hgt].
    + destruct (be_complete _ _ _ _ _ _ _ _ Hb l Hl) as [(e & He & Hd)|Hi]; [|left|by right].
      * apply watched_iff. split; [lia|by eapply grows_selected].
      * exists poll, e. split_and!; [left|done..].
    + destruct IH as [(poll' & e & ? & ? & ?)|[Hi Hx]]; [lia|by eapply grows_selected|left|right].
      * exists poll', e. split_and!; [by right|done..].
      * split; [by eapply grows_ignore|]. by rewrite <- (grows_secret _ _ _ Hg).
Qed.

Lemma catches_up_le head be a polls be' a' :
  catches_up head be a polls be' a' -> last_fetched_block be <= last_fetched_block be'.
Proof. induction 1; lia. Qed.
(** The events of the batches are those of logs of these blocks. *)
Lemma catches_up_sound head be a polls be' a' poll e :
  catches_up head be a polls be' a' -> poll ∈ polls -> e ∈ poll_events poll ->
  exists l, l ∈ chain /\ decodes chain_id l e
    /\ last_fetched_block be < log_block_number l <= last_fetched_block be'.
Proof.
  intros Hc Hp He. induction Hc as [be a|be be1 a polls be2 a2 Hn Hg _ IH
    |be be1 poll' a a1 a2 polls be2 a3 Hn _ Hg Hb Ha Ht Hc IH]; [set_solver|..].
  - destruct (IH Hp) as (l & ? & ? & ?). exists l. split_and!; [done|done|lia..].
  - apply catches_up_le in Hc. apply elem_of_cons in Hp as [->|Hp].
    + destruct (be_sound _ _ _ _ _ _ _ _ Hb e He) as (l & Hl & [Hr _]%watched_iff & Hd).
      exists l. split_and!; [done|done|lia..].
    + destruct (IH Hp) as (l & ? & ? & ?). exists l. split_and!; [done|done|lia..].
Qed.
End abstract.

(** ** The refinement *)

Section refinement.
Context `{Crypto} `{FloatPow} `{FloatLog} `{Web3} (chain : list Log) `{!Web3Laws chain}.
Context `{UlidFactory} {Data : Type}.
Context `{!Serializer Data ChainState} `{!Serializer Data StateChange} `{!Serializer Data Event}.
Context (config : RaidenConfig).

Notation dispatcher := (Dispatcher (State := ChainState) (Ev := Event) (Data := Data)).
Notation log := (WriteAheadLog (State := ChainState) (Data := Data)).

Definition represents (wal : log) (a : AbstractNode) : Prop :=
  read_storage (wal_storage wal) = Ok (an_log a) /\ wal_state wal = an_state a.

(** The dispatcher keeps its cloned object as its state. *)
Definition dispatches (d : dispatcher) (a : AbstractNode) : Prop :=
  other_state d = None /\ read_storage (dispatcher_storage d) = Ok (an_log a)
  /\ cloned_state d = an_state a.

Lemma py_map_snoc {A B} (g : A -> Py B) l l' x y :
  py_map g l = Ok l' -> g x = Ok y -> py_map g (l ++ [x]) = Ok (l' ++ [y]).
Proof. rewrite !py_map_Forall2. intros. by apply Forall2_app; [|constructor]. Qed.

Lemma write_events_rows source (evs : list Event) (db : SQLiteStorage Data) l :
  py_map (fun r => deserialize (ev_data r)) (db_state_events db) = Ok l ->
  py_map (fun r => deserialize (ev_data r))
    (db_state_events (write_events source (map serialize evs) db)) = Ok (l ++ evs).
Proof.
  unfold write_events. revert db l. induction evs as [|e evs IH]; intros db l Hl;
    [by rewrite app_nil_r|].
  cbn [map foldl]. rewrite (app_assoc l [e] evs : l ++ e :: evs = _). apply IH.
  apply (py_map_snoc _ _ _ _ e Hl). apply deserialize_serialize.
Qed.

Lemma write_read sc evs (db db' : SQLiteStorage Data) id st :
  read_storage db = Ok st -> write_state_change_and_events sc evs db = (id, db') ->
  read_storage db' = Ok (log_change st sc evs).
Proof.
  unfold read_storage, write_state_change_and_events. cbn.
  intros (scs & Hs & Hd)%bind_Ok. apply bind_Ok in Hd as (es & He & [= <-]). intros [= <- <-].
  destruct (write_events_logs (ulid_new (last_id (map sc_identifier (db_state_changes db))))
    (map serialize evs) (mkSQLiteStorage (db_state_changes db ++
       [mkStateChangeEncodedRecord (ulid_new (last_id (map sc_identifier (db_state_changes db))))
          (serialize sc)]) (db_state_events db) (db_state_snapshot db))) as [-> _].
  cbn [db_state_changes]. rewrite (py_map_snoc _ _ _ _ sc Hs) by apply deserialize_serialize.
  by rewrite (write_events_rows _ _ _ _ (He : py_map _ (db_state_events (mkSQLiteStorage _ _ _)) = _)).
Qed.

Lemma dispatch_refines (d d' : dispatcher) a sc :
  dispatches d a -> dispatcher_dispatch node_transition d sc = Ok d' ->
  exists a', takes a sc a' /\ dispatches d' a'.
Proof.
  intros (Ho & Hr & Hs) Hd. unfold dispatcher_dispatch, latest_state in Hd. rewrite Ho in Hd.
  apply bind_Ok in Hd as ([[cs other] evs] & Ht & Hd). cbn in Ht. unfold node_transition in Ht.
  apply bind_Ok in Ht as ([cs1 evs1] & Hn & [= <- <- <-]).
  destruct (write_state_change_and_events sc evs1 _) as [id db] eqn:Hw. injection Hd as <-.
  exists (mkAbstractNode (log_change (an_log a) sc evs1) cs1). rewrite Hs in Hn.
  split; [by exists evs1|]. split_and!; [done| |done]. by eapply write_read.
Qed.

Lemma sync_events_refine es (d : dispatcher) a scs d' scs' :
  dispatches d a -> py_foldl (sync_event config) (d, scs) es = Ok (d', scs') ->
  exists a', applies config a es a' /\ dispatches d' a'.
Proof.
  revert d a scs. induction es as [|e es IH]; intros d a scs Hd Hrun.
  - injection Hrun as <- <-. exists a. split; [constructor|done].
  - cbn [py_foldl] in Hrun. apply bind_Ok in Hrun as ([d1 scs1] & He & Hrun).
    unfold sync_event in He. pose proof Hd as (Ho & Hr & Hs). rewrite Hr, bind_ret_l in He.
    unfold latest_state in He. rewrite Ho, Hs in He. cbn [default] in He.
    apply bind_Ok in He as ([sc|] & Hdec & He).
    + apply bind_Ok in He as (d2 & Hdisp & [= <- <-]).
      destruct (dispatch_refines _ _ _ _ Hd Hdisp) as (a1 & Ht & Hd1).
      destruct (IH _ _ _ Hd1 Hrun) as (a' & Ha & Hd'). exists a'. split; [|done].
      by eapply applies_some.
    + injection He as <- <-. destruct (IH _ _ _ Hd Hrun) as (a' & Ha & Hd'). exists a'.
      split; [by apply applies_none|done].
Qed.

(** A transaction applies the whole batch or leaves the log as it was. *)
Lemma batch_refines wal a poll wal' r :
  represents wal a -> run_atomically wal (sync_batch config poll) = (wal', r) ->
  match r with
  | Ok _ => exists a1 a', applies config a (poll_events poll) a1
              /\ takes a1 (poll_block poll) a' /\ represents wal' a'
  | Raise _ => wal' = wal
  end.
Proof.
  intros [Hr Hs] Hrun. unfold run_atomically in Hrun.
  destruct (sync_batch config poll _) as [[d res]|e] eqn:Hb; injection Hrun as <- <-; [|done].
  unfold sync_batch in Hb. apply bind_Ok in Hb as ([d1 scs] & He & Hb).
  apply bind_Ok in Hb as (d2 & Hd & [= <- _]).
  apply (sync_events_refine _ _ a) in He as (a1 & Ha & Hd1); [|by split_and!].
  destruct (dispatch_refines _ _ _ _ Hd1 Hd) as (a' & Ht & _ & R & S). by exists a1, a'.
Qed.

(** The loop catches up by whole batches, however it ends. *)
Lemma sync_loop_refines chain_id node_address guard clock wal be a scs evs wal' be' r :
  represents wal a -> ready be ->
  sync_loop config chain_id node_address guard clock wal be scs evs = Some (wal', be', r) ->
  exists polls be1 a',
    catches_up chain config chain_id node_address (current_confirmed_head guard) be a polls be1 a'
    /\ represents wal' a' /\ ready be1
    /\ match r with Ok _ => be' = be1 | Raise _ => True end.
Proof.
  revert wal be a scs evs. induction clock as [|t clock IH]; intros wal be a scs evs Hrep Hready Hrun;
    [done|]. cbn [sync_loop] in Hrun.
  destruct (should_continue guard t (last_fetched_block be)); cycle 1.
  { injection Hrun as <- <- <-. exists [], be, a. split_and!; [constructor|by destruct Hrep..|done|done]. }
  destruct (fetch_logs_in_batch _ _ _ be) as [be1 pr] eqn:Hf.
  destruct (fetch_logs_in_batch_spec chain _ _ _ _ _ _ Hready Hf) as (Hready1 & Hg & Hp).
  destruct pr as [[poll|]|e].
  - destruct Hp as (Hl & Hn & _ & Hb).
    destruct (run_atomically wal _) as [wal1 res] eqn:Hrun1.
    pose proof (batch_refines _ _ _ _ _ Hrep Hrun1) as Hbatch.
    destruct res as [[scs1 evs1]|e].
    + destruct Hbatch as (a1 & a2 & Ha & Ht & Hrep1).
      destruct (IH _ _ _ _ _ Hrep1 Hready1 Hrun) as (polls & be2 & a' & Hc & Hrest).
      exists (poll :: polls), be2, a'. split; [|done]. by eapply catches_up_batch.
    + injection Hrun as <- <- <-. subst wal1. exists [], be, a.
      split_and!; [constructor|by destruct Hrep..|done|done].
  - destruct (IH _ _ _ _ _ Hrep Hready1 Hrun) as (polls & be2 & a' & Hc & Hrest).
    exists polls, be2, a'. split; [|done]. by eapply catches_up_again.
  - injection Hrun as <- <- <-. exists [], be, a.
    split_and!; [constructor|by destruct Hrep..|done|done].
Qed.

(** ** The service *)

Notation sync_service := (SyncService (Data := Data)).

(** The service stands for the abstract node [a], and is ready to poll the block
    after the one of its state. *)
Record synced (s : sync_service) (a : AbstractNode) : Prop := {
  synced_log : represents (rs_wal (sync_log s)) a;
  synced_ready : ready (sync_events s);
  synced_step : in_step (sync_events s) a
}.

Lemma snapshot_represents (l l' : RaidenService (State := ChainState) (Data := Data)) a :
  maybe_snapshot l = Ok l' -> represents (rs_wal l) a -> represents (rs_wal l') a.
Proof.
  unfold maybe_snapshot. case_if; [|by intros [= <-]].
  intros (wal & Hw & [= <-])%bind_Ok. unfold wal_snapshot in Hw. case_match; [|done].
  case_match. apply bind_Ok in Hw as (db & Hdb & [= <-]). unfold write_state_snapshot in Hdb.
  apply bind_Ok in Hdb as (? & _ & Hdb). by apply bind_Ok in Hdb as (? & _ & [= <-]).
Qed.

(** A restarted node follows the contracts and channels that it has. *)
Lemma foldl_set_add {A B} `{EqDecision B} (g : A -> B) l acc x :
  x ∈ foldl (fun s a => set_add s (g a)) acc l <-> x ∈ acc \/ exists a, a ∈ l /\ x = g a.
Proof.
  revert acc. induction l as [|a l IH]; intros acc; cbn [foldl]; [set_solver|].
  rewrite IH. unfold set_add. destruct (bool_decide_reflect (g a ∈ acc)); set_solver.
Qed.

Definition network_step (d : dict bytes (list Z)) (tn : TokenNetworkState) : dict bytes (list Z) :=
  match channelidentifiers_to_channels tn with
  | [] => d
  | chans => dict_set (tn_address tn) (dict_keys chans) d
  end.

Lemma network_step_wf d tns : dict_wf d -> dict_wf (foldl network_step d tns).
Proof.
  revert d. induction tns as [|tn tns IH]; intros d Hd; [done|]. cbn [foldl]. apply IH.
  unfold network_step. case_match; [done|by apply dict_wf_set].
Qed.

Lemma network_step_get tns d tn :
  tn ∈ tns -> channelidentifiers_to_channels tn <> [] ->
  (forall tn', tn' ∈ tns -> tn_address tn' = tn_address tn -> tn' = tn) ->
  dict_get (tn_address tn) (foldl network_step d tns)
    = Some (dict_keys (channelidentifiers_to_channels tn)).
Proof.
  intros Hin Hne. induction tns as [|tn0 tns IH _] using rev_ind; intros Hsame; [set_solver|].
  rewrite foldl_app. cbn [foldl]. unfold network_step at 1.
  destruct (decide (tn_address tn0 = tn_address tn)) as [Heq|Hneq].
  - rewrite (Hsame tn0) by set_solver. case_match eqn:Ec; [done|]. rewrite <- Ec.
    apply dict_get_set_eq.
  - assert (tn ∈ tns) by (apply elem_of_app in Hin as [?|E%list_elem_of_singleton]; congruence).
    case_match; [|rewrite dict_get_set_ne by done]; apply IH; try done; set_solver.
Qed.

(** The registries of the state list every token network address once. *)
Definition networks_once (cs : ChainState) : Prop :=
  forall tn tn', tn ∈ flat_map token_network_list (registries cs) ->
    tn' ∈ flat_map token_network_list (registries cs) ->
    tn_address tn' = tn_address tn -> tn' = tn.

(** In addition, the list and the dictionary of a registry have the same token
    networks; this holds for every state that is followed. *)
Definition consistent (cs : ChainState) : Prop :=
  chain_covered (mkCover (fun _ => True) (fun _ => True) (fun _ _ => True)) cs
  /\ networks_once cs.

Lemma followed_consistent f cs : followed f cs -> networks_once cs -> consistent cs.
Proof.
  intros Hf Hone. split; [|done]. intros a r Hr. destruct (Hf a r Hr) as [_ _ R3]. by split.
Qed.

Lemma node_filter_follows cs secret_registry service_registry :
  consistent cs ->
  followed (smart_contract_filters_from_node_state cs secret_registry service_registry) cs.
Proof.
  intros [Hc Hone] a r Hr. destruct (Hc a r Hr) as [_ _ R3]. split; [done| |done].
  intros tn Htn.
  assert (tn ∈ flat_map token_network_list (registries cs)) as Hin.
  { apply list_elem_of_In, in_flat_map. exists r. split; [|by apply list_elem_of_In].
    apply list_elem_of_In, dict_values_elem. eauto. }
  split; cbn.
  - apply foldl_set_add. right. eauto.
  - intros id Hid. exists (dict_keys (channelidentifiers_to_channels tn)). split; [|done].
    apply dict_get_In, (network_step_get _ [] tn Hin); [by intros E; rewrite E in Hid; apply not_elem_of_nil in Hid|].
    intros tn' Hin'. by apply Hone.
Qed.

Lemma new_adjuster_config c a : new_BlockBatchSizeAdjuster c = Ok a -> block_batch_size_config a = c.
Proof. unfold new_BlockBatchSizeAdjuster. intros Hd. py_inv. by subst. Qed.

Lemma start_synced secret_registry service_registry batch_config adj
    (l : RaidenService (State := ChainState) (Data := Data)) a :
  represents (rs_wal l) a -> consistent (an_state a) -> secret_registry <> [] ->
  0 <= bbs_min batch_config <= bbs_max batch_config ->
  new_BlockBatchSizeAdjuster batch_config = Ok adj ->
  exists s : sync_service,
    start_synchronization secret_registry service_registry batch_config l = Ok s
    /\ synced s a /\ sync_log s = l.
Proof.
  intros Hrep Hcons Hsecret Hconf Hadj.
  unfold start_synchronization, new_BlockchainEvents. rewrite Hadj, !bind_ret_l.
  eexists. split; [done|].
  apply new_adjuster_config in Hadj. destruct Hrep as [Hr Hs]. rewrite Hs.
  split; [|done]. split; cbn.
  - by split.
  - split; cbn; [by apply network_step_wf, dict_wf_nil| |unfold config_ok; cbn; by rewrite Hadj].
    apply filter_bool_iff. right. right. right. by exists secret_registry.
  - split; [done|]. by apply node_filter_follows.
Qed.

Notation sync := (best_effort_synchronize_with_confirmed_head (Data := Data) config).

Lemma sync_refines head timeout clock s s' r a :
  synced s a -> sync head timeout clock s = Some (s', r) ->
  exists polls be a',
    catches_up chain config (cs_chain_id (an_state a)) (cs_our_address (an_state a)) head
      (sync_events s) a polls be a'
    /\ represents (rs_wal (sync_log s')) a' /\ in_step be a'
    /\ match r with
       | Ok (state, _) =>
           sync_events s' = be /\ ready be /\ cs_block_number (an_state a') <= head
           /\ (state = FULLY_SYNCED <-> cs_block_number (an_state a') = head)
       | Raise _ => True
       end.
Proof.
  intros [Hrep Hready Hstep] Hrun. unfold best_effort_synchronize_with_confirmed_head in Hrun.
  assert (sync_state s = an_state a) as Hstate by apply Hrep. rewrite Hstate in Hrun.
  destruct (sync_loop _ _ _ _ _ _ _ _ _) as [[[wal be'] res]|] eqn:Hl; [|done].
  destruct (sync_loop_refines _ _ _ _ _ _ _ _ _ _ _ _ Hrep Hready Hl)
    as (polls & be & a' & Hc & Hrep' & Hready' & Hr).
  pose proof (catches_up_in_step _ _ _ _ _ _ _ _ _ _ Hc Hstep) as Hstep'.
  exists polls, be, a'. split; [exact Hc|]. destruct res as [[scs evs]|e]; cycle 1.
  { injection Hrun as <- <-. by split; [exact Hrep'|split]. }
  subst be'. destruct (maybe_snapshot _) as [l2|e] eqn:Hm; cycle 1.
  { injection Hrun as <- <-. by split; [exact Hrep'|split]. }
  pose proof (snapshot_represents _ _ a' Hm Hrep') as Hrep2. injection Hrun as <- <-.
  split; [exact Hrep2|]. split; [exact Hstep'|]. destruct Hrep2 as [_ ->].
  destruct (cs_block_number (an_state a') <=? head) eqn:E1; cbn; [|done].
  split_and!; [done|done|by apply Z.leb_le|].
  destruct (_ <? head) eqn:E2; split; intros; try done; lia.
Qed.

(** C20: synchronizing with the confirmed blocks misses no event and takes none
    twice, however it ends.  The log and the state of the node are those of an
    abstract node that takes the blocks in contiguous batches, each as a whole:
    all events of a batch, in order, and its [Block], or nothing of it.  So the
    next poll, also the one after a restart, has to start after the block of the
    state; every log that the filters select up to that block was an event of
    one of the batches, and nothing else was.  When the call returns, the poller
    has that position, all contracts of the node are followed, and the result
    tells whether the confirmed head is reached. *)
Theorem sync_in_whole_batches head timeout clock s s' r a
    (Hsynced : synced s a)
    (Hrun : sync head timeout clock s = Some (s', r)) :
  exists polls be a',
    catches_up chain config (cs_chain_id (an_state a)) (cs_our_address (an_state a)) head
      (sync_events s) a polls be a'
    /\ represents (rs_wal (sync_log s')) a'
    /\ cs_block_number (sync_state s') = last_fetched_block be
    /\ (forall l, l ∈ chain -> selected (cs_our_address (an_state a)) (event_filter (sync_events s)) l ->
         cs_block_number (sync_state s) < log_block_number l <= cs_block_number (sync_state s') ->
         (exists poll e, poll ∈ polls /\ e ∈ poll_events poll /\ decodes (cs_chain_id (an_state a)) l e)
         \/ ignored_secret (event_filter (sync_events s)) l)
    /\ (forall poll e, poll ∈ polls -> e ∈ poll_events poll ->
         exists l, l ∈ chain /\ decodes (cs_chain_id (an_state a)) l e
           /\ cs_block_number (sync_state s) < log_block_number l <= cs_block_number (sync_state s'))
    /\ match r with
       | Ok (state, _) =>
           synced s' a' /\ cs_block_number (sync_state s') <= head
           /\ (state = FULLY_SYNCED <-> cs_block_number (sync_state s') = head)
       | Raise _ => True
       end.
Proof.
  destruct (sync_refines _ _ _ _ _ _ _ Hsynced Hrun) as (polls & be & a' & Hc & Hrep & Hstep & Hr).
  destruct Hsynced as [[_ Hs] _ [Hn _]]. pose proof Hrep as [_ Hs']. pose proof Hstep as [Hn' _].
  unfold sync_state. rewrite Hs, Hs', Hn, Hn'. exists polls, be, a'.
  split_and!; [done|done|done| | |].
  - intros l Hl Hsel Hb. by eapply catches_up_complete; [exact Hc|..]; [|lia|].
  - intros poll e Hp He. by eapply catches_up_sound.
  - destruct r as [[state evs]|]; [|done]. destruct Hr as (<- & Hready & Hle & Hfull).
    rewrite Hn' in Hle, Hfull. split_and!; try done.
Qed.

(** ** Progress *)

Lemma py_map_raises {A B} (g : A -> Py B) l e :
  py_map g l = Raise e -> exists x, x ∈ l /\ g x = Raise e.
Proof.
  induction l as [|x l IH]; cbn; [done|].
  destruct (g x) as [y|e'] eqn:Eg; cbn; [|intros [= <-]; exists x; split; [left|done]].
  destruct (py_map g l) as [ys|e'] eqn:El; cbn; [done|]. intros [= ->].
  destruct (IH eq_refl) as (z & ? & ?). exists z. split; [by right|done].
Qed.

(** The requests are answered. *)
Definition answered : Prop := forall n p, eth_getLogs n p <> None.

Lemma decode_log_no_timeout chain_id abis l : decode_log chain_id abis l <> Raise EthGetLogsTimeout.
Proof.
  unfold decode_log, decode_raiden_event_to_internal, decode_event, py_assert.
  repeat (case_match; cbn; try done).
Qed.

Lemma request_logs_answered params n d :
  answered -> exists n' r, request_logs params n d = (n', Ok r).
Proof.
  intros Ha. revert n d. induction params as [|p params IH]; intros n d; cbn; [eauto|].
  destruct (eth_getLogs n p) as [[logs q]|] eqn:E; [|by apply Ha in E].
  destruct (IH (S n) (Qmax_py d q)) as (n' & [ls q'] & ->). eauto.
Qed.

Lemma query_loop_no_timeout chain_id node_address rounds from_block to_block f d res be be' r :
  answered ->
  query_loop chain_id node_address rounds from_block to_block f d res be = Some (be', r) ->
  r <> Raise EthGetLogsTimeout.
Proof.
  intros Ha. revert f d res be. induction rounds as [|n IH]; intros f d res be Hq; cbn in Hq;
    (destruct (filter_bool f); [|by injection Hq as _ <-]); [done|].
  destruct (request_logs_answered (to_web3_filters node_address f from_block to_block)
              (be_requests be) d Ha) as (n' & [logs q] & Hr). rewrite Hr in Hq.
  destruct logs as [|l logs]; [by injection Hq as _ <-|].
  destruct (py_map _ (l :: logs)) as [decoded|e] eqn:Ed; cycle 1.
  { injection Hq as _ <-. intros [= ->]. apply py_map_raises in Ed as (x & _ & Hx).
    by apply decode_log_no_timeout in Hx. }
  destruct (filter_union _ _) as [u|e] eqn:Eu; [by eapply IH|]. injection Hq as _ <-. intros [= ->].
  unfold filter_union, raise_if in Eu. by repeat (case_match; try done).
Qed.

(** A poll whose requests are answered advances or raises. *)
Lemma answered_poll_advances chain_id node_address target be be' :
  answered -> fetch_logs_in_batch chain_id node_address target be <> (be', Ok None).
Proof.
  intros Ha Hf. unfold fetch_logs_in_batch in Hf. case_match; [done|].
  destruct (batch_size _) as [size|]; [|done].
  destruct (query_and_track _ _ _ _ be) as [be1 r] eqn:Hq.
  assert (r <> Raise EthGetLogsTimeout) as Hr.
  { unfold query_and_track in Hq. destruct (query_loop _ _ _ _ _ _ _ _ _) as [[b q]|] eqn:E.
    - injection Hq as <- <-. by eapply query_loop_no_timeout.
    - by injection Hq as _ <-. }
  destruct r as [[evs d]|e].
  - destruct (adjust_batch_size _ _ _ _); [|done]. by destruct (get_block _).
  - by destruct e.
Qed.

Lemma sync_loop_progress chain_id node_address guard clock wal be scs evs :
  ready be -> answered -> Forall (fun t => (t <= sync_timeout guard)%Q) clock ->
  Z.max 0 (current_confirmed_head guard - last_fetched_block be) < Z.of_nat (length clock) ->
  exists wal' be' r,
    sync_loop config chain_id node_address guard clock wal be scs evs = Some (wal', be', r)
    /\ match r with
       | Ok _ => current_confirmed_head guard <= last_fetched_block be'
       | Raise _ => True
       end.
Proof.
  intros Hready Ha. revert wal be scs evs Hready.
  induction clock as [|t clock IH]; intros wal be scs evs Hready Ht Hlen; [cbn in Hlen; lia|].
  apply Forall_cons in Ht as [Ht Hclock]. cbn [sync_loop]. unfold should_continue.
  rewrite (proj2 (Qle_bool_iff _ _) Ht). cbn [andb length] in *.
  destruct (last_fetched_block be <? current_confirmed_head guard) eqn:Elt;
    [|do 3 eexists; split; [reflexivity|cbn; lia]].
  destruct (fetch_logs_in_batch _ _ _ be) as [be1 [[poll|]|e]] eqn:Hf.
  - destruct (fetch_logs_in_batch_spec chain _ _ _ _ _ _ Hready Hf) as (Hready1 & _ & Hl & _).
    destruct (run_atomically wal _) as [wal1 [[scs1 evs1]|e]]; [apply IH; auto; lia|by do 3 eexists].
  - by apply answered_poll_advances in Hf.
  - by do 3 eexists.
Qed.

Lemma sync_loop_late chain_id node_address guard clock wal be scs evs :
  Exists (fun t => (sync_timeout guard < t)%Q) clock ->
  exists out, sync_loop config chain_id node_address guard clock wal be scs evs = Some out.
Proof.
  revert wal be scs evs. induction clock as [|t clock IH]; intros wal be scs evs He;
    [by apply Exists_nil in He|]. cbn [sync_loop]. unfold should_continue.
  apply Exists_cons in He as [Hlate|He].
  - destruct (Qle_bool t _) eqn:E; [|cbn; eauto]. apply Qle_bool_iff in E.
    by apply Qlt_not_le in Hlate.
  - destruct (_ && _); [|eauto]. destruct (fetch_logs_in_batch _ _ _ be) as [be1 [[poll|]|e]]; eauto.
    destruct (run_atomically wal _) as [wal1 [[scs1 evs1]|e]]; eauto.
Qed.

Lemma sync_ends_with head timeout clock s a out :
  synced s a ->
  sync_loop config (cs_chain_id (an_state a)) (cs_our_address (an_state a))
    (mkSyncTimeout head timeout) clock (rs_wal (sync_log s)) (sync_events s) [] [] = Some out ->
  exists s' r, sync head timeout clock s = Some (s', r)
    /\ match r with
       | Ok _ => sync_events s' = snd (fst out) /\ exists x, snd out = Ok x
       | Raise _ => True
       end.
Proof.
  intros [[_ Hs] _ _] Hl. unfold best_effort_synchronize_with_confirmed_head, sync_state.
  rewrite Hs, Hl. destruct out as [[wal be] [[scs evs]|e]]; [|by do 2 eexists].
  destruct (maybe_snapshot _); do 2 eexists; (split; [reflexivity|]); [|done].
  destruct (py_assert _ _); [cbn; eauto|done].
Qed.

(** C23: a synchronization always ends, and ends at the confirmed head unless it
    is interrupted.  It ends when a reading of the clock is over the timeout.
    While the time is not over and the client answers, as many readings as there
    are blocks to fetch, and one more, are enough, and if the synchronization
    does not raise, then the node is fully synced. *)
Theorem sync_reaches_the_head head timeout clock s a
    (Hsynced : synced s a) :
  (Exists (fun t => (timeout < t)%Q) clock -> exists out, sync head timeout clock s = Some out)
  /\ (answered -> Forall (fun t => (t <= timeout)%Q) clock ->
      Z.max 0 (head - cs_block_number (sync_state s)) < Z.of_nat (length clock) ->
      exists s' r, sync head timeout clock s = Some (s', r)
        /\ match r with
           | Ok (state, _) => state = FULLY_SYNCED /\ cs_block_number (sync_state s') = head
           | Raise _ => True
           end).
Proof.
  split.
  - intros Hlate. edestruct (sync_loop_late (cs_chain_id (an_state a)) (cs_our_address (an_state a))
      (mkSyncTimeout head timeout)) as [out Hl]; [exact Hlate|].
    destruct (sync_ends_with _ _ _ _ _ _ Hsynced Hl) as (s' & r & ? & _). eauto.
  - intros Ha Ht Hlen. pose proof Hsynced as [[_ Hs] Hready [Hn _]].
    unfold sync_state in Hlen. rewrite Hs, Hn in Hlen.
    edestruct (sync_loop_progress (cs_chain_id (an_state a)) (cs_our_address (an_state a))
      (mkSyncTimeout head timeout)) as (wal & be & res & Hl & Hres); [done..|].
    destruct (sync_ends_with _ _ _ _ _ _ Hsynced Hl) as (s' & r & Hrun & Hr).
    exists s', r. split; [done|]. destruct r as [[state evs]|]; [|done].
    destruct (sync_refines _ _ _ _ _ _ _ Hsynced Hrun)
      as (polls & be1 & a' & _ & [_ Hs'] & [Hn' _] & Hbe & _ & Hle & Hfull).
    destruct Hr as [Hr [x Hx]]. cbn in Hr, Hx. rewrite Hx in Hres. cbn in Hres.
    unfold sync_state. rewrite Hs', Hfull. rewrite <- Hbe, Hr in Hn'. split; lia.
Qed.
End refinement.

(** ** A restart after a synchronization, however that ended *)

Section restart.
Context `{Crypto} `{FloatPow} `{FloatLog} `{Web3} (chain : list Log) `{!Web3Laws chain}.
Context `{UlidFactory} {Data : Type}.
Context `{!Serializer Data ChainState} `{!Serializer Data StateChange} `{!Serializer Data Event}.
Context (config : RaidenConfig).

Notation dispatcher := (Dispatcher (State := ChainState) (Ev := Event) (Data := Data)).
Notation service_log := (RaidenService (State := ChainState) (Data := Data)).
Notation sync_service := (SyncService (Data := Data)).

(** The events of a batch are dispatched like a given list of state changes. *)
Lemma sync_events_dispatch es (d d' : dispatcher) scs scs' :
  py_foldl (sync_event config) (d, scs) es = Ok (d', scs') ->
  exists new, scs' = scs ++ new /\ py_foldl (dispatcher_dispatch node_transition) d new = Ok d'.
Proof.
  revert d scs. induction es as [|e es IH]; intros d scs Hrun.
  - injection Hrun as <- <-. exists []. by rewrite app_nil_r.
  - cbn [py_foldl] in Hrun. apply bind_Ok in Hrun as ([d1 scs1] & He & Hrun).
    destruct (IH _ _ Hrun) as (new & -> & Hnew). unfold sync_event in He.
    apply bind_Ok in He as (st & _ & He). apply bind_Ok in He as ([sc|] & _ & He).
    + apply bind_Ok in He as (d2 & Hd & [= <- <-]). exists (sc :: new). rewrite <- List.app_assoc.
      split; [done|]. cbn [py_foldl]. by rewrite Hd.
    + injection He as <- <-. eauto.
Qed.

Lemma batch_is_processed wal poll wal' scs evs :
  run_atomically wal (sync_batch config poll) = (wal', Ok (scs, evs)) ->
  process_state_change_atomically (Data := Data) node_transition wal scs = (wal', Ok evs).
Proof.
  unfold process_state_change_atomically, run_atomically. intros Hrun.
  destruct (sync_batch config poll _) as [[d res]|e] eqn:Hb; [|done]. unfold sync_batch in Hb.
  apply bind_Ok in Hb as ([d1 scs1] & He & Hb). apply bind_Ok in Hb as (d2 & Hd & [= <- <-]).
  apply sync_events_dispatch in He as (new & -> & Hnew). injection Hrun as <- <- <-.
  rewrite py_foldl_app. cbn [app]. rewrite Hnew, bind_ret_l. cbn [py_foldl]. by rewrite Hd.
Qed.

Lemma count_twice (l : service_log) wal n wal' m :
  count_state_changes (count_state_changes l wal n) wal' m = count_state_changes l wal' (n + m).
Proof. unfold count_state_changes. cbn. f_equal. lia. Qed.

Lemma count_none (l : service_log) : count_state_changes l (rs_wal l) 0 = l.
Proof. destruct l. unfold count_state_changes. cbn. f_equal. lia. Qed.

Lemma sync_loop_logs s0 chain_id node_address guard clock l be scs evs before after rb ra sn wal' be' r :
  service_inv node_transition s0 l before after rb ra sn ->
  sync_loop config chain_id node_address guard clock (rs_wal l) be scs evs = Some (wal', be', r) ->
  exists new rows,
    service_inv node_transition s0 (count_state_changes l wal' (length new))
      before (after ++ new) rb (ra ++ rows) sn
    /\ match r with Ok (scs', _) => scs' = scs ++ new | Raise _ => True end.
Proof.
  revert l be scs evs after ra.
  induction clock as [|t clock IH]; intros l be scs evs after ra Hinv Hrun; [done|].
  cbn [sync_loop] in Hrun.
  assert (exists new rows,
    service_inv node_transition s0 (count_state_changes l (rs_wal l) (length new))
      before (after ++ new) rb (ra ++ rows) sn /\ scs = scs ++ new) as (new0 & rows0 & Hinv0 & Hscs0).
  { exists [], []. cbn [length]. by rewrite count_none, !app_nil_r. }
  destruct (should_continue guard t (last_fetched_block be));
    [|injection Hrun as <- <- <-; eauto].
  destruct (fetch_logs_in_batch _ _ _ be) as [be1 [[poll|]|e]];
    [|by eapply IH|injection Hrun as <- <- <-; eauto].
  destruct (run_atomically (rs_wal l) _) as [wal1 [[scs1 evs1]|e]] eqn:Hrun1.
  - apply batch_is_processed in Hrun1.
    destruct (process_keeps_inv _ node_transition_in_place _ _ _ _ _ _ _ _ _ _ Hinv Hrun1)
      as (rows & Hinv1).
    destruct (IH (count_state_changes l wal1 (length scs1)) be1 _ _ _ _ Hinv1 Hrun)
      as (new & rows' & Hinv2 & Hr).
    exists (scs1 ++ new), (rows ++ rows'). rewrite length_app. split.
    + by rewrite count_twice, <- !List.app_assoc in Hinv2.
    + destruct r as [[scs' ?]|]; [|done]. by rewrite Hr, List.app_assoc.
  - unfold run_atomically in Hrun1. destruct (sync_batch config poll _) as [[d res]|]; [done|].
    injection Hrun1 as <- _. injection Hrun as <- <- <-. eauto.
Qed.

Notation sync := (best_effort_synchronize_with_confirmed_head (Data := Data) config).

(** Without a periodic snapshot the log of the service has all state changes of
    the batches. *)
Lemma sync_logs s0 head timeout clock (s s' : sync_service) r :
  service_reached node_transition s0 (sync_log s) ->
  sync head timeout clock s = Some (s', r) ->
  state_change_qty_snapshot (sync_log s') = 0 ->
  exists qty after rb ra sn,
    service_inv node_transition s0 (mkRaidenService (rs_wal (sync_log s')) 0 qty) [] after rb ra sn.
Proof.
  intros (before & after & rb & ra & sn & Hinv) Hrun Hqty.
  unfold best_effort_synchronize_with_confirmed_head in Hrun.
  destruct (sync_loop _ _ _ _ _ _ _ _ _) as [[[wal be'] res]|] eqn:Hl; [|done].
  destruct (sync_loop_logs _ _ _ _ _ _ _ _ _ _ _ _ _ _ _ _ _ Hinv Hl) as (new & rows & Hinv' & Hr).
  assert (state_change_qty_snapshot (sync_log s) = 0 ->
    exists qty after rb ra sn,
      service_inv node_transition s0 (mkRaidenService wal 0 qty) [] after rb ra sn) as Hdone.
  { intros H0q. pose proof (si_qty_snapshot _ _ _ _ _ _ _ _ Hinv) as Hb. rewrite H0q in Hb.
    destruct before; [|cbn in Hb; lia]. unfold count_state_changes in Hinv'. rewrite H0q in Hinv'.
    do 5 eexists. exact Hinv'. }
  destruct res as [[scs evs]|e]; [|injection Hrun as <- <-; by apply Hdone].
  destruct (maybe_snapshot _) as [l2|e] eqn:Hm; [|injection Hrun as <- <-; by apply Hdone].
  injection Hrun as <- <-. cbn [sync_log] in *. unfold maybe_snapshot in Hm.
  destruct (_ <? _) eqn:Hlt in Hm; [|injection Hm as <-; by apply Hdone].
  exfalso. apply bind_Ok in Hm as (w & _ & [= <-]). cbn in Hqty, Hlt.
  apply Z.ltb_lt in Hlt. rewrite (si_qty_snapshot _ _ _ _ _ _ _ _ Hinv) in Hlt.
  unfold SNAPSHOT_STATE_CHANGES_COUNT in Hlt. lia.
Qed.

(** C21: a node that is stopped or crashes during a synchronization, before its
    first periodic snapshot ([state_change_qty_snapshot] is still zero), loses
    nothing and repeats nothing: the restart returns, the storage restores the
    state after the last whole batch, and the poller that is started with it is
    synced there, at the block of that state, following all contracts of that
    state.  After a periodic snapshot the
    state change of the snapshot is applied twice
    ([WalProofs.restart_applies_snapshot_change_twice]).  The other conditions:
    the identifiers of the log are in the range of the queries, the registries
    list every token network address once, the secret registry has an address,
    the bounds of the batch size are in order, and the logarithm of the initial
    batch size can be computed. *)
Theorem restart_continues_the_sync s0 head timeout clock (s s' : sync_service) r a other
    secret_registry service_registry batch_config adjuster
    (Hreached : service_reached node_transition s0 (sync_log s))
    (Hsynced : synced s a)
    (Hrun : sync head timeout clock s = Some (s', r))
    (Hqty : state_change_qty_snapshot (sync_log s') = 0)
    (Hids : ids_in_range (wal_storage (rs_wal (sync_log s'))))
    (Honce : networks_once (sync_state s'))
    (Hsecret : secret_registry <> [])
    (Hconf : 0 <= bbs_min batch_config <= bbs_max batch_config)
    (Hadjuster : new_BlockBatchSizeAdjuster batch_config = Ok adjuster) :
  exists s2 polls be a',
    (l ← initialize_wal node_transition (wal_storage (rs_wal (sync_log s'))) other;
     start_synchronization secret_registry service_registry batch_config l) = Ok s2
    /\ catches_up chain config (cs_chain_id (an_state a)) (cs_our_address (an_state a)) head
      (sync_events s) a polls be a'
    /\ synced s2 a' /\ sync_state s2 = sync_state s'
    /\ last_fetched_block (sync_events s2) = last_fetched_block be.
Proof.
  destruct (sync_refines chain _ _ _ _ _ _ _ _ Hsynced Hrun)
    as (polls & be & a' & Hc & Hrep & [Hn Hf] & _).
  destruct (sync_logs _ _ _ _ _ _ _ Hreached Hrun Hqty) as (qty & after & rb & ra & sn & Hinv).
  rewrite (restart_from_start _ _ _ _ _ _ _ other Hinv Hids), bind_ret_l.
  pose proof Hrep as [Hr Hs]. unfold sync_state in *. rewrite Hs in Honce.
  set (l := mkRaidenService _ _ _).
  destruct (start_synced chain secret_registry service_registry batch_config adjuster l a')
    as (s2 & Hstart & Hsynced2 & Hlog); [by split|by eapply followed_consistent|done..|].
  exists s2, polls, be, a'. split_and!; [done|done|done|by rewrite Hlog|].
  destruct Hsynced2 as [_ _ [Hn2 _]]. congruence.
Qed.
End restart.
