(* ===== verification/ChainSyncExamples.v ===== *)
(** Bob's node synchronizes with a small chain, on which the theorems about the
    polling, the synchronization and the restart are applied. *)

From Stdlib Require Import QArith.
From coqutil Require Import Byte.
From S2P Require Import Prelude PyDict Bytes Crypto PyFloat MediationFee State Events.
From S2P Require Import StateChanges Channel ChannelExamples TaskExamples Node NodeFrame Views.
From S2P Require Import Wal WalProofs Formatting ChainEvents ChainEventsProofs ChainDecode.
From S2P Require Import ChainSync.
From S2P Require Import ChainSyncProofs.

#[local] Open Scope Z_scope.
#[local] Existing Instance toy_crypto.
#[local] Existing Instance toy_pow.

(** ** The chain *)

Definition registry_address : bytes := be_encode 20 5.
Definition secret_registry_of_chain : bytes := be_encode 20 6.

(** A registry creates a token network, in which a channel of Bob is opened,
    gets a deposit and is closed.  The data of a log is its position here. *)
Definition chain_args : list (EventArgs string) :=
  [TokenNetworkCreated (to_checksum_address example_net) (to_checksum_address (be_encode 20 4));
   ChannelOpened 9 (to_checksum_address alice) (to_checksum_address bob) 50;
   ChannelNewDeposit 9 (to_checksum_address alice) 100;
   ChannelClosed 9 (to_checksum_address alice)].

Definition event_code (ev : EventName) : bytes :=
  match ev with
  | EVENT_TOKEN_NETWORK_CREATED => [byte.of_Z 1]
  | CHANNEL_OPENED => [byte.of_Z 2]
  | CHANNEL_DEPOSIT => [byte.of_Z 3]
  | CHANNEL_WITHDRAW => [byte.of_Z 4]
  | CHANNEL_BALANCE_PROOF_UPDATED => [byte.of_Z 5]
  | CHANNEL_CLOSED => [byte.of_Z 6]
  | CHANNEL_SETTLED => [byte.of_Z 7]
  | CHANNEL_UNLOCKED => [byte.of_Z 8]
  | EVENT_SECRET_REVEALED => [byte.of_Z 9]
  | EVENT_REGISTERED_SERVICE => [byte.of_Z 10]
  | OTHER_EVENT name => byte.of_Z 0 :: String.list_byte_of_string name
  end.

Definition log_at (contract : bytes) (topics : list bytes) (position block : Z) : Log :=
  mkLog (to_checksum_address contract) topics (be_encode 1 position) block (be_encode 32 block)
    (be_encode 32 (100 + position)).

Definition example_chain : list Log :=
  [log_at registry_address [event_code EVENT_TOKEN_NETWORK_CREATED] 0 22;
   log_at example_net [event_code CHANNEL_OPENED; be_encode 32 9; be_encode 32 1; be_encode 32 2] 1 23;
   log_at example_net [event_code CHANNEL_DEPOSIT; be_encode 32 9; be_encode 32 1] 2 24;
   log_at example_net [event_code CHANNEL_CLOSED; be_encode 32 9; be_encode 32 1] 3 29].

#[local] Instance example_web3 : Web3 := {|
  event_topic := event_code;
  contract_events c :=
    match c with
    | CONTRACT_TOKEN_NETWORK_REGISTRY => [EVENT_TOKEN_NETWORK_CREATED]
    | CONTRACT_TOKEN_NETWORK =>
        [CHANNEL_OPENED; CHANNEL_DEPOSIT; CHANNEL_WITHDRAW; CHANNEL_BALANCE_PROOF_UPDATED;
         CHANNEL_CLOSED; CHANNEL_SETTLED; CHANNEL_UNLOCKED]
    | CONTRACT_SECRET_REGISTRY => [EVENT_SECRET_REVEALED]
    | CONTRACT_SERVICE_REGISTRY => [EVENT_REGISTERED_SERVICE]
    end;
  get_event_data ev l :=
    match chain_args !! Z.to_nat (int_from_bytes (log_data l)) with
    | Some d => if bool_decide (event_name d = ev) then Some d else None
    | None => None
    end;
  to_canonical_address := parse_address;
  eth_getLogs _ p := Some (List.filter (log_matches p) example_chain, 0%Q);
  get_block nr := (be_encode 32 nr, 1000000)
|}.

#[local] Instance example_log : FloatLog := {| math_log _ base := Ok base |}.

#[local] Instance example_web3_laws : Web3Laws example_chain.
Proof.
  split.
  - intros ev1 ev2. destruct ev1, ev2; cbn; try (by vm_compute; congruence).
    intros [= Heq]. f_equal. by apply (f_equal String.string_of_list_byte) in Heq;
      rewrite !String.string_of_list_byte_of_string in Heq.
  - intros ev l d. cbn. case_match; [|done]. case_if; [|done]. intros [= <-].
    by apply bool_decide_eq_true in Heqb.
  - apply parse_to_checksum.
  - intros n p logs d Hlogs l. assert (logs = List.filter (log_matches p) example_chain) as ->
      by (by injection Hlogs as <- _). by rewrite elem_of_filter_bool.
Qed.

(** ** The service *)

Inductive Row : Type :=
  | RowState (cs : ChainState)
  | RowChange (sc : StateChange)
  | RowEvent (e : Event).

#[local] Existing Instance Accumulator.counter_ids.

#[local] Instance state_rows : Serializer Row ChainState.
Proof.
  refine {| serialize := RowState;
            deserialize r := match r with RowState cs => Ok cs | _ => Raise KeyError end |}.
  reflexivity.
Defined.

#[local] Instance change_rows : Serializer Row StateChange.
Proof.
  refine {| serialize := RowChange;
            deserialize r := match r with RowChange sc => Ok sc | _ => Raise KeyError end |}.
  reflexivity.
Defined.

#[local] Instance event_rows : Serializer Row Event.
Proof.
  refine {| serialize := RowEvent;
            deserialize r := match r with RowEvent e => Ok e | _ => Raise KeyError end |}.
  reflexivity.
Defined.

(** Bob's node knows the registry only. *)
Definition first_state : ChainState :=
  mkChainState example_prng 20 [] bob 1
    [(registry_address, mkTokenNetworkRegistryState registry_address [] [] [])] [] [] [] [].

Definition example_config : RaidenConfig :=
  mkRaidenConfig 10 (mkMediationFeeConfig [] [] [] true).

Definition first_log : RaidenService (State := ChainState) (Data := Row) :=
  match initialize_wal node_transition empty_storage first_state with
  | Ok l => l
  | Raise _ => mkRaidenService (new_WriteAheadLog first_state empty_storage) 0 0
  end.

Definition first_service : SyncService (Data := Row) :=
  match start_synchronization secret_registry_of_chain None default_batch_size_config first_log with
  | Ok s => s
  | Raise _ => mkSyncService first_log
      (mkBlockchainEvents 0 (mkRaidenContractFilter [] [] [] None true None)
         (mkBlockBatchSizeAdjuster default_batch_size_config float_1_0 float_1_0 float_1_0) [] 0)
  end.

Definition clock : list Q := [0; 1; 2; 3; 4; 5; 6; 7; 8; 9; 10; 11]%Q.

Notation sync := (best_effort_synchronize_with_confirmed_head example_config 30 100 clock).

Definition first_node : AbstractNode := mkAbstractNode (mkStored [] []) first_state.

Lemma first_started :
  start_synchronization secret_registry_of_chain None default_batch_size_config first_log
  = Ok first_service.
Proof. vm_compute. reflexivity. Qed.

Lemma first_reached : service_reached node_transition first_state (sync_log first_service).
Proof. apply first_start_reached. vm_compute. reflexivity. Qed.

Lemma first_represents : represents (rs_wal first_log) first_node.
Proof. split; vm_compute; reflexivity. Qed.

Lemma first_consistent : consistent first_state.
Proof.
  split.
  - intros a r Hr. apply list_elem_of_singleton in Hr as [= -> ->]. split; [done|set_solver|done].
  - intros tn tn' Hin. cbn in Hin. set_solver.
Qed.

Lemma default_config_ok :
  0 <= bbs_min default_batch_size_config <= bbs_max default_batch_size_config.
Proof. cbn. lia. Qed.

Lemma first_synced : synced first_service first_node.
Proof.
  assert (exists adjuster, new_BlockBatchSizeAdjuster default_batch_size_config = Ok adjuster)
    as [adjuster Ha] by (eexists; vm_compute; reflexivity).
  destruct (start_synced example_chain secret_registry_of_chain None default_batch_size_config adjuster
    first_log first_node first_represents first_consistent) as (s & Hs & Hsynced & _);
    [done|apply default_config_ok|done|].
  rewrite first_started in Hs. by injection Hs as <-.
Qed.

Lemma polled_batch_events_witness :
  exists s' poll,
    fetch_logs_in_batch 1 bob 30 (sync_events first_service) = (s', Ok (Some poll))
    /\ last_fetched_block (sync_events first_service) = 20 /\ last_fetched_block s' = 26
    /\ length (poll_events poll) = 3%nat
    /\ batch_events example_chain 1 bob 21 26 (sync_events first_service) s' (poll_events poll).
Proof.
  destruct (fetch_logs_in_batch 1 bob 30 (sync_events first_service)) as [s' r] eqn:E.
  pose proof (polled_batch_events example_chain 1 bob 30 _ _ _ (synced_ready _ _ first_synced) E)
    as (_ & _ & _ & Hr).
  assert (last_fetched_block s' = 26) as Hl by (vm_compute in E; injection E as <- _; reflexivity).
  destruct r as [[poll|]|e]; [|exfalso; vm_compute in E; discriminate E..].
  destruct Hr as (_ & _ & _ & Hb). rewrite Hl in Hb.
  exists s', poll. split; [reflexivity|]. split; [vm_compute; reflexivity|]. split; [exact Hl|].
  split; [vm_compute in E; injection E as _ <-; reflexivity|exact Hb].
Defined.

Lemma balance_proof_updates_are_not_polled_witness :
  exists s' poll e,
    fetch_logs_in_batch 1 bob 30 (sync_events first_service) = (s', Ok (Some poll))
    /\ e ∈ poll_events poll /\ event_name (de_event_data e) <> CHANNEL_BALANCE_PROOF_UPDATED.
Proof.
  destruct (fetch_logs_in_batch 1 bob 30 (sync_events first_service)) as [s' r] eqn:E.
  destruct r as [[poll|]|err]; [|exfalso; vm_compute in E; discriminate E..].
  destruct (poll_events poll) as [|e es] eqn:Ep;
    [exfalso; vm_compute in E; injection E as _ <-; discriminate Ep|].
  exists s', poll, e. split; [reflexivity|]. assert (e ∈ poll_events poll) as He by (rewrite Ep; left).
  split; [exact He|].
  exact (balance_proof_updates_are_not_polled example_chain 1 bob 30 _ _ _
           (synced_ready _ _ first_synced) E e He).
Defined.

(** The first batch has the three events of the blocks 21 to 26, with the token
    network and the channel that they create, and the second one the close. *)
Definition kind (sc : StateChange) : Z :=
  match sc with
  | SBlock a => block_number a
  | SContractReceiveNewTokenNetwork _ => 1
  | SContractReceiveChannelNew _ => 2
  | SContractReceiveChannelDeposit _ => 3
  | SContractReceiveChannelClosed _ => 4
  | _ => 0
  end.

Lemma sync_in_whole_batches_witness :
  exists s' evs polls be a',
    sync first_service = Some (s', Ok (FULLY_SYNCED, evs))
    /\ catches_up example_chain example_config 1 bob 30 (sync_events first_service) first_node
         polls be a'
    /\ map kind (stored_state_changes (an_log a')) = [1; 2; 3; 26; 4; 30] /\ synced s' a'.
Proof.
  destruct (sync first_service) as [[s' r]|] eqn:E; [|exfalso; vm_compute in E; discriminate E].
  pose proof (sync_in_whole_batches example_chain example_config 30 100 clock _ _ _ _ first_synced E)
    as (polls & be & a' & Hc & [Hrep _] & _ & _ & _ & Hr).
  destruct r as [[state evs]|e]; [|exfalso; vm_compute in E; discriminate E].
  destruct Hr as (Hs & _ & Hfull). exists s', evs, polls, be, a'.
  assert (state = FULLY_SYNCED) as -> by (vm_compute in E; injection E; intros; subst; reflexivity).
  split; [reflexivity|]. split; [exact Hc|]. split; [|exact Hs].
  destruct a' as [st cs']. vm_compute in E. injection E as <- _. vm_compute in Hrep.
  injection Hrep as <-. reflexivity.
Defined.

Lemma all_answered : answered.
Proof. intros n p. discriminate. Qed.

Lemma sync_reaches_the_head_witness :
  exists s' evs, sync first_service = Some (s', Ok (FULLY_SYNCED, evs))
    /\ cs_block_number (sync_state s') = 30.
Proof.
  destruct (sync_reaches_the_head example_chain example_config 30 100 clock _ _ first_synced)
    as [_ Hlive].
  destruct Hlive as (s' & r & Hrun & Hr); [exact all_answered| |vm_compute; reflexivity|].
  - repeat constructor; vm_compute; discriminate.
  - destruct r as [[state evs]|e]; [|exfalso; vm_compute in Hrun; discriminate Hrun].
    destruct Hr as [-> Hn]. exists s', evs. by split.
Defined.

(** After the first batch the time is over, and the node is restarted. *)
Definition short_clock : list Q := [0; 101]%Q.

Notation short_sync :=
  (best_effort_synchronize_with_confirmed_head example_config 30 100 short_clock).

Definition stopped_service : SyncService (Data := Row) :=
  match short_sync first_service with Some (s, _) => s | None => first_service end.

Definition restarted_service : SyncService (Data := Row) :=
  match initialize_wal node_transition (wal_storage (rs_wal (sync_log stopped_service))) first_state
        ≫= start_synchronization secret_registry_of_chain None default_batch_size_config with
  | Ok s => s
  | Raise _ => first_service
  end.

Lemma stopped_registries :
  exists tn tokens,
    identifiers_to_tokennetworkregistries (sync_state stopped_service) =
      [(registry_address,
        mkTokenNetworkRegistryState registry_address [tn] tokens [(example_net, tn)])]
    /\ tn_address tn = example_net.
Proof. do 2 eexists. split; vm_compute; reflexivity. Qed.

Lemma stopped_once : networks_once (sync_state stopped_service).
Proof.
  destruct stopped_registries as (tn & tokens & Hr & Ha).
  unfold networks_once, registries. rewrite Hr. clear Hr. intros tn1 tn2 H1 H2 _. cbn in H1, H2.
  apply list_elem_of_singleton in H1 as ->. by apply list_elem_of_singleton in H2.
Qed.

Lemma Ok_inj {A} (x y : A) : Ok x = Ok y -> x = y.
Proof. by intros [= ->]. Qed.

Lemma restart_continues_the_sync_witness :
  exists s' r polls be a',
    short_sync first_service = Some (s', r)
    /\ catches_up example_chain example_config 1 bob 30 (sync_events first_service) first_node
         polls be a'
    /\ synced restarted_service a' /\ sync_state restarted_service = sync_state s'
    /\ last_fetched_block (sync_events restarted_service) = 26.
Proof.
  assert (exists r, short_sync first_service = Some (stopped_service, r)) as [r E]
    by (eexists; vm_compute; reflexivity).
  assert (exists adjuster, new_BlockBatchSizeAdjuster default_batch_size_config = Ok adjuster)
    as [adjuster Ha] by (eexists; vm_compute; reflexivity).
  destruct (restart_continues_the_sync example_chain example_config first_state 30 100 short_clock
    first_service stopped_service r first_node first_state secret_registry_of_chain None
    default_batch_size_config adjuster first_reached first_synced E)
    as (s2 & polls & be & a' & Hs2 & Hc & Hs & Heq & Hl).
  - vm_compute. reflexivity.
  - apply (bool_decide_unpack _). vm_compute. exact I.
  - apply stopped_once.
  - done.
  - apply default_config_ok.
  - exact Ha.
  - assert (s2 = restarted_service) as ->
      by (symmetry; apply Ok_inj; rewrite <- Hs2; vm_compute; reflexivity).
    exists stopped_service, r, polls, be, a'.
    split; [exact E|]. split; [exact Hc|]. split; [exact Hs|].
    split; [exact Heq|]. vm_compute. reflexivity.
Defined.
