(* ===== verification/Restore.v ===== *)
(** Balance proofs and channels of the log ([storage/restore.py] and the queries
    of [storage/sqlite.py] that it uses): what the event handler needs to settle
    a channel and to unlock its locks with a balance proof of the past. *)

From S2P Require Import Prelude PyDict Bytes Crypto PyFloat MediationFee State Events.
From S2P Require Import StateChanges Channel TokenNetwork TransferTasks Node Views Wal WalProofs.
From S2P Require Import ChainDecode.

(** The filters of the queries. *)
Definition received_with_balance_hash (cid : CanonicalIdentifier) (balance_hash sender : bytes)
    (sc : StateChange) : bool :=
  match change_balance_proof sc with
  | Some bp =>
      bool_decide (sbp_canonical_identifier bp = cid)
      && bool_decide (sbp_balance_hash bp = balance_hash)
      && bool_decide (sbp_sender bp = sender)
  | None => false
  end.

Definition sent_with_balance_hash (cid : CanonicalIdentifier) (balance_hash recipient : bytes)
    (e : Event) : bool :=
  match sent_balance_proof e with
  | Some (r, bp) =>
      bool_decide (ubp_canonical_identifier bp = cid)
      && bool_decide (ubp_balance_hash bp = balance_hash)
      && bool_decide (r = recipient)
  | None => false
  end.

Section restore.
Context `{Crypto} `{FloatPow} `{UlidFactory} {Data : Type}.
Context `{!Serializer Data ChainState} `{!Serializer Data StateChange} `{!Serializer Data Event}.
Implicit Types (db : SQLiteStorage Data) (cid : CanonicalIdentifier).

(** The rows of the tables with the identifier of the state change, in the order
    of the identifiers. *)
Definition state_change_records db : Py (list (Z * StateChange)) :=
  py_map (fun row => sc ← deserialize (sc_data row); Ok (sc_identifier row, sc))
    (db_state_changes db).

Definition event_records db : Py (list (Z * Event)) :=
  py_map (fun row => e ← deserialize (ev_data row); Ok (ev_source_statechange_id row, e))
    (db_state_events db).

(** [get_latest_state_change_by_data_field] and [get_latest_event_by_data_field] *)
Definition get_latest_state_change (query : StateChange -> bool) db : Py (option (Z * StateChange)) :=
  records ← state_change_records db;
  Ok (last (List.filter (fun r => query (snd r)) records)).

Definition get_latest_event (query : Event -> bool) db : Py (option (Z * Event)) :=
  records ← event_records db;
  Ok (last (List.filter (fun r => query (snd r)) records)).

(** [get_state_change_with_balance_proof_by_balance_hash]: the record with its
    balance proof. *)
Definition get_state_change_with_balance_proof_by_balance_hash db cid (balance_hash sender : bytes) :
    Py (option BalanceProofSignedState) :=
  record ← get_latest_state_change (received_with_balance_hash cid balance_hash sender) db;
  Ok match record with Some r => change_balance_proof (snd r) | None => None end.

(** [get_event_with_balance_proof_by_balance_hash] *)
Definition get_event_with_balance_proof_by_balance_hash db cid (balance_hash recipient : bytes) :
    Py (option BalanceProofUnsignedState) :=
  record ← get_latest_event (sent_with_balance_hash cid balance_hash recipient) db;
  Ok match record with Some r => option_map snd (sent_balance_proof (snd r)) | None => None end.

(** The identifiers of the state changes that the lookups by locksroot find. *)
Definition state_change_by_locksroot db cid (locksroot sender : bytes) : Py (option Z) :=
  record ← get_latest_state_change (received_with_locksroot cid locksroot sender) db;
  Ok (option_map fst record).

Definition event_by_locksroot db cid (locksroot recipient : bytes) : Py (option Z) :=
  record ← get_latest_event (sent_with_locksroot cid locksroot recipient) db;
  Ok (option_map fst record).

(** [channel_state_until_state_change] *)
Definition channel_state_until_state_change db cid (state_change_identifier : Z) :
    Py NettingChannelState :=
  restored ← restore_state node_transition db state_change_identifier;
  cs ← assert_some restored
         "There is a state change, therefore the state must be different from None";
  match get_channelstate_by_canonical_identifier cs (token_network_address cid)
          (channel_identifier cid) with
  | Some c => Ok c
  | None => Raise (RaidenUnrecoverableError "Channel was not found before state_change")
  end.
End restore.
