(* ===== verification/EventHandler.v ===== *)
(** The handling of events ([raiden_event_handler.py]): messages for the
    transport, transactions for the contracts, the results of payments, and the
    threads in which the service runs the handlers
    ([RaidenService.async_handle_events], [RaidenService._handle_events]); with
    the proxy of a payment channel ([network/proxies/payment_channel.py]) and the
    resolver of secrets ([network/resolver/client.py]). *)

From S2P Require Import Prelude PyDict Bytes Crypto PyFloat MediationFee State Events.
From S2P Require Import StateChanges Channel TokenNetwork TransferTasks Target Node Views Wal.
From S2P Require Import WalProofs Messages MessageHandler ChainDecode Restore Services.

(** [constants.py] *)
Definition EMPTY_BALANCE_HASH : bytes := zero_bytes 32.
Definition EMPTY_MESSAGE_HASH : bytes := zero_bytes 32.

(** ** Transactions *)

Record WithdrawInput : Type := mkWithdrawInput {
  wi_initiator : bytes;
  wi_total_withdraw : Z;
  wi_expiration_block : Z;
  wi_initiator_signature : bytes;
  wi_partner_signature : bytes
}.

Record ParticipantDetails : Type := mkParticipantDetails {
  pd_address : bytes;
  pd_deposit : Z;
  pd_withdrawn : Z;
  pd_is_closer : bool;
  pd_balance_hash : bytes;
  pd_nonce : Z;
  pd_locksroot : bytes;
  pd_locked_amount : Z
}.

Record ParticipantsDetails : Type := mkParticipantsDetails {
  our_details : ParticipantDetails;
  partner_details : ParticipantDetails
}.

(** The transactions of the proxies, with the token network and the channel. *)
Inductive ContractCall : Type :=
  | RegisterSecret (secret : bytes)
  | SetTotalWithdraw (net : bytes) (id : Z) (partner : bytes) (withdraw_input : WithdrawInput)
      (block : bytes)
  | CoopSettle (net : bytes) (id : Z) (withdraw_partner withdraw_initiator : WithdrawInput)
      (block : bytes)
  | Close (net : bytes) (id : Z) (partner balance_hash : bytes) (nonce : Z)
      (additional_hash non_closing_signature closing_signature block : bytes)
  | UpdateTransfer (net : bytes) (id : Z) (partner balance_hash : bytes) (nonce : Z)
      (additional_hash closing_signature non_closing_signature block : bytes)
  | UnlockLocks (net : bytes) (id : Z) (sender receiver : bytes) (pending : PendingLocksState)
      (block : bytes)
  | Settle (net : bytes) (id : Z) (transferred_amount locked_amount : Z) (locksroot : bytes)
      (partner : bytes) (partner_transferred_amount partner_locked_amount : Z)
      (partner_locksroot : bytes) (block : bytes).

(** The proxies of the contracts: the result of a transaction, the proxy of a
    token network at a block, and the details of the participants of a channel at
    a block or at the latest one. *)
Class Contracts : Type := {
  transact : ContractCall -> Py unit;
  token_network_proxy : bytes -> bytes -> Py unit;
  detail_participants : bytes -> bytes -> bytes -> option bytes -> Z -> Py ParticipantsDetails
}.

(** A message type of raiden_contracts ([MessageTypeId.BALANCE_PROOF]); the other
    one is in [ServiceProofs]. *)
Class ClosingProofs : Type := {
  BALANCE_PROOF : Z
}.

(** ** The service *)

(** [payment_done] is a reference to the result of the payment. *)
Record PaymentStatus : Type := mkPaymentStatus {
  ps_payment_identifier : Z;
  ps_amount : Z;
  ps_token_network_address : bytes;
  ps_payment_done : nat;
  ps_lock_timeout : option Z
}.

Definition StatusesDict : Type := dict bytes (dict Z PaymentStatus).

(** The messages for the transport: a message with the metadata of its
    recipient, in the queues of their recipients and channels. *)
Definition QueuedMessage : Type := Messages.Message * option AddressMetadata.
Definition MessageQueues : Type := dict QueueIdentifier (list QueuedMessage).

(** The events of the state machines, and two that they never emit: the base
    class of the events that send a message, and the wrapper of such events. *)
Inductive RaidenEvent : Type :=
  | Emitted (e : Event)
  | BareSendMessage (m : SendMessageEvent)
  | RequestMetadata (dependant_events : list SendMessageEvent).

(** What the handlers do. *)
Inductive Effect : Type :=
  | SendAsync (queues : MessageQueues)
  | Transaction (call : ContractCall)
  | PaymentDone (result : nat) (event : Event)
  | UpdateServices (service : bytes) (validity : Z)
  | Feedback (net : bytes) (route : list bytes) (token : bytes) (successful : bool)
  | DispatchStateChanges (state_changes : list StateChange)
  | HandleEvents (events : list RaidenEvent).

Record Handling : Type := mkHandling {
  h_statuses : StatusesDict;
  h_queues : MessageQueues;
  h_effects : list Effect
}.

Notation Handler := (St Handling).

Definition emit (e : Effect) : Handler unit :=
  st_modify (fun h => mkHandling (h_statuses h) (h_queues h) (h_effects h ++ [e])).

(** [message_queues[queue_identifier].append(...)] *)
Definition append_message (q : QueueIdentifier) (m : QueuedMessage) (queues : MessageQueues) :
    MessageQueues :=
  dict_set q (default [] (dict_get q queues) ++ [m]) queues.

Definition queue_message (q : QueueIdentifier) (m : QueuedMessage) : Handler unit :=
  st_modify (fun h => mkHandling (h_statuses h) (append_message q m (h_queues h)) (h_effects h)).

(** [targets_to_identifiers_to_statuses[target].pop(identifier, None)]; the
    lookup of a target adds it. *)
Definition pop_status (target : bytes) (identifier : Z) : Handler (option PaymentStatus) := fun h =>
  let statuses := default [] (dict_get target (h_statuses h)) in
  (mkHandling (dict_set target (dict_del identifier statuses) (h_statuses h)) (h_queues h)
     (h_effects h),
   Ok (dict_get identifier statuses)).

(** The answer of the resolver: its status and the secret of its body. *)
Inductive ResolverResponse : Type :=
  | NoResponse
  | ServiceUnavailable
  | OtherStatus
  | StatusOk (secret : Py bytes).

(** The service as the handlers see it: its state and its storage, the resolver
    as the rounds of requests with the block number of the node in each of them,
    and the tokens for the feedback about routes. *)
Record HandlerEnv (Data : Type) : Type := mkHandlerEnv {
  he_address : bytes;
  he_chain_id : Z;
  he_state : ChainState;
  he_storage : SQLiteStorage Data;
  he_resolver : option (list (Z * ResolverResponse));
  he_routing_mode : RoutingMode;
  he_pfs_config : bool;
  he_route_to_feedback_token : dict (list bytes) bytes;
  he_query_address_metadata : bytes -> Py AddressMetadata
}.
Arguments mkHandlerEnv {_}.
Arguments he_address {_} _.
Arguments he_chain_id {_} _.
Arguments he_state {_} _.
Arguments he_storage {_} _.
Arguments he_resolver {_} _.
Arguments he_routing_mode {_} _.
Arguments he_pfs_config {_} _.
Arguments he_route_to_feedback_token {_} _.
Arguments he_query_address_metadata {_} _.

(** ** Locks of a settled channel *)

Definition set_locks (locked : dict bytes HashTimeLockState)
    (unlocked onchain : dict bytes UnlockPartialProofState) (e : NettingChannelEndState) :
    NettingChannelEndState :=
  mkEndState (address e) (contract_balance e) (onchain_total_withdraw e) (withdraws_pending e)
    (initiated_coop_settle e) (expired_coop_settles e) (withdraws_expired e) locked unlocked onchain
    (balance_proof e) (pending_locks e) (onchain_locksroot e) (nonce e).

(** The first part of [_update_lock_info]: unlocked locks are locked again. *)
Definition lock_again (locked : dict bytes HashTimeLockState)
    (unlocked : dict bytes UnlockPartialProofState) : dict bytes HashTimeLockState :=
  foldl (fun d '(secrethash, unlock) => dict_set secrethash (unlock_lock unlock) d) locked unlocked.

(** The body of its loop. *)
Definition unlock_onchain
    (acc : dict bytes HashTimeLockState * dict bytes UnlockPartialProofState)
    (updated : bytes * UnlockPartialProofState) :
    dict bytes HashTimeLockState * dict bytes UnlockPartialProofState :=
  let '(locked, onchain) := acc in
  let '(secrethash, updated_unlock) := updated in
  if dict_mem secrethash locked
  then (dict_del secrethash locked, dict_set secrethash updated_unlock onchain)
  else acc.

(** [_update_lock_info] *)
Definition update_lock_info (old_state new_state : NettingChannelEndState) (cs : ChainState) :
    NettingChannelEndState :=
  let locked0 := lock_again (secrethashes_to_lockedlocks old_state)
                   (secrethashes_to_unlockedlocks old_state) in
  let '(locked1, onchain) :=
    foldl unlock_onchain (locked0, secrethashes_to_onchain_unlockedlocks old_state)
      (secrethashes_to_onchain_unlockedlocks new_state) in
  let locked2 := List.filter (fun r => dict_mem (fst r) (secrethashes_to_task cs)) locked1 in
  set_locks locked2 [] onchain old_state.

(** ** The proxy of a payment channel *)

Record PaymentChannel : Type := mkPaymentChannel {
  pc_channel_identifier : Z;
  participant1 : bytes;
  participant2 : bytes;
  pc_token_network : bytes
}.

Section handlers.
Context `{Crypto} `{FloatPow} `{UlidFactory} `{MessageEnv} `{!PrivateKey} `{ServiceProofs}.
Context `{ClosingProofs} `{Contracts} {Data : Type}.
Context `{!Serializer Data ChainState} `{!Serializer Data StateChange} `{!Serializer Data Event}.
Context (env : HandlerEnv Data).
Implicit Types (chain_state : ChainState) (channel : PaymentChannel).

(** [ProxyManager.payment_channel] and [PaymentChannel.__init__] *)
Definition payment_channel (c : NettingChannelState) (block : bytes) : Py PaymentChannel :=
  let net := token_network_address (canonical_identifier c) in
  _ ← raise_if (negb (length net =? 20)%nat) (ValueError "address must be a valid address");
  _ ← token_network_proxy net block;
  Ok (mkPaymentChannel (channel_identifier (canonical_identifier c)) (address (our_state c))
        (address (partner_state c)) net).

Definition contract_call (call : ContractCall) : Handler unit :=
  _ ← emit (Transaction call);
  st_lift (transact call).

(** [PaymentChannel.set_total_withdraw], [close] and [update_transfer] *)
Definition channel_set_total_withdraw channel (total_withdraw : Z)
    (participant_signature partner_signature : bytes) (expiration_block : Z) (block : bytes) :
    Handler unit :=
  contract_call (SetTotalWithdraw (pc_token_network channel) (pc_channel_identifier channel)
    (participant2 channel)
    (mkWithdrawInput (participant1 channel) total_withdraw expiration_block participant_signature
       partner_signature) block).

Definition channel_close channel (nonce : Z) (balance_hash additional_hash : bytes)
    (non_closing_signature closing_signature block : bytes) : Handler unit :=
  contract_call (Close (pc_token_network channel) (pc_channel_identifier channel)
    (participant2 channel) balance_hash nonce additional_hash non_closing_signature
    closing_signature block).

Definition channel_update_transfer channel (nonce : Z) (balance_hash additional_hash : bytes)
    (partner_signature signature block : bytes) : Handler unit :=
  contract_call (UpdateTransfer (pc_token_network channel) (pc_channel_identifier channel)
    (participant2 channel) balance_hash nonce additional_hash partner_signature signature block).

(** [except InsufficientEth as e: raise RaidenUnrecoverableError] *)
Definition unrecoverable_without_eth (m : Handler unit) : Handler unit :=
  st_catch m (fun e =>
    match e with
    | RaidenError cls msg =>
        if bool_decide (cls = "InsufficientEth"%string)
        then st_raise (RaidenUnrecoverableError msg) else st_raise e
    | _ => st_raise e
    end).

(** [get_channelstate_by_canonical_identifier], with the exception of the
    handlers of transactions. *)
Definition channel_or_raise (cs : ChainState) (cid : CanonicalIdentifier) (msg : string) :
    Py NettingChannelState :=
  match channel_of cs cid with
  | Some c => Ok c
  | None => Raise (RaidenUnrecoverableError msg)
  end.

(** ** Messages *)

(** The event as a signed message, [raiden.sign(message_from_sendevent(event))] *)
Definition signed_message (event : Event) : Py Messages.Message :=
  message ← message_from_sendevent event;
  sign message.

Definition send_message (event : Event) (m : SendMessageEvent) : Handler unit :=
  message ← st_lift (signed_message event);
  queue_message (queue_identifier m) (message, sm_recipient_metadata m).

Definition handle_send_lockexpired (e : SendLockExpired) : Handler unit :=
  send_message e (sle_message e).
Definition handle_send_lockedtransfer (e : SendLockedTransfer) : Handler unit :=
  send_message e (slt_message e).
Definition handle_send_secretreveal (e : SendSecretReveal) : Handler unit :=
  send_message e (ssr_message e).
Definition handle_send_balanceproof (e : SendUnlock) : Handler unit :=
  send_message e (su_message e).
Definition handle_send_withdrawrequest (e : SendWithdrawRequest) : Handler unit :=
  send_message e (swr_message e).
Definition handle_send_withdraw (e : SendWithdrawConfirmation) : Handler unit :=
  send_message e (swc_message e).
Definition handle_send_withdrawexpired (e : SendWithdrawExpired) : Handler unit :=
  send_message e (swe_message e).
Definition handle_send_processed (e : SendProcessed) : Handler unit :=
  send_message e (sp_message e).

(** The loop of [reveal_secret_with_resolver]: the request is made again until
    the resolver answers or the transfer has expired.  [Waiting] is the loop
    after the last round that is given. *)
Inductive Resolved : Type :=
  | Expired
  | Failed
  | Secret (secret : Py bytes)
  | Waiting.

Fixpoint resolver_loop (expiration : Z) (rounds : list (Z * ResolverResponse)) : Resolved :=
  match rounds with
  | [] => Waiting
  | (block_number, response) :: rounds' =>
      if expiration <? block_number then Expired
      else
        match response with
        | StatusOk secret => Secret secret
        | NoResponse | ServiceUnavailable => resolver_loop expiration rounds'
        | OtherStatus => Failed
        end
  end.

(** [reveal_secret_with_resolver] *)
Definition reveal_secret_with_resolver (e : SendSecretRequest) : Handler bool :=
  match he_resolver env with
  | None => mret false
  | Some rounds =>
      match dict_get (ssq_secrethash e) (secrethashes_to_task (he_state env)) with
      | None => st_raise KeyError
      | Some (TargetTask _ _) =>
          match resolver_loop (ssq_expiration e) rounds with
          | Expired | Waiting => mret true
          | Failed => mret false
          | Secret secret =>
              s ← st_lift secret;
              _ ← emit (DispatchStateChanges
                          [SReceiveSecretReveal
                             (new_ReceiveSecretReveal s (sm_recipient (ssq_message e)))]);
              mret true
          end
      | Some _ => st_raise AttributeError
      end
  end.

Definition handle_send_secretrequest (e : SendSecretRequest) : Handler unit :=
  resolved ← reveal_secret_with_resolver e;
  if (resolved : bool) then mret tt else send_message e (ssq_message e).

(** ** Payments *)

Definition handle_paymentsentsuccess (e : EventPaymentSentSuccess) : Handler unit :=
  status ← pop_status (pss_target e) (pss_identifier e);
  match (status : option PaymentStatus) with
  | None => st_raise KeyError
  | Some s => emit (PaymentDone (ps_payment_done s) e)
  end.

Definition handle_paymentsentfailed (e : EventPaymentSentFailed) : Handler unit :=
  status ← pop_status (psf_target e) (psf_identifier e);
  match (status : option PaymentStatus) with
  | None => mret tt
  | Some s => emit (PaymentDone (ps_payment_done s) e)
  end.

(** [handle_missing_metadata_events] *)
Definition fetch_metadata (m : SendMessageEvent) : Py SendMessageEvent :=
  metadata ←
    (if he_pfs_config env then
       match he_query_address_metadata env (sm_recipient m) with
       | Raise e => if service_request_failed e then Ok [] else Raise e
       | metadata => metadata
       end
     else Ok []);
  Ok (mkSendMessageEvent (sm_recipient m) (Some metadata) (sm_canonical_identifier m)
        (sm_message_identifier m)).

Definition handle_missing_metadata_events (dependant_events : list SendMessageEvent) : Handler unit :=
  new_events ← st_lift (py_map fetch_metadata dependant_events);
  emit (HandleEvents (map BareSendMessage new_events)).

(** ** Transactions *)

Definition handle_contract_send_secretreveal (e : ContractSendSecretReveal) : Handler unit :=
  unrecoverable_without_eth (contract_call (RegisterSecret (csr_secret e))).

Definition handle_contract_send_channelwithdraw (e : ContractSendChannelWithdraw) : Handler unit :=
  withdraw_confirmation_data ←
    st_lift (pack_withdraw (ccw_canonical_identifier e) (he_address env) (ccw_total_withdraw e)
               (ccw_expiration e));
  let our_signature := local_sign withdraw_confirmation_data in
  c ← st_lift (channel_or_raise (he_state env) (ccw_canonical_identifier e)
                 "ContractSendChannelWithdraw for non-existing channel.");
  channel_proxy ← st_lift (payment_channel c (cs_block_hash (he_state env)));
  unrecoverable_without_eth
    (channel_set_total_withdraw channel_proxy (ccw_total_withdraw e) our_signature
       (ccw_partner_signature e) (ccw_expiration e) (ccw_triggered_by_block_hash e)).

Definition handle_contract_send_coopsettle (e : ContractSendChannelCoopSettle) : Handler unit :=
  let cid := ccs_canonical_identifier e in
  c ← st_lift (channel_or_raise (he_state env) cid
                 "ContractSendChannelCoopSettle for non-existing channel.");
  participant_withdraw_data ←
    st_lift (pack_withdraw cid (he_address env) (ccs_our_total_withdraw e) (ccs_expiration e));
  let withdraw_initiator :=
    mkWithdrawInput (he_address env) (ccs_our_total_withdraw e) (ccs_expiration e)
      (local_sign participant_withdraw_data) (ccs_signature_our_withdraw e) in
  let partner_address := address (partner_state c) in
  partner_withdraw_data ←
    st_lift (pack_withdraw cid partner_address (ccs_partner_total_withdraw e) (ccs_expiration e));
  let withdraw_partner :=
    mkWithdrawInput partner_address (ccs_partner_total_withdraw e) (ccs_expiration e)
      (ccs_signature_partner_withdraw e) (local_sign partner_withdraw_data) in
  channel_proxy ← st_lift (payment_channel c (cs_block_hash (he_state env)));
  unrecoverable_without_eth
    (contract_call (CoopSettle (pc_token_network channel_proxy) (pc_channel_identifier channel_proxy)
       withdraw_partner withdraw_initiator (ccs_triggered_by_block_hash e))).

(** The balance proof that a channel is closed with: the nonce, the balance hash,
    the hash of the message, the partner's signature and the channel. *)
Definition closing_balance_proof (e : ContractSendChannelClose) :
    Z * bytes * bytes * bytes * CanonicalIdentifier :=
  match ccc_balance_proof e with
  | Some bp => (sbp_nonce bp, sbp_balance_hash bp, sbp_message_hash bp, sbp_signature bp,
                sbp_canonical_identifier bp)
  | None => (0, EMPTY_BALANCE_HASH, EMPTY_MESSAGE_HASH, EMPTY_SIGNATURE, ccc_canonical_identifier e)
  end.

Definition handle_contract_send_channelclose chain_state (e : ContractSendChannelClose) :
    Handler unit :=
  let '(nonce, balance_hash, message_hash, signature_in_proof, cid) := closing_balance_proof e in
  let closing_data :=
    pack_signed_balance_proof BALANCE_PROOF nonce balance_hash message_hash cid signature_in_proof in
  let our_signature := local_sign closing_data in
  c ← st_lift (channel_or_raise chain_state (ccc_canonical_identifier e)
                 "ContractSendChannelClose for non-existing channel.");
  channel_proxy ← st_lift (payment_channel c (cs_block_hash (he_state env)));
  channel_close channel_proxy nonce balance_hash message_hash signature_in_proof our_signature
    (ccc_triggered_by_block_hash e).

Definition handle_contract_send_channelupdate (e : ContractSendChannelUpdateTransfer) : Handler unit :=
  let bp := cut_balance_proof e in
  let cid := sbp_canonical_identifier bp in
  c ← st_lift (channel_or_raise (he_state env) cid
                 "ContractSendChannelUpdateTransfer for non-existing channel.");
  channel ← st_lift (payment_channel c (cs_block_hash (he_state env)));
  let non_closing_data :=
    pack_signed_balance_proof BALANCE_PROOF_UPDATE (sbp_nonce bp) (sbp_balance_hash bp)
      (sbp_message_hash bp) cid (sbp_signature bp) in
  unrecoverable_without_eth
    (channel_update_transfer channel (sbp_nonce bp) (sbp_balance_hash bp) (sbp_message_hash bp)
       (sbp_signature bp) (local_sign non_closing_data) (cut_triggered_by_block_hash e)).

(** The two parts of [handle_contract_send_channelunlock]: the locks of the
    partner whose secret is registered, and our locks whose secret is not. *)
Definition restored_at (record : option Z) (cid : CanonicalIdentifier) (msg : string) :
    Py NettingChannelState :=
  match record with
  | None => Raise (RaidenUnrecoverableError msg)
  | Some state_change_identifier =>
      channel_state_until_state_change (he_storage env) cid state_change_identifier
  end.

Definition partner_gain chain_state (restored c : NettingChannelState) : Z :=
  zsum (fun unlock => lock_amount (unlock_lock unlock))
    (dict_values (secrethashes_to_onchain_unlockedlocks
                    (update_lock_info (partner_state restored) (partner_state c) chain_state))).

Definition our_gain chain_state (restored c : NettingChannelState) : Z :=
  zsum lock_amount
    (dict_values (secrethashes_to_lockedlocks
                    (update_lock_info (our_state restored) (our_state c) chain_state))).

Definition unlock_partner_locks channel chain_state (c : NettingChannelState)
    (e : ContractSendChannelBatchUnlock) : Handler unit :=
  let cid := cbu_canonical_identifier e in
  let partner_address := address (partner_state c) in
  record ← st_lift (state_change_by_locksroot (he_storage env) cid
                      (onchain_locksroot (partner_state c)) partner_address);
  restored ← st_lift (restored_at record cid
                        "Failed to find state that matches the current channel locksroots. ");
  if 0 <? partner_gain chain_state restored c then
    contract_call (UnlockLocks (pc_token_network channel) (pc_channel_identifier channel)
      partner_address (address (our_state c)) (pending_locks (partner_state restored))
      (cbu_triggered_by_block_hash e))
  else mret tt.

Definition unlock_our_locks channel chain_state (c : NettingChannelState)
    (e : ContractSendChannelBatchUnlock) : Handler unit :=
  let cid := cbu_canonical_identifier e in
  let partner_address := address (partner_state c) in
  record ← st_lift (event_by_locksroot (he_storage env) cid (onchain_locksroot (our_state c))
                      partner_address);
  restored ← st_lift (restored_at record cid
                        "Failed to find event that match current channel locksroots. ");
  if 0 <? our_gain chain_state restored c then
    unrecoverable_without_eth
      (contract_call (UnlockLocks (pc_token_network channel) (pc_channel_identifier channel)
         (address (our_state c)) partner_address (pending_locks (our_state restored))
         (cbu_triggered_by_block_hash e)))
  else mret tt.

Definition handle_contract_send_channelunlock chain_state (e : ContractSendChannelBatchUnlock) :
    Handler unit :=
  let cid := cbu_canonical_identifier e in
  c0 ← st_lift (channel_or_raise (he_state env) cid
                  "ContractSendChannelBatchUnlock for non-existing channel.");
  channel ← st_lift (payment_channel c0 (cs_block_hash (he_state env)));
  found ← st_lift (get_channelstate_by_token_network_and_partner chain_state
                     (token_network_address cid) (cbu_sender e));
  match (found : option NettingChannelState) with
  | None => st_raise (RaidenUnrecoverableError "Failed to find channel state with partner")
  | Some c =>
      let search_events := negb (bool_decide (onchain_locksroot (our_state c) = LOCKSROOT_OF_NO_LOCKS)) in
      let search_state_changes :=
        negb (bool_decide (onchain_locksroot (partner_state c) = LOCKSROOT_OF_NO_LOCKS)) in
      _ ← (if search_state_changes then unlock_partner_locks channel chain_state c e else mret tt);
      if search_events then unlock_our_locks channel chain_state c e else mret tt
  end.

(** The amounts that a channel is settled with: those of the balance proof with
    the hash on the chain, or nothing. *)
Definition our_settlement (cid : CanonicalIdentifier) (details : ParticipantsDetails) :
    Py (Z * Z * bytes) :=
  if bool_decide (pd_balance_hash (our_details details) = EMPTY_BALANCE_HASH)
  then Ok (0, 0, LOCKSROOT_OF_NO_LOCKS)
  else
    record ← get_event_with_balance_proof_by_balance_hash (he_storage env) cid
               (pd_balance_hash (our_details details)) (pd_address (partner_details details));
    match record with
    | Some bp => Ok (ubp_transferred_amount bp, ubp_locked_amount bp, ubp_locksroot bp)
    | None => Raise (RaidenUnrecoverableError "Our balance proof could not be found in the database")
    end.

Definition partner_settlement (cid : CanonicalIdentifier) (details : ParticipantsDetails) :
    Py (Z * Z * bytes) :=
  if bool_decide (pd_balance_hash (partner_details details) = EMPTY_BALANCE_HASH)
  then Ok (0, 0, LOCKSROOT_OF_NO_LOCKS)
  else
    record ← get_state_change_with_balance_proof_by_balance_hash (he_storage env) cid
               (pd_balance_hash (partner_details details)) (pd_address (partner_details details));
    match record with
    | Some bp => Ok (sbp_transferred_amount bp, sbp_locked_amount bp, sbp_locksroot bp)
    | None =>
        Raise (RaidenUnrecoverableError "Partner balance proof could not be found in the database")
    end.

(** The details at the block of the event, or at the latest one when this block
    was pruned. *)
Definition participants_details channel (block : bytes) (id : Z) : Py ParticipantsDetails :=
  match detail_participants (pc_token_network channel) (participant1 channel) (participant2 channel)
          (Some block) id with
  | Raise (ValueError _) =>
      detail_participants (pc_token_network channel) (participant1 channel) (participant2 channel)
        None id
  | r => r
  end.

Definition handle_contract_send_channelsettle (e : ContractSendChannelSettle) : Handler unit :=
  let cid := mkCanonicalIdentifier (he_chain_id env)
               (token_network_address (cse_canonical_identifier e))
               (channel_identifier (cse_canonical_identifier e)) in
  c ← st_lift (channel_or_raise (he_state env) cid
                 "ContractSendChannelSettle for non-existing channel.");
  channel ← st_lift (payment_channel c (cs_block_hash (he_state env)));
  details ← st_lift (participants_details channel (cse_triggered_by_block_hash e)
                       (channel_identifier cid));
  '(transferred_amount, locked_amount, locksroot) ← st_lift (our_settlement cid details);
  '(partner_transferred_amount, partner_locked_amount, partner_locksroot) ←
    st_lift (partner_settlement cid details);
  unrecoverable_without_eth
    (contract_call (Settle (pc_token_network channel) (pc_channel_identifier channel)
       transferred_amount locked_amount locksroot (participant2 channel) partner_transferred_amount
       partner_locked_amount partner_locksroot (cse_triggered_by_block_hash e))).

Definition handle_update_services_addresses (e : UpdateServicesAddresses) : Handler unit :=
  emit (UpdateServices (usa_service_address e) (usa_validity e)).

(** ** Dispatch *)

(** [event_handler_map]; the other events are only logged. *)
Definition handle_event chain_state (event : RaidenEvent) : Handler unit :=
  match event with
  | Emitted event =>
      match event with
      | ESendLockExpired e => handle_send_lockexpired e
      | ESendLockedTransfer e => handle_send_lockedtransfer e
      | ESendSecretReveal e => handle_send_secretreveal e
      | ESendUnlock e => handle_send_balanceproof e
      | ESendSecretRequest e => handle_send_secretrequest e
      | ESendWithdrawRequest e => handle_send_withdrawrequest e
      | ESendWithdrawConfirmation e => handle_send_withdraw e
      | ESendWithdrawExpired e => handle_send_withdrawexpired e
      | ESendProcessed e => handle_send_processed e
      | EEventPaymentSentSuccess e => handle_paymentsentsuccess e
      | EEventPaymentSentFailed e => handle_paymentsentfailed e
      | EContractSendSecretReveal e => handle_contract_send_secretreveal e
      | EContractSendChannelClose e => handle_contract_send_channelclose chain_state e
      | EContractSendChannelUpdateTransfer e => handle_contract_send_channelupdate e
      | EContractSendChannelBatchUnlock e => handle_contract_send_channelunlock chain_state e
      | EContractSendChannelSettle e => handle_contract_send_channelsettle e
      | EContractSendChannelWithdraw e => handle_contract_send_channelwithdraw e
      | EContractSendChannelCoopSettle e => handle_contract_send_coopsettle e
      | EUpdateServicesAddresses e => handle_update_services_addresses e
      | _ => mret tt
      end
  | BareSendMessage _ => mret tt
  | RequestMetadata dependant_events => handle_missing_metadata_events dependant_events
  end.

(** [RaidenEventHandler.on_raiden_events]: the queues are local to the call. *)
Definition on_raiden_events chain_state (events : list RaidenEvent) : Handler unit :=
  _ ← st_modify (fun h => mkHandling (h_statuses h) [] (h_effects h));
  _ ← st_iter (handle_event chain_state) events;
  h ← st_get;
  emit (SendAsync (h_queues h)).

(** [post_pfs_feedback], for a service with a path finding service *)
Definition post_pfs_feedback (net : bytes) (route : list bytes) (token : bytes) (successful : bool) :
    Handler unit :=
  match he_routing_mode env with
  | PRIVATE => mret tt
  | PFS => if he_pfs_config env then emit (Feedback net route token successful) else mret tt
  end.

Definition feedback_for (net : bytes) (route : list bytes) (successful : bool) : Handler unit :=
  match dict_get route (he_route_to_feedback_token env) with
  | Some token =>
      if he_pfs_config env then post_pfs_feedback net route token successful else mret tt
  | None => mret tt
  end.

Definition handle_feedback (event : RaidenEvent) : Handler unit :=
  match event with
  | Emitted (EEventRouteFailed e) => feedback_for (erf_token_network_address e) (erf_route e) false
  | Emitted (EEventPaymentSentSuccess e) =>
      feedback_for (pss_token_network_address e) (pss_route e) true
  | _ => mret tt
  end.

(** [PFSFeedbackEventHandler.on_raiden_events] *)
Definition on_raiden_events_with_feedback chain_state (events : list RaidenEvent) : Handler unit :=
  _ ← st_iter handle_feedback events;
  on_raiden_events chain_state events.
End handlers.

(** ** Threads *)

(** [EventWrapper.wrap_events]: only an event whose type is the base class itself
    is wrapped. *)
Definition wrap_event (event : RaidenEvent) : RaidenEvent :=
  match event with
  | BareSendMessage m =>
      match sm_recipient_metadata m with
      | None | Some [] => RequestMetadata [m]
      | Some _ => event
      end
  | _ => event
  end.

Definition wrap_events (events : list RaidenEvent) : list RaidenEvent := map wrap_event events.

(** [isinstance(event, blocking_events)] *)
Definition is_blocking (event : RaidenEvent) : bool :=
  match event with
  | Emitted (EEventRouteFailed _) | Emitted (EEventPaymentSentSuccess _)
  | Emitted (ESendSecretRequest _) => true
  | Emitted e => is_contract_send e
  | RequestMetadata _ => true
  | BareSendMessage _ => false
  end.

(** [RaidenService.async_handle_events]: the events of each greenlet. *)
Definition async_handle_events (raiden_events : list RaidenEvent) : list (list RaidenEvent) :=
  let parsed_events := wrap_events raiden_events in
  let fast_events := List.filter (fun e => negb (is_blocking e)) parsed_events in
  map (fun e => [e]) (List.filter is_blocking parsed_events)
  ++ match fast_events with [] => [] | _ => [fast_events] end.

(** [RaidenService._handle_events]: the exceptions that are only logged. *)
Definition handle_events (environment_type : Environment) (unrecoverable_error_should_crash : bool)
    (on_events : list RaidenEvent -> Handler unit) (events : list RaidenEvent) : Handler unit :=
  st_catch (on_events events) (fun e =>
    match e with
    | RaidenRecoverableError _ => mret tt
    | RaidenUnrecoverableError _ | BrokenPreconditionError _ =>
        match environment_type, unrecoverable_error_should_crash with
        | PRODUCTION, false => mret tt
        | _, _ => st_raise e
        end
    | _ => st_raise e
    end).
