(* ===== verification/EventHandlerProofs.v ===== *)
(** What the handling of events guarantees: every message reaches the transport
    in order, every event is handled once, channels are settled with the amounts
    that the contract expects, and which locks are unlocked. *)

From S2P Require Import Prelude PyDict Bytes Crypto PyFloat MediationFee State Events.
From S2P Require Import StateChanges Channel TokenNetwork TransferTasks Target Node Views Wal.
From S2P Require Import WalProofs Messages MessageHandler MessageProofs ChainDecode Restore.
From S2P Require Import Services.
From S2P Require Import ServicesProofs EventHandler.

(** ** Threads *)

Lemma wrap_emitted evs : wrap_events (map Emitted evs) = map Emitted evs.
Proof. induction evs as [|e evs IH]; [done|]. cbn. by f_equal. Qed.

Lemma filter_partition {A} (f : A -> bool) l :
  List.filter f l ++ List.filter (fun a => negb (f a)) l ≡ₚ l.
Proof.
  induction l as [|a l IH]; [done|]. cbn. destruct (f a); cbn; [by rewrite IH|].
  by rewrite <- Permutation_middle, IH.
Qed.

Lemma concat_singletons {A} (l : list A) : concat (map (fun a => [a]) l) = l.
Proof. induction l as [|a l IH]; [done|]. cbn. by f_equal. Qed.

(** Every event is handled in exactly one greenlet. *)
Lemma threads_partition evs :
  concat (async_handle_events (map Emitted evs)) ≡ₚ map Emitted evs.
Proof.
  unfold async_handle_events. rewrite wrap_emitted, concat_app, concat_singletons.
  set (fast := List.filter (fun e => negb (is_blocking e)) _).
  replace (concat match fast with [] => [] | _ => [fast] end) with fast
    by (destruct fast; cbn; [done|by rewrite app_nil_r]).
  apply filter_partition.
Qed.

(** ** Locks of a settled channel *)

















Section handlers.
Context `{Crypto} `{FloatPow} `{UlidFactory} `{MessageEnv} `{!PrivateKey} `{ServiceProofs}.
Context `{ClosingProofs} `{Contracts} {Data : Type}.
Context `{!Serializer Data ChainState} `{!Serializer Data StateChange} `{!Serializer Data Event}.
Context (env : HandlerEnv Data).
Implicit Types (h : Handling) (q : QueueIdentifier) (e : Event).

(** ** Messages *)

(** The event can be sent: its message can be built and signed. *)
Definition sendable e : Prop :=
  event_message e = None \/ exists message, signed_message e = Ok message.

(** The message of an event for a queue. *)
Definition queued_for q e : option QueuedMessage :=
  match event_message e, signed_message e with
  | Some m, Ok message =>
      if decide (queue_identifier m = q) then Some (message, sm_recipient_metadata m) else None
  | _, _ => None
  end.

Definition messages_for q (evs : list Event) : list QueuedMessage := omap (queued_for q) evs.

Definition queue_of q (queues : MessageQueues) : list QueuedMessage := default [] (dict_get q queues).

Lemma queue_of_append q q' m queues :
  queue_of q (append_message q' m queues)
  = queue_of q queues ++ (if decide (q' = q) then [m] else []).
Proof.
  unfold queue_of, append_message. case_decide as Eq.
  - subst q'. by rewrite dict_get_set_eq.
  - by rewrite dict_get_set_ne, app_nil_r by done.
Qed.

(** From [h] to [h'] the messages of some events were queued, and nothing was
    sent yet. *)
Definition queues_messages h (evs : list Event) h' : Prop :=
  (forall q, queue_of q (h_queues h') = queue_of q (h_queues h) ++ messages_for q evs)
  /\ exists effects, h_effects h' = h_effects h ++ effects
       /\ forall queues, SendAsync queues ∉ effects.

Lemma queues_messages_trans h1 evs1 h2 evs2 h3 :
  queues_messages h1 evs1 h2 -> queues_messages h2 evs2 h3 ->
  queues_messages h1 (evs1 ++ evs2) h3.
Proof.
  intros [Q1 (ef1 & E1 & N1)] [Q2 (ef2 & E2 & N2)]. split.
  - intros q. unfold messages_for. by rewrite Q2, Q1, omap_app, app_assoc.
  - exists (ef1 ++ ef2). rewrite E2, E1, app_assoc. split; [done|]. intros queues.
    rewrite not_elem_of_app. auto.
Qed.

(** An event without a message. *)
Lemma queues_no_message h e h' effects :
  event_message e = None -> h_queues h' = h_queues h -> h_effects h' = h_effects h ++ effects ->
  (forall queues, SendAsync queues ∉ effects) -> queues_messages h [e] h'.
Proof.
  intros Hm Hq Hef Hno. split; [|eauto]. intros q. unfold messages_for, queued_for. cbn.
  by rewrite Hq, Hm, app_nil_r.
Qed.

Lemma send_message_queues h e m message :
  event_message e = Some m -> signed_message e = Ok message ->
  exists h', send_message e m h = (h', Ok tt) /\ queues_messages h [e] h'.
Proof.
  intros Hm Hs. unfold send_message. rewrite (st_lift_bind _ _ _ _ Hs).
  eexists. split; [reflexivity|]. split.
  - intros q. cbn [h_queues]. rewrite queue_of_append. unfold messages_for, queued_for. cbn.
    rewrite Hm, Hs. by case_decide.
  - exists []. cbn. split; [by rewrite app_nil_r|set_solver].
Qed.

(** A handler of an event that does not block returns and adds its message. *)
Lemma handle_fast_event chain_state e h :
  is_blocking (Emitted e) = false -> sendable e ->
  exists h', handle_event env chain_state (Emitted e) h = (h', Ok tt) /\ queues_messages h [e] h'.
Proof.
  intros Hfast Hs.
  destruct (event_message e) as [m|] eqn:Hm.
  { destruct Hs as [?|[message Hs]]; [congruence|].
    destruct (send_message_queues h e m message Hm Hs) as (h' & Hsend & Hq). exists h'.
    split; [|done]. destruct e; cbn in Hm, Hfast; try discriminate; injection Hm as <-; done. }
  destruct e; cbn in Hm, Hfast; try discriminate; cbn [handle_event];
    try (exists h; split; [reflexivity|]; eapply (queues_no_message _ _ _ []);
         [done..|by rewrite app_nil_r|set_solver]).
  - eexists. split; [reflexivity|]. eapply queues_no_message; [done..|].
    intros queues. rewrite list_elem_of_singleton. congruence.
  - unfold handle_paymentsentfailed, mbind, st_bind, pop_status.
    destruct (dict_get (psf_identifier e) _) as [s|]; (eexists; split; [reflexivity|]).
    + eapply queues_no_message; [done..|]. intros queues. rewrite list_elem_of_singleton. congruence.
    + eapply (queues_no_message _ _ _ []); [done..|by rewrite app_nil_r|set_solver].
Qed.

Lemma handle_fast_events chain_state evs h :
  (forall e, e ∈ evs -> is_blocking (Emitted e) = false /\ sendable e) ->
  exists h', st_iter (handle_event env chain_state) (map Emitted evs) h = (h', Ok tt)
    /\ queues_messages h evs h'.
Proof.
  revert h. induction evs as [|e evs IH]; intros h Hall.
  - exists h. split; [done|]. split; [intros q; by rewrite app_nil_r|].
    exists []. split; [by rewrite app_nil_r|set_solver].
  - destruct (Hall e ltac:(left)) as [Hb Hs].
    destruct (handle_fast_event chain_state e h Hb Hs) as (h1 & E1 & Q1).
    destruct (IH h1) as (h2 & E2 & Q2); [intros; apply Hall; by right|].
    exists h2. cbn [map]. rewrite (st_iter_cons _ _ _ _ _ E1). split; [done|].
    apply (queues_messages_trans _ [e] _ evs _ Q1 Q2).
Qed.

(** A thread with events that do not block sends their messages. *)
Lemma fast_thread_sends chain_state evs h :
  (forall e, e ∈ evs -> is_blocking (Emitted e) = false /\ sendable e) ->
  exists h' queues effects,
    on_raiden_events env chain_state (map Emitted evs) h = (h', Ok tt)
    /\ h_effects h' = h_effects h ++ effects ++ [SendAsync queues]
    /\ (forall other, SendAsync other ∉ effects)
    /\ forall q, queue_of q queues = messages_for q evs.
Proof.
  intros Hall. unfold on_raiden_events.
  set (h0 := mkHandling (h_statuses h) [] (h_effects h)).
  destruct (handle_fast_events chain_state evs h0 Hall) as (h1 & E1 & Q1 & effects & Eeff & Hno).
  exists (mkHandling (h_statuses h1) (h_queues h1) (h_effects h1 ++ [SendAsync (h_queues h1)])).
  exists (h_queues h1), effects. split; [|split; [cbn; by rewrite Eeff, <- app_assoc|]].
  - rewrite (st_bind_ok _ _ _ h0 tt) by done. rewrite (st_bind_ok _ _ _ _ _ E1). done.
  - split; [done|]. intros q. by rewrite Q1.
Qed.

(** The first event whose message cannot be built or signed. *)
Definition unsendable e (err : exn) : Prop :=
  is_Some (event_message e) /\ signed_message e = Raise err.

Lemma first_unsendable evs :
  (forall e, e ∈ evs -> sendable e)
  \/ exists pre e post err, evs = pre ++ e :: post
       /\ (forall e, e ∈ pre -> sendable e) /\ unsendable e err.
Proof.
  induction evs as [|e evs IH]; [left; by intros ? ?%elem_of_nil|].
  destruct (event_message e) as [m|] eqn:Em;
    [destruct (signed_message e) as [message|err] eqn:Es|].
  2: { right. exists [], e, evs, err. split; [done|]. split; [by intros ? ?%elem_of_nil|].
       unfold unsendable. by rewrite Em. }
  all: assert (sendable e) as He by (unfold sendable; eauto).
  all: destruct IH as [IH|(pre & x & post & err & -> & Hpre & Hx)];
    [left; by intros ? [->|?]%elem_of_cons; auto|].
  all: right; exists (e :: pre), x, post, err; split; [done|]; split; [|done].
  all: by intros ? [->|?]%elem_of_cons; auto.
Qed.

Lemma handle_unsendable chain_state e err h :
  is_blocking (Emitted e) = false -> unsendable e err ->
  handle_event env chain_state (Emitted e) h = (h, Raise err).
Proof.
  intros Hfast [[m Hm] Hs]. assert (forall m, send_message e m h = (h, Raise err)) as Hsend.
  { intros m'. unfold send_message, mbind, st_bind, st_lift. by rewrite Hs. }
  destruct e; cbn in Hm, Hfast; try discriminate; apply Hsend.
Qed.

(** A thread with a message that cannot be sent raises and sends nothing. *)
Lemma fast_thread_raises chain_state pre e post err h :
  (forall x, x ∈ pre ++ e :: post -> is_blocking (Emitted x) = false) ->
  (forall x, x ∈ pre -> sendable x) -> unsendable e err ->
  exists h' effects,
    on_raiden_events env chain_state (map Emitted (pre ++ e :: post)) h = (h', Raise err)
    /\ h_effects h' = h_effects h ++ effects
    /\ (forall other, SendAsync other ∉ effects).
Proof.
  intros Hfast Hpre He. unfold on_raiden_events.
  set (h0 := mkHandling (h_statuses h) [] (h_effects h)).
  destruct (handle_fast_events chain_state pre h0) as (h1 & E1 & _ & effects & Eeff & Hno).
  { intros x Hx. split; [|by apply Hpre]. apply Hfast, elem_of_app. by left. }
  exists h1, effects. split; [|done]. rewrite (st_bind_ok _ _ _ h0 tt) by done.
  unfold mbind at 1, st_bind. rewrite map_app, (st_iter_app _ _ _ _ _ E1). cbn [map st_iter].
  unfold mbind, st_bind. rewrite (handle_unsendable _ _ err); [done| |done].
  apply Hfast, elem_of_app. right. by left.
Qed.

(** C13: no event is lost and messages keep their order.  Each event of a state
    change is handled in exactly one greenlet, and each one that may block in a
    greenlet of its own.  The other events share a greenlet.  If their messages
    can be built and signed, it returns and hands to the transport, once and for
    every queue, the signed messages of the events of this queue in the order of
    the events.  Otherwise it raises the exception of the first message that
    cannot be built or signed, and hands nothing to the transport. *)
Theorem messages_reach_the_transport evs chain_state h :
  let threads := async_handle_events (map Emitted evs) in
  let fast := List.filter (fun e => negb (is_blocking (Emitted e))) evs in
  concat threads ≡ₚ map Emitted evs
  /\ (forall e, e ∈ evs -> is_blocking (Emitted e) = true -> [Emitted e] ∈ threads)
  /\ (fast <> [] -> map Emitted fast ∈ threads)
  /\ exists h' effects,
       h_effects h' = h_effects h ++ effects
       /\ ((forall e, e ∈ fast -> sendable e)
           /\ on_raiden_events env chain_state (map Emitted fast) h = (h', Ok tt)
           /\ (exists queues others, effects = others ++ [SendAsync queues]
                /\ (forall other, SendAsync other ∉ others)
                /\ (forall q, queue_of q queues = messages_for q fast))
           \/ exists pre e post err, fast = pre ++ e :: post
                /\ (forall e, e ∈ pre -> sendable e) /\ unsendable e err
                /\ on_raiden_events env chain_state (map Emitted fast) h = (h', Raise err)
                /\ (forall other, SendAsync other ∉ effects)).
Proof.
  intros threads fast. split; [apply threads_partition|].
  assert (forall f, List.filter f (map Emitted evs) = map Emitted (List.filter (fun e => f (Emitted e)) evs))
    as Hmap by (intros f; induction evs as [|e evs IH]; [done|]; cbn; rewrite IH;
                by destruct (f (Emitted e))).
  assert (forall e, e ∈ fast -> is_blocking (Emitted e) = false) as Hfast
    by (intros e [_ Hb]%elem_of_filter_bool; by destruct (is_blocking (Emitted e))).
  split_and!.
  - intros e He Hb. unfold threads, async_handle_events. rewrite wrap_emitted. apply elem_of_app. left.
    apply elem_of_map. exists (Emitted e). split; [done|]. apply elem_of_filter_bool. split; [|done].
    apply elem_of_map. eauto.
  - intros Hne. unfold threads, async_handle_events. rewrite wrap_emitted, !Hmap. apply elem_of_app.
    right. fold fast. destruct fast; [done|]. left.
  - destruct (first_unsendable fast) as [Hs|(pre & e & post & err & Heq & Hpre & He)].
    + destruct (fast_thread_sends chain_state fast h) as (h' & queues & effects & Hrun & Heff & Hrest);
        [by auto|]. exists h', (effects ++ [SendAsync queues]). split; [done|]. left. by eauto 8.
    + rewrite Heq in Hfast |- *.
      destruct (fast_thread_raises chain_state pre e post err h Hfast Hpre He)
        as (h' & effects & Hrun & Heff & Hno).
      exists h', effects. split; [done|]. right. exists pre, e, post, err. done.
Qed.

(** ** Settlement *)

(** The amounts of a balance proof with the hash on the chain. *)
Definition settles (details : ParticipantDetails) (transferred_amount locked_amount : Z)
    (locksroot : bytes) : Prop :=
  if decide (pd_balance_hash details = EMPTY_BALANCE_HASH)
  then transferred_amount = 0 /\ locked_amount = 0 /\ locksroot = LOCKSROOT_OF_NO_LOCKS
  else hash_balance_data transferred_amount locked_amount locksroot = Ok (pd_balance_hash details).

(** The storage can be read, and its balance proofs have their hashes. *)
Record storage_ok (scs : list (Z * StateChange)) (evs : list (Z * Event)) : Prop := {
  so_state_changes : state_change_records (he_storage env) = Ok scs;
  so_events : event_records (he_storage env) = Ok evs;
  so_received : forall id sc bp, (id, sc) ∈ scs -> change_balance_proof sc = Some bp ->
    hash_balance_data (sbp_transferred_amount bp) (sbp_locked_amount bp) (sbp_locksroot bp)
    = Ok (sbp_balance_hash bp);
  so_sent : forall id e r bp, (id, e) ∈ evs -> sent_balance_proof e = Some (r, bp) ->
    hash_balance_data (ubp_transferred_amount bp) (ubp_locked_amount bp) (ubp_locksroot bp)
    = Ok (ubp_balance_hash bp)
}.

Lemma last_filter_elem {A} (f : A -> bool) l a :
  a ∈ l -> f a = true -> exists b, last (List.filter f l) = Some b /\ b ∈ l /\ f b = true.
Proof.
  intros Hin Hf. assert (a ∈ List.filter f l) as Ha by (by apply elem_of_filter_bool).
  destruct (last (List.filter f l)) as [b|] eqn:El.
  - exists b. apply last_Some_elem_of, elem_of_filter_bool in El. naive_solver.
  - apply last_None in El. rewrite El in Ha. by apply elem_of_nil in Ha.
Qed.

(** Our balance proof on the chain is in the log, and so is the partner's. *)
Definition our_proof_stored cid (details : ParticipantsDetails) (evs : list (Z * Event)) : Prop :=
  pd_balance_hash (our_details details) <> EMPTY_BALANCE_HASH ->
  exists r, r ∈ evs /\ sent_with_balance_hash cid (pd_balance_hash (our_details details))
                        (pd_address (partner_details details)) (snd r) = true.

Definition partner_proof_stored cid (details : ParticipantsDetails) (scs : list (Z * StateChange)) :
    Prop :=
  pd_balance_hash (partner_details details) <> EMPTY_BALANCE_HASH ->
  exists r, r ∈ scs /\ received_with_balance_hash cid (pd_balance_hash (partner_details details))
                        (pd_address (partner_details details)) (snd r) = true.

Lemma our_settlement_spec cid details scs evs :
  storage_ok scs evs -> our_proof_stored cid details evs ->
  exists t l lr, our_settlement env cid details = Ok (t, l, lr) /\ settles (our_details details) t l lr.
Proof.
  intros [_ He _ Hs] Hp. unfold our_settlement, settles.
  destruct (decide (pd_balance_hash (our_details details) = EMPTY_BALANCE_HASH)) as [Eq|Hne].
  - rewrite bool_decide_eq_true_2 by done. eauto 10.
  - rewrite bool_decide_eq_false_2 by done. destruct (Hp Hne) as (r & Hr & Hq).
    unfold get_event_with_balance_proof_by_balance_hash, get_latest_event. rewrite He, !bind_ret_l.
    destruct (last_filter_elem (fun r => sent_with_balance_hash cid _ _ (snd r)) evs r Hr Hq)
      as ([id e] & El & Hin & Hf). rewrite El. cbn [snd] in Hf |- *. unfold sent_with_balance_hash in Hf.
    destruct (sent_balance_proof e) as [[rc bp]|] eqn:Eb; [|done]. cbn.
    apply andb_true_iff in Hf as [Hf _]. apply andb_true_iff in Hf as [_ Hf].
    apply bool_decide_eq_true in Hf. eexists _, _, _. split; [done|].
    rewrite <- Hf. by eapply Hs.
Qed.

Lemma partner_settlement_spec cid details scs evs :
  storage_ok scs evs -> partner_proof_stored cid details scs ->
  exists t l lr, partner_settlement env cid details = Ok (t, l, lr)
    /\ settles (partner_details details) t l lr.
Proof.
  intros [He _ Hs _] Hp. unfold partner_settlement, settles.
  destruct (decide (pd_balance_hash (partner_details details) = EMPTY_BALANCE_HASH)) as [Eq|Hne].
  - rewrite bool_decide_eq_true_2 by done. eauto 10.
  - rewrite bool_decide_eq_false_2 by done. destruct (Hp Hne) as (r & Hr & Hq).
    unfold get_state_change_with_balance_proof_by_balance_hash, get_latest_state_change.
    rewrite He, !bind_ret_l.
    destruct (last_filter_elem (fun r => received_with_balance_hash cid _ _ (snd r)) scs r Hr Hq)
      as ([id sc] & El & Hin & Hf). rewrite El. cbn [snd] in Hf |- *.
    unfold received_with_balance_hash in Hf.
    destruct (change_balance_proof sc) as [bp|] eqn:Eb; [|done]. cbn.
    apply andb_true_iff in Hf as [Hf _]. apply andb_true_iff in Hf as [_ Hf].
    apply bool_decide_eq_true in Hf. eexists _, _, _. split; [done|].
    rewrite <- Hf. by eapply Hs.
Qed.

(** The result of a transaction, with the exception for a lack of ether. *)
Definition transaction_result (call : ContractCall) : Py unit :=
  match transact call with
  | Raise (RaidenError cls msg) =>
      if bool_decide (cls = "InsufficientEth"%string) then Raise (RaidenUnrecoverableError msg)
      else Raise (RaidenError cls msg)
  | r => r
  end.

Definition add_effect (effect : Effect) h : Handling :=
  mkHandling (h_statuses h) (h_queues h) (h_effects h ++ [effect]).

Lemma unrecoverable_call call h :
  unrecoverable_without_eth (contract_call call) h
  = (add_effect (Transaction call) h, transaction_result call).
Proof.
  unfold unrecoverable_without_eth, contract_call, st_catch, transaction_result, mbind, st_bind. cbn.
  unfold st_lift. destruct (transact call) as [[]|e]; [done|]. destruct e; try done. by case_bool_decide.
Qed.

(** C10: a channel is settled with the amounts that the contract expects.  When
    the balance proofs whose hashes are on the chain are in the log of the node,
    the handler sends exactly one transaction, for this channel; the amounts and
    locksroots of both participants hash to the balance hashes on the chain, and
    they are empty for a participant without a balance proof. *)
Theorem settled_with_onchain_amounts (e : ContractSendChannelSettle) h c channel details scs evs
    (Hcid : chain_identifier (cse_canonical_identifier e) = he_chain_id env)
    (Hc : channel_of (he_state env) (cse_canonical_identifier e) = Some c)
    (Hproxy : payment_channel c (cs_block_hash (he_state env)) = Ok channel)
    (Hdetails : participants_details channel (cse_triggered_by_block_hash e)
                  (channel_identifier (cse_canonical_identifier e)) = Ok details)
    (Hstorage : storage_ok scs evs)
    (Hour : our_proof_stored (cse_canonical_identifier e) details evs)
    (Hpartner : partner_proof_stored (cse_canonical_identifier e) details scs) :
  exists t l lr t' l' lr',
    let call := Settle (token_network_address (canonical_identifier c))
                  (channel_identifier (canonical_identifier c)) t l lr (address (partner_state c))
                  t' l' lr' (cse_triggered_by_block_hash e) in
    handle_contract_send_channelsettle env e h
    = (add_effect (Transaction call) h, transaction_result call)
    /\ settles (our_details details) t l lr /\ settles (partner_details details) t' l' lr'.
Proof.
  destruct (our_settlement_spec _ _ _ _ Hstorage Hour) as (t & l & lr & Eo & So).
  destruct (partner_settlement_spec _ _ _ _ Hstorage Hpartner) as (t' & l' & lr' & Ep & Sp).
  exists t, l, lr, t', l', lr'. split; [|done]. unfold handle_contract_send_channelsettle.
  assert (mkCanonicalIdentifier (he_chain_id env) (token_network_address (cse_canonical_identifier e))
            (channel_identifier (cse_canonical_identifier e)) = cse_canonical_identifier e) as ->
    by (rewrite <- Hcid; by destruct (cse_canonical_identifier e)).
  rewrite (st_lift_bind _ _ _ c) by (unfold channel_or_raise; by rewrite Hc).
  rewrite (st_lift_bind _ _ _ _ Hproxy), (st_lift_bind _ _ _ _ Hdetails).
  rewrite (st_lift_bind _ _ _ _ Eo), (st_lift_bind _ _ _ _ Ep), unrecoverable_call.
  unfold payment_channel in Hproxy. py_inv. by subst channel.
Qed.

(** ** Unlocks after the settlement *)

(** The channel of a batch unlock: the one of its identifier, and the one that is
    found for its partner. *)
Record unlocked_channel_of chain_state (e : ContractSendChannelBatchUnlock) c0 channel c : Prop := {
  uc_channel : channel_of (he_state env) (cbu_canonical_identifier e) = Some c0;
  uc_proxy : payment_channel c0 (cs_block_hash (he_state env)) = Ok channel;
  uc_found : get_channelstate_by_token_network_and_partner chain_state
               (token_network_address (cbu_canonical_identifier e)) (cbu_sender e) = Ok (Some c)
}.

Lemma channelunlock_run chain_state (e : ContractSendChannelBatchUnlock) c0 channel c h :
  unlocked_channel_of chain_state e c0 channel c ->
  handle_contract_send_channelunlock env chain_state e h
  = ((if negb (bool_decide (onchain_locksroot (partner_state c) = LOCKSROOT_OF_NO_LOCKS))
      then unlock_partner_locks env channel chain_state c e else mret tt)
     ≫= fun _ =>
     if negb (bool_decide (onchain_locksroot (our_state c) = LOCKSROOT_OF_NO_LOCKS))
     then unlock_our_locks env channel chain_state c e else mret tt) h.
Proof.
  intros [Hc Hp Hf]. unfold handle_contract_send_channelunlock.
  rewrite (st_lift_bind _ _ _ c0) by (unfold channel_or_raise; by rewrite Hc).
  by rewrite (st_lift_bind _ _ _ _ Hp), (st_lift_bind _ _ _ _ Hf).
Qed.














(** The channel of a batch unlock is looked up by its partner, and the last usable
    channel with the partner is found.  When a newer channel with the partner
    exists, which has no locks on the chain, the handler does nothing, whatever
    locks of the settled channel [c0] could be unlocked. *)
Theorem newer_channel_hides_unlock chain_state (e : ContractSendChannelBatchUnlock) c0 channel c h
    (Hc : unlocked_channel_of chain_state e c0 channel c)
    (Hour : onchain_locksroot (our_state c) = LOCKSROOT_OF_NO_LOCKS)
    (Hpartner : onchain_locksroot (partner_state c) = LOCKSROOT_OF_NO_LOCKS) :
  handle_contract_send_channelunlock env chain_state e h = (h, Ok tt).
Proof.
  rewrite (channelunlock_run _ _ _ _ _ _ Hc), Hour, Hpartner.
  by rewrite !bool_decide_eq_true_2 by done.
Qed.
End handlers.
