(* ===== verification/ServiceStart.v ===== *)
(** The start of the service ([RaidenService.start] and the functions it calls):
    what a node does with its restored state before it handles new messages and
    blocks. *)

From S2P Require Import Prelude PyDict Bytes Crypto PyFloat MediationFee State Events.
From S2P Require Import StateChanges Channel TokenNetwork TransferTasks Target Initiator.
From S2P Require Import InitiatorManager Node Views Wal Messages MessageHandler ChainDecode.
From S2P Require Import Services.
From S2P Require Import EventHandler.

(** ** Payments *)

(** The status of the payment of a task: its target, and the details of the
    first transfer. *)
Definition task_status (task : TransferTask) (result : nat) : Py (option (bytes * PaymentStatus)) :=
  match task with
  | InitiatorTask _ manager_state =>
      match dict_values (ip_initiator_transfers manager_state) with
      | [] => Raise StopIteration
      | initiator :: _ =>
          let transfer := it_transfer initiator in
          Ok (Some (ltu_target transfer,
                mkPaymentStatus (ltu_payment_identifier transfer)
                  (td_amount (it_transfer_description initiator))
                  (token_network_address (ubp_canonical_identifier (ltu_balance_proof transfer)))
                  result (td_lock_timeout (it_transfer_description initiator))))
      end
  | _ => Ok None
  end.

(** [statuses[target][identifier] = status] *)
Definition set_status (target : bytes) (status : PaymentStatus) (statuses : StatusesDict) :
    StatusesDict :=
  dict_set target
    (dict_set (ps_payment_identifier status) status (default [] (dict_get target statuses)))
    statuses.

(** [_initialize_payment_statuses]: the statuses and the number of results that
    were made before. *)
Definition initialize_payment_statuses (cs : ChainState) (acc : StatusesDict * nat) :
    Py (StatusesDict * nat) :=
  py_foldl (fun '(statuses, results) task =>
              status ← task_status task results;
              match status with
              | Some (target, s) => Ok (set_status target s statuses, S results)
              | None => Ok (statuses, results)
              end)
    acc (dict_values (secrethashes_to_task cs)).

(** ** Transactions and messages *)

(** [_initialize_transactions_queues]: the events of the greenlets. *)
Definition initialize_transactions_queues (cs : ChainState) : list (list RaidenEvent) :=
  async_handle_events (map Emitted (get_pending_transactions cs)).

Section messages.
Context `{Crypto} `{MessageEnv} `{!PrivateKey}.

(** [event.recipient_metadata] *)
Definition recipient_metadata (event : Event) : Py (option AddressMetadata) :=
  match event_message event with
  | Some m => Ok (sm_recipient_metadata m)
  | None => Raise AttributeError
  end.

(** [_initialize_messages_queues]: what is handed to the transport. *)
Definition queue_messages (event_queue : list Event) : Py (list QueuedMessage) :=
  py_map (fun event =>
            message ← signed_message event;
            metadata ← recipient_metadata event;
            Ok (message, metadata)) event_queue.

Definition initialize_messages_queues (cs : ChainState) : Py MessageQueues :=
  py_map (fun '(queue_identifier, event_queue) =>
            messages ← queue_messages event_queue;
            Ok (queue_identifier, messages)) (get_all_messagequeues cs).
End messages.

(** ** Services *)

Section services.
Context `{Crypto} `{FloatPow} `{ServiceProofs} `{!PrivateKey} (env : ServiceEnv).

(** The partner's balance proof of a channel, if there is one. *)
Definition current_balance_proof (c : NettingChannelState) : Py (option BalanceProofSignedState) :=
  match balance_proof (partner_state c) with
  | None => Ok None
  | Some (SignedBP bp) => Ok (Some bp)
  | Some (UnsignedBP _) => Raise (AssertionError "MYPY_ANNOTATION")
  end.

(** [_initialize_monitoring_services_queue] *)
Definition initialize_monitoring_services_queue (cs : ChainState) : list Broadcast * Py unit :=
  match py_map current_balance_proof (list_all_channelstate cs) with
  | Raise e => ([], Raise e)
  | Ok current_balance_proofs =>
      broadcast_all (map (monitoring_step env cs) (omap id current_balance_proofs))
  end.

(** The new fees of a channel in [_initialize_channel_fees] *)
Definition configured_fees (fee_config : MediationFeeConfig) (c : NettingChannelState) :
    Py FeeScheduleState :=
  let token := token_address c in
  imbalance_penalty ←
    calculate_imbalance_fees (get_capacity c) (get_proportional_imbalance_fee fee_config token);
  new_FeeScheduleState (cap_mediation_fees fee_config) (get_flat_fee fee_config token)
    (get_proportional_fee fee_config token) imbalance_penalty.

(** The body of its loop: the channel is changed in place, then its capacity and
    its fees are reported. *)
Definition report_fees (c : NettingChannelState) (fees : FeeScheduleState) :
    St (ChainState * list Broadcast) unit := fun '(cs, sent) =>
  let cid := canonical_identifier c in
  let cs' := put_channels (store_channel (token_network_address cid, channel_identifier cid)
                             (set_fee_schedule fees c) (chain_channels cs)) cs in
  let '(messages, result) := send_pfs_update env cs' cid true in
  (cs', sent ++ messages, result).

Definition initialize_fees_of (fee_config : MediationFeeConfig) (c : NettingChannelState) :
    St (ChainState * list Broadcast) unit :=
  fees ← st_lift (configured_fees fee_config c);
  report_fees c fees.

(** [_initialize_channel_fees]: the state of the node and what was broadcast. *)
Definition initialize_channel_fees (fee_config : MediationFeeConfig) (cs : ChainState) :
    ChainState * list Broadcast * Py unit :=
  let registry := se_default_registry env in
  st_iter (fun token =>
             s ← st_get;
             st_iter (initialize_fees_of fee_config) (get_channelstate_open (fst s) registry token))
    (get_token_identifiers cs registry) (cs, []).
End services.
