(* ===== verification/ServiceStartProofs.v ===== *)
(** The start of a node continues where it stopped: the messages and transactions
    of the restored state are sent again, and its payments are known. *)

From S2P Require Import Prelude PyDict Bytes Crypto PyFloat MediationFee State Events.
From S2P Require Import StateChanges Channel ChannelOps TokenNetwork TransferTasks Target.
From S2P Require Import Initiator.
From S2P Require Import InitiatorManager InitiatorProofs Node Views NodeProofs Wal WalProofs.
From S2P Require Import Messages.
From S2P Require Import MessageHandler ChainDecode Services EventHandler EventHandlerProofs.
From S2P Require Import ServiceStart.

(** ** Every message is in the queue of its recipient and channel *)

Definition well_queued (queues : dict QueueIdentifier (list Event)) : Prop :=
  dict_wf queues
  /\ forall q evs e, (q, evs) ∈ queues -> e ∈ evs ->
       exists m, event_message e = Some m /\ queue_identifier m = q.

Lemma well_queued_nil : well_queued [].
Proof. split; [apply dict_wf_nil|]. intros q evs e Hin. by apply elem_of_nil in Hin. Qed.

Lemma well_queued_del q queues : well_queued queues -> well_queued (dict_del q queues).
Proof.
  intros [W Q]. split; [by apply dict_wf_del|]. intros q' evs e Hin%dict_del_elem. by eapply Q.
Qed.

Lemma well_queued_set q evs queues :
  well_queued queues ->
  (forall e, e ∈ evs -> exists m, event_message e = Some m /\ queue_identifier m = q) ->
  well_queued (dict_set q evs queues).
Proof.
  intros [W Q] Hevs. split; [by apply dict_wf_set|]. intros q' evs' e Hin He.
  apply dict_set_elem in Hin as [[-> ->]|Hin]; [by apply Hevs|by eapply Q].
Qed.

Lemma well_queued_queue q queues e :
  well_queued queues -> e ∈ default [] (dict_get q queues) ->
  exists m, event_message e = Some m /\ queue_identifier m = q.
Proof.
  intros [_ Q] He. destruct (dict_get q queues) as [evs|] eqn:Eq; [|by apply elem_of_nil in He].
  eapply Q; [by apply dict_get_In|exact He].
Qed.

Lemma well_queued_delete cf q queues :
  well_queued queues -> well_queued (inplace_delete_message_queue cf queues q).
Proof.
  intros Hw. unfold inplace_delete_message_queue.
  destruct (dict_get q queues) as [queue|] eqn:Eq; [|done].
  assert (forall e, e ∈ inplace_delete_message queue cf ->
    exists m, event_message e = Some m /\ queue_identifier m = q) as Hsub.
  { intros e He. apply (well_queued_queue q queues e Hw). rewrite Eq. cbn.
    unfold inplace_delete_message in He. by apply elem_of_filter_bool in He as [? _]. }
  destruct queue as [|e0 queue]; [by apply well_queued_del|].
  destruct (inplace_delete_message (e0 :: queue) cf) as [|e1 rest]; [by apply well_queued_del|].
  by apply well_queued_set.
Qed.

Lemma well_queued_delete_all cf cs :
  well_queued (queueids_to_queues cs) ->
  well_queued (queueids_to_queues (delete_from_all_queues cf cs)).
Proof.
  unfold delete_from_all_queues. cbn. generalize (dict_keys (queueids_to_queues cs)) as l.
  generalize (queueids_to_queues cs) as queues. intros queues l. revert queues.
  induction l as [|q l IH]; intros queues Hw; [done|]. cbn. by apply IH, well_queued_delete.
Qed.

Lemma well_queued_enqueue cs e :
  well_queued (queueids_to_queues cs) -> well_queued (queueids_to_queues (enqueue_event cs e)).
Proof.
  intros Hw. rewrite enqueue_event_queues. destruct (event_message e) as [m|] eqn:Hm; [|done].
  apply well_queued_set; [done|]. intros e' [He'| ->%list_elem_of_singleton]%elem_of_app; [|eauto].
  by eapply well_queued_queue.
Qed.

(** ** Every payment has a transfer *)

(** The first transfer of a payment. *)
Definition first_transfer (payment : InitiatorPaymentState) : option InitiatorTransferState :=
  head (dict_values (ip_initiator_transfers payment)).

Definition payments_running (tasks : list TransferTask) : Prop :=
  forall net payment, InitiatorTask net payment ∈ tasks -> is_Some (first_transfer payment).

Definition tasks_running (cs : ChainState) : Prop :=
  payments_running (dict_values (secrethashes_to_task cs)).

Lemma payments_running_set sh t (tasks : dict bytes TransferTask) :
  payments_running (dict_values tasks) ->
  (forall net p, t = InitiatorTask net p -> is_Some (first_transfer p)) ->
  payments_running (dict_values (dict_set sh t tasks)).
Proof.
  intros Hr Ht net p ([k t'] & Heq & Hin)%list_elem_of_fmap. cbn in Heq. subst t'.
  apply dict_set_elem in Hin as [[_ <-]|Hin]; [by eapply Ht|].
  apply (Hr net). apply list_elem_of_fmap. by eexists (_, _).
Qed.

Lemma tasks_running_put sh t cs :
  tasks_running cs -> (forall net p, t = Some (InitiatorTask net p) -> is_Some (first_transfer p)) ->
  tasks_running (put_task sh t cs).
Proof.
  intros Hr Ht. unfold tasks_running, put_task. cbn.
  destruct t as [t|]; [apply payments_running_set; [done|]; intros net p ->; by eapply Ht|].
  intros net p ([k t'] & Heq & Hin%dict_del_elem)%list_elem_of_fmap. cbn in Heq. subst t'.
  apply (Hr net), list_elem_of_fmap. by eexists (_, _).
Qed.

Section start.
Context `{Crypto} `{FloatPow}.

(** A step of a payment clears it when no transfer is left. *)
Lemma run_initiator_running cs net sh ts sc cs' evs :
  run_initiator cs net sh ts sc = Ok (cs', evs) -> tasks_running cs -> tasks_running cs'.
Proof.
  unfold run_initiator, manager_state_transition. intros Hok Hr.
  apply bind_Ok in Hok as ([[it chans] prng] & Hm & [= <- _]).
  apply bind_Ok in Hm as ([[it0 chans0] prng0] & _ & [= <- _ _]).
  apply tasks_running_put; [done|]. intros net' p Hp.
  destruct (new_state (initiator_clear_if_finalized it0)) as [p'|] eqn:En; [|done].
  injection Hp as <- <-. apply cleared_state in En as [_ Hne]. unfold first_transfer.
  destruct (ip_initiator_transfers p') as [|[k v] l]; [done|]. by exists v.
Qed.

Lemma run_mediator_running cs net sh ts sc cs' evs :
  run_mediator cs net sh ts sc = Ok (cs', evs) -> tasks_running cs -> tasks_running cs'.
Proof.
  unfold run_mediator. intros Hok Hr. apply bind_Ok in Hok as ([[it chans] prng] & _ & [= <- _]).
  apply tasks_running_put; [done|]. intros net' p Hp. by case_match.
Qed.

Lemma run_target_running cs net id c cid sh ts sc cs' evs :
  run_target cs net id c cid sh ts sc = Ok (cs', evs) -> tasks_running cs -> tasks_running cs'.
Proof.
  unfold run_target. intros Hok Hr. apply bind_Ok in Hok as ([[it chans] prng] & _ & [= <- _]).
  apply tasks_running_put; [done|]. intros net' p Hp. by case_match.
Qed.

Lemma paymenttask_running cs sc sh cs' evs :
  subdispatch_to_paymenttask cs sc sh = Ok (cs', evs) -> tasks_running cs -> tasks_running cs'.
Proof.
  unfold subdispatch_to_paymenttask. intros Hok.
  repeat case_match; try by (injection Hok as <- _).
  - by eapply run_initiator_running.
  - by eapply run_mediator_running.
  - by eapply run_target_running.
Qed.

Lemma dispatch_to_token_network_running cs sc net cs' evs :
  dispatch_to_token_network cs sc net = Ok (cs', evs) -> tasks_running cs -> tasks_running cs'.
Proof.
  unfold dispatch_to_token_network. intros Hok Hr.
  destruct (get_token_network_by_address cs net) as [[registry tn]|]; [|by injection Hok as <- _].
  apply bind_Ok in Hok as ([it prng] & _ & [= <- _]).
  unfold tasks_running, put_token_network in *. cbn. by case_match.
Qed.

Lemma node_handle_block_running cs a cs' evs :
  node_handle_block cs a = Ok (cs', evs) -> tasks_running cs -> tasks_running cs'.
Proof.
  unfold node_handle_block. intros Hok Hr. apply bind_Ok in Hok as ([cs2 evs2] & Hch & Hok).
  apply bind_Ok in Hok as ([cs3 evs3] & Hts & [= <- _]).
  unfold subdispatch_to_all_channels in Hch. apply bind_Ok in Hch as ([[chans prng] evs4] & _ & Hch).
  assert (tasks_running cs2) as H2 by (by injection Hch as <- _).
  unfold subdispatch_to_all_lockedtransfers in Hts.
  apply (py_foldl_inv (fun s => tasks_running s.1)) in Hts; [done| |done].
  intros s sh s' _ Hs Hstep. apply bind_Ok in Hstep as ([cs4 evs5] & Hsub & [= <-]).
  by eapply paymenttask_running.
Qed.

Lemma handle_state_change_running cs sc cs' evs :
  handle_state_change cs sc = Ok (cs', evs) -> tasks_running cs -> tasks_running cs'.
Proof.
  intros Hok Hr. unfold handle_state_change in Hok.
  destruct sc; cbn [state_change_network] in Hok;
    try (injection Hok as <- _; exact Hr);
    try (by eapply dispatch_to_token_network_running);
    try (by eapply paymenttask_running).
  - by eapply node_handle_block_running.
  - unfold handle_contract_receive_channel_closed in Hok.
    eapply dispatch_to_token_network_running; [exact Hok|]. by case_match.
  - injection Hok as <- _. by case_if.
  - injection Hok as <- _. unfold tasks_running, maybe_add_tokennetwork in *.
    by destruct (get_networks _ _ _) as [[r|] [prev|]].
  - unfold node_handle_receive_withdraw_confirmation in Hok.
    apply bind_Ok in Hok as ([cs1 evs1] & Hd & [= <- _]).
    exact (dispatch_to_token_network_running _ _ _ _ _ Hd Hr).
  - unfold subdispatch_initiatortask in Hok.
    repeat case_match; try (injection Hok as <- _; exact Hr); by eapply run_initiator_running.
  - unfold subdispatch_mediatortask in Hok.
    repeat case_match; try (injection Hok as <- _; exact Hr); by eapply run_mediator_running.
  - unfold subdispatch_targettask in Hok.
    repeat case_match; try (injection Hok as <- _; exact Hr); by eapply run_target_running.
  - unfold handle_action_transfer_reroute in Hok.
    destruct (dict_get _ (secrethashes_to_task cs)) as [t|] eqn:Et; [|done].
    eapply paymenttask_running; [exact Hok|]. apply payments_running_set; [done|].
    intros net p ->. apply (Hr net). apply dict_get_In in Et. apply list_elem_of_fmap.
    by eexists (_, _).
Qed.

Lemma enqueue_all_running evs : forall cs,
  tasks_running cs -> tasks_running (foldl enqueue_event cs evs).
Proof.
  induction evs as [|e evs IH]; intros cs Hr; [done|]. cbn. apply IH. unfold enqueue_event.
  by destruct (event_message e), (is_contract_send e).
Qed.

Lemma node_transition_running cs sc cs' evs :
  node_state_transition cs sc = Ok (cs', evs) -> tasks_running cs -> tasks_running cs'.
Proof.
  unfold node_state_transition. intros Hok Hr. apply bind_Ok in Hok as ([cs1 evs1] & Hh & Hok).
  apply bind_Ok in Hok as (cs2 & Hu & [= <- _]). unfold update_queues in Hu.
  apply bind_Ok in Hu as (cs3 & H3 & [= <-]). apply enqueue_all_running.
  apply (handle_state_change_running _ _ _ _ Hh) in Hr.
  revert H3. case_if; [|by intros [= <-]]. intros H3. by apply bind_Ok in H3 as (p & _ & [= <-]).
Qed.

Lemma handle_state_change_well_queued cs sc cs' evs :
  handle_state_change cs sc = Ok (cs', evs) ->
  well_queued (queueids_to_queues cs) -> well_queued (queueids_to_queues cs').
Proof.
  intros Hok Hw.
  assert (same_queues cs cs' -> well_queued (queueids_to_queues cs')) as Hsame
    by (intros [-> _]; done).
  unfold handle_state_change in Hok.
  destruct sc; cbn [state_change_network] in Hok;
    try (apply Hsame; injection Hok as <- _; by split);
    try (apply Hsame; by eapply dispatch_to_token_network_queues);
    try (apply Hsame; by eapply paymenttask_queues).
  - apply Hsame. by eapply node_handle_block_queues.
  - unfold handle_contract_receive_channel_closed in Hok.
    apply dispatch_to_token_network_queues in Hok as [-> _]. case_match; [|done]. by apply well_queued_del.
  - apply Hsame. injection Hok as <- _. by case_if.
  - apply Hsame. injection Hok as <- _. apply maybe_add_tokennetwork_queues.
  - injection Hok as <- _. by apply well_queued_delete.
  - injection Hok as <- _. by apply well_queued_delete_all.
  - unfold node_handle_receive_withdraw_confirmation in Hok.
    apply bind_Ok in Hok as ([cs1 evs1] & Hd & [= <- _]).
    apply dispatch_to_token_network_queues in Hd as [Hq _]. apply well_queued_delete_all. by rewrite Hq.
  - apply Hsame. by eapply initiatortask_queues.
  - apply Hsame. by eapply mediatortask_queues.
  - apply Hsame. by eapply targettask_queues.
  - apply Hsame. unfold handle_action_transfer_reroute in Hok.
    destruct (dict_get _ (secrethashes_to_task cs)) as [t|]; [|done].
    apply paymenttask_queues in Hok. exact Hok.
Qed.

Lemma node_transition_well_queued cs sc cs' evs :
  node_state_transition cs sc = Ok (cs', evs) ->
  well_queued (queueids_to_queues cs) -> well_queued (queueids_to_queues cs').
Proof.
  unfold node_state_transition. intros Hok Hw. apply bind_Ok in Hok as ([cs1 evs1] & Hh & Hok).
  apply bind_Ok in Hok as (cs2 & Hu & [= <- _]).
  apply (handle_state_change_well_queued _ _ _ _ Hh) in Hw.
  unfold update_queues in Hu. apply bind_Ok in Hu as (cs3 & H3 & [= <-]).
  assert (queueids_to_queues cs3 = queueids_to_queues cs1) as Hq.
  { revert H3. case_if; [|by intros [= <-]]. intros H3. by apply bind_Ok in H3 as (p & _ & [= <-]). }
  rewrite <- Hq in Hw. clear -Hw. revert cs3 Hw.
  induction evs1 as [|e evs1 IH]; intros cs3 Hw; [done|]. cbn. by apply IH, well_queued_enqueue.
Qed.

(** Pending transactions are events that send a transaction. *)
Lemma node_transition_transactions cs sc cs' evs :
  node_state_transition cs sc = Ok (cs', evs) ->
  (forall t, t ∈ pending_transactions cs -> is_contract_send t = true) ->
  forall t, t ∈ pending_transactions cs' -> is_contract_send t = true.
Proof.
  unfold node_state_transition. intros Hok Hp. apply bind_Ok in Hok as ([cs1 evs1] & Hh & Hok).
  apply bind_Ok in Hok as (cs2 & Hu & [= <- _]).
  apply handle_state_change_keeps in Hh as [Ep _]. rewrite <- Ep in Hp.
  unfold update_queues in Hu. apply bind_Ok in Hu as (cs3 & H3 & [= <-]).
  assert (forall t, t ∈ pending_transactions cs3 -> is_contract_send t = true) as H3p.
  { revert H3. case_if; [|by intros [= <-]]. intros H3. apply bind_Ok in H3 as (p & Hf & [= <-]).
    intros t Ht. apply Hp. by apply (filter_pending_elem _ _ _ _ t Hf) in Ht as [? _]. }
  clear -H3p. revert cs3 H3p.
  induction evs1 as [|e evs1 IH]; intros cs3 Hp; [done|]. cbn. apply IH. intros t.
  rewrite enqueue_event_transactions. intros [Ht|Ht]%elem_of_app; [by apply Hp|].
  destruct (is_contract_send e) eqn:He; [|by apply elem_of_nil in Ht].
  by apply list_elem_of_singleton in Ht as ->.
Qed.

(** What every replayed state has. *)
Definition resumable (cs : ChainState) : Prop :=
  well_queued (queueids_to_queues cs)
  /\ (forall t, t ∈ pending_transactions cs -> is_contract_send t = true)
  /\ tasks_running cs.

Lemma replay_resumable cs0 scs cs :
  resumable cs0 -> replay node_transition cs0 scs = Ok cs -> resumable cs.
Proof.
  unfold replay. intros Hcs0 Hr. revert Hr. apply py_foldl_inv; [|done].
  intros cs1 sc cs2 _ (Hw & Hp & Hr) Hstep. unfold wal_dispatch, node_transition in Hstep.
  apply bind_Ok in Hstep as ([cs3 evs3] & Hd & [= <-]).
  apply bind_Ok in Hd as ([[cs4 other] evs4] & Hn & [= <- <-]).
  apply bind_Ok in Hn as ([cs5 evs5] & Hn & [= <- <- <-]). cbn.
  split_and!; [by eapply node_transition_well_queued|by eapply node_transition_transactions|].
  by eapply node_transition_running.
Qed.

(** ** Messages *)

Context `{MessageEnv} `{!PrivateKey}.

Lemma queue_messages_spec q evs :
  (forall e, e ∈ evs -> exists m, event_message e = Some m /\ queue_identifier m = q) ->
  (forall e, e ∈ evs -> sendable e) ->
  queue_messages evs = Ok (messages_for q evs).
Proof.
  induction evs as [|e evs IH]; intros Hq Hs; [done|].
  destruct (Hq e ltac:(left)) as (m & Hm & Hqe).
  destruct (Hs e ltac:(left)) as [?|[message Hmsg]]; [congruence|].
  assert (messages_for q (e :: evs) = (message, sm_recipient_metadata m) :: messages_for q evs) as ->.
  { unfold messages_for. cbn. unfold queued_for at 1. rewrite Hm, Hmsg. by case_decide. }
  unfold queue_messages, recipient_metadata in *. cbn -[messages_for]. rewrite Hmsg, Hm.
  cbn -[messages_for]. by rewrite IH; [|intros; apply Hq; by right|intros; apply Hs; by right].
Qed.

(** Every queue is handed to the transport with the messages of its events. *)
Lemma initialize_messages_queues_spec queues :
  well_queued queues ->
  (forall q evs e, (q, evs) ∈ queues -> e ∈ evs -> sendable e) ->
  py_map (fun '(queue_identifier, event_queue) =>
            messages ← queue_messages event_queue;
            Ok (queue_identifier, messages)) queues
  = Ok (map (fun '(q, evs) => (q, messages_for q evs)) queues).
Proof.
  intros [_ Q]. induction queues as [|[q evs] queues IH]; intros Hs; [done|]. cbn.
  rewrite (queue_messages_spec q evs).
  - cbn. rewrite IH; [done| |].
    + intros q' evs' e Hin. apply Q. by right.
    + intros q' evs' e Hin. apply (Hs q' evs'). by right.
  - intros e. apply Q. left.
  - intros e. apply (Hs q evs). left.
Qed.

Lemma dict_get_messages q (queues : dict QueueIdentifier (list Event)) :
  dict_get q (map (fun '(q, evs) => (q, messages_for q evs)) queues)
  = messages_for q <$> dict_get q queues.
Proof.
  rewrite <- (dict_get_map_keyed messages_for). f_equal. apply map_ext. by intros [].
Qed.

(** ** Payments *)

(** The status of a payment is found under its target and identifier. *)
Definition has_status (target : bytes) (identifier : Z) (statuses : StatusesDict) : Prop :=
  is_Some (dict_get identifier (default [] (dict_get target statuses))).

Lemma set_status_same target s statuses :
  has_status target (ps_payment_identifier s) (set_status target s statuses).
Proof. unfold has_status, set_status. rewrite dict_get_set_eq. cbn. rewrite dict_get_set_eq. eauto. Qed.

Lemma set_status_keeps target s statuses target' identifier :
  has_status target' identifier statuses -> has_status target' identifier (set_status target s statuses).
Proof.
  unfold has_status, set_status. intros Hs.
  destruct (decide (target' = target)) as [->|Hne]; [|by rewrite dict_get_set_ne].
  rewrite dict_get_set_eq. cbn.
  destruct (decide (identifier = ps_payment_identifier s)) as [->|Hne].
  - rewrite dict_get_set_eq. eauto.
  - by rewrite dict_get_set_ne.
Qed.

Lemma initialize_statuses_spec tasks acc :
  payments_running tasks ->
  exists acc',
    py_foldl (fun '(statuses, results) task =>
                status ← task_status task results;
                match status with
                | Some (target, s) => Ok (set_status target s statuses, S results)
                | None => Ok (statuses, results)
                end) acc tasks = Ok acc'
    /\ (forall target identifier,
          has_status target identifier (fst acc) -> has_status target identifier (fst acc'))
    /\ forall net payment it, InitiatorTask net payment ∈ tasks -> first_transfer payment = Some it ->
         has_status (ltu_target (it_transfer it)) (ltu_payment_identifier (it_transfer it)) (fst acc').
Proof.
  revert acc. induction tasks as [|task tasks IH]; intros [statuses results] Hrun.
  { eexists. split; [reflexivity|]. split; [done|]. intros net payment it Hin. by apply elem_of_nil in Hin. }
  assert (payments_running tasks) as Hrun' by (intros net p Hin; apply (Hrun net); by right).
  cbn [py_foldl].
  destruct task as [net payment|net mediator|cid target]; cbn [task_status].
  2, 3: destruct (IH (statuses, results) Hrun') as (acc' & E & Hk & Ht); exists acc'; split; [exact E|];
        split; [done|]; intros net' p it [?|Hin]%elem_of_cons; [done|by eapply Ht].
  destruct (Hrun net payment ltac:(left)) as [it Hit]. unfold first_transfer in Hit.
  destruct (dict_values (ip_initiator_transfers payment)) as [|it0 its] eqn:Ev; [done|].
  injection Hit as ->. rewrite bind_ret_l.
  match goal with |- context [Ok (set_status ?t ?s statuses, _) ≫= _] =>
    destruct (IH (set_status t s statuses, S results) Hrun') as (acc' & E & Hk & Ht) end.
  exists acc'. split; [exact E|]. split.
  - intros target identifier Hs. by apply Hk, set_status_keeps.
  - intros net' p it' [[= -> ->]|Hin]%elem_of_cons Hf; [|by eapply Ht].
    unfold first_transfer in Hf. rewrite Ev in Hf. injection Hf as <-. apply Hk.
    apply (set_status_same (ltu_target (it_transfer it)) (mkPaymentStatus _ _ _ _ _)).
Qed.

(** A queued event whose message cannot be built or signed stops the
    initialization. *)
Lemma queue_messages_raise evs :
  (forall e, e ∈ evs -> is_Some (event_message e)) ->
  (forall e, e ∈ evs -> sendable e)
  \/ exists e err, e ∈ evs /\ unsendable e err /\ queue_messages evs = Raise err.
Proof.
  induction evs as [|e evs IH]; intros Hm; [left; by intros ? ?%elem_of_nil|].
  destruct (Hm e ltac:(left)) as [m Em]. destruct (signed_message e) as [message|err] eqn:Es.
  2: { right. exists e, err. split; [left|]. split; [split; [by rewrite Em|done]|].
       unfold queue_messages. cbn. by rewrite Es. }
  destruct IH as [IH|(x & err & Hx & Hu & Hq)]; [intros; apply Hm; by right| |].
  - left. intros x [->|Hx]%elem_of_cons; [right; eauto|by apply IH].
  - right. exists x, err. split; [by right|]. split; [done|].
    unfold queue_messages, recipient_metadata in *. cbn. rewrite Es, Em. cbn. by rewrite Hq.
Qed.

Lemma initialize_messages_queues_raise queues :
  well_queued queues ->
  (forall q evs e, (q, evs) ∈ queues -> e ∈ evs -> sendable e)
  \/ exists q evs e err, (q, evs) ∈ queues /\ e ∈ evs /\ unsendable e err
       /\ py_map (fun '(queue_identifier, event_queue) =>
            messages ← queue_messages event_queue;
            Ok (queue_identifier, messages)) queues = Raise err.
Proof.
  intros [_ Q]. induction queues as [|[q evs] queues IH]; [left; by intros ? ? ? ?%elem_of_nil|].
  destruct (queue_messages_raise evs) as [Hs|(e & err & He & Hu & Hq)].
  { intros e He. destruct (Q q evs e ltac:(left) He) as (m & -> & _). eauto. }
  2: { right. exists q, evs, e, err. split; [left|]. split; [done|]. split; [done|]. cbn. by rewrite Hq. }
  destruct IH as [IH|(q' & evs' & e & err & Hin & He & Hu & Hq)].
  - intros q' evs' e Hin. apply Q. by right.
  - left. intros q' evs' e [[= -> ->]|Hin]%elem_of_cons He; [by apply Hs|by eapply IH].
  - right. exists q', evs', e, err. split; [by right|]. split; [done|]. split; [done|]. cbn.
    rewrite (queue_messages_spec q evs); [cbn; by rewrite Hq| |done].
    intros x Hx. apply (Q q evs x); [left|done].
Qed.

(** C16: a restarted node goes on where it stopped.  For every state that is
    replayed from one without messages, transactions and payments, each queue of
    the transport gets the messages of the events that are queued for it, in
    their order and with the same metadata, exactly as the event handler hands
    them over, unless the message of a queued event cannot be built or signed,
    whose exception is raised; every pending transaction is executed in a
    greenlet of its own; and the initialization of the payments returns: every
    payment has a transfer, and the status of every payment exists again under
    the target and identifier of its first transfer. *)
Theorem restart_continues_the_node cs0 scs cs
    (Hinit : queueids_to_queues cs0 = [] /\ pending_transactions cs0 = []
             /\ secrethashes_to_task cs0 = [])
    (Hrun : replay node_transition cs0 scs = Ok cs) :
  ((exists queues, initialize_messages_queues cs = Ok queues
      /\ dict_keys queues = dict_keys (queueids_to_queues cs)
      /\ forall q, queue_of q queues
                  = messages_for q (default [] (dict_get q (queueids_to_queues cs))))
   \/ exists q evs e err, (q, evs) ∈ queueids_to_queues cs /\ e ∈ evs /\ unsendable e err
        /\ initialize_messages_queues cs = Raise err)
  /\ initialize_transactions_queues cs = map (fun t => [Emitted t]) (pending_transactions cs)
  /\ exists statuses n, initialize_payment_statuses cs ([], 0%nat) = Ok (statuses, n)
      /\ forall net payment,
           InitiatorTask net payment ∈ dict_values (secrethashes_to_task cs) ->
           exists it, first_transfer payment = Some it
             /\ has_status (ltu_target (it_transfer it)) (ltu_payment_identifier (it_transfer it))
                  statuses.
Proof.
  assert (resumable cs) as (Hw & Hp & Hpay).
  { eapply replay_resumable; [|exact Hrun]. destruct Hinit as (Eq & Ep & Et). split_and!.
    - rewrite Eq. apply well_queued_nil.
    - rewrite Ep. intros t Ht. by apply elem_of_nil in Ht.
    - unfold tasks_running. rewrite Et. by intros net p ?%elem_of_nil. }
  split_and!.
  - destruct (initialize_messages_queues_raise _ Hw) as [Hsend|Hraise]; [left|right; exact Hraise].
    eexists. split; [by apply initialize_messages_queues_spec|]. split.
    + unfold dict_keys. rewrite map_map. apply map_ext. by intros [].
    + intros q. unfold queue_of, get_all_messagequeues. rewrite dict_get_messages.
      by destruct (dict_get q (queueids_to_queues cs)).
  - unfold initialize_transactions_queues, async_handle_events, get_pending_transactions.
    rewrite wrap_emitted. clear -Hp. set (ts := pending_transactions cs) in *. clearbody ts.
    assert (List.filter is_blocking (map Emitted ts) = map Emitted ts
      /\ List.filter (fun e => negb (is_blocking e)) (map Emitted ts) = []) as [E1 E2].
    { induction ts as [|t ts IH]; [done|]. destruct IH as [I1 I2]; [intros; apply Hp; by right|].
      assert (is_blocking (Emitted t) = true) as Hb.
      { pose proof (Hp t ltac:(left)) as Ht. by destruct t. }
      cbn [map List.filter]. rewrite Hb. cbn. by rewrite I1, I2. }
    rewrite E1, E2, app_nil_r, map_map. done.
  - destruct (initialize_statuses_spec (dict_values (secrethashes_to_task cs)) ([], 0%nat) Hpay)
      as ([statuses n] & E & _ & Ht). exists statuses, n. split; [exact E|].
    intros net payment Hin. destruct (Hpay net payment Hin) as [it Hit]. exists it.
    split; [done|]. by eapply Ht.
Qed.
End start.
