(* ===== verification/Pathfinding.v ===== *)
(** The client of the path finding service ([network/pathfinding.py]): the choice
    of a service, the IOUs that pay for a request, and the request for paths with
    its retry.  The service is an interface that answers requests. *)

From stdpp Require Import pretty.
From S2P Require Import Prelude PyDict Bytes Crypto Formatting State Messages Services.

Record PFSInfo : Type := mkPFSInfo {
  pi_url : string;
  pi_price : Z;
  pi_chain_id : Z;
  pi_token_network_registry_address : bytes;
  pi_user_deposit_address : bytes;
  pi_payment_address : bytes;
  pi_confirmed_block_number : Z
}.

Record PFSConfig : Type := mkPFSConfig {
  pfs_info : PFSInfo;
  maximum_fee : Z;
  iou_timeout : Z;
  max_paths : Z
}.

Record IOU : Type := mkIOU {
  iou_sender : bytes;
  iou_receiver : bytes;
  iou_one_to_n_address : bytes;
  iou_amount : Z;
  iou_expiration_block : Z;
  iou_chain_id : Z;
  iou_signature : option bytes
}.

(** [IOU.as_json], the payload of a request *)
Record IOUJson : Type := mkIOUJson {
  ij_sender : string;
  ij_receiver : string;
  ij_one_to_n_address : string;
  ij_amount : Z;
  ij_claimable_until : Z;
  ij_chain_id : Z;
  ij_signature : option bytes
}.

Record Payload : Type := mkPayload {
  pl_from : string;
  pl_to : string;
  pl_value : Z;
  pl_max_paths : Z;
  pl_iou : option IOUJson
}.

(** A path of the answer: the fields of a JSON object, which may be missing. *)
Record PathObject : Type := mkPathObject {
  po_path : option (list string);
  po_address_metadata : option (dict string AddressMetadata);
  po_estimated_fee : option Z
}.

(** [exceptions.PFSError] *)
Definition WRONG_IOU_RECIPIENT : Z := 2102.
Definition IOU_EXPIRED_TOO_EARLY : Z := 2103.
Definition INSUFFICIENT_SERVICE_PAYMENT : Z := 2104.
Definition IOU_ALREADY_CLAIMED : Z := 2105.
Definition DEPOSIT_TOO_LOW : Z := 2107.
Definition NO_ROUTE_FOUND : Z := 2201.
Definition is_iou_rejected (error_code : Z) : bool := (2100 <=? error_code) && (error_code <? 2200).

Definition MAX_PATHS_QUERY_ATTEMPTS : Z := 2.

(** The answer to a GET request: none, one that is not understood, or its data. *)
Inductive Reply (A : Type) : Type :=
  | NoReply
  | BadReply
  | GoodReply (a : A).
Arguments NoReply {_}.
Arguments BadReply {_}.
Arguments GoodReply {_} _.

(** The answer to the request for paths: with another status than 200 an error
    message and code, if the body can be read, and otherwise the paths and a
    token. *)
Inductive PathsReply : Type :=
  | PathsNoReply
  | PathsError (body : option (string * Z))
  | PathsMissingField
  | PathsBadJson
  | Paths (result : list PathObject) (feedback_token : bytes).

(** The path finding service, with its own state, and [sign_one_to_n_iou] of
    raiden_contracts for the private key of the node. *)
Class PathfindingService (W : Type) : Type := {
  info_reply : string -> W -> W * Reply PFSInfo;
  last_iou_reply : string -> bytes -> bytes -> bytes -> bytes -> bytes -> W -> W * Reply (option IOU);
  paths_reply : string -> bytes -> Payload -> W -> W * PathsReply;
  metadata_reply : string -> bytes -> W -> W * Reply (Z * AddressMetadata);
  sign_one_to_n_iou : string -> string -> Z -> Z -> string -> Z -> bytes
}.

(** The registry of services at a confirmed block. *)
Record ServiceRegistry : Type := mkServiceRegistry {
  ever_made_deposits : Z -> option bytes;
  ever_made_deposits_len : Z;
  has_valid_registration : bytes -> bool;
  get_service_url : bytes -> option string
}.

Definition ServiceRequestFailed (msg : string) : exn := RaidenError "ServiceRequestFailed" msg.

Section pathfinding.
Context `{Crypto} `{MessageEnv} `{!PrivateKey} {W : Type} `{!PathfindingService W}.

(** ** IOUs *)

(** [claimable_until] of a signature *)
Definition sign_iou_until (iou : IOU) (claimable_until : Z) : bytes :=
  sign_one_to_n_iou (to_checksum_address (iou_sender iou)) (to_checksum_address (iou_receiver iou))
    (iou_amount iou) claimable_until (to_checksum_address (iou_one_to_n_address iou))
    (iou_chain_id iou).

(** [IOU.sign] *)
Definition iou_sign (iou : IOU) : IOU :=
  mkIOU (iou_sender iou) (iou_receiver iou) (iou_one_to_n_address iou) (iou_amount iou)
    (iou_expiration_block iou) (iou_chain_id iou)
    (Some (sign_iou_until iou (iou_expiration_block iou * 15))).

(** [IOU.as_json] *)
Definition as_json (iou : IOU) : IOUJson :=
  mkIOUJson (to_checksum_address (iou_sender iou)) (to_checksum_address (iou_receiver iou))
    (to_checksum_address (iou_one_to_n_address iou)) (iou_amount iou)
    (iou_expiration_block iou * 15) (iou_chain_id iou) (iou_signature iou).

(** [make_iou] *)
Definition make_iou (config : PFSConfig) (our_address one_to_n_address : bytes)
    (block_number chain_id offered_fee : Z) : IOU :=
  iou_sign (mkIOU our_address (pi_payment_address (pfs_info config)) one_to_n_address offered_fee
              (block_number + iou_timeout config) chain_id None).

(** [update_iou]; zero is no new expiration. *)
Definition update_iou (iou : IOU) (added_amount : Z) (expiration_block : option Z) : Py IOU :=
  let expected_signature := sign_iou_until iou (iou_expiration_block iou) in
  _ ← raise_if (negb (bool_decide (iou_signature iou = Some expected_signature)))
        (ServiceRequestFailed
           "Last IOU as given by the Pathfinding Service is invalid (signature does not match)");
  let expiration :=
    match expiration_block with
    | None | Some 0 => iou_expiration_block iou
    | Some e => e
    end in
  Ok (iou_sign (mkIOU (iou_sender iou) (iou_receiver iou) (iou_one_to_n_address iou)
                  (iou_amount iou + added_amount) expiration (iou_chain_id iou) (iou_signature iou))).

(** ** Requests *)

Notation Client := (St (W * PFSConfig)).

(** A request to the service. *)
Definition request {A} (reply : W -> W * A) : Client A := fun '(w, config) =>
  let '(w', a) := reply w in (w', config, Ok a).

(** [get_pfs_info] *)
Definition get_pfs_info (url : string) : Client PFSInfo :=
  reply ← request (info_reply url);
  match (reply : Reply PFSInfo) with
  | GoodReply info => mret info
  | NoReply => st_raise (ServiceRequestFailed "Selected Pathfinding Service did not respond")
  | BadReply => st_raise (ServiceRequestFailed "Selected Pathfinding Service returned unexpected reply")
  end.

(** [get_last_iou], at the time [timestamp] *)
Definition get_last_iou (url : string) (token_network_address sender receiver timestamp : bytes) :
    Client (option IOU) :=
  let signature := local_sign (sender ++ receiver ++ timestamp) in
  reply ← request (last_iou_reply url token_network_address sender receiver timestamp signature);
  match (reply : Reply (option IOU)) with
  | GoodReply iou => mret iou
  | NoReply | BadReply => st_raise (ServiceRequestFailed "get_last_iou")
  end.

(** [create_current_iou] *)
Definition create_current_iou (config : PFSConfig) (timestamp : bytes)
    (token_network_address one_to_n_address our_address : bytes)
    (block_number chain_id offered_fee : Z) (scrap_existing_iou : bool) : Client IOU :=
  latest_iou ←
    (if scrap_existing_iou then mret None
     else get_last_iou (pi_url (pfs_info config)) token_network_address our_address
            (pi_payment_address (pfs_info config)) timestamp);
  match (latest_iou : option IOU) with
  | None => mret (make_iou config our_address one_to_n_address block_number chain_id offered_fee)
  | Some iou => st_lift (update_iou iou offered_fee None)
  end.

(** [post_pfs_paths]: the paths, the rejection of the IOU with its code, or
    another exception. *)
Inductive PathsResult : Type :=
  | PathsFound (result : list PathObject) (feedback_token : bytes)
  | IOURejected (code : Z) (msg : string)
  | PathsFailed (e : exn).

(** The text of [PFSReturnedError], and [PFSReturnedError.from_response] *)
Definition returned_error (msg : string) (code : Z) : string :=
  msg +:+ " (PFS error code: " +:+ pretty code +:+ ")".

Definition from_response (msg : string) (code : Z) : PathsResult :=
  if is_iou_rejected code then IOURejected code (returned_error msg code)
  else PathsFailed (RaidenError "PFSReturnedError" (returned_error msg code)).

Definition post_pfs_paths (url : string) (token_network_address : bytes) (payload : Payload) :
    Client PathsResult :=
  reply ← request (paths_reply url token_network_address payload);
  mret match (reply : PathsReply) with
       | PathsNoReply =>
           PathsFailed (ServiceRequestFailed "Could not connect to Pathfinding Service")
       | PathsError None =>
           PathsFailed (ServiceRequestFailed
             "Pathfinding Service returned error code (malformed json in response)")
       | PathsError (Some (msg, code)) => from_response msg code
       | PathsMissingField =>
           PathsFailed (ServiceRequestFailed
             "Answer from Pathfinding Service not understood ('result' field missing)")
       | PathsBadJson => PathsFailed (ServiceRequestFailed "Pathfinding Service returned invalid json")
       | Paths result token => PathsFound result token
       end.

(** [_query_address_metadata] *)
Definition query_address_metadata (config : PFSConfig) (user_address : bytes) :
    Client AddressMetadata :=
  reply ← request (metadata_reply (pi_url (pfs_info config)) user_address);
  match (reply : Reply (Z * AddressMetadata)) with
  | NoReply => st_raise (ServiceRequestFailed "Could not connect to Pathfinding Service")
  | BadReply => st_raise (ServiceRequestFailed "Pathfinding Service returned malformed json in response")
  | GoodReply (status, metadata) =>
      if negb (status =? 200) then st_raise (RaidenError "PFSReturnedError" "")
      else
        match rm_address_metadata (new_RouteMetadata [user_address] (Some [(user_address, metadata)])) with
        | Some valid =>
            if dict_mem user_address valid then mret metadata
            else st_raise (ServiceRequestFailed "Pathfinding Service returned invalid metadata")
        | None => mret metadata
        end
  end.

(** ** Paths *)

Record PathsQuery : Type := mkPathsQuery {
  pq_our_address : bytes;
  pq_current_block_number : Z;
  pq_token_network_address : bytes;
  pq_one_to_n_address : bytes;
  pq_chain_id : Z;
  pq_route_from : bytes;
  pq_route_to : bytes;
  pq_value : Z;
  pq_wait_for_block : Z;
  pq_timestamp : bytes
}.

Definition config_of : Client PFSConfig := fun s => (s, Ok (snd s)).
Definition set_info (info : PFSInfo) : Client unit :=
  st_modify (fun '(w, config) =>
    (w, mkPFSConfig info (maximum_fee config) (iou_timeout config) (max_paths config))).

(** The loop that waits for the service: [None] when the block is not reached
    after the given number of further requests. *)
Fixpoint wait_for_block (polls : nat) (url : string) (block : Z) (current_info : PFSInfo) :
    Client (option PFSInfo) :=
  if pi_confirmed_block_number current_info <? block then
    match polls with
    | O => mret None
    | S polls' =>
        info ← get_pfs_info url;
        wait_for_block polls' url block info
    end
  else mret (Some current_info).

(** The answers to a rejected IOU: raise, give up, or try again, with or without
    the existing IOU. *)
Inductive Retry : Type :=
  | GiveUp
  | TryAgain (scrap_existing_iou : bool).

Definition handle_rejection (retries code : Z) (msg : string) (scrap : bool) : Client Retry :=
  if (retries =? 0) || (code =? WRONG_IOU_RECIPIENT) || (code =? DEPOSIT_TOO_LOW)
  then st_raise (RaidenError "ServiceRequestIOURejected" msg)
  else if (code =? IOU_ALREADY_CLAIMED) || (code =? IOU_EXPIRED_TOO_EARLY) then mret (TryAgain true)
  else if code =? INSUFFICIENT_SERVICE_PAYMENT then
    config ← config_of;
    new_info ←
      st_catch (get_pfs_info (pi_url (pfs_info config)))
        (fun e => if service_request_failed e
                  then st_raise (ServiceRequestFailed
                         "Could not get updated fee information from Pathfinding Service.")
                  else st_raise e);
    if maximum_fee config <? pi_price new_info
    then st_raise (ServiceRequestFailed "PFS fees too high.")
    else if pi_price (pfs_info config) <? pi_price new_info then
      _ ← set_info new_info;
      mret (TryAgain scrap)
    else mret (TryAgain scrap)
  else if code =? NO_ROUTE_FOUND then mret GiveUp
  else mret (TryAgain scrap).

(** One round of the loop: the IOU of the payload and the request. *)
Definition post_with_iou (q : PathsQuery) (offered_fee : Z) (scrap : bool) (payload : Payload) :
    Client (Payload * PathsResult) :=
  config ← config_of;
  payload' ←
    (if 0 <? offered_fee then
       new_iou ← create_current_iou config (pq_timestamp q) (pq_token_network_address q)
                   (pq_one_to_n_address q) (pq_our_address q) (pq_current_block_number q)
                   (pq_chain_id q) offered_fee scrap;
       mret (mkPayload (pl_from payload) (pl_to payload) (pl_value payload) (pl_max_paths payload)
               (Some (as_json new_iou)))
     else mret payload);
  result ← post_pfs_paths (pi_url (pfs_info config)) (pq_token_network_address q) payload';
  mret (payload', result).

Fixpoint paths_loop (rounds : list Z) (q : PathsQuery) (offered_fee : Z) (scrap : bool)
    (payload : Payload) : Client (list PathObject * option bytes) :=
  match rounds with
  | [] => mret ([], None)
  | retries :: rounds' =>
      '(payload', result) ← post_with_iou q offered_fee scrap payload;
      match (result : PathsResult) with
      | PathsFound paths token => mret (paths, Some token)
      | PathsFailed e => st_raise e
      | IOURejected code msg =>
          decision ← handle_rejection retries code msg scrap;
          match (decision : Retry) with
          | GiveUp => mret ([], None)
          | TryAgain scrap' => paths_loop rounds' q offered_fee scrap' payload'
          end
      end
  end.

(** [_query_paths]: [None] when the service does not reach the block within the
    number of polls. *)
Definition query_paths (polls : nat) (q : PathsQuery) :
    Client (option (list PathObject * option bytes)) :=
  config ← config_of;
  let payload := mkPayload (to_checksum_address (pq_route_from q)) (to_checksum_address (pq_route_to q))
                   (pq_value q) (max_paths config) None in
  let offered_fee := pi_price (pfs_info config) in
  info ← get_pfs_info (pi_url (pfs_info config));
  ready ← wait_for_block polls (pi_url (pfs_info config)) (pq_wait_for_block q) info;
  match (ready : option PFSInfo) with
  | None => mret None
  | Some _ =>
      r ← paths_loop (rev (seqZ 0 MAX_PATHS_QUERY_ATTEMPTS)) q offered_fee false payload;
      mret (Some r)
  end.

(** ** The choice of a service *)

(** [get_valid_pfs_url] *)
Definition get_valid_pfs_url (registry : ServiceRegistry) (index pathfinding_max_fee : Z) :
    Client (option string) :=
  match ever_made_deposits registry index with
  | None | Some [] => mret None
  | Some addr =>
      if negb (has_valid_registration registry addr) then mret None
      else
        match get_service_url registry addr with
        | None | Some EmptyString => mret None
        | Some url =>
            info ← st_catch (i ← get_pfs_info url; mret (Some i))
                     (fun e => if service_request_failed e then mret None else st_raise e);
            mret match (info : option PFSInfo) with
                 | None => None
                 | Some i => if pathfinding_max_fee <? pi_price i then None else Some url
                 end
        end
  end.

(** The loop of [get_random_pfs] over the shuffled indices. *)
Fixpoint try_services (registry : ServiceRegistry) (indices : list Z) (pathfinding_max_fee : Z) :
    Client (option string) :=
  match indices with
  | [] => mret None
  | index :: indices' =>
      url ← get_valid_pfs_url registry index pathfinding_max_fee;
      match (url : option string) with
      | Some u => mret (Some u)
      | None => try_services registry indices' pathfinding_max_fee
      end
  end.

(** [get_random_pfs]: [shuffle] is a permutation; the indices are taken from its
    end. *)
Definition get_random_pfs (shuffle : list Z -> list Z) (registry : ServiceRegistry)
    (pathfinding_max_fee : Z) : Client (option string) :=
  let indices := seqZ 0 (ever_made_deposits_len registry) in
  try_services registry (rev (shuffle indices)) pathfinding_max_fee.

(** [configure_pfs_or_exit] *)
Definition configure_pfs_or_exit (shuffle : list Z -> list Z) (pfs_url : string)
    (routing_mode : RoutingMode) (registry : option ServiceRegistry) (node_chain_id : Z)
    (token_network_registry_address : bytes) (pathfinding_max_fee : Z) : Client PFSInfo :=
  _ ← st_lift (py_assert match routing_mode with PFS => true | PRIVATE => false end
                 "Invalid code path; configure_pfs needs routing mode PFS");
  _ ← st_lift (py_assert (negb (bool_decide (pfs_url = EmptyString)))
                 "With PFS routing mode we shouldn't get to configure_pfs with pfs_address being None");
  url ←
    (if bool_decide (pfs_url = "auto"%string) then
       match registry with
       | None => st_raise (RaidenError "RaidenError" "no service registry address was given")
       | Some r =>
           maybe_pfs_url ← get_random_pfs shuffle r pathfinding_max_fee;
           match (maybe_pfs_url : option string) with
           | None => st_raise (RaidenError "RaidenError"
                       "Can not find any registered pathfinding service and basic routing is not used.")
           | Some u => mret u
           end
       end
     else mret pfs_url);
  info ← st_catch (get_pfs_info url)
           (fun e => if service_request_failed e
                     then st_raise (RaidenError "RaidenError"
                            "There was an error with the Pathfinding Service")
                     else st_raise e);
  _ ← st_lift (raise_if ((0 <? pi_price info) && bool_decide (pi_payment_address info = []))
                 (RaidenError "RaidenError" "did not provide a payment address"));
  _ ← st_lift (raise_if (negb (node_chain_id =? pi_chain_id info))
                 (RaidenError "RaidenError" "not operating on the same network"));
  _ ← st_lift (raise_if (negb (bool_decide (pi_token_network_registry_address info
                                            = token_network_registry_address)))
                 (RaidenError "RaidenError" "not operating on the same Token Network Registry"));
  mret info.

(** [check_pfs_for_production] *)
Definition check_pfs_for_production (registry : option ServiceRegistry) (info : PFSInfo) : Py unit :=
  match registry with
  | None => Raise (RaidenError "RaidenError" "no Service Registry is set")
  | Some r =>
      raise_if (negb (has_valid_registration r (pi_payment_address info)
                      && bool_decide (get_service_url r (pi_payment_address info) = Some (pi_url info))))
        (RaidenError "RaidenError" "The Pathfinding Service is not registered")
  end.
End pathfinding.
