(* ===== verification/Routing.v ===== *)
(** The routes of a payment ([routing.py]): a direct channel, or the paths of the
    path finding service whose first channel the node can use. *)

From S2P Require Import Prelude PyDict Bytes Crypto PyFloat MediationFee State Events.
From S2P Require Import StateChanges Channel TokenNetwork TransferTasks Node Views Messages.
From S2P Require Import Services.
From S2P Require Import Pathfinding.

(** [PFSProxy], with the answers of the service, and [to_canonical_address] of
    eth_utils for any text. *)
Record PFSProxy : Type := mkPFSProxy {
  proxy_query_address_metadata : bytes -> Py AddressMetadata;
  proxy_query_paths : PathsQuery -> Py (list PathObject * option bytes);
  canonical_address : string -> Py bytes
}.

(** The error message, the routes and the token for the feedback. *)
Definition Routes : Type := option string * list RouteState * option bytes.

Section routing.
Context `{Crypto} `{MessageEnv} (proxy : PFSProxy).
Implicit Types (cs : ChainState).

(** [path_object[key]] *)
Definition field_of {A} (value : option A) : Py A :=
  match value with Some a => Ok a | None => Raise KeyError end.

(** A dictionary comprehension over the items of another dictionary. *)
Definition canonical_metadata (metadata : dict string AddressMetadata) :
    Py (dict bytes AddressMetadata) :=
  py_foldl (fun d '(a, md) => a' ← canonical_address proxy a; Ok (dict_set a' md d)) [] metadata.

(** [RouteState(...)] with a fee *)
Definition route_with_fee (fee : Z) (r : RouteState) : RouteState :=
  mkRouteState (route r) (address_to_metadata r) (swaps r) fee.

(** [make_route_state] *)
Definition make_route_state (path_object : PathObject) (previous_address : option bytes) cs
    (token_network_address : bytes) : Py (option RouteState) :=
  path ← field_of (po_path path_object);
  let metadata := default [] (po_address_metadata path_object) in
  fee ← field_of (po_estimated_fee path_object);
  canonical_path ← py_map (canonical_address proxy) path;
  match canonical_path with
  | _ :: partner :: _ =>
      if bool_decide (Some partner = previous_address) then Ok None
      else
        c ← get_channelstate_by_token_network_and_partner cs token_network_address partner;
        match c with
        | None => Ok None
        | Some c =>
            if negb (bool_decide (get_status c = STATE_OPENED)) then Ok None
            else
              canonical_address_metadata ← canonical_metadata metadata;
              match new_RouteState canonical_path canonical_address_metadata with
              | Ok r => Ok (Some (route_with_fee fee r))
              | Raise (ValueError _) => Ok None
              | Raise e => Raise e
              end
        end
  | _ => Ok None
  end.

(** The loop over the paths. *)
Fixpoint route_states (paths : list PathObject) (previous_address : option bytes) cs
    (token_network_address : bytes) : Py (list RouteState) :=
  match paths with
  | [] => Ok []
  | path_object :: paths' =>
      r ← make_route_state path_object previous_address cs token_network_address;
      rest ← route_states paths' previous_address cs token_network_address;
      Ok match r with Some r => r :: rest | None => rest end
  end.

(** The message of a failed request. *)
Definition pfs_message (e : exn) : option string :=
  match e with
  | RaidenError _ EmptyString => None
  | RaidenError _ msg => Some ("PFS: " +:+ msg)
  | _ => None
  end.

(** [get_best_routes_pfs] *)
Definition get_best_routes_pfs cs (token_network_address one_to_n_address from_address to_address : bytes)
    (amount : Z) (previous_address : option bytes) (pfs_wait_for_block : Z) (timestamp : bytes) :
    Py Routes :=
  let query := mkPathsQuery (cs_our_address cs) (cs_block_number cs) token_network_address
                 one_to_n_address (cs_chain_id cs) from_address to_address amount pfs_wait_for_block
                 timestamp in
  match proxy_query_paths proxy query with
  | Raise e => if service_request_failed e then Ok (pfs_message e, [], None) else Raise e
  | Ok (pfs_routes, feedback_token) =>
      paths ← route_states pfs_routes previous_address cs token_network_address;
      Ok (None, paths, feedback_token)
  end.

(** The channel can carry the amount. *)
Definition usable (amount : Z) (c : NettingChannelState) : bool :=
  bool_decide (is_channel_usable_for_new_transfer c amount None = USABLE).

(** The direct route of [get_best_routes], over the first usable channel. *)
Definition direct_route (from_address to_address : bytes) (our_metadata : AddressMetadata) :
    Py Routes :=
  match proxy_query_address_metadata proxy to_address with
  | Raise e =>
      if service_request_failed e
      then Ok (Some "PFS returned an error while trying to fetch user information"%string, [], None)
      else Raise e
  | Ok metadata =>
      match new_RouteState [from_address; to_address]
              (dict_set to_address metadata [(from_address, our_metadata)]) with
      | Ok r => Ok (None, [r], None)
      | Raise (ValueError msg) => Ok (Some msg, [], None)
      | Raise e => Raise e
      end
  end.

(** [latest_channel_opened_at] *)
Definition latest_channel_opened_at (tn : TokenNetworkState) : Z :=
  foldl (fun latest c => Z.max latest (st_finished_block_number (open_transaction c))) 0
    (dict_values (channelidentifiers_to_channels tn)).

(** The channels of [partneraddresses_to_channelidentifiers] *)
Definition indexed_channels (tn : TokenNetworkState) : Py (list NettingChannelState) :=
  py_map (fun id => field_of (dict_get id (channelidentifiers_to_channels tn)))
    (concat (dict_values (partneraddresses_to_channelidentifiers tn))).

(** The part of [get_best_routes] that asks the path finding service. *)
Definition mediated_routes cs (tn : TokenNetworkState) (token_network_address : bytes)
    (one_to_n_address : option bytes) (from_address to_address : bytes) (amount : Z)
    (previous_address : option bytes) (timestamp : bytes) : Py Routes :=
  match one_to_n_address with
  | None => Ok (Some "Pathfinding Service could not be used."%string, [], None)
  | Some one_to_n =>
      channels ← indexed_channels tn;
      if negb (existsb (usable amount) channels)
      then Ok (Some "You have no suitable channel to initiate this payment."%string, [], None)
      else
        '(error_msg, routes, token) ←
          get_best_routes_pfs cs token_network_address one_to_n from_address to_address amount
            previous_address (latest_channel_opened_at tn) timestamp;
        match error_msg, routes with
        | Some msg, _ => Ok (Some msg, [], None)
        | None, [] => Ok (Some "PFS could not find any routes"%string, [], None)
        | None, _ => Ok (None, routes, token)
        end
  end.

(** The loop over the channels with the target, up to the first usable one. *)
Fixpoint has_usable_channel (tn : TokenNetworkState) (amount : Z) (ids : list Z) : Py bool :=
  match ids with
  | [] => Ok false
  | id :: ids' =>
      c ← field_of (dict_get id (channelidentifiers_to_channels tn));
      if usable amount c then Ok true else has_usable_channel tn amount ids'
  end.

(** [get_best_routes] *)
Definition get_best_routes cs (token_network_address : bytes) (one_to_n_address : option bytes)
    (from_address to_address : bytes) (amount : Z) (previous_address : option bytes)
    (our_metadata : AddressMetadata) (timestamp : bytes) : Py Routes :=
  tn ← assert_some (find_token_network (identifiers_to_tokennetworkregistries cs) token_network_address)
         "The token network must be validated and exist.";
  direct ← has_usable_channel tn amount
             (default [] (dict_get to_address (partneraddresses_to_channelidentifiers tn)));
  if (direct : bool)
  then direct_route from_address to_address our_metadata
  else
    mediated_routes cs tn token_network_address one_to_n_address from_address to_address amount
      previous_address timestamp.
End routing.
