(* ===== verification/RoutingProofs.v ===== *)
(** The routes that are offered to the initiator can be used, and the payment of
    requests to the path finding service. *)

From S2P Require Import Prelude PyDict Bytes Crypto PyFloat MediationFee State Events.
From S2P Require Import StateChanges Channel TokenNetwork TransferTasks Node Views Messages.
From S2P Require Import Services.
From S2P Require Import Formatting Pathfinding Routing.

Section routing.
Context `{Crypto} `{MessageEnv} (proxy : PFSProxy).
Implicit Types (cs : ChainState) (tn : TokenNetworkState).

(** ** Paths *)

(** The route starts with an open channel of the node, which does not lead back. *)
Definition route_is_open cs net (previous_address : option bytes) (r : RouteState) : Prop :=
  exists first partner rest c,
    route r = first :: partner :: rest
    /\ Some partner <> previous_address
    /\ get_channelstate_by_token_network_and_partner cs net partner = Ok (Some c)
    /\ get_status c = STATE_OPENED
    /\ validate_address_metadata (route r) (Some (address_to_metadata r)) = [].

Lemma new_RouteState_valid path metadata r :
  new_RouteState path metadata = Ok r ->
  route r = path /\ validate_address_metadata (route r) (Some (address_to_metadata r)) = [].
Proof.
  unfold new_RouteState. destruct (validate_address_metadata path (Some metadata)) eqn:E; [|done].
  intros [= <-]. done.
Qed.

Lemma make_route_state_open path_object previous cs net r :
  make_route_state proxy path_object previous cs net = Ok (Some r) ->
  route_is_open cs net previous r.
Proof.
  unfold make_route_state. intros Hm. apply bind_Ok in Hm as (path & _ & Hm).
  apply bind_Ok in Hm as (fee & _ & Hm). apply bind_Ok in Hm as (canonical & _ & Hm).
  destruct canonical as [|first [|partner rest]]; [done..|].
  case_bool_decide as Hp; [done|]. apply bind_Ok in Hm as ([c|] & Hc & Hm); [|done].
  case_bool_decide as Ho; [|done]. cbn in Hm. apply bind_Ok in Hm as (metadata & _ & Hm).
  destruct (new_RouteState (first :: partner :: rest) metadata) as [r0|e] eqn:Er; [|by destruct e].
  injection Hm as <-. apply new_RouteState_valid in Er as [Er Hv].
  exists first, partner, rest, c. by split_and!.
Qed.

Lemma route_states_open paths previous cs net routes :
  route_states proxy paths previous cs net = Ok routes ->
  forall r, r ∈ routes -> route_is_open cs net previous r.
Proof.
  revert routes. induction paths as [|p paths IH]; intros routes Hr; cbn in Hr.
  - injection Hr as <-. intros r Hin. by apply elem_of_nil in Hin.
  - apply bind_Ok in Hr as ([r0|] & Hmk & Hr); apply bind_Ok in Hr as (rest & Hrest & [= <-]);
      intros r Hin; [|by eapply IH].
    apply elem_of_cons in Hin as [->|Hin]; [by eapply make_route_state_open|by eapply IH].
Qed.

(** ** Direct channels *)

Lemma has_usable_channel_true tn amount ids :
  has_usable_channel tn amount ids = Ok true ->
  exists id c, id ∈ ids /\ dict_get id (channelidentifiers_to_channels tn) = Some c
    /\ is_channel_usable_for_new_transfer c amount None = USABLE.
Proof.
  induction ids as [|id ids IH]; [done|]. cbn. intros Hu. apply bind_Ok in Hu as (c & Hc & Hu).
  unfold field_of in Hc. destruct (dict_get id _) as [c0|] eqn:Eg; [|done]. injection Hc as ->.
  destruct (usable amount c) eqn:Eu.
  - exists id, c. split_and!; [left|done|]. unfold usable in Eu. by apply bool_decide_eq_true in Eu.
  - destruct (IH Hu) as (id' & c' & Hin & Hg & Hus). exists id', c'. split_and!; [by right|done..].
Qed.

Lemma has_usable_channel_false tn amount ids :
  has_usable_channel tn amount ids = Ok false ->
  forall id, id ∈ ids -> exists c, dict_get id (channelidentifiers_to_channels tn) = Some c
    /\ is_channel_usable_for_new_transfer c amount None <> USABLE.
Proof.
  induction ids as [|id ids IH]; cbn; intros Hu id' Hin; [by apply elem_of_nil in Hin|].
  apply bind_Ok in Hu as (c & Hc & Hu). unfold field_of in Hc.
  destruct (dict_get id _) as [c0|] eqn:Eg; [|done]. injection Hc as ->.
  destruct (usable amount c) eqn:Eu; [done|]. apply elem_of_cons in Hin as [->|Hin]; [|by apply IH]. exists c. split; [done|].
  unfold usable in Eu. by apply bool_decide_eq_false in Eu.
Qed.

Lemma direct_route_result from to metadata msg routes token :
  direct_route proxy from to metadata = Ok (msg, routes, token) ->
  (msg = None <-> routes <> [])
  /\ forall r, r ∈ routes -> route r = [from; to] /\ estimated_fee r = 0
       /\ validate_address_metadata (route r) (Some (address_to_metadata r)) = [].
Proof.
  unfold direct_route. destruct (proxy_query_address_metadata proxy to) as [md|e].
  2: { case_if; [|done]. intros [= <- <- <-]. split; [done|]. intros r Hr. by apply elem_of_nil in Hr. }
  destruct (new_RouteState _ _) as [r0|e] eqn:Er.
  - intros [= <- <- <-]. split; [done|]. intros r ->%list_elem_of_singleton.
    pose proof (new_RouteState_valid _ _ _ Er) as [Ev Hv]. split; [done|]. split; [|done].
    unfold new_RouteState in Er. case_match; [|done]. by injection Er as <-.
  - destruct e; try done. intros [= <- <- <-]. split; [done|]. intros r Hr. by apply elem_of_nil in Hr.
Qed.

Lemma existsb_elem {A} (f : A -> bool) l : existsb f l = true <-> exists x, x ∈ l /\ f x = true.
Proof. rewrite existsb_exists. setoid_rewrite list_elem_of_In. done. Qed.

(** The channel ids of the partners. *)
Lemma indexed_channels_elem tn channels c :
  indexed_channels tn = Ok channels -> c ∈ channels ->
  exists id, dict_get id (channelidentifiers_to_channels tn) = Some c.
Proof.
  unfold indexed_channels. intros Hm Hin. apply py_map_Forall2 in Hm.
  apply list_elem_of_lookup in Hin as [i Hi].
  destruct (Forall2_lookup_r _ _ _ _ _ Hm Hi) as (id & _ & Hid). exists id. unfold field_of in Hid.
  by destruct (dict_get id _); [injection Hid as ->|].
Qed.

(** C19: the routes of a payment can be used.  [get_best_routes] gives an error
    message or at least one route, never both.  If a channel with the target can
    carry the amount, the only route is the direct one, without fees; otherwise
    some channel of the node can carry the amount, and every route starts with an
    open channel to its second node, which is not the node that the payment came
    from.  The metadata of all addresses is valid. *)
Theorem best_routes_are_usable cs net one_to_n from to amount previous metadata timestamp tn
    msg routes token
    (Htn : find_token_network (identifiers_to_tokennetworkregistries cs) net = Some tn)
    (Hbest : get_best_routes proxy cs net one_to_n from to amount previous metadata timestamp
             = Ok (msg, routes, token)) :
  (msg = None <-> routes <> [])
  /\ ((exists id c, id ∈ default [] (dict_get to (partneraddresses_to_channelidentifiers tn))
         /\ dict_get id (channelidentifiers_to_channels tn) = Some c
         /\ is_channel_usable_for_new_transfer c amount None = USABLE
         /\ forall r, r ∈ routes -> route r = [from; to] /\ estimated_fee r = 0
              /\ validate_address_metadata (route r) (Some (address_to_metadata r)) = [])
      \/ (forall id, id ∈ default [] (dict_get to (partneraddresses_to_channelidentifiers tn)) ->
            exists c, dict_get id (channelidentifiers_to_channels tn) = Some c
                      /\ is_channel_usable_for_new_transfer c amount None <> USABLE)
         /\ (routes <> [] ->
             exists id c, dict_get id (channelidentifiers_to_channels tn) = Some c
                          /\ is_channel_usable_for_new_transfer c amount None = USABLE)
         /\ forall r, r ∈ routes -> route_is_open cs net previous r).
Proof.
  unfold get_best_routes in Hbest. rewrite Htn in Hbest. cbn [assert_some] in Hbest.
  rewrite bind_ret_l in Hbest. apply bind_Ok in Hbest as ([] & Hd & Hbest).
  - apply direct_route_result in Hbest as [Hm Hr]. split; [done|]. left.
    apply has_usable_channel_true in Hd as (id & c & Hin & Hg & Hu). exists id, c. done.
  - enough ((msg = None <-> routes <> [])
      /\ (routes <> [] -> exists id c, dict_get id (channelidentifiers_to_channels tn) = Some c
                          /\ is_channel_usable_for_new_transfer c amount None = USABLE)
      /\ forall r, r ∈ routes -> route_is_open cs net previous r) as (E1 & E2 & E3).
    { split; [done|]. right. split; [by apply has_usable_channel_false|done]. }
    unfold mediated_routes in Hbest.
    assert (forall m, Ok (Some m, [], None) = Ok (msg, routes, token) ->
      (msg = None <-> routes <> [])
      /\ (routes <> [] -> exists id c, dict_get id (channelidentifiers_to_channels tn) = Some c
                          /\ is_channel_usable_for_new_transfer c amount None = USABLE)
      /\ forall r, r ∈ routes -> route_is_open cs net previous r) as Herr.
    { intros m [= <- <- <-]. split_and!; [done|done|]. intros r Hr. by apply elem_of_nil in Hr. }
    destruct one_to_n as [one_to_n|]; [|by eapply Herr].
    apply bind_Ok in Hbest as (channels & Hch & Hbest).
    destruct (existsb (usable amount) channels) eqn:Eu; cbn [negb] in Hbest; [|by eapply Herr].
    apply bind_Ok in Hbest as ([[emsg eroutes] etoken] & Hpfs & Hbest).
    destruct emsg as [m|]; [by eapply Herr|]. destruct eroutes as [|r0 rest]; [by eapply Herr|].
    injection Hbest as <- <- <-. unfold get_best_routes_pfs in Hpfs.
    destruct (proxy_query_paths proxy _) as [[paths tk]|e]; [|by destruct (service_request_failed e)].
    apply bind_Ok in Hpfs as (rs & Hrs & [= -> _]). split_and!; [done| |by eapply route_states_open].
    intros _. apply existsb_elem in Eu as (c & Hc & Hus). destruct (indexed_channels_elem _ _ _ Hch Hc) as [id Hid].
    exists id, c. split; [done|]. unfold usable in Hus. by apply bool_decide_eq_true in Hus.
Qed.
End routing.

(** ** The path finding service *)

Section pathfinding.
Context `{Crypto} `{MessageEnv} `{!PrivateKey} {W : Type} `{!PathfindingService W}.

(** An IOU as the service gives it back, with some expiration. *)
Definition returned_iou (iou : IOU) (expiration : Z) : IOU :=
  mkIOU (iou_sender iou) (iou_receiver iou) (iou_one_to_n_address iou) (iou_amount iou) expiration
    (iou_chain_id iou) (iou_signature (iou_sign iou)).

(** An IOU is not continued.  The signature of an IOU covers fifteen times its
    expiration block, but [update_iou] checks it with the expiration block itself:
    an IOU that comes back as it was made is rejected, and one that comes back
    with the time of its signature in place of the block is signed again for a
    time that is fifteen times as late. *)
Theorem iou_is_not_continued (iou : IOU) expiration added iou'
    (Hinj : forall x y, sign_iou_until iou x = sign_iou_until iou y -> x = y)
    (Hpos : 0 < iou_expiration_block iou)
    (Hup : update_iou (returned_iou iou expiration) added None = Ok iou') :
  expiration <> iou_expiration_block iou
  /\ expiration = ij_claimable_until (as_json (iou_sign iou))
  /\ ij_claimable_until (as_json iou') = 15 * ij_claimable_until (as_json (iou_sign iou)).
Proof.
  unfold update_iou in Hup. apply bind_Ok in Hup as ([] & Hsig & [= <-]).
  unfold raise_if in Hsig. case_bool_decide as Hs; [|done]. injection Hs as Hs.
  change (sign_iou_until (returned_iou iou expiration) expiration)
    with (sign_iou_until iou expiration) in Hs. apply Hinj in Hs. cbn. lia.
Qed.

(** The loop that waits for the service ends with the first answer that has
    reached the block. *)
Lemma wait_for_block_reached polls url block info (s : W * PFSConfig) :
  block <= pi_confirmed_block_number info ->
  wait_for_block polls url block info s = (s, Ok (Some info)).
Proof. intros Hle. destruct polls; cbn; by rewrite (proj2 (Z.ltb_ge _ _) Hle). Qed.

Lemma wait_for_block_waits polls url block info (s : W * PFSConfig) w' info' :
  pi_confirmed_block_number info < block -> info_reply url (fst s) = (w', GoodReply info') ->
  wait_for_block (S polls) url block info s = wait_for_block polls url block info' (w', snd s).
Proof.
  intros Hlt Hreply. cbn [wait_for_block]. rewrite (proj2 (Z.ltb_lt _ _) Hlt).
  rewrite (st_bind_ok _ _ s (w', snd s) info'); [done|]. unfold get_pfs_info, request, mbind, st_bind.
  destruct s as [w config]. cbn in Hreply |- *. by rewrite Hreply.
Qed.

(** After a rejection for a payment that is too low, with a new price that is
    higher but allowed, the price of the configuration is raised and the request is
    made again, with the fee that was offered before. *)
Lemma raised_price_is_not_offered q offered_fee payload s s1 payload' msg w' info rest :
  post_with_iou q offered_fee false payload s
  = (s1, Ok (payload', IOURejected INSUFFICIENT_SERVICE_PAYMENT msg)) ->
  info_reply (pi_url (pfs_info (snd s1))) (fst s1) = (w', GoodReply info) ->
  pi_price info <= maximum_fee (snd s1) -> pi_price (pfs_info (snd s1)) < pi_price info ->
  exists s2, pfs_info (snd s2) = info
    /\ paths_loop (1 :: rest) q offered_fee false payload s
       = paths_loop rest q offered_fee false payload' s2.
Proof.
  intros Hpost Hinfo Hmax Hraise. destruct s1 as [w1 config]. cbn in Hinfo, Hmax, Hraise.
  exists (w', mkPFSConfig info (maximum_fee config) (iou_timeout config) (max_paths config)).
  split; [done|]. cbn [paths_loop]. rewrite (st_bind_ok _ _ _ _ _ Hpost).
  unfold handle_rejection, mbind, st_bind, config_of, st_catch, get_pfs_info, request, mbind, st_bind.
  cbn. rewrite Hinfo. cbn. rewrite (proj2 (Z.ltb_ge _ _) Hmax), (proj2 (Z.ltb_lt _ _) Hraise). done.
Qed.

(** A service of the registry that can be used. *)
Lemma get_valid_pfs_url_valid registry index max_fee s s' url :
  get_valid_pfs_url registry index max_fee s = (s', Ok (Some url)) ->
  exists addr info, ever_made_deposits registry index = Some addr
    /\ has_valid_registration registry addr = true
    /\ get_service_url registry addr = Some url
    /\ get_pfs_info url s = (s', Ok info) /\ pi_price info <= max_fee.
Proof.
  unfold get_valid_pfs_url. destruct (ever_made_deposits registry index) as [[|b addr]|] eqn:Ed; [done| |done].
  destruct (has_valid_registration registry (b :: addr)) eqn:Ev; [|done]. cbn [negb].
  destruct (get_service_url registry (b :: addr)) as [[|ch u]|] eqn:Eu; [done| |done].
  unfold mbind, st_bind, st_catch. destruct (get_pfs_info _ s) as [s1 [info|e]] eqn:Ei; cbn.
  - destruct (max_fee <? pi_price info) eqn:Ep; [done|]. apply Z.ltb_ge in Ep.
    intros [= <- <-]. exists (b :: addr), info. by rewrite Ei.
  - by destruct (service_request_failed e).
Qed.

(** A service that is chosen from the registry has a deposit, a valid registration
    and its address there, and its price is allowed. *)
Theorem chosen_service_is_registered shuffle registry max_fee s s' url
    (Hshuffle : forall l, shuffle l ≡ₚ l)
    (Hrun : get_random_pfs shuffle registry max_fee s = (s', Ok (Some url))) :
  exists index addr info s0, 0 <= index < ever_made_deposits_len registry
    /\ ever_made_deposits registry index = Some addr
    /\ has_valid_registration registry addr = true
    /\ get_service_url registry addr = Some url
    /\ get_pfs_info url s0 = (s', Ok info) /\ pi_price info <= max_fee.
Proof.
  unfold get_random_pfs in Hrun.
  assert (forall i, i ∈ rev (shuffle (seqZ 0 (ever_made_deposits_len registry))) ->
    0 <= i < ever_made_deposits_len registry) as Hin.
  { intros i Hi. apply list_elem_of_In, in_rev, list_elem_of_In in Hi. rewrite Hshuffle in Hi.
    apply elem_of_seqZ in Hi. lia. }
  revert s Hrun Hin. generalize (rev (shuffle (seqZ 0 (ever_made_deposits_len registry)))) as l.
  induction l as [|i l IH]; intros s Hrun Hin; [done|]. cbn [try_services] in Hrun.
  unfold mbind, st_bind in Hrun.
  destruct (get_valid_pfs_url registry i max_fee s) as [s1 [[u|]|e]] eqn:Ev; [| |done].
  - injection Hrun as <- <-. apply get_valid_pfs_url_valid in Ev as (addr & info & Hv).
    exists i, addr, info, s. split; [apply Hin; left|done].
  - apply (IH s1 Hrun). intros j Hj. apply Hin. by right.
Qed.
End pathfinding.
