(* ===== verification/Payments.v ===== *)
(** Payments and actions of the user ([RaidenService.mediated_transfer_async],
    [initiator_init], [withdraw], [set_channel_reveal_timeout]), and how a batch of
    state changes goes through the service ([handle_state_changes] with
    [_trigger_state_change_effects]): the log, the services and the threads of the
    event handler together. *)

From S2P Require Import Prelude PyDict Bytes Crypto PyFloat MediationFee State Events.
From S2P Require Import StateChanges Channel TokenNetwork TransferTasks Target Initiator.
From S2P Require Import InitiatorManager Node Views Wal WalProofs Messages MessageHandler.
From S2P Require Import ChainDecode.
From S2P Require Import Services EventHandler ServiceStart Pathfinding Routing.

(** [constants.SECRET_LENGTH] *)
Definition SECRET_LENGTH : nat := 32.

Section payments.
Context `{Crypto} `{FloatPow} `{UlidFactory} `{MessageEnv} `{ServiceProofs} `{!PrivateKey}.
Context {Data : Type}.
Context `{!Serializer Data ChainState} `{!Serializer Data StateChange} `{!Serializer Data Event}.
Context (env : ServiceEnv) (proxy : PFSProxy).

Notation service_log := (RaidenService (State := ChainState) (Data := Data)).

(** The service: its log, the flag [ready_to_process_events], the statuses of
    payments with the results that they refer to, the tokens for the feedback, and
    what was broadcast and spawned. *)
Record Service : Type := mkService {
  sv_log : service_log;
  sv_ready : bool;
  sv_statuses : StatusesDict;
  sv_results : list (option Event);
  sv_route_to_feedback_token : dict (list bytes) bytes;
  sv_broadcast : list Broadcast;
  sv_threads : list (list RaidenEvent)
}.

Definition sv_state (s : Service) : ChainState := wal_state (rs_wal (sv_log s)).

(** ** A batch of state changes *)

(** [handle_state_changes]: the transaction of the log; then the services are
    updated, the state changes are counted, and the events are handled. *)
Definition service_handle_state_changes (changes : list StateChange) :
    St Service (list (list RaidenEvent)) := fun s =>
  let with_log log sent :=
    mkService log (sv_ready s) (sv_statuses s) (sv_results s) (sv_route_to_feedback_token s)
      (sv_broadcast s ++ sent) (sv_threads s) in
  let log := sv_log s in
  let '(wal, result) := process_state_change_atomically node_transition (rs_wal log) changes in
  match result with
  | Raise e => (s, Raise e)
  | Ok raiden_events =>
      let log1 := mkRaidenService wal (state_change_qty_snapshot log) (state_change_qty log) in
      let '(sent, effects) := trigger_state_change_effects env (wal_state wal) changes raiden_events in
      match effects with
      | Raise e => (with_log log1 sent, Raise e)
      | Ok _ =>
          let log2 := count_state_changes log wal (length changes) in
          match maybe_snapshot log2 with
          | Raise e => (with_log log2 sent, Raise e)
          | Ok log3 =>
              (with_log log3 sent,
               Ok (if sv_ready s then async_handle_events (map Emitted raiden_events) else []))
          end
      end
  end.

(** [handle_and_track_state_changes] *)
Definition add_threads (threads : list (list RaidenEvent)) (s : Service) : Service :=
  mkService (sv_log s) (sv_ready s) (sv_statuses s) (sv_results s) (sv_route_to_feedback_token s)
    (sv_broadcast s) (sv_threads s ++ threads).

Definition handle_and_track_state_changes (changes : list StateChange) : St Service unit :=
  match changes with
  | [] => mret tt
  | _ =>
      threads ← service_handle_state_changes changes;
      st_modify (add_threads threads)
  end.

(** [withdraw] and [set_channel_reveal_timeout] *)
Definition withdraw (cid : CanonicalIdentifier) (total_withdraw : Z)
    (recipient_metadata : option AddressMetadata) : St Service unit :=
  handle_and_track_state_changes
    [SActionChannelWithdraw (mkActionChannelWithdraw cid total_withdraw recipient_metadata)].

Definition set_channel_reveal_timeout (cid : CanonicalIdentifier) (timeout : Z) : St Service unit :=
  handle_and_track_state_changes
    [SActionChannelSetRevealTimeout (mkActionChannelSetRevealTimeout cid timeout)].

(** ** A payment *)

(** The service is asked for a payment at the time [timestamp]; the metadata of
    the node is there once the transport is started, [one_to_n] is the contract for
    IOUs, the secret registry answers for the latest block, and [random_secret] is
    a new secret. *)
Context (address_metadata : option AddressMetadata) (one_to_n : option bytes) (timestamp : bytes).
Context (is_secret_registered : bytes -> bool) (random_secret : bytes).

(** [raiden.route_to_feedback_token[tuple(route)] = feedback_token] *)
Definition remember_token (token : option bytes) (routes : list RouteState) (s : Service) : Service :=
  match token with
  | None => s
  | Some t =>
      mkService (sv_log s) (sv_ready s) (sv_statuses s) (sv_results s)
        (foldl (fun d r => dict_set (route r) t d) (sv_route_to_feedback_token s) routes)
        (sv_broadcast s) (sv_threads s)
  end.

(** [initiator_init] *)
Definition initiator_init (identifier amount : Z) (secret secrethash net target : bytes)
    (lock_timeout : option Z) (given_routes : option (list RouteState)) :
    St Service (option string * ActionInitInitiator) :=
  let transfer := new_TransferDescription (se_default_registry env) identifier amount net
                    (se_address env) target secret secrethash lock_timeout in
  match given_routes with
  | Some routes => mret (None, mkActionInitInitiator transfer routes)
  | None =>
      metadata ← st_lift (assert_some address_metadata "Transport is not initialized with raiden-service");
      s ← st_get;
      '(error_msg, routes, token) ←
        st_lift (get_best_routes proxy (sv_state s) net one_to_n (se_address env) target amount None
                   metadata timestamp);
      _ ← st_modify (remember_token token routes);
      mret (error_msg, mkActionInitInitiator transfer routes)
  end.

(** The secret and its hash of a new payment. *)
Definition payment_secret (secret secrethash : option bytes) : Py (bytes * bytes) :=
  let secret' :=
    match secret, secrethash with
    | Some s, _ => s
    | None, None => random_secret
    | None, Some _ => ABSENT_SECRET
    end in
  match secrethash with
  | None => Ok (secret', sha256_secrethash secret')
  | Some h =>
      if bool_decide (secret' = ABSENT_SECRET) then Ok (secret', h)
      else
        _ ← raise_if (negb (bool_decide (h = sha256_secrethash secret')))
              (RaidenError "InvalidSecretHash" "provided secret and secret_hash do not match.");
        _ ← raise_if (negb (length secret' =? SECRET_LENGTH)%nat) InvalidSecret;
        Ok (secret', h)
  end.

(** [PaymentStatus.matches] *)
Definition status_matches (status : PaymentStatus) (net : bytes) (amount : Z) : bool :=
  bool_decide (net = ps_token_network_address status) && (amount =? ps_amount status).

Definition status_of (target : bytes) (identifier : Z) (s : Service) : option PaymentStatus :=
  dict_get identifier (default [] (dict_get target (sv_statuses s))).

(** A new status with a new result. *)
Definition new_status (target : bytes) (identifier amount : Z) (net : bytes) (lock_timeout : option Z) :
    St Service PaymentStatus := fun s =>
  let status := mkPaymentStatus identifier amount net (length (sv_results s)) lock_timeout in
  (mkService (sv_log s) (sv_ready s) (set_status target status (sv_statuses s))
     (sv_results s ++ [None]) (sv_route_to_feedback_token s) (sv_broadcast s) (sv_threads s),
   Ok status).

(** [payment_status.payment_done.set(event)] *)
Definition set_result (result : nat) (event : Event) : St Service unit :=
  st_modify (fun s =>
    mkService (sv_log s) (sv_ready s) (sv_statuses s) (<[result := Some event]> (sv_results s))
      (sv_route_to_feedback_token s) (sv_broadcast s) (sv_threads s)).

(** The part of [mediated_transfer_async] after the status was made. *)
Definition start_payment (status : PaymentStatus) (identifier amount : Z)
    (secret secrethash net target : bytes) (lock_timeout : option Z)
    (given_routes : option (list RouteState)) : St Service PaymentStatus :=
  '(error_msg, init) ←
    initiator_init identifier amount secret secrethash net target lock_timeout given_routes;
  _ ← match (error_msg : option string) with
      | None => handle_and_track_state_changes [SActionInitInitiator init]
      | Some msg =>
          set_result (ps_payment_done status)
            (EEventPaymentSentFailed
               (mkEventPaymentSentFailed (se_default_registry env) net identifier target
                  [Msg msg []]))
      end;
  mret status.

(** [mediated_transfer_async] *)
Definition mediated_transfer_async (net : bytes) (amount : Z) (target : bytes) (identifier : Z)
    (secret secrethash : option bytes) (lock_timeout : option Z)
    (given_routes : option (list RouteState)) : St Service PaymentStatus :=
  '(secret', secrethash') ← st_lift (payment_secret secret secrethash);
  _ ← st_lift (raise_if (is_secret_registered secrethash')
                 (RaidenUnrecoverableError "Attempted to initiate a locked transfer"));
  s ← st_get;
  match status_of target identifier s with
  | Some status =>
      if status_matches status net amount then mret status
      else st_raise (RaidenError "PaymentConflict" "Another payment with the same id is in flight")
  | None =>
      status ← new_status target identifier amount net lock_timeout;
      start_payment status identifier amount secret' secrethash' net target lock_timeout given_routes
  end.
End payments.
