(* ===== verification/PaymentsProofs.v ===== *)
(** A payment is started once: what [mediated_transfer_async] does for a payment
    that is in flight, and for one that is not. *)

From S2P Require Import Prelude PyDict Bytes Crypto PyFloat MediationFee State Events.
From S2P Require Import StateChanges Channel TokenNetwork TransferTasks Target Initiator.
From S2P Require Import InitiatorManager Node Views Wal WalProofs Messages MessageHandler.
From S2P Require Import ChainDecode.
From S2P Require Import Services EventHandler ServiceStart Pathfinding Routing Payments.

Section payments.
Context `{Crypto} `{FloatPow} `{UlidFactory} `{MessageEnv} `{ServiceProofs} `{!PrivateKey}.
Context {Data : Type}.
Context `{!Serializer Data ChainState} `{!Serializer Data StateChange} `{!Serializer Data Event}.
Context (env : ServiceEnv) (proxy : PFSProxy) (metadata : option AddressMetadata).
Context (one_to_n : option bytes) (timestamp : bytes).
Context (is_registered : bytes -> bool) (random_secret : bytes).
Implicit Types (s : Service (Data := Data)) (status : PaymentStatus).

Notation pay := (mediated_transfer_async env proxy metadata one_to_n timestamp is_registered
                   random_secret).
Notation start := (start_payment env proxy metadata one_to_n timestamp).

(** A request with a secret that is valid and not registered. *)
Definition payable (secret secrethash : option bytes) (secret' secrethash' : bytes) : Prop :=
  payment_secret random_secret secret secrethash = Ok (secret', secrethash')
  /\ is_registered secrethash' = false.

(** What happens for a payment that is in flight. *)
Definition in_flight_answer status net amount : Py PaymentStatus :=
  if status_matches status net amount then Ok status
  else Raise (RaidenError "PaymentConflict" "Another payment with the same id is in flight").

Lemma pay_unfold net amount target identifier secret secrethash lock_timeout routes s secret' secrethash' :
  payable secret secrethash secret' secrethash' ->
  pay net amount target identifier secret secrethash lock_timeout routes s
  = match status_of target identifier s with
    | Some status => (s, in_flight_answer status net amount)
    | None =>
        (status ← new_status target identifier amount net lock_timeout;
         start status identifier amount secret' secrethash' net target lock_timeout routes) s
    end.
Proof.
  intros [Hs Hr]. unfold mediated_transfer_async. rewrite (st_lift_bind _ _ _ _ Hs).
  rewrite (st_lift_bind _ _ _ tt) by (by rewrite Hr). unfold st_get.
  rewrite (st_bind_ok _ _ _ s s) by done. destruct (status_of target identifier s) as [status|]; [|done].
  unfold in_flight_answer. by destruct (status_matches status net amount).
Qed.

Lemma status_of_set target status (statuses : StatusesDict) s :
  sv_statuses s = set_status target status statuses ->
  status_of target (ps_payment_identifier status) s = Some status.
Proof.
  intros Es. unfold status_of. rewrite Es. unfold set_status. rewrite dict_get_set_eq. cbn.
  by rewrite dict_get_set_eq.
Qed.

(** Nothing but the payment's own steps touches the statuses. *)
Lemma service_handle_statuses changes s :
  sv_statuses (fst (service_handle_state_changes env changes s)) = sv_statuses s
  /\ sv_results (fst (service_handle_state_changes env changes s)) = sv_results s.
Proof.
  unfold service_handle_state_changes.
  destruct (process_state_change_atomically _ _ _) as [wal [evs|e]]; [|done].
  destruct (trigger_state_change_effects _ _ _ _) as [sent [[]|e]]; [|done].
  by destruct (maybe_snapshot _).
Qed.

Lemma handle_and_track_run sc s s' :
  handle_and_track_state_changes env [sc] s = (s', Ok tt) ->
  exists s1 threads, service_handle_state_changes env [sc] s = (s1, Ok threads)
    /\ s' = add_threads threads s1 /\ sv_statuses s' = sv_statuses s /\ sv_results s' = sv_results s.
Proof.
  unfold handle_and_track_state_changes, mbind, st_bind. pose proof (service_handle_statuses [sc] s) as [Hs Hr].
  destruct (service_handle_state_changes env [sc] s) as [s1 [threads|e]]; [|done].
  intros [= <-]. exists s1, threads. done.
Qed.

(** The service of a payment that was started: the state change of exactly this
    payment is dispatched, once, or there is no route and the payment failed. *)
Definition payment_started s status identifier amount secret' secrethash' net target lock_timeout
    routes s' : Prop :=
  (exists s0 init s1 threads,
     aii_transfer init = new_TransferDescription (se_default_registry env) identifier amount net
                           (se_address env) target secret' secrethash' lock_timeout
     /\ (forall r, routes = Some r -> aii_routes init = r)
     /\ sv_log s0 = sv_log s
     /\ service_handle_state_changes env [SActionInitInitiator init] s0 = (s1, Ok threads)
     /\ s' = add_threads threads s1 /\ sv_results s' !! ps_payment_done status = Some None)
  \/ (exists msg, sv_log s' = sv_log s /\ sv_threads s' = sv_threads s
        /\ sv_results s' !! ps_payment_done status
           = Some (Some (EEventPaymentSentFailed
               (mkEventPaymentSentFailed (se_default_registry env) net identifier target [Msg msg []])))).

Lemma remember_token_frame token routes s :
  sv_log (remember_token token routes s) = sv_log s
  /\ sv_statuses (remember_token token routes s) = sv_statuses s
  /\ sv_results (remember_token token routes s) = sv_results s
  /\ sv_threads (remember_token token routes s) = sv_threads s.
Proof. by destruct token. Qed.

Lemma initiator_init_run identifier amount secret' secrethash' net target lock_timeout routes s s' msg init :
  initiator_init env proxy metadata one_to_n timestamp identifier amount secret' secrethash' net target
    lock_timeout routes s = (s', Ok (msg, init)) ->
  aii_transfer init = new_TransferDescription (se_default_registry env) identifier amount net
                        (se_address env) target secret' secrethash' lock_timeout
  /\ (forall r, routes = Some r -> aii_routes init = r)
  /\ sv_log s' = sv_log s /\ sv_statuses s' = sv_statuses s /\ sv_results s' = sv_results s
  /\ sv_threads s' = sv_threads s.
Proof.
  unfold initiator_init. destruct routes as [routes|].
  - intros [= <- <- <-]. split_and!; try done. by intros r [= <-].
  - unfold mbind, st_bind, st_lift, st_get, st_modify.
    destruct (assert_some metadata _) as [md|]; [|done].
    destruct (get_best_routes _ _ _ _ _ _ _ _ _ _) as [[[emsg eroutes] token]|]; [|done].
    intros [= <- <- <-]. split_and!; try done; apply remember_token_frame.
Qed.

Lemma start_payment_run status identifier amount secret' secrethash' net target lock_timeout routes s s' st :
  sv_results s !! ps_payment_done status = Some None ->
  start status identifier amount secret' secrethash' net target lock_timeout routes s = (s', Ok st) ->
  st = status /\ sv_statuses s' = sv_statuses s
  /\ payment_started s status identifier amount secret' secrethash' net target lock_timeout routes s'.
Proof.
  intros Hres. unfold start_payment.
  destruct (initiator_init env proxy metadata one_to_n timestamp identifier amount secret' secrethash'
    net target lock_timeout routes s) as [s1 [[msg init]|e]] eqn:Ei.
  2: { by rewrite (st_bind_raise _ _ _ _ _ Ei). }
  rewrite (st_bind_ok _ _ _ _ _ Ei).
  apply initiator_init_run in Ei as (Ht & Hr & Hl & Hst & Hre & Hth).
  destruct msg as [msg|].
  - intros [= <- <-]. cbn. rewrite Hst. split_and!; [done..|]. right. exists msg. cbn. rewrite Hre.
    split_and!; [done..|]. apply list_lookup_insert_eq, lookup_lt_is_Some. eauto.
  - unfold mbind at 1, st_bind at 1.
    destruct (handle_and_track_state_changes env _ s1) as [s2 [[]|e]] eqn:Eh; [|done].
    apply handle_and_track_run in Eh as (s3 & threads & E3 & -> & E4 & E5). intros [= <- <-].
    rewrite E4, Hst. split_and!; [done..|]. left. exists s1, init, s3, threads. split_and!; try done.
    by rewrite E5, Hre.
Qed.

(** C17: a payment is started once.  A request changes nothing and raises when
    its secret is not valid, or when the secret is already registered on the
    chain, even for a payment in flight.  If otherwise a payment to the target
    with the same identifier is in flight, the request changes nothing and gives
    the status in flight, or a [PaymentConflict] if the amount or the token network
    differ.  Otherwise a request that returns has stored a new status under the
    target and the identifier, so that the next request with a valid and
    unregistered secret finds it, and has dispatched exactly one state change, for
    the payment that was asked for; or there is no route, nothing was dispatched
    and the payment has failed. *)
Theorem payment_is_started_once net amount target identifier secret secrethash lock_timeout routes s :
  match payment_secret random_secret secret secrethash with
  | Raise err =>
      pay net amount target identifier secret secrethash lock_timeout routes s = (s, Raise err)
  | Ok (secret', secrethash') =>
      if is_registered secrethash' then
        pay net amount target identifier secret secrethash lock_timeout routes s
        = (s, Raise (RaidenUnrecoverableError "Attempted to initiate a locked transfer"))
      else
        (forall status, status_of target identifier s = Some status ->
           pay net amount target identifier secret secrethash lock_timeout routes s
           = (s, in_flight_answer status net amount))
        /\ (status_of target identifier s = None ->
            forall s' status,
            pay net amount target identifier secret secrethash lock_timeout routes s = (s', Ok status) ->
            ps_amount status = amount /\ ps_token_network_address status = net
            /\ ps_payment_identifier status = identifier
            /\ payment_started s status identifier amount secret' secrethash' net target lock_timeout
                 routes s'
            /\ forall secret2 secrethash2 lock_timeout2 routes2 x2 h2,
                 payable secret2 secrethash2 x2 h2 ->
                 pay net amount target identifier secret2 secrethash2 lock_timeout2 routes2 s'
                 = (s', Ok status))
  end.
Proof.
  destruct (payment_secret random_secret secret secrethash) as [[secret' secrethash']|err] eqn:Hsec.
  2: { unfold mediated_transfer_async, mbind, st_bind, st_lift. by rewrite Hsec. }
  destruct (is_registered secrethash') eqn:Hreg.
  { unfold mediated_transfer_async. rewrite (st_lift_bind _ _ _ _ Hsec).
    unfold mbind, st_bind, st_lift. by rewrite Hreg. }
  rewrite (pay_unfold _ _ _ _ _ _ _ _ _ _ _ (conj Hsec Hreg)). split.
  - intros status ->. done.
  - intros -> s' st Hrun. set (status := mkPaymentStatus identifier amount net (length (sv_results s)) lock_timeout).
    unfold new_status, mbind at 1, st_bind at 1 in Hrun. fold status in Hrun.
    apply start_payment_run in Hrun as (-> & Hst & Hstart).
    2: { cbn. by rewrite lookup_app_r, Nat.sub_diag by lia. }
    split_and!; [done..| |].
    + destruct Hstart as [(s0 & init & s1 & threads & P1 & P2 & P3 & P4 & P5 & P6)|(msg & P1 & P2 & P3)];
        [left; exists s0, init, s1, threads|right; exists msg]; by split_and!.
    + intros secret2 secrethash2 lt2 routes2 x2 h2 Hp2. rewrite (pay_unfold _ _ _ _ _ _ _ _ _ _ _ Hp2).
      assert (status_of target identifier s' = Some status) as ->.
      { by apply (status_of_set target status (sv_statuses s)). }
      unfold in_flight_answer, status_matches. cbn. rewrite bool_decide_eq_true_2, Z.eqb_refl by done. done.
Qed.
End payments.
