(* ===== verification/EventHandlerExamples.v ===== *)
(** Alice's node pays Bob, is restarted, settles the channel and unlocks its
    locks: the theorems about routes, payments, the event handler and the start
    of a node applied to it. *)

From stdpp Require Import relations.
From S2P Require Import Prelude PyDict Bytes Crypto PyFloat MediationFee State Events.
From S2P Require Import StateChanges Channel ChannelExamples TaskExamples TokenNetwork.
From S2P Require Import TransferTasks.
From S2P Require Import Target Initiator InitiatorManager Node Views Wal WalProofs.
From S2P Require Import ChainSyncExamples.
From S2P Require Import Messages MessageHandler MessageExamples ChainDecode Restore Services.
From S2P Require Import ServicesExamples EventHandler EventHandlerProofs ServiceStart.
From S2P Require Import ServiceStartProofs Pathfinding Routing RoutingProofs Payments.
From S2P Require Import PaymentsProofs.

#[local] Existing Instance toy_crypto.
#[local] Existing Instance toy_pow.
#[local] Existing Instance plain_messages.
#[local] Existing Instance alice_key.
#[local] Existing Instance no_packing.
#[local] Existing Instance Accumulator.counter_ids.
#[local] Existing Instance state_rows.
#[local] Existing Instance change_rows.
#[local] Existing Instance event_rows.

(** ** Alice's node *)

Definition network_with (channels : dict Z NettingChannelState) (partners : dict bytes (list Z)) :
    TokenNetworkState :=
  mkTokenNetworkState example_net (be_encode 20 4) channels partners.

Definition alice_node_with (channels : dict Z NettingChannelState) (partners : dict bytes (list Z))
    (tasks : dict bytes TransferTask) : ChainState :=
  let tn := network_with channels partners in
  let registry := mkTokenNetworkRegistryState (be_encode 20 5) [tn] [(be_encode 20 4, example_net)]
                    [(example_net, tn)] in
  mkChainState example_prng 20 [] alice 1 [(be_encode 20 5, registry)] tasks [] []
    [(example_net, be_encode 20 5)].

Definition alice_node : ChainState := alice_node_with [(7, alice0)] [(bob, [7])] [].

Definition alice_env : ServiceEnv :=
  mkServiceEnv PFS DEVELOPMENT false None (be_encode 20 5) None alice [].

(** ** Routes *)

(** A service that knows Bob and has no paths. *)
Definition alice_proxy : PFSProxy :=
  mkPFSProxy (fun _ => Ok []) (fun _ => Ok ([], None)) (fun _ => Raise (ValueError "address")).

Lemma best_routes_are_usable_witness :
  exists r, get_best_routes alice_proxy alice_node example_net None alice bob 10 None [] []
            = Ok (None, [r], None)
    /\ route r = [alice; bob] /\ estimated_fee r = 0.
Proof.
  destruct (get_best_routes alice_proxy alice_node example_net None alice bob 10 None [] [])
    as [[[msg routes] token]|] eqn:E; [|exfalso; vm_compute in E; discriminate E].
  destruct (best_routes_are_usable alice_proxy alice_node example_net None alice bob 10 None [] []
    (network_with [(7, alice0)] [(bob, [7])]) msg routes token) as (_ & [Hd|Hm]).
  - vm_compute. reflexivity.
  - exact E.
  - destruct Hd as (id & c & _ & _ & _ & Hr). vm_compute in E. injection E as <- <- <-.
    eexists. split; [reflexivity|]. destruct (Hr _ ltac:(left)) as (H1 & H2 & _).
    split; [exact H1|exact H2].
  - exfalso. destruct Hm as (Hno & _). destruct (Hno 7 ltac:(vm_compute; left)) as (c & Hc & Hu).
    vm_compute in Hc. injection Hc as <-. apply Hu. vm_compute. reflexivity.
Defined.

(** ** A payment *)

Definition alice_log : RaidenService (State := ChainState) (Data := Row) :=
  match initialize_wal node_transition empty_storage alice_node with
  | Ok l => l
  | Raise _ => mkRaidenService (new_WriteAheadLog alice_node empty_storage) 0 0
  end.

Definition alice_service : Service (Data := Row) := mkService alice_log true [] [] [] [] [].

Definition alice_pays (s : Service (Data := Row)) : Service (Data := Row) * Py PaymentStatus :=
  mediated_transfer_async alice_env alice_proxy (Some []) None [] (fun _ => false) (zero_bytes 32)
    example_net 10 bob 2 (Some example_secret) None None (Some [payment_route]) s.

Definition paying_service : Service (Data := Row) := fst (alice_pays alice_service).

Lemma alice_payable :
  payable (fun _ => false) (zero_bytes 32) (Some example_secret) None example_secret
    example_secrethash.
Proof. split; reflexivity. Qed.

Lemma payment_is_started_once_witness :
  exists status, alice_pays alice_service = (paying_service, Ok status)
    /\ length (db_state_changes (wal_storage (rs_wal (sv_log paying_service)))) = 1%nat
    /\ alice_pays paying_service = (paying_service, Ok status).
Proof.
  destruct (alice_pays alice_service) as [s' [status|e]] eqn:E;
    [|exfalso; vm_compute in E; discriminate E].
  exists status. unfold paying_service. rewrite E. split; [reflexivity|].
  split; [vm_compute in E; injection E as <- <-; vm_compute; reflexivity|].
  destruct (payment_is_started_once alice_env alice_proxy (Some []) None [] (fun _ => false)
    (zero_bytes 32) example_net 10 bob 2 (Some example_secret) None None (Some [payment_route])
    alice_service) as (_ & Hnew).
  destruct (Hnew ltac:(vm_compute; reflexivity) s' status E) as (_ & _ & _ & _ & Hagain).
  exact (Hagain (Some example_secret) None None (Some [payment_route]) example_secret
           example_secrethash alice_payable).
Defined.

(** ** Messages *)

Lemma forallb_elem {A} (f : A -> bool) l x : forallb f l = true -> x ∈ l -> f x = true.
Proof. intros Hf Hx. by apply (proj1 (forallb_forall f l) Hf), list_elem_of_In. Qed.

(** The events of the payment. *)
Definition payment_events : list Event :=
  match node_state_transition alice_node payment_init with Ok (_, evs) => evs | Raise _ => [] end.

#[local] Instance closing_proofs : ClosingProofs := {| BALANCE_PROOF := 1 |}.

(** The contract has the hash of Alice's balance proof, and no balance proof of
    Bob. *)
Definition alice_balance_hash : bytes :=
  match omap sent_balance_proof payment_events with
  | (_, bp) :: _ => ubp_balance_hash bp
  | [] => []
  end.

Definition onchain_details : ParticipantsDetails :=
  mkParticipantsDetails
    (mkParticipantDetails alice 100 0 false alice_balance_hash 1 (be_encode 32 0) 10)
    (mkParticipantDetails bob 50 0 true EMPTY_BALANCE_HASH 0 (be_encode 32 0) 0).

#[local] Instance example_contracts : Contracts := {|
  transact := fun _ => Ok tt;
  token_network_proxy := fun _ _ => Ok tt;
  detail_participants := fun _ _ _ _ _ => Ok onchain_details
|}.

Definition alice_storage : SQLiteStorage Row := wal_storage (rs_wal (sv_log paying_service)).
Definition alice_paying : ChainState := sv_state paying_service.

Definition handler_with (cs : ChainState) : HandlerEnv Row :=
  mkHandlerEnv alice 1 cs alice_storage None PFS false [] (fun _ => Ok []).

Definition no_handling : Handling := mkHandling [] [] [].

Lemma messages_reach_the_transport_witness :
  exists e queues h',
    payment_events = [e] /\ async_handle_events [Emitted e] = [[Emitted e]]
    /\ on_raiden_events (handler_with alice_paying) alice_paying [Emitted e] no_handling = (h', Ok tt)
    /\ h_effects h' = [SendAsync queues]
    /\ length (queue_of (mkQueueIdentifier bob example_cid) queues) = 1%nat.
Proof.
  destruct payment_events as [|e [|? ?]] eqn:Ee;
    [exfalso; vm_compute in Ee; discriminate Ee| |exfalso; vm_compute in Ee; discriminate Ee].
  destruct (messages_reach_the_transport (handler_with alice_paying) [e] alice_paying no_handling)
    as (_ & _ & Hfast & Hrun).
  assert (List.filter (fun e => negb (is_blocking (Emitted e))) [e] = [e]) as Ef
    by (vm_compute in Ee; injection Ee as <-; reflexivity).
  rewrite Ef in Hrun. destruct Hrun as (h' & all & Heff &
    [(_ & Hon & queues & effects & -> & _ & Hq)|(pre & x & post & err & _ & _ & _ & Hon & _)]).
  - exists e, queues, h'. split; [reflexivity|].
    split; [vm_compute in Ee; injection Ee as <-; reflexivity|]. split; [exact Hon|]. split.
    + rewrite Heff. cbn. destruct effects as [|ef effects]; [reflexivity|exfalso].
      vm_compute in Ee. injection Ee as <-. vm_compute in Hon. injection Hon as <-.
      vm_compute in Heff. injection Heff as _ Heff. by destruct effects.
    + rewrite Hq. vm_compute in Ee. injection Ee as <-. vm_compute. reflexivity.
  - exfalso. vm_compute in Ee. injection Ee as <-. vm_compute in Hon. discriminate Hon.
Defined.

(** ** A restart *)

Lemma restart_continues_the_node_witness :
  replay node_transition alice_node [payment_init] = Ok alice_paying
  /\ exists queues statuses n,
    initialize_messages_queues alice_paying = Ok queues
    /\ length (queue_of (mkQueueIdentifier bob example_cid) queues) = 1%nat
    /\ initialize_payment_statuses alice_paying ([], 0%nat) = Ok (statuses, n)
    /\ has_status bob 2 statuses.
Proof.
  assert (replay node_transition alice_node [payment_init] = Ok alice_paying) as Hrun
    by (vm_compute; reflexivity).
  split; [exact Hrun|].
  destruct (restart_continues_the_node alice_node [payment_init] alice_paying)
    as ([(queues & Hq & _ & Hm)|(q & evs & e & err & _ & _ & _ & Hq)]
        & _ & (statuses & n & Hs & Hp)).
  - split_and!; reflexivity.
  - exact Hrun.
  - exists queues, statuses, n. split; [exact Hq|]. split; [rewrite Hm; vm_compute; reflexivity|].
    split; [exact Hs|].
    assert (exists net p, InitiatorTask net p ∈ dict_values (secrethashes_to_task alice_paying)
      /\ forall it, first_transfer p = Some it ->
           ltu_target (it_transfer it) = bob /\ ltu_payment_identifier (it_transfer it) = 2)
      as (net & p & Hin & Hf).
    { vm_compute. eexists _, _. split; [left|]. intros it [= <-]. split; reflexivity. }
    destruct (Hp net p Hin) as (it & Hit & Hh). destruct (Hf it Hit) as [Ht Hi].
    rewrite Ht, Hi in Hh. exact Hh.
  - exfalso. vm_compute in Hq. discriminate Hq.
Defined.

(** ** The settlement *)

Definition settle_event : ContractSendChannelSettle := mkContractSendChannelSettle [] example_cid.

Definition stored_changes : list (Z * StateChange) :=
  match state_change_records alice_storage with Ok l => l | Raise _ => [] end.
Definition stored_events : list (Z * Event) :=
  match event_records alice_storage with Ok l => l | Raise _ => [] end.

Definition has_balance_hash (transferred locked : Z) (locksroot hash : bytes) : bool :=
  match hash_balance_data transferred locked locksroot with
  | Ok h => bool_decide (h = hash)
  | Raise _ => false
  end.

Lemma has_balance_hash_true transferred locked locksroot hash :
  has_balance_hash transferred locked locksroot hash = true ->
  hash_balance_data transferred locked locksroot = Ok hash.
Proof.
  unfold has_balance_hash. destruct (hash_balance_data transferred locked locksroot); [|done].
  intros ->%bool_decide_eq_true. done.
Qed.

Lemma alice_storage_ok : storage_ok (handler_with alice_paying) stored_changes stored_events.
Proof.
  split.
  - vm_compute. reflexivity.
  - vm_compute. reflexivity.
  - intros id sc bp Hin Hb. exfalso.
    assert (forallb (fun r => match change_balance_proof (snd r) with Some _ => false | None => true end)
              stored_changes = true) as Hall by (vm_compute; reflexivity).
    pose proof (forallb_elem _ _ _ Hall Hin) as Hf. cbn in Hf. by rewrite Hb in Hf.
  - intros id e r bp Hin Hb. apply has_balance_hash_true.
    assert (forallb (fun r => match sent_balance_proof (snd r) with
                              | Some (_, bp) => has_balance_hash (ubp_transferred_amount bp)
                                  (ubp_locked_amount bp) (ubp_locksroot bp) (ubp_balance_hash bp)
                              | None => true
                              end) stored_events = true) as Hall by (vm_compute; reflexivity).
    pose proof (forallb_elem _ _ _ Hall Hin) as Hf. cbn in Hf. by rewrite Hb in Hf.
Qed.

(** The channel of the node after the payment. *)
Definition alice_paying_channel : NettingChannelState :=
  default alice0 (channel_of alice_paying example_cid).

Definition paying_proxy : PaymentChannel := mkPaymentChannel 7 alice bob example_net.

(** The amounts of a participant with, and without, a balance proof. *)
Lemma settles_hash details t l lr :
  bool_decide (pd_balance_hash details = EMPTY_BALANCE_HASH) = false ->
  settles details t l lr -> hash_balance_data t l lr = Ok (pd_balance_hash details).
Proof. intros Hne. unfold settles. destruct (decide _); [by rewrite bool_decide_true in Hne|done]. Qed.

Lemma settles_empty details t l lr :
  pd_balance_hash details = EMPTY_BALANCE_HASH ->
  settles details t l lr -> t = 0 /\ l = 0 /\ lr = LOCKSROOT_OF_NO_LOCKS.
Proof. intros He. unfold settles. by rewrite decide_True. Qed.

Lemma alice_hash_not_empty :
  bool_decide (pd_balance_hash (our_details onchain_details) = EMPTY_BALANCE_HASH) = false.
Proof. vm_compute. reflexivity. Qed.

Lemma alice_proof_stored : our_proof_stored example_cid onchain_details stored_events.
Proof.
  intros _. destruct stored_events as [|r rest] eqn:Er; [exfalso; vm_compute in Er; discriminate Er|].
  exists r. split; [left|]. vm_compute in Er. injection Er as <- _. vm_compute. reflexivity.
Qed.

Lemma settled_with_onchain_amounts_witness :
  exists t l lr,
    handle_contract_send_channelsettle (handler_with alice_paying) settle_event no_handling
    = (add_effect (Transaction (Settle example_net 7 t l lr bob 0 0 LOCKSROOT_OF_NO_LOCKS []))
         no_handling, Ok tt)
    /\ hash_balance_data t l lr = Ok alice_balance_hash.
Proof.
  destruct (settled_with_onchain_amounts (handler_with alice_paying) settle_event no_handling
    alice_paying_channel paying_proxy onchain_details stored_changes stored_events)
    as (t & l & lr & t' & l' & lr' & Hrun & Hour & Hpartner).
  - reflexivity.
  - vm_compute. reflexivity.
  - vm_compute. reflexivity.
  - reflexivity.
  - exact alice_storage_ok.
  - exact alice_proof_stored.
  - intros Hne. exfalso. apply Hne. reflexivity.
  - destruct (settles_empty (partner_details onchain_details) t' l' lr' eq_refl Hpartner) as (Et & El & Elr).
    rewrite Et, El, Elr in Hrun. exists t, l, lr. split; [exact Hrun|].
    exact (settles_hash (our_details onchain_details) t l lr alice_hash_not_empty Hour).
Defined.

(** ** The unlock *)












