(* ===== verification/Transport.v ===== *)
(** The Matrix transport ([network/transport/matrix/transport.py]): the queues
    from which messages are sent again until the node no longer waits for their
    confirmation, broadcasts to the services, and received messages; with the
    batches of texts ([network/transport/matrix/utils.py]) and the timeouts of
    the retries ([network/transport/utils.py]).

    The generators of timeouts are objects: all messages that are queued in one
    call share one generator of timeouts, and each has its own generator that
    tells when it is due.  They are kept in two lists, with references to them.
    The clock is a sequence of readings and a position in it. *)

From Stdlib Require Import SpecFloat.
From S2P Require Import Prelude PyDict Bytes Crypto PyFloat State Events.
From S2P Require Import StateChanges.
From S2P Require Import Channel TokenNetwork Node Views Messages MessageHandler Services.
From S2P Require Import EventHandler.
From S2P Require Import Pathfinding.

#[local] Open Scope Z_scope.

Definition RETRY_QUEUE_IDLE_AFTER : Z := 10.
Definition MATRIX_MAX_BATCH_SIZE : Z := 50000.

(** [MatrixTransportConfig], the fields for the retries *)
Record MatrixTransportConfig : Type := mkMatrixTransportConfig {
  retries_before_backoff : Z;
  retry_interval_initial : float;
  retry_interval_max : float
}.

(** ** Timeouts *)

(** The generator [timeout_exponential_backoff], by the point where it
    continues. *)
Inductive Backoff : Type :=
  | BackoffStart
  | BackoffTries (tries : Z)
  | BackoffGrow (timeout : float)
  | BackoffMaximum.

Definition float_2 : float := binary_normalize prec emax 2 0 false.
Definition float_min (a b : float) : float := if float_lt b a then b else a.

Definition grow_timeout (config : MatrixTransportConfig) (timeout : float) : Backoff * float :=
  let maximum := retry_interval_max config in
  if float_lt timeout maximum then
    let timeout' := float_min (float_mul timeout float_2) maximum in
    (BackoffGrow timeout', timeout')
  else (BackoffMaximum, maximum).

(** [next(timeout_generator)] *)
Definition next_timeout (config : MatrixTransportConfig) (b : Backoff) : Backoff * float :=
  let timeout := retry_interval_initial config in
  match b with
  | BackoffStart => (BackoffTries 1, timeout)
  | BackoffTries tries =>
      if tries <? retries_before_backoff config then (BackoffTries (tries + 1), timeout)
      else grow_timeout config timeout
  | BackoffGrow t => grow_timeout config t
  | BackoffMaximum => (BackoffMaximum, retry_interval_max config)
  end.

(** The generator [_expiration_generator]: it has not started, or it waits until
    the time [_next]. *)
Inductive Expiration : Type :=
  | NeverSent
  | WaitUntil (next : float).

(** ** Batches of texts *)

(** ["\n".join(texts)] *)
Definition join_lines (texts : list string) : string := String.concat (String newline EmptyString) texts.

(** [make_message_batches]: the batches, and the exception after them. *)
Fixpoint message_batches (max_batch_size : Z) (current_batch : list string) (size : Z)
    (texts : list string) : list (list string) * Py unit :=
  match texts with
  | [] => (match current_batch with [] => [] | _ => [current_batch] end, Ok tt)
  | text :: texts' =>
      let n := Z.of_nat (String.length text) in
      if max_batch_size <? size + n then
        if size =? 0 then ([], Raise (RaidenError "TransportError" "Message exceeds batch size."))
        else
          let '(batches, result) := message_batches max_batch_size [text] n texts' in
          (current_batch :: batches, result)
      else message_batches max_batch_size (current_batch ++ [text]) (size + n) texts'
  end.

Definition make_message_batches (texts : list string) : list (list string) * Py unit :=
  message_batches MATRIX_MAX_BATCH_SIZE [] 0 texts.

(** ** The state of the transport *)

(** [MessagesQueue] *)
Definition MessagesQueue : Type := QueueIdentifier * list QueuedMessage.

(** [_RetryQueue._MessageData], with a reference to its generator *)
Record MessageData : Type := mkMessageData {
  md_queue_identifier : QueueIdentifier;
  md_message : Messages.Message;
  md_text : string;
  md_expiration_generator : nat;
  md_address_metadata : option AddressMetadata
}.

(** [_RetryQueue]; [rq_exited] is [greenlet.ready()]. *)
Record RetryQueue : Type := mkRetryQueue {
  rq_receiver : bytes;
  rq_message_queue : list MessageData;
  rq_idle_since : Z;
  rq_exited : bool
}.

Inductive MatrixMessageType : Type := TEXT | NOTICE.

(** What leaves the transport. *)
Inductive Sent : Type :=
  | WebRTC (receiver : bytes) (data : string)
  | ToDevice (user_ids : list string) (device_id : string) (message_type : MatrixMessageType)
      (data : string)
  | HealthCheck (receiver : bytes)
  | OnMessages (messages : list Messages.Message).

(** [MatrixTransport].  An expiration generator comes with the reference of its
    generator of timeouts. *)
Record MatrixTransport : Type := mkMatrixTransport {
  mt_retriers : dict bytes RetryQueue;
  mt_expirations : list (nat * Expiration);
  mt_timeouts : list Backoff;
  mt_clock : nat;
  services_addresses : dict bytes Z;
  broadcast_queue : list Broadcast;
  prioritize_broadcast_messages : bool;
  mt_started : bool;
  mt_stopped : bool;
  mt_sent : list Sent
}.

Definition set_retriers retriers (t : MatrixTransport) : MatrixTransport :=
  mkMatrixTransport retriers (mt_expirations t) (mt_timeouts t) (mt_clock t) (services_addresses t)
    (broadcast_queue t) (prioritize_broadcast_messages t) (mt_started t) (mt_stopped t) (mt_sent t).
Definition set_generators expirations timeouts clock (t : MatrixTransport) : MatrixTransport :=
  mkMatrixTransport (mt_retriers t) expirations timeouts clock (services_addresses t)
    (broadcast_queue t) (prioritize_broadcast_messages t) (mt_started t) (mt_stopped t) (mt_sent t).
Definition set_services services (t : MatrixTransport) : MatrixTransport :=
  mkMatrixTransport (mt_retriers t) (mt_expirations t) (mt_timeouts t) (mt_clock t) services
    (broadcast_queue t) (prioritize_broadcast_messages t) (mt_started t) (mt_stopped t) (mt_sent t).
Definition set_broadcasts queue prioritize (t : MatrixTransport) : MatrixTransport :=
  mkMatrixTransport (mt_retriers t) (mt_expirations t) (mt_timeouts t) (mt_clock t)
    (services_addresses t) queue prioritize (mt_started t) (mt_stopped t) (mt_sent t).
Definition add_sent (s : Sent) (t : MatrixTransport) : MatrixTransport :=
  mkMatrixTransport (mt_retriers t) (mt_expirations t) (mt_timeouts t) (mt_clock t)
    (services_addresses t) (broadcast_queue t) (prioritize_broadcast_messages t) (mt_started t)
    (mt_stopped t) (mt_sent t ++ [s]).

Notation Trans := (St MatrixTransport).

Definition send_out (s : Sent) : Trans unit := st_modify (add_sent s).

(** The text of a message and of a broadcast ([MessageSerializer]), how a line is
    read, and the WebRTC channels that are ready.  A line may be no message, an
    object that is not signed, or a message. *)
Inductive ParsedLine : Type :=
  | NotValid
  | NotSigned
  | Parsed (m : Messages.Message).

Class MatrixEnv : Type := {
  message_text : Messages.Message -> string;
  broadcast_text : Broadcast -> string;
  parse_line : string -> bytes -> ParsedLine;
  displayname_of : string -> option string;
  has_ready_channel : bytes -> bool;
  server_name : string
}.

(** ** Users *)

(** [address_from_userid] *)
Definition address_from_userid `{MessageEnv} (user_id : string) : option bytes :=
  to_canonical_address <$> match_user_id user_id.

(** [is_valid_userid_for_address] *)
Definition is_valid_userid_for_address `{MessageEnv} (user_id : option string) (address : bytes) : bool :=
  match user_id with
  | None => false
  | Some id =>
      match address_from_userid id with
      | None | Some [] => false
      | Some a => bool_decide (address = a)
      end
  end.

(** [get_user_id_from_metadata] *)
Definition get_user_id_from_metadata `{MessageEnv} (address : bytes)
    (address_metadata : option AddressMetadata) : option string :=
  match address_metadata with
  | None => None
  | Some metadata =>
      let user_id := dict_get "user_id"%string metadata in
      if is_valid_userid_for_address user_id address then user_id else None
  end.

(** [make_user_id] *)
Definition make_user_id (address : bytes) (home_server : string) : string :=
  "@" +:+ to_hex_address address +:+ ":" +:+ home_server.

(** [_metadata_key_func] *)
Definition metadata_key (d : MessageData) : string :=
  match md_address_metadata d with
  | None => EmptyString
  | Some metadata => default EmptyString (dict_get "user_id"%string metadata)
  end.

(** [itertools.groupby]: runs of elements with the same key. *)
Fixpoint groupby {A K} `{EqDecision K} (key : A -> K) (l : list A) : list (K * list A) :=
  match l with
  | [] => []
  | a :: l' =>
      match groupby key l' with
      | (k, g) :: rest => if decide (key a = k) then (k, a :: g) :: rest else (key a, [a]) :: (k, g) :: rest
      | [] => [(key a, [a])]
      end
  end.

Section transport.
Context `{Crypto} `{MessageEnv} `{!PrivateKey} `{MatrixEnv}.
Context (config : MatrixTransportConfig) (clock : nat -> float).
Implicit Types (t : MatrixTransport) (d : MessageData) (q : QueueIdentifier) (receiver : bytes).

(** ** Sending *)

(** [_send_raw] *)
Definition send_raw receiver (data : string) (message_type : MatrixMessageType)
    (receiver_metadata : option AddressMetadata) : Trans unit :=
  t ← st_get;
  if mt_stopped t then mret tt
  else if has_ready_channel receiver then send_out (WebRTC receiver data)
  else
    match get_user_id_from_metadata receiver receiver_metadata with
    | None => mret tt
    | Some user_id => send_out (ToDevice [user_id] "RAIDEN" message_type data)
    end.

(** The loop over the batches of texts. *)
Definition send_texts receiver (texts : list string) (receiver_metadata : option AddressMetadata) :
    Trans unit :=
  let '(batches, result) := make_message_batches texts in
  _ ← st_iter (fun batch => send_raw receiver (join_lines batch) TEXT receiver_metadata) batches;
  st_lift result.

(** ** The retry queue of a receiver *)

Definition queue_of_receiver t receiver : list MessageData :=
  match dict_get receiver (mt_retriers t) with Some r => rq_message_queue r | None => [] end.

Definition update_retrier receiver (f : RetryQueue -> RetryQueue) t : MatrixTransport :=
  match dict_get receiver (mt_retriers t) with
  | Some r => set_retriers (dict_set receiver (f r) (mt_retriers t)) t
  | None => t
  end.

Definition set_message_queue (queue : list MessageData) (r : RetryQueue) : RetryQueue :=
  mkRetryQueue (rq_receiver r) queue (rq_idle_since r) (rq_exited r).

(** The class [RetrieableMessage], and its message identifier *)
Definition retrieable_identifier (m : Messages.Message) : option Z :=
  match m with
  | MLockedTransfer m | MRefundTransfer m => Some (em_message_identifier (lt_envelope m))
  | MUnlock m => Some (em_message_identifier (un_envelope m))
  | MLockExpired m => Some (em_message_identifier (le_envelope m))
  | MSecretRequest m => Some (sr_message_identifier m)
  | MRevealSecret m => Some (rs_message_identifier m)
  | MProcessed m => Some (pr_message_identifier m)
  | MDelivered _ => None
  | MWithdrawRequest m _ | MWithdrawConfirmation m | MWithdrawExpired m =>
      Some (wf_message_identifier m)
  end.

Definition is_delivered (m : Messages.Message) : bool :=
  match m with MDelivered _ => true | _ => false end.

(** [now()] *)
Definition read_clock : Trans float := fun t =>
  (set_generators (mt_expirations t) (mt_timeouts t) (S (mt_clock t)) t, Ok (clock (mt_clock t))).

(** [next(timeout_generator)], for the generator with a reference *)
Definition pull_timeout (ref : nat) : Trans float := fun t =>
  match mt_timeouts t !! ref with
  | None => (t, Raise StopIteration)
  | Some b =>
      let '(b', timeout) := next_timeout config b in
      (set_generators (mt_expirations t) (<[ref := b']> (mt_timeouts t)) (mt_clock t) t, Ok timeout)
  end.

Definition set_expiration (g : nat) (e : nat * Expiration) t : MatrixTransport :=
  set_generators (<[g := e]> (mt_expirations t)) (mt_timeouts t) (mt_clock t) t.

(** The head of the loop in [_expiration_generator]. *)
Definition send_now (g ref : nat) : Trans bool :=
  timeout ← pull_timeout ref;
  now ← read_clock;
  _ ← st_modify (set_expiration g (ref, WaitUntil (float_add now timeout)));
  mret true.

(** [next(message_data.expiration_generator)] *)
Definition expiration_next (g : nat) : Trans bool :=
  t ← st_get;
  match mt_expirations t !! g with
  | None => st_raise StopIteration
  | Some (ref, NeverSent) => send_now g ref
  | Some (ref, WaitUntil next) =>
      now ← read_clock;
      if float_lt now next then mret false else send_now g ref
  end.

(** [any(...)] in [enqueue]; the messages are compared only in the same queue. *)
Fixpoint already_queued q (m : Messages.Message) (queue : list MessageData) : Py bool :=
  match queue with
  | [] => Ok false
  | d :: queue' =>
      if bool_decide (q = md_queue_identifier d) then
        k1 ← message_key m;
        k2 ← message_key (md_message d);
        if bool_decide (k1 = k2) then Ok true else already_queued q m queue'
      else already_queued q m queue'
  end.

(** A new generator of timeouts, and a new expiration generator on it. *)
Definition new_timeouts : Trans nat := fun t =>
  (set_generators (mt_expirations t) (mt_timeouts t ++ [BackoffStart]) (mt_clock t) t,
   Ok (length (mt_timeouts t))).

Definition new_expiration (ref : nat) : Trans nat := fun t =>
  (set_generators (mt_expirations t ++ [(ref, NeverSent)]) (mt_timeouts t) (mt_clock t) t,
   Ok (length (mt_expirations t))).

(** The loop of [enqueue] over the messages. *)
Fixpoint encode_messages receiver q (ref : nat) (messages : list QueuedMessage) :
    Trans (list MessageData) :=
  match messages with
  | [] => mret []
  | (m, metadata) :: messages' =>
      t ← st_get;
      queued ← st_lift (already_queued q m (queue_of_receiver t receiver));
      if (queued : bool) then encode_messages receiver q ref messages'
      else
        g ← new_expiration ref;
        rest ← encode_messages receiver q ref messages';
        mret (mkMessageData q m (message_text m) g metadata :: rest)
  end.

(** [_RetryQueue.enqueue] *)
Definition enqueue receiver q (messages : list QueuedMessage) : Trans unit :=
  _ ← st_lift (py_assert (bool_decide (qi_recipient q = receiver))
                 "queue_identifier.recipient must match self.receiver");
  ref ← new_timeouts;
  encoded ← encode_messages receiver q ref messages;
  st_modify (update_retrier receiver (fun r => set_message_queue (rq_message_queue r ++ encoded) r)).

(** [_RetryQueue.enqueue_unordered] *)
Definition enqueue_unordered receiver (m : Messages.Message) (metadata : option AddressMetadata) :
    Trans unit :=
  enqueue receiver (mkQueueIdentifier receiver CANONICAL_IDENTIFIER_UNORDERED_QUEUE) [(m, metadata)].

(** The function [message_is_in_queue] of [_check_and_send], for the queues of the
    node *)
Definition message_is_in_queue (queues : dict QueueIdentifier (list Event)) d : bool :=
  match dict_get (md_queue_identifier d) queues with
  | None => false
  | Some send_events =>
      existsb (fun e =>
                 match retrieable_identifier (md_message d), event_message e with
                 | Some id, Some m => sm_message_identifier m =? id
                 | _, _ => false
                 end) send_events
  end.

(** [self._message_queue.remove(message_data)]; no two entries share a
    generator. *)
Definition remove_data receiver d : Trans unit :=
  st_modify (update_retrier receiver (fun r =>
    set_message_queue
      (List.filter (fun d' => negb (md_expiration_generator d' =? md_expiration_generator d)%nat)
         (rq_message_queue r)) r)).

(** The loop over the messages for one user: the texts to send. *)
Fixpoint texts_to_send receiver (queues : dict QueueIdentifier (list Event)) (batch : list MessageData) :
    Trans (list string) :=
  match batch with
  | [] => mret []
  | d :: batch' =>
      send ←
        (if is_delivered (md_message d) then _ ← remove_data receiver d; mret true
         else if negb (message_is_in_queue queues d) then _ ← remove_data receiver d; mret false
         else expiration_next (md_expiration_generator d));
      texts ← texts_to_send receiver queues batch';
      mret (if (send : bool) then md_text d :: texts else texts)
  end.

(** The body of the loop over the users. *)
Definition send_group receiver (queues : dict QueueIdentifier (list Event))
    (group : string * list MessageData) : Trans unit :=
  let '(user_id, batch) := group in
  let metadata :=
    if bool_decide (user_id = EmptyString) then None
    else match batch with d :: _ => md_address_metadata d | [] => None end in
  texts ← texts_to_send receiver queues batch;
  match (texts : list string) with
  | [] => mret tt
  | _ => send_texts receiver texts metadata
  end.

(** [_RetryQueue._check_and_send], for the queues of the node during the check *)
Definition check_and_send receiver (queues : dict QueueIdentifier (list Event)) : Trans unit :=
  t ← st_get;
  if negb (mt_started t) || mt_stopped t then mret tt
  else
    st_iter (send_group receiver queues)
      (groupby metadata_key
         (py_sort metadata_key String.leb (queue_of_receiver t receiver))).

(** One round of [_RetryQueue._run]. *)
Definition retry_round receiver (queues : dict QueueIdentifier (list Event)) : Trans unit :=
  t ← st_get;
  match dict_get receiver (mt_retriers t) with
  | None => mret tt
  | Some r =>
      if mt_stopped t || rq_exited r then mret tt
      else
        match rq_message_queue r with
        | [] =>
            let idle := rq_idle_since r + 1 in
            st_modify (update_retrier receiver (fun _ =>
              mkRetryQueue receiver [] idle (RETRY_QUEUE_IDLE_AFTER <=? idle)))
        | _ =>
            _ ← st_modify (update_retrier receiver (fun r =>
                  mkRetryQueue receiver (rq_message_queue r) 0 false));
            check_and_send receiver queues
        end
  end.

(** [_get_retrier] *)
Definition get_retrier receiver : Trans unit := fun t =>
  let create := set_retriers (dict_set receiver (mkRetryQueue receiver [] 0 false) (mt_retriers t)) t in
  (match dict_get receiver (mt_retriers t) with
   | None => create
   | Some r => if rq_exited r then create else t
   end, Ok tt).

(** [_send_with_retry] *)
Definition send_with_retry (queue : MessagesQueue) : Trans unit :=
  let '(q, messages) := queue in
  let recipient := qi_recipient q in
  _ ← get_retrier recipient;
  _ ← enqueue recipient q messages;
  t ← st_get;
  if mt_started t then send_out (HealthCheck recipient) else mret tt.

(** [send_async] *)
Definition send_async (message_queues : list MessagesQueue) : Trans unit :=
  st_iter (fun queue : MessagesQueue =>
    _ ← st_lift (raise_if (negb (length (qi_recipient (fst queue)) =? 20)%nat) (ValueError "Invalid address"));
    _ ← st_lift (raise_if (existsb (fun m : QueuedMessage => is_delivered (fst m)) (snd queue))
                   (ValueError "Do not use send_async for Delivered messages"));
    send_with_retry queue) message_queues.

(** ** Received messages *)

(** White space and the ends of lines of [str.strip] and [str.splitlines], for
    text in ASCII *)
Definition is_space (c : Ascii.ascii) : bool :=
  let n := Ascii.nat_of_ascii c in ((9 <=? n) && (n <=? 13) || (28 <=? n) && (n <=? 32))%nat.
Definition is_line_end (c : Ascii.ascii) : bool :=
  let n := Ascii.nat_of_ascii c in ((10 <=? n) && (n <=? 13) || (28 <=? n) && (n <=? 30))%nat.

Fixpoint drop_spaces (s : list Ascii.ascii) : list Ascii.ascii :=
  match s with
  | c :: s' => if is_space c then drop_spaces s' else s
  | [] => []
  end.

Definition strip (s : list Ascii.ascii) : list Ascii.ascii := rev (drop_spaces (rev (drop_spaces s))).

(** The lines; a pair of carriage return and newline gives an empty line more,
    which is skipped like every empty line. *)
Fixpoint split_lines (line : list Ascii.ascii) (s : list Ascii.ascii) : list (list Ascii.ascii) :=
  match s with
  | [] => [rev line]
  | c :: s' => if is_line_end c then rev line :: split_lines [] s' else split_lines (c :: line) s'
  end.

(** [validate_and_parse_message]; [None] is a body that is not text. *)
Definition accept_line (peer_address : bytes) (line : list Ascii.ascii) : Py (option Messages.Message) :=
  match strip line with
  | [] => Ok None
  | text =>
      match parse_line (String.string_of_list_ascii text) peer_address with
      | NotValid | NotSigned => Ok None
      | Parsed m =>
          address ← sender m;
          Ok (if bool_decide (address = Some peer_address) then Some m else None)
      end
  end.

Definition validate_and_parse_message (data : option string) (peer_address : bytes) :
    Py (list Messages.Message) :=
  match data with
  | None => Ok []
  | Some text =>
      lines ← py_map (accept_line peer_address) (split_lines [] (String.list_ascii_of_string text));
      Ok (omap id (lines : list (option Messages.Message)))
  end.

(** A message of Matrix: [type == "m.room.message"], the type of its content, its
    sender and its body *)
Record MatrixMessage : Type := mkMatrixMessage {
  mm_is_room_message : bool;
  mm_msgtype : option MatrixMessageType;
  mm_sender : string;
  mm_body : option string
}.

(** [ReceivedRaidenMessage] and [ReceivedCallMessage] *)
Record ReceivedRaidenMessage : Type := mkReceivedRaidenMessage {
  rr_message : Messages.Message;
  rr_sender : bytes;
  rr_sender_metadata : AddressMetadata
}.

Record ReceivedCallMessage : Type := mkReceivedCallMessage {
  rc_message : MatrixMessage;
  rc_sender : bytes
}.

(** The body of the loop in [_validate_matrix_messages]. *)
Definition validate_matrix_message (our_address : bytes) (message : MatrixMessage) :
    Py (list ReceivedRaidenMessage * list ReceivedCallMessage) :=
  match (if mm_is_room_message message then mm_msgtype message else None) with
  | None => Ok ([], [])
  | Some msgtype =>
      let sender_id := mm_sender message in
      if bool_decide (Some our_address = address_from_userid sender_id) then Ok ([], [])
      else
        match validate_user_id_signature sender_id (displayname_of sender_id) with
        | None => Ok ([], [])
        | Some peer_address =>
            match msgtype with
            | TEXT =>
                parsed ← validate_and_parse_message (mm_body message) peer_address;
                Ok (map (fun m => mkReceivedRaidenMessage m peer_address
                                    [("user_id"%string, sender_id)]) parsed, [])
            | NOTICE => Ok ([], [mkReceivedCallMessage message peer_address])
            end
        end
  end.

(** [_validate_matrix_messages] *)
Fixpoint validate_matrix_messages (our_address : bytes) (messages : list MatrixMessage) :
    Py (list ReceivedRaidenMessage * list ReceivedCallMessage) :=
  match messages with
  | [] => Ok ([], [])
  | message :: messages' =>
      '(raiden, call) ← validate_matrix_message our_address message;
      '(raiden', call') ← validate_matrix_messages our_address messages';
      Ok (raiden ++ raiden', call ++ call')
  end.

(** The confirmation of a received message. *)
Definition acknowledge (received : ReceivedRaidenMessage) : Trans unit :=
  match retrieable_identifier (rr_message received) with
  | None => mret tt
  | Some message_identifier =>
      address ← st_lift (sender (rr_message received));
      match (address : option bytes) with
      | None | Some [] => mret tt
      | Some a =>
          delivered ← st_lift (sign (MDelivered (mkDelivered EMPTY_SIGNATURE message_identifier)));
          _ ← get_retrier a;
          enqueue_unordered a delivered (Some (rr_sender_metadata received))
      end
  end.

(** [_process_raiden_messages] *)
Definition process_raiden_messages (all_messages : list ReceivedRaidenMessage) : Trans unit :=
  t ← st_get;
  if mt_stopped t then mret tt
  else
    _ ← st_iter acknowledge all_messages;
    send_out (OnMessages (map rr_message all_messages)).

(** ** Services *)

(** [update_services_addresses] *)
Definition update_services_addresses (addresses_validity : dict bytes Z) : Trans unit :=
  st_modify (fun t =>
    set_services (foldl (fun known '(a, validity) => dict_set a validity known) (services_addresses t)
                    addresses_validity) t).

(** [expire_services_addresses]: the dictionary is changed while the loop iterates
    over it, so the step after the first removal raises. *)
Definition expire_services_addresses (current_timestamp : Z) : Trans unit := fun t =>
  match List.find (fun '(_, validity) => validity <? current_timestamp) (services_addresses t) with
  | None => (t, Ok tt)
  | Some (a, _) =>
      (set_services (dict_del a (services_addresses t)) t,
       Raise (RuntimeError "dictionary changed size during iteration"))
  end.

(** [populate_services_addresses]; [service_valid_till] is the contract's. *)
Definition populate_services_addresses (registry : option ServiceRegistry)
    (service_valid_till : bytes -> Z) : Trans unit :=
  match registry with
  | None => mret tt
  | Some r =>
      update_services_addresses
        (foldl (fun known index =>
                  match ever_made_deposits r index with
                  | None => known
                  | Some a =>
                      if has_valid_registration r a then dict_set a (service_valid_till a) known else known
                  end) [] (seqZ 0 (ever_made_deposits_len r)))
  end.

(** The device of a broadcast *)
Definition device_of (b : Broadcast) : string :=
  match b with
  | PFSCapacity _ | PFSFee _ => "PATH_FINDING"
  | MSRequest _ => "MONITORING"
  end.

(** [broadcast] *)
Definition broadcast (b : Broadcast) : Trans unit :=
  st_modify (fun t => set_broadcasts (broadcast_queue t ++ [b]) (prioritize_broadcast_messages t) t).

(** [_multicast_services] and [_send_to_device_raw] *)
Definition multicast_services (data device_id : string) : Trans unit :=
  t ← st_get;
  send_out (ToDevice (map (fun a => make_user_id a server_name) (dict_keys (services_addresses t)))
              device_id TEXT data).

(** One round of [_broadcast_worker]: the queue is emptied, and the broadcasts are
    sent for each device. *)
Definition broadcast_round : Trans unit :=
  t ← st_get;
  if mt_stopped t then mret tt
  else
    _ ← st_modify (set_broadcasts [] (prioritize_broadcast_messages t));
    let messages := foldl (fun by_device b =>
                             dict_set (device_of b) (default [] (dict_get (device_of b) by_device) ++ [b])
                               by_device)
                      ([] : dict string (list Broadcast)) (broadcast_queue t) in
    _ ← st_iter (fun '(device_id, bs) =>
                   let '(batches, result) := make_message_batches (map broadcast_text bs) in
                   _ ← st_iter (fun batch => multicast_services (join_lines batch) device_id) batches;
                   st_lift result) messages;
    st_modify (fun t => set_broadcasts (broadcast_queue t) false t).
End transport.
