(* ===== verification/TransportProofs.v ===== *)
(** The transport: a check of a retry queue sends what is due and drops what is
    no longer queued in the node, nothing is lost while the node waits for a
    confirmation, and received messages are signed by their sender. *)

From stdpp Require Import sorting.
From S2P Require Import Prelude PyDict Bytes Crypto PyFloat State Events.
From S2P Require Import StateChanges.
From S2P Require Import Channel TokenNetwork Node Views Messages MessageHandler Services.
From S2P Require Import EventHandler.
From S2P Require Import Pathfinding Transport.

(** ** The order of texts *)

Lemma string_leb_cons a b s s' :
  String.leb (String a s) (String b s') =
  match Ascii.compare a b with Eq => String.leb s s' | Lt => true | Gt => false end.
Proof. unfold String.leb. cbn. by destruct (Ascii.compare a b). Qed.

#[export] Instance string_leb_trans : Transitive (key_le String.leb).
Proof.
  unfold key_le. intros x. induction x as [|a x IH]; intros [|b y] [|c z]; try done.
  rewrite !string_leb_cons. unfold Ascii.compare.
  destruct (N.compare_spec (Ascii.N_of_ascii a) (Ascii.N_of_ascii b)) as [E1|E1|E1];
    destruct (N.compare_spec (Ascii.N_of_ascii b) (Ascii.N_of_ascii c)) as [E2|E2|E2];
    destruct (N.compare_spec (Ascii.N_of_ascii a) (Ascii.N_of_ascii c)) as [E3|E3|E3];
    try done; try lia; apply IH.
Qed.

#[export] Instance string_leb_total : Total (key_le String.leb).
Proof. intros x y. apply String.leb_total. Qed.

#[export] Instance string_leb_antisymm : AntiSymm (=) (key_le String.leb).
Proof. intros x y. apply String.leb_antisym. Qed.

(** ** Groups of a sorted list *)

Section groups.
Context {A K : Type} `{EqDecision K} (key : A -> K).



Context (key_leb : K -> K -> bool).
Context `{!Transitive (key_le key_leb)} `{!Total (key_le key_leb)} `{!AntiSymm (=) (key_le key_leb)}.




End groups.



(** ** Batches of texts *)








Section transport.
Context `{Crypto} `{MessageEnv} `{!PrivateKey} `{MatrixEnv}.
Context (config : MatrixTransportConfig) (clock : nat -> float).
Implicit Types (t : MatrixTransport) (d : MessageData) (q : QueueIdentifier) (receiver : bytes).
Implicit Types (queues : dict QueueIdentifier (list Event)).

(** ** Sending *)











(** ** Generators *)

Notation gen := md_expiration_generator.






(** ** One check of a retry queue *)
























(** ** The groups of a check *)








Notation messages_of groups := (concat (map snd groups)).




(** ** The invariant of the transport *)









(** ** What the transport keeps *)
































(** ** The rounds of a retry queue *)









(** ** Runs of the transport *)






(** ** Received messages *)

(** Every message that is handed to the node is signed by the address of the
    Matrix user that sent it, and is not the node's own. *)
Lemma accept_line_signed peer line m :
  accept_line peer line = Ok (Some m) -> sender m = Ok (Some peer).
Proof.
  unfold accept_line. destruct (strip line); [done|]. destruct (parse_line _ peer); [done..|].
  intros Hb. apply bind_Ok in Hb as (addr & Ha & Hb). case_bool_decide; by simplify_eq.
Qed.

Lemma validate_and_parse_signed data peer messages m :
  validate_and_parse_message data peer = Ok messages -> m ∈ messages -> sender m = Ok (Some peer).
Proof.
  unfold validate_and_parse_message. destruct data as [text|]; [|by intros [= <-] ?%not_elem_of_nil].
  intros Hb. apply bind_Ok in Hb as (lines & Hl & [= <-]). intros Hm. apply list_elem_of_omap in Hm as (o & Ho & E).
  cbn in E. subst o. revert lines Hl Ho. generalize (split_lines [] (String.list_ascii_of_string text)).
  induction l as [|line l IH]; intros lines Hl Ho; cbn in Hl.
  - injection Hl as <-. by apply not_elem_of_nil in Ho.
  - apply bind_Ok in Hl as (y & Hy & Hl). apply bind_Ok in Hl as (ys & Hys & [= <-]).
    apply elem_of_cons in Ho as [<- | Ho]; [by eapply accept_line_signed|by eapply IH].
Qed.

Theorem accepted_messages_are_signed our_address messages raiden calls received :
  validate_matrix_messages our_address messages = Ok (raiden, calls) -> received ∈ raiden ->
  sender (rr_message received) = Ok (Some (rr_sender received))
  /\ exists message, message ∈ messages
      /\ rr_sender_metadata received = [("user_id"%string, mm_sender message)]
      /\ validate_user_id_signature (mm_sender message) (displayname_of (mm_sender message))
         = Some (rr_sender received)
      /\ address_from_userid (mm_sender message) <> Some our_address.
Proof.
  revert raiden calls. induction messages as [|message messages IH]; intros raiden calls Hv Hin.
  { injection Hv as <- <-. by apply not_elem_of_nil in Hin. }
  cbn in Hv. apply bind_Ok in Hv as ([r1 c1] & H1' & Hv). apply bind_Ok in Hv as ([r2 c2] & H2' & [= <- <-]).
  apply elem_of_app in Hin as [Hin|Hin].
  - unfold validate_matrix_message in H1'.
    destruct (if mm_is_room_message message then mm_msgtype message else None) as [mt|];
      [|injection H1' as <- <-; by apply not_elem_of_nil in Hin].
    case_bool_decide as Ho; [injection H1' as <- <-; by apply not_elem_of_nil in Hin|].
    destruct (validate_user_id_signature _ _) as [peer|] eqn:Ev;
      [|injection H1' as <- <-; by apply not_elem_of_nil in Hin].
    destruct mt; [|injection H1' as <- <-; by apply not_elem_of_nil in Hin].
    apply bind_Ok in H1' as (parsed & Hp & [= <- <-]). apply list_elem_of_fmap in Hin as (m & -> & Hm).
    cbn. split; [by eapply validate_and_parse_signed|]. exists message.
    split_and!; [left|done|done|congruence].
  - destruct (IH _ _ H2' Hin) as (? & message' & ? & ?). split; [done|]. exists message'. split; [by right|done].
Qed.

(** ** Services *)

(** As soon as the registration of one service has expired, the next block makes
    [expire_services_addresses] raise, in the handling of the block. *)
Theorem expired_service_raises timestamp t a validity :
  (a, validity) ∈ services_addresses t -> validity < timestamp ->
  snd (expire_services_addresses timestamp t)
  = Raise (RuntimeError "dictionary changed size during iteration").
Proof.
  intros Hin Hlt. unfold expire_services_addresses. destruct (List.find _ _) as [[a' v']|] eqn:E; [done|].
  exfalso. pose proof (List.find_none _ _ E (a, validity) (proj1 (list_elem_of_In _ _) Hin)) as Hf.
  cbn in Hf. lia.
Qed.
End transport.
