(* ===== verification/Proxies.v ===== *)
(** The proxy of a token network ([network/proxies/token_network.py]), with the
    approval of a deposit ([proxies/token.py]) and the checks after a failed
    transaction ([network/rpc/client.py]).

    An operation checks its preconditions at the block that the node decided at,
    estimates the gas, sends the transaction, and explains a failure with the
    state of the contract at the block of the failure.  The contracts and the
    Ethereum client are the class [EthClient]. *)

From Stdlib Require Import SpecFloat.
From S2P Require Import Prelude PyDict Bytes Crypto PyFloat MediationFee State Events.
From S2P Require Import StateChanges.
From S2P Require Import Channel TokenNetwork Node Views Wal Messages ChainDecode Services.
From S2P Require Import EventHandler.

#[local] Open Scope Z_scope.

(** ** The contracts *)

(** A block identifier: a hash, a number, ["latest"] or ["pending"]. *)
Inductive BlockId : Type :=
  | AtHash (h : bytes)
  | AtNumber (n : Z)
  | AtLatest
  | AtPending.

(** [ChannelState] of raiden_contracts, an enumeration from 0 to 4. *)
Inductive OnchainState : Type := NONEXISTENT | OPENED | CLOSED | SETTLED | REMOVED.

#[export] Instance OnchainState_eq_dec : EqDecision OnchainState.
Proof. solve_decision. Defined.

Definition state_value (s : OnchainState) : Z :=
  match s with NONEXISTENT => 0 | OPENED => 1 | CLOSED => 2 | SETTLED => 3 | REMOVED => 4 end.

(** The result of [getChannelParticipantInfo] *)
Record ParticipantInfo : Type := mkParticipantInfo {
  info_deposit : Z;
  info_withdrawn : Z;
  info_is_closer : bool;
  info_balance_hash : bytes;
  info_nonce : Z;
  info_locksroot : bytes;
  info_locked_amount : Z
}.

(** The transactions; [locks] are the packed locks. *)
Inductive ChainTx : Type :=
  | Approve (spender : bytes) (allowance : Z)
  | OpenChannel (participant1 participant2 : bytes) (settle_timeout : Z)
  | DepositTotal (id : Z) (participant : bytes) (total_deposit : Z) (partner : bytes)
  | WithdrawTotal (id : Z) (participant : bytes) (total_withdraw expiration_block : Z)
      (partner_signature participant_signature : bytes)
  | CooperativeSettle (id : Z) (data1 data2 : WithdrawInput)
  | CloseChannel (id : Z) (non_closing_participant closing_participant balance_hash : bytes) (nonce : Z)
      (additional_hash non_closing_signature closing_signature : bytes)
  | UpdateNonClosingBalanceProof (id : Z) (closing_participant non_closing_participant balance_hash : bytes)
      (nonce : Z) (additional_hash closing_signature non_closing_signature : bytes)
  | UnlockChannel (id : Z) (receiver sender locks : bytes)
  | SettleChannel (id : Z) (participant1 : bytes) (transferred1 locked1 : Z) (locksroot1 : bytes)
      (participant2 : bytes) (transferred2 locked2 : Z) (locksroot2 : bytes).

(** [TransactionMined], with what is used of its receipt *)
Record TransactionMined : Type := mkTransactionMined {
  tm_hash : bytes;
  tm_status : Z;
  tm_block_hash : bytes;
  tm_block_number : Z;
  tm_gas_used : Z;
  tm_startgas : Z
}.

(** The calls of the contracts at a block, which raise [ValueError] when the state
    of the block was pruned, and the client.  The answers of the client depend on
    the transactions that were sent before. *)
Class EthClient : Type := {
  binary_address : bytes -> bool;
  getChannelIdentifier : BlockId -> bytes -> bytes -> Py Z;
  getChannelParticipantInfo : BlockId -> Z -> bytes -> bytes -> Py ParticipantInfo;
  getChannelState : BlockId -> Z -> bytes -> bytes -> Py OnchainState;
  timeout_min : Z;
  timeout_max : Z;
  participant_limit : BlockId -> Py Z;
  network_limit : BlockId -> Py Z;
  deprecation_switch : BlockId -> Py bool;
  contract_chain_id : Z;
  token_balance : bytes -> BlockId -> Py Z;
  token_allowance : bytes -> bytes -> BlockId -> Py Z;
  eth_balance : BlockId -> Py Z;
  fast_gas_price : Z;
  measured_gas : string -> Z;
  get_block_number : BlockId -> Py Z;
  (** the hash and the number of the latest block *)
  get_latest_block : list ChainTx -> bytes * Z;
  (** the estimated gas, or nothing if the transaction would fail *)
  estimate_gas : list ChainTx -> ChainTx -> Py (option Z);
  (** [transact] and [poll_transaction], with the limit of the gas *)
  transact_and_poll : list ChainTx -> ChainTx -> Z -> Py TransactionMined
}.

(** The proxy: the transactions that were sent, and [opening_channels_count]. *)
Record ProxyState : Type := mkProxyState {
  px_sent : list ChainTx;
  px_opening : Z
}.

Notation Proxy := (St ProxyState).

Definition BadFunctionCallOutput : exn := RaidenError "BadFunctionCallOutput" "".

(** [constants.GAS_FACTOR], 1.3 *)
Definition GAS_FACTOR : float := S754_finite false 5854679515581645 (-52).
(** [GAS_REQUIRED_FOR_APPROVE] *)
Definition GAS_REQUIRED_FOR_APPROVE : Z := 58792.
Definition UNLOCK_GAS_LIMIT : Z := 1256636.
Definition RECEIPT_FAILURE_CODE : Z := 0.

(** [safe_gas_limit] *)
Definition safe_gas_limit (estimate measured : Z) : Py Z :=
  limit ← float_of_int (Z.max estimate measured);
  float_trunc (float_mul limit GAS_FACTOR).

(** [was_transaction_successfully_mined] *)
Definition was_transaction_successfully_mined (t : TransactionMined) : bool :=
  negb (tm_status t =? RECEIPT_FAILURE_CODE).

(** [check_transaction_failure] *)
Definition check_transaction_failure (t : TransactionMined) : Py unit :=
  if was_transaction_successfully_mined t then Ok tt
  else raise_if (tm_startgas t <=? tm_gas_used t) (RaidenError "RaidenError" "").

(** [ChannelData] *)
Record ChannelData : Type := mkChannelData {
  cd_channel_identifier : Z;
  cd_settle_block_number : Z;
  cd_state : OnchainState
}.

Section proxy.
Context `{Crypto} `{ServiceProofs} `{ClosingProofs} {client : EthClient}.
(** The address of the node, and of the token network contract. *)
Context (node_address net : bytes).
Implicit Types (b : BlockId) (id : Z) (partner : bytes).

(** [check_for_insufficient_eth] *)
Definition check_for_insufficient_eth (transaction_executed : bool) (required_gas block_number : Z) :
    Py unit :=
  if transaction_executed then Ok tt
  else
    balance ← eth_balance (AtNumber block_number);
    raise_if (balance <? required_gas * fast_gas_price) (RaidenError "InsufficientEth" "").

(** [raise_on_call_returned_empty], after the queries for the preconditions; when
    the state of the block was pruned, nothing is checked. *)
Definition preconditions {A} (queries : Py A) (check : A -> Py unit) : Py unit :=
  match queries with
  | Ok a => check a
  | Raise (ValueError _) => Ok tt
  | Raise (RaidenError cls msg) =>
      if bool_decide (cls = "BadFunctionCallOutput"%string)
      then Raise (RaidenUnrecoverableError "the contract was not yet deployed at the block")
      else Raise (RaidenError cls msg)
  | Raise e => Raise e
  end.

(** How the operations send a transaction: a failure is explained by
    [mined_failed] for the transaction that was mined, or by [estimate_failed] for
    the hash and the number of the latest block if the estimate of the gas
    failed. *)
Definition send_transaction (tx : ChainTx) (measured : Z)
    (mined_failed : TransactionMined -> Py TransactionMined)
    (estimate_failed : bytes -> Z -> Py TransactionMined) : Proxy TransactionMined := fun s =>
  let sent := px_sent s in
  let s' := mkProxyState (sent ++ [tx]) (px_opening s) in
  match estimate_gas sent tx with
  | Raise e => (s, Raise e)
  | Ok None => let '(h, n) := get_latest_block sent in (s, estimate_failed h n)
  | Ok (Some estimate) =>
      match safe_gas_limit estimate measured with
      | Raise e => (s, Raise e)
      | Ok limit =>
          (s', mined ← transact_and_poll sent tx limit;
               if was_transaction_successfully_mined mined then Ok mined else mined_failed mined)
      end
  end.

(** ** Queries *)

(** [raise_if_invalid_address_pair] *)
Definition raise_if_invalid_address_pair (address1 address2 : bytes) : Py unit :=
  _ ← py_assert (negb (bool_decide (NULL_ADDRESS_BYTES = address1 \/ NULL_ADDRESS_BYTES = address2)))
        "The null address is not allowed as a channel participant.";
  _ ← py_assert (binary_address address1 && binary_address address2) "Addresses must be in binary";
  raise_if (bool_decide (address1 = address2)) (RaidenError "SamePeerAddress" "").

(** [get_channel_identifier] *)
Definition get_channel_identifier (participant1 participant2 : bytes) b : Py Z :=
  _ ← raise_if_invalid_address_pair participant1 participant2;
  id ← getChannelIdentifier b participant1 participant2;
  _ ← raise_if (id =? 0) (RaidenRecoverableError "no channel currently exists");
  Ok id.

(** [get_channel_identifier_or_none] *)
Definition get_channel_identifier_or_none (participant1 participant2 : bytes) b : Py (option Z) :=
  match get_channel_identifier participant1 participant2 b with
  | Ok id => Ok (Some id)
  | Raise (RaidenRecoverableError _) => Ok None
  | Raise e => Raise e
  end.

(** [_detail_participant] *)
Definition detail_participant id (detail_for partner : bytes) b : Py ParticipantDetails :=
  _ ← raise_if_invalid_address_pair detail_for partner;
  data ← getChannelParticipantInfo b id detail_for partner;
  Ok (mkParticipantDetails detail_for (info_deposit data) (info_withdrawn data) (info_is_closer data)
        (info_balance_hash data) (info_nonce data) (info_locksroot data) (info_locked_amount data)).

Definition check_channel_id id : Py Z :=
  _ ← raise_if ((id <=? 0) || (UINT256_MAX <? id)) (RaidenError "InvalidChannelID" "");
  Ok id.

(** [_detail_channel]: the block of the settlement is the constant 1. *)
Definition detail_channel (participant1 participant2 : bytes) b (id : option Z) : Py ChannelData :=
  _ ← raise_if_invalid_address_pair participant1 participant2;
  id ← match id with
       | None => get_channel_identifier participant1 participant2 b
       | Some id => check_channel_id id
       end;
  channel_state ← getChannelState b id participant1 participant2;
  Ok (mkChannelData id 1 channel_state).

(** [detail_participants], for the block of the call *)
Definition proxy_detail_participants (participant1 participant2 : bytes) b (id : option Z) :
    Py ParticipantsDetails :=
  _ ← raise_if (negb (bool_decide (node_address = participant1 \/ node_address = participant2)))
        (ValueError "One participant must be the node address");
  let '(participant1, participant2) :=
    if bool_decide (node_address = participant2) then (participant2, participant1)
    else (participant1, participant2) in
  id ← match id with
       | None => get_channel_identifier participant1 participant2 b
       | Some id => check_channel_id id
       end;
  our_data ← detail_participant id participant1 participant2 b;
  partner_data ← detail_participant id participant2 participant1 b;
  Ok (mkParticipantsDetails our_data partner_data).

(** [channel_is_opened], [channel_is_closed] and [channel_is_settled] *)
Definition channel_is (wanted : OnchainState -> bool) (participant1 participant2 : bytes) b id : Py bool :=
  match detail_channel participant1 participant2 b (Some id) with
  | Ok data => Ok (wanted (cd_state data))
  | Raise (RaidenRecoverableError _) => Ok false
  | Raise e => Raise e
  end.
Definition channel_is_opened := channel_is (fun s => bool_decide (s = OPENED)).
Definition channel_is_closed := channel_is (fun s => bool_decide (s = CLOSED)).
Definition channel_is_settled := channel_is (fun s => 3 <=? state_value s).

(** [can_transfer] *)
Definition can_transfer (participant1 participant2 : bytes) b id : Py bool :=
  opened ← channel_is_opened participant1 participant2 b id;
  if negb opened then Ok false
  else
    details ← detail_participant id participant1 participant2 b;
    Ok (0 <? pd_deposit details).

(** ** Opening a channel *)

(** Why no channel could be opened, at the block of the failure *)
Definition open_failed partner b (unknown : string) : Py TransactionMined :=
  existing ← get_channel_identifier_or_none node_address partner b;
  _ ← raise_if (negb (bool_decide (existing = None))) (RaidenError "DuplicatedChannelError" "");
  network_total_deposit ← token_balance net b;
  limit ← network_limit b;
  _ ← raise_if (limit <=? network_total_deposit) (RaidenError "DepositOverLimit" "");
  deprecated ← deprecation_switch b;
  _ ← raise_if deprecated (RaidenRecoverableError "This token network is deprecated.");
  Raise (RaidenRecoverableError unknown).

(** [_new_netting_channel]: the identifier of the channel and the transaction *)
Definition open_transaction partner (settle_timeout : Z) : Proxy (Z * TransactionMined) :=
  mined ← send_transaction (OpenChannel node_address partner settle_timeout)
            (measured_gas "TokenNetwork.openChannel")
            (fun mined => open_failed partner (AtHash (tm_block_hash mined)) "Creating new channel failed.")
            (fun h n =>
               _ ← check_for_insufficient_eth false (measured_gas "TokenNetwork.openChannel") n;
               open_failed partner (AtHash h) "Creating a new channel will fail");
  data ← st_lift (detail_channel node_address partner (AtHash (tm_block_hash mined)) None);
  mret (cd_channel_identifier data, mined).

Definition count_opening (n : Z) (s : ProxyState) : ProxyState := mkProxyState (px_sent s) (px_opening s + n).

(** [opening_channels_count] is raised during the transaction. *)
Definition counted_open partner (settle_timeout : Z) : Proxy (Z * TransactionMined) := fun s =>
  let '(s', result) := open_transaction partner settle_timeout (count_opening 1 s) in
  (count_opening (-1) s', result).

(** [new_netting_channel] *)
Definition proxy_new_netting_channel partner (settle_timeout : Z) b : Proxy (Z * TransactionMined) :=
  _ ← st_lift (raise_if_invalid_address_pair node_address partner);
  _ ← st_lift (raise_if ((settle_timeout <? timeout_min) || (timeout_max <? settle_timeout))
                 (RaidenError "InvalidSettleTimeout" ""));
  _ ← st_lift (preconditions
        (existing ← get_channel_identifier_or_none node_address partner b;
         network_total_deposit ← token_balance net b;
         limit ← network_limit b;
         deprecated ← deprecation_switch b;
         Ok (existing, network_total_deposit, limit, deprecated))
        (fun '(existing, network_total_deposit, limit, deprecated) =>
         _ ← raise_if (negb (bool_decide (existing = None)))
               (BrokenPreconditionError "A channel with the given partner address already exists.");
         _ ← raise_if (limit <=? network_total_deposit)
               (BrokenPreconditionError "token network deposit limit reached");
         raise_if deprecated (BrokenPreconditionError "This token network is deprecated.")));
  counted_open partner settle_timeout.

(** ** Deposits *)

(** [Token.approve] *)
Definition approve_failed (allowance : Z) b (unknown : string) : Py TransactionMined :=
  balance ← token_balance node_address b;
  _ ← raise_if (balance <? allowance) (RaidenRecoverableError "Your balance is below the required amount");
  Raise (RaidenRecoverableError unknown).

(** The gas of an approval is the estimate: there is no safe limit. *)
Definition approve (allowance : Z) : Proxy unit := fun s =>
  let tx := Approve net allowance in
  let sent := px_sent s in
  match estimate_gas sent tx with
  | Raise e => (s, Raise e)
  | Ok None =>
      let '(h, n) := get_latest_block sent in
      (s, _ ← check_for_insufficient_eth false GAS_REQUIRED_FOR_APPROVE n;
          _ ← approve_failed allowance (AtHash h) "Gas estimation failed for unknown reason.";
          Ok tt)
  | Ok (Some estimate) =>
      (mkProxyState (sent ++ [tx]) (px_opening s),
       mined ← transact_and_poll sent tx estimate;
       if was_transaction_successfully_mined mined then Ok tt
       else
         _ ← check_transaction_failure mined;
         _ ← approve_failed allowance (AtHash (tm_block_hash mined)) "The reason is unknown";
         Ok tt)
  end.

(** The explanations of a failed deposit; in both of them [partner_details] are
    the details of the node itself. *)
Definition deposit_mined_failed id partner (total_deposit amount_to_deposit : Z) (mined : TransactionMined) :
    Py TransactionMined :=
  let b := AtHash (tm_block_hash mined) in
  _ ← check_transaction_failure mined;
  deprecated ← deprecation_switch b;
  _ ← raise_if deprecated (RaidenRecoverableError "This token_network has been deprecated.");
  our ← detail_participant id node_address partner b;
  partner_details ← detail_participant id node_address partner b;
  channel_data ← detail_channel node_address partner b (Some id);
  _ ← raise_if (bool_decide (cd_state channel_data = CLOSED)) (RaidenRecoverableError "the channel was closed meanwhile");
  _ ← raise_if (bool_decide (cd_state channel_data = SETTLED)) (RaidenRecoverableError "the channel was settled meanwhile");
  _ ← raise_if (bool_decide (cd_state channel_data = REMOVED))
        (RaidenRecoverableError "the channel was settled and unlocked meanwhile");
  let deposit_amount := total_deposit - pd_deposit our in
  _ ← raise_if (UINT256_MAX <? total_deposit + pd_deposit partner_details) (RaidenRecoverableError "Deposit overflow");
  _ ← raise_if (total_deposit <=? pd_deposit our)
        (RaidenRecoverableError "Requested total deposit was already performed");
  limit ← network_limit b;
  network_total_deposit ← token_balance net b;
  _ ← raise_if (limit <? network_total_deposit + deposit_amount)
        (RaidenRecoverableError "exceeded the token network deposit limit");
  participant ← participant_limit b;
  _ ← raise_if (participant <? total_deposit)
        (RaidenRecoverableError "larger than the channel participant deposit limit");
  balance ← token_balance node_address (AtNumber (tm_block_number mined));
  let has_sufficient_balance := balance <? amount_to_deposit in
  _ ← raise_if (negb has_sufficient_balance) (RaidenRecoverableError "The account does not have enough balance");
  allowance ← token_allowance node_address net b;
  _ ← raise_if (allowance <? amount_to_deposit) (RaidenRecoverableError "The allowance of the deposit changed.");
  latest ← detail_participant id node_address partner b;
  _ ← raise_if (pd_deposit latest <? total_deposit) (RaidenRecoverableError "The tokens were not transferred");
  Raise (RaidenRecoverableError "Unlocked failed for an unknown reason").

Definition deposit_estimate_failed id partner (total_deposit amount_to_deposit : Z) (h : bytes) (n : Z) :
    Py TransactionMined :=
  let b := AtHash h in
  _ ← check_for_insufficient_eth false (measured_gas "TokenNetwork.setTotalDeposit") n;
  deprecated ← deprecation_switch b;
  _ ← raise_if deprecated (RaidenRecoverableError "This token_network has been deprecated.");
  allowance ← token_allowance node_address net b;
  balance ← token_balance node_address (AtNumber n);
  _ ← raise_if (allowance <? amount_to_deposit) (RaidenRecoverableError "The allowance is insufficient.");
  _ ← raise_if (balance <? amount_to_deposit) (RaidenRecoverableError "The address doesnt have enough tokens");
  queried ← get_channel_identifier_or_none node_address partner b;
  our ← detail_participant id node_address partner b;
  partner_details ← detail_participant id node_address partner b;
  channel_data ← detail_channel node_address partner b (Some id);
  limit ← network_limit b;
  participant ← participant_limit b;
  network_total_deposit ← token_balance net (AtNumber n);
  _ ← raise_if (bool_decide (cd_state channel_data = OPENED \/ cd_state channel_data = CLOSED)
                && negb (bool_decide (queried = Some id)))
        (RaidenUnrecoverableError "There is an open channel with the id");
  _ ← raise_if (bool_decide (cd_state channel_data = CLOSED)) (RaidenRecoverableError "the channel is closed");
  _ ← raise_if (bool_decide (cd_state channel_data = SETTLED)) (RaidenRecoverableError "the channel is settled");
  _ ← raise_if (bool_decide (cd_state channel_data = REMOVED))
        (RaidenRecoverableError "the channel is settled and unlocked");
  _ ← raise_if (total_deposit <=? pd_deposit our) (RaidenRecoverableError "Attempted deposit has already been done");
  _ ← raise_if (bool_decide (cd_state channel_data = NONEXISTENT)) (RaidenUnrecoverableError "Channel does not exist");
  _ ← raise_if (UINT256_MAX <=? total_deposit + pd_deposit partner_details) (RaidenRecoverableError "Deposit overflow");
  _ ← raise_if (participant <? total_deposit)
        (RaidenRecoverableError "exceeded the channel participant deposit limit");
  _ ← raise_if (limit <? network_total_deposit + amount_to_deposit)
        (RaidenRecoverableError "exceeded the token network deposit limit");
  Raise (RaidenRecoverableError "Deposit gas estimatation failed for unknown reasons.").

(** [_approve_and_set_total_deposit] *)
Definition deposit_transaction id (total_deposit : Z) partner (previous_total_deposit : Z) :
    Proxy TransactionMined :=
  let amount_to_deposit := total_deposit - previous_total_deposit in
  _ ← approve (amount_to_deposit + 1);
  send_transaction (DepositTotal id node_address total_deposit partner)
    (measured_gas "TokenNetwork.setTotalDeposit")
    (deposit_mined_failed id partner total_deposit amount_to_deposit)
    (deposit_estimate_failed id partner total_deposit amount_to_deposit).

(** The queries of [approve_and_set_total_deposit] *)
Record DepositQueries : Type := mkDepositQueries {
  dq_queried : option Z;
  dq_channel : ChannelData;
  dq_our : ParticipantDetails;
  dq_partner : ParticipantDetails;
  dq_balance : Z;
  dq_deprecated : bool;
  dq_network_limit : Z;
  dq_participant_limit : Z;
  dq_network_total : Z
}.

Definition deposit_queries id partner b : Py DepositQueries :=
  queried ← get_channel_identifier_or_none node_address partner b;
  channel ← detail_channel node_address partner b (Some id);
  our ← detail_participant id node_address partner b;
  partner_details ← detail_participant id partner node_address b;
  balance ← token_balance node_address b;
  deprecated ← deprecation_switch b;
  limit ← network_limit b;
  participant ← participant_limit b;
  network_total ← token_balance net b;
  Ok (mkDepositQueries queried channel our partner_details balance deprecated limit participant network_total).

Definition check_deposit_queries id (total_deposit : Z) (q : DepositQueries) : Py unit :=
  let amount_to_deposit := total_deposit - pd_deposit (dq_our q) in
  _ ← raise_if (negb (bool_decide (dq_queried q = Some id)))
        (BrokenPreconditionError "the channel id on-chain and the provided id do not match");
  _ ← raise_if (dq_deprecated q) (BrokenPreconditionError "This token_network has been deprecated.");
  _ ← raise_if (negb (bool_decide (cd_state (dq_channel q) = OPENED)))
        (BrokenPreconditionError "The channel was not opened at the provided block");
  _ ← raise_if (total_deposit <=? pd_deposit (dq_our q))
        (BrokenPreconditionError "Current total deposit is already larger");
  _ ← raise_if (UINT256_MAX <? total_deposit + pd_deposit (dq_partner q)) (BrokenPreconditionError "Deposit overflow");
  _ ← raise_if (dq_participant_limit q <? total_deposit)
        (BrokenPreconditionError "larger than the channel participant deposit limit");
  _ ← raise_if (dq_network_limit q <? dq_network_total q + amount_to_deposit)
        (BrokenPreconditionError "exceeded the token network deposit limit");
  raise_if (dq_balance q <? amount_to_deposit)
    (BrokenPreconditionError "can not be larger than the available balance").

(** [approve_and_set_total_deposit]: if the state was pruned, the deposit of the
    latest block is used. *)
Definition proxy_set_total_deposit b id (total_deposit : Z) partner : Proxy TransactionMined :=
  _ ← st_lift (raise_if ((total_deposit <=? 0) && (UINT256_MAX <? total_deposit))
                 (BrokenPreconditionError "Total deposit is not in range"));
  let queries := deposit_queries id partner b in
  _ ← st_lift (preconditions queries (check_deposit_queries id total_deposit));
  our ← st_lift match queries with
                | Ok q => Ok (dq_our q)
                | Raise _ => detail_participant id node_address partner AtLatest
                end;
  deposit_transaction id total_deposit partner (pd_deposit our).

(** ** Withdraws *)

Definition channel_cid id : CanonicalIdentifier := mkCanonicalIdentifier contract_chain_id net id.

(** [recover] in a [try] block that catches every exception *)
Definition recovered (data signature signer : bytes) (not_verified invalid : string) : Py unit :=
  match recover data signature with
  | None => Raise (RaidenUnrecoverableError not_verified)
  | Some a => raise_if (negb (bool_decide (a = signer))) (RaidenUnrecoverableError invalid)
  end.

Definition withdraw_mined_failed id (participant partner : bytes) (total_withdraw expiration_block : Z)
    (mined : TransactionMined) : Py TransactionMined :=
  let b := AtHash (tm_block_hash mined) in
  _ ← check_transaction_failure mined;
  detail ← detail_channel participant partner b (Some id);
  our ← detail_participant id participant partner b;
  partner_details ← detail_participant id partner participant b;
  _ ← raise_if (total_withdraw <=? pd_withdrawn our)
        (RaidenRecoverableError "Requested total withdraw was already performed");
  _ ← raise_if (state_value OPENED <? state_value (cd_state detail))
        (RaidenRecoverableError "the channel closed before the transaction was mined");
  _ ← raise_if (state_value (cd_state detail) <? state_value OPENED)
        (RaidenUnrecoverableError "the channel never existed");
  _ ← raise_if (expiration_block <=? tm_block_number mined)
        (RaidenRecoverableError "mined after the withdraw expired");
  _ ← raise_if (pd_deposit our + pd_deposit partner_details <? total_withdraw + pd_withdrawn partner_details)
        (RaidenError "WithdrawMismatch" "");
  Raise (RaidenUnrecoverableError "SetTotalwithdraw failed for an unknown reason").

Definition withdraw_estimate_failed id (participant partner : bytes) (total_withdraw expiration_block : Z)
    (h : bytes) (n : Z) : Py TransactionMined :=
  let b := AtHash h in
  _ ← check_for_insufficient_eth false (measured_gas "TokenNetwork.setTotalWithdraw") n;
  detail ← detail_channel participant partner b (Some id);
  our ← detail_participant id participant partner b;
  _ ← raise_if (state_value OPENED <? state_value (cd_state detail))
        (RaidenRecoverableError "cannot call setTotalWithdraw on a channel that is not open");
  _ ← raise_if (state_value (cd_state detail) <? state_value OPENED)
        (RaidenUnrecoverableError "cannot call setTotalWithdraw on a channel that does not exist");
  _ ← raise_if (expiration_block <=? n)
        (RaidenRecoverableError "current block has already reached the withdraw expiration");
  _ ← raise_if (total_withdraw <=? pd_withdrawn our)
        (RaidenRecoverableError "Requested total withdraw was already performed");
  Raise (RaidenUnrecoverableError "setTotalWithdraw gas estimation failed for an unknown reason.").

(** The preconditions of [set_total_withdraw] *)
Definition check_withdraw_queries id partner (w : WithdrawInput)
    (q : ChannelData * ParticipantDetails * ParticipantDetails * Z) : Py unit :=
  let '(channel, our, partner_details, given_block_number) := q in
  let total_withdraw := wi_total_withdraw w in
  _ ← raise_if (negb (bool_decide (cd_state channel = OPENED)))
        (RaidenUnrecoverableError "The channel was not opened at the provided block");
  _ ← raise_if (total_withdraw <=? pd_withdrawn our) (RaidenError "WithdrawMismatch" "");
  _ ← raise_if (pd_deposit our + pd_deposit partner_details <? total_withdraw + pd_withdrawn partner_details)
        (RaidenError "WithdrawMismatch" "");
  _ ← raise_if (wi_expiration_block w <=? given_block_number)
        (BrokenPreconditionError "already at expiration block");
  _ ← raise_if (bool_decide (wi_initiator_signature w = EMPTY_SIGNATURE))
        (RaidenUnrecoverableError "set_total_withdraw requires a valid participant signature");
  _ ← raise_if (bool_decide (wi_partner_signature w = EMPTY_SIGNATURE))
        (RaidenUnrecoverableError "set_total_withdraw requires a valid partner signature");
  participant_data ← pack_withdraw (channel_cid id) (wi_initiator w) total_withdraw (wi_expiration_block w);
  _ ← recovered participant_data (wi_initiator_signature w) (wi_initiator w)
        "Couldn't verify the initiator withdraw signature" "Invalid withdraw initiator signature";
  partner_data ← pack_withdraw (channel_cid id) (wi_initiator w) total_withdraw (wi_expiration_block w);
  recovered partner_data (wi_partner_signature w) partner
    "Couldn't verify the partner withdraw signature" "Invalid withdraw partner signature".

(** [set_total_withdraw] with [_set_total_withdraw] *)
Definition proxy_set_total_withdraw b id partner (w : WithdrawInput) : Proxy TransactionMined :=
  let participant := wi_initiator w in
  let total_withdraw := wi_total_withdraw w in
  _ ← st_lift (raise_if (total_withdraw <=? 0) (ValueError "total_withdraw should be larger than zero."));
  _ ← st_lift (preconditions
        (channel ← detail_channel participant partner b (Some id);
         our ← detail_participant id participant partner b;
         partner_details ← detail_participant id partner participant b;
         number ← get_block_number b;
         Ok (channel, our, partner_details, number))
        (check_withdraw_queries id partner w));
  send_transaction (WithdrawTotal id participant total_withdraw (wi_expiration_block w)
                      (wi_partner_signature w) (wi_initiator_signature w))
    (measured_gas "TokenNetwork.setTotalWithdraw")
    (withdraw_mined_failed id participant partner total_withdraw (wi_expiration_block w))
    (withdraw_estimate_failed id participant partner total_withdraw (wi_expiration_block w)).

(** [coop_settle] *)
Definition proxy_coop_settle id (withdraw_initiator withdraw_partner : WithdrawInput) :
    Proxy TransactionMined :=
  send_transaction (CooperativeSettle id withdraw_initiator withdraw_partner)
    (measured_gas "TokenNetwork.cooperativeSettle")
    (fun mined =>
       _ ← check_transaction_failure mined;
       Raise (RaidenRecoverableError "CoopSettle: mining of transaction failed"))
    (fun _ _ => Raise (RaidenRecoverableError "CoopSettle: gas-estimation of transaction failed.")).

(** ** Closing a channel *)

Definition check_closing_signatures id partner (balance_hash : bytes) (nonce : Z)
    (additional_hash non_closing_signature closing_signature : bytes) : Py unit :=
  let cid := channel_cid id in
  _ ← recovered (pack_signed_balance_proof BALANCE_PROOF nonce balance_hash additional_hash cid
                   non_closing_signature) closing_signature node_address
        "Couldn't verify the closing signature" "Invalid closing signature";
  if bool_decide (non_closing_signature = EMPTY_SIGNATURE) then Ok tt
  else recovered (pack_balance_proof nonce balance_hash additional_hash cid) non_closing_signature partner
         "Couldn't verify the non-closing signature" "Invalid non-closing signature".

Definition close_mined_failed id partner (mined : TransactionMined) : Py TransactionMined :=
  _ ← check_transaction_failure mined;
  partner_details ← detail_participant id partner node_address (AtNumber (tm_block_number mined));
  _ ← raise_if (pd_is_closer partner_details)
        (RaidenRecoverableError "Channel was already closed by channel partner first.");
  Raise (RaidenUnrecoverableError "closeChannel call failed").

Definition close_estimate_failed id partner (h : bytes) (n : Z) : Py TransactionMined :=
  _ ← check_for_insufficient_eth true (measured_gas "TokenNetwork.closeChannel") n;
  detail ← detail_channel node_address partner (AtHash h) (Some id);
  _ ← raise_if (state_value (cd_state detail) <? state_value OPENED)
        (RaidenUnrecoverableError "cannot call close channel has not been opened yet.");
  _ ← raise_if (state_value CLOSED <=? state_value (cd_state detail))
        (RaidenRecoverableError "cannot call close on a channel that has been closed already.");
  Raise (RaidenUnrecoverableError "close channel gas estimation failed for an unknown reason.").

(** [close] with [_close] *)
Definition proxy_close id partner (balance_hash : bytes) (nonce : Z)
    (additional_hash non_closing_signature closing_signature : bytes) b : Proxy TransactionMined :=
  _ ← st_lift (check_closing_signatures id partner balance_hash nonce additional_hash
                 non_closing_signature closing_signature);
  _ ← st_lift (preconditions (detail_channel node_address partner b (Some id)) (fun channel =>
        _ ← raise_if (negb (cd_channel_identifier channel =? id))
              (RaidenUnrecoverableError "The provided channel identifier does not match the value on-chain");
        raise_if (negb (bool_decide (cd_state channel = OPENED)))
          (RaidenUnrecoverableError "The channel was not open at the provided block")));
  send_transaction (CloseChannel id partner node_address balance_hash nonce additional_hash
                      non_closing_signature closing_signature)
    (measured_gas "TokenNetwork.closeChannel")
    (close_mined_failed id partner) (close_estimate_failed id partner).

(** ** Updating the balance proof of the partner *)

Definition check_update_signatures id partner (balance_hash : bytes) (nonce : Z)
    (additional_hash closing_signature non_closing_signature : bytes) : Py unit :=
  let cid := channel_cid id in
  let partner_signed_data := pack_balance_proof nonce balance_hash additional_hash cid in
  let our_signed_data := pack_signed_balance_proof BALANCE_PROOF_UPDATE nonce balance_hash additional_hash
                           cid closing_signature in
  match recover partner_signed_data closing_signature, recover our_signed_data non_closing_signature with
  | Some partner_recovered, Some our_recovered =>
      _ ← raise_if (negb (bool_decide (our_recovered = node_address)))
            (RaidenUnrecoverableError "Invalid balance proof signature");
      raise_if (negb (bool_decide (partner_recovered = partner)))
        (RaidenUnrecoverableError "Invalid update transfer signature")
  | _, _ => Raise (RaidenUnrecoverableError "Couldn't verify the balance proof signature")
  end.

Definition check_update_queries (nonce : Z) (q : ChannelData * ParticipantDetails * Z) : Py unit :=
  let '(channel, closer, given_block_number) := q in
  _ ← raise_if (negb (bool_decide (cd_state channel = CLOSED)))
        (RaidenUnrecoverableError "The channel was not closed at the provided block");
  _ ← raise_if (cd_settle_block_number channel <? given_block_number)
        (RaidenUnrecoverableError "update transfer cannot be called after the settlement period");
  raise_if (pd_nonce closer =? nonce) (RaidenRecoverableError "update transfer was already done").

Definition update_mined_failed id partner (nonce : Z) (mined : TransactionMined) : Py TransactionMined :=
  let b := AtNumber (tm_block_number mined) in
  _ ← check_transaction_failure mined;
  channel ← detail_channel node_address partner b (Some id);
  _ ← raise_if ((cd_channel_identifier channel =? 0) || (id <? cd_channel_identifier channel))
        (RaidenRecoverableError "The provided channel identifier does not match the value on-chain");
  _ ← raise_if (state_value SETTLED <=? state_value (cd_state channel))
        (RaidenRecoverableError "Channel was already settled when update transfer was mined.");
  _ ← raise_if (cd_settle_block_number channel <? tm_block_number mined)
        (RaidenRecoverableError "update transfer was mined after the settlement window.");
  partner_details ← detail_participant id partner node_address b;
  _ ← raise_if (negb (pd_nonce partner_details =? nonce))
        (RaidenUnrecoverableError "the on-chain nonce is higher then our expected value");
  _ ← raise_if (state_value (cd_state channel) <? state_value CLOSED)
        (RaidenUnrecoverableError "The channel state changed unexpectedly.");
  Raise (RaidenUnrecoverableError "update transfer failed for an unknown reason").

Definition update_estimate_failed id partner (h : bytes) (n : Z) : Py TransactionMined :=
  let b := AtHash h in
  _ ← check_for_insufficient_eth false (measured_gas "TokenNetwork.updateNonClosingBalanceProof") n;
  detail ← detail_channel node_address partner b (Some id);
  _ ← raise_if (state_value (cd_state detail) <? state_value CLOSED)
        (RaidenUnrecoverableError "cannot call update_transfer channel has not been closed yet.");
  _ ← raise_if (state_value SETTLED <=? state_value (cd_state detail))
        (RaidenRecoverableError "cannot call update_transfer channel has been settled already.");
  _ ← raise_if (cd_settle_block_number detail <? n)
        (RaidenRecoverableError "update_transfer transation sent after settlement window");
  partner_details ← detail_participant id partner node_address b;
  _ ← raise_if (negb (pd_is_closer partner_details))
        (RaidenUnrecoverableError "cannot be sent if the partner did not close the channel");
  Raise (RaidenUnrecoverableError "update_transfer gas estimation failed for an unknown reason.").

(** [update_transfer] with [_update_transfer]; the first check is for the object
    [EMPTY_BALANCE_HASH] itself ([is]), not for its value. *)
Definition proxy_update_transfer (is_the_empty_hash : bool) id partner (balance_hash : bytes) (nonce : Z)
    (additional_hash closing_signature non_closing_signature : bytes) b : Proxy TransactionMined :=
  _ ← st_lift (raise_if is_the_empty_hash
                 (RaidenUnrecoverableError "update_transfer called with an empty balance_hash"));
  _ ← st_lift (raise_if ((nonce <=? 0) || (UINT256_MAX <? nonce))
                 (RaidenUnrecoverableError "update_transfer called with an invalid nonce"));
  _ ← st_lift (check_update_signatures id partner balance_hash nonce additional_hash closing_signature
                 non_closing_signature);
  _ ← st_lift (preconditions
        (channel ← detail_channel node_address partner b (Some id);
         closer ← detail_participant id partner node_address b;
         number ← get_block_number b;
         Ok (channel, closer, number))
        (check_update_queries nonce));
  send_transaction (UpdateNonClosingBalanceProof id partner node_address balance_hash nonce additional_hash
                      closing_signature non_closing_signature)
    (measured_gas "TokenNetwork.updateNonClosingBalanceProof")
    (update_mined_failed id partner nonce) (update_estimate_failed id partner).

(** ** Unlocks *)

Definition unlock_mined_failed id (sender receiver : bytes) (given : BlockId) (mined : TransactionMined) :
    Py TransactionMined :=
  _ ← check_transaction_failure mined;
  details ← detail_participant id sender receiver given;
  _ ← raise_if (bool_decide (pd_locksroot details = LOCKSROOT_OF_NO_LOCKS))
        (RaidenRecoverableError "The locks are already unlocked");
  Raise (RaidenRecoverableError "Unlocked failed for an unknown reason").

Definition unlock_estimate_failed id (sender receiver : bytes) (h : bytes) (n : Z) : Py TransactionMined :=
  let b := AtHash h in
  _ ← check_for_insufficient_eth false UNLOCK_GAS_LIMIT n;
  detail ← detail_channel sender receiver b (Some id);
  details ← detail_participant id sender receiver b;
  _ ← raise_if (state_value (cd_state detail) <? state_value SETTLED)
        (RaidenUnrecoverableError "cannot call unlock on a channel that has not been settled yet.");
  _ ← raise_if (bool_decide (pd_locksroot details = LOCKSROOT_OF_NO_LOCKS))
        (RaidenRecoverableError "The locks are already unlocked");
  Raise (RaidenUnrecoverableError "unlock estimation failed for an unknown reason.").

Definition check_unlock_queries (pending_locks : PendingLocksState) (q : ChannelData * ParticipantDetails) :
    Py unit :=
  let '(channel, details) := q in
  _ ← raise_if (negb (bool_decide (cd_state channel = SETTLED)))
        (RaidenUnrecoverableError "The channel was not settled at the provided block");
  _ ← raise_if (negb (bool_decide (pd_locksroot details = compute_locksroot pending_locks)))
        (RaidenUnrecoverableError "The provided locksroot does correspond to the on-chain locksroot");
  raise_if (pd_locked_amount details =? 0)
    (RaidenUnrecoverableError "The provided locked amount on-chain is 0.").

(** [unlock] with [_unlock]; an object of [PendingLocksState] is always true. *)
Definition proxy_unlock id (sender receiver : bytes) (pending_locks : PendingLocksState) b :
    Proxy TransactionMined :=
  _ ← st_lift (preconditions
        (channel ← detail_channel sender receiver b (Some id);
         details ← detail_participant id sender receiver b;
         Ok (channel, details))
        (check_unlock_queries pending_locks));
  send_transaction (UnlockChannel id receiver sender (concat pending_locks)) UNLOCK_GAS_LIMIT
    (unlock_mined_failed id sender receiver b) (unlock_estimate_failed id sender receiver).

(** ** Settling a channel *)

(** The transferred and locked amount of a participant and its locksroot *)
Record SettleData : Type := mkSettleData {
  sd_transferred_amount : Z;
  sd_locked_amount : Z;
  sd_locksroot : bytes
}.

Definition settle_hash (d : SettleData) : Py bytes :=
  hash_balance_data (sd_transferred_amount d) (sd_locked_amount d) (sd_locksroot d).

Definition check_settle_queries id (ours partners : SettleData)
    (q : ChannelData * ParticipantDetails * ParticipantDetails * Z) : Py unit :=
  let '(channel, our, partner_details, given_block_number) := q in
  _ ← raise_if (negb (id =? cd_channel_identifier channel))
        (BrokenPreconditionError "The provided channel identifier does not match onchain channel_identifier");
  _ ← raise_if (given_block_number <? cd_settle_block_number channel)
        (BrokenPreconditionError "settle cannot be called before the settlement period ends");
  _ ← raise_if (negb (bool_decide (cd_state channel = CLOSED)))
        (BrokenPreconditionError "The channel was not closed at the provided block");
  our_balance_hash ← settle_hash ours;
  partner_balance_hash ← settle_hash partners;
  _ ← raise_if (negb (bool_decide (pd_balance_hash our = our_balance_hash)))
        (BrokenPreconditionError "Our balance hash does not match the on-chain value");
  raise_if (negb (bool_decide (pd_balance_hash partner_details = partner_balance_hash)))
    (BrokenPreconditionError "Partner balance hash does not match the on-chain value").

(** Why a channel could not be settled, at the block of the failure *)
Definition settle_failed id partner (ours partners : SettleData) b (block_number : Z) (unknown : string) :
    Py TransactionMined :=
  channel ← detail_channel node_address partner b (Some id);
  our ← detail_participant id node_address partner b;
  partner_details ← detail_participant id partner node_address b;
  our_balance_hash ← settle_hash ours;
  partner_balance_hash ← settle_hash partners;
  _ ← raise_if (bool_decide (cd_state channel = SETTLED \/ cd_state channel = REMOVED))
        (RaidenRecoverableError "Channel is already settled");
  _ ← raise_if (bool_decide (cd_state channel = OPENED))
        (RaidenUnrecoverableError "Channel is still open. It cannot be settled");
  _ ← raise_if (negb (bool_decide (cd_state channel = CLOSED) && (cd_settle_block_number channel <? block_number)))
        (RaidenUnrecoverableError "Channel cannot be settled before settlement window is over");
  _ ← raise_if (negb (bool_decide (pd_balance_hash our = our_balance_hash)))
        (RaidenUnrecoverableError "Our balance hash does not match the on-chain value");
  _ ← raise_if (negb (bool_decide (pd_balance_hash partner_details = partner_balance_hash)))
        (RaidenUnrecoverableError "Partner balance hash does not match the on-chain value");
  Raise (RaidenRecoverableError unknown).

(** The participant with the larger amount is the second one. *)
Definition settle_transaction id partner (ours partners : SettleData) : ChainTx :=
  let our_maximum := sd_transferred_amount ours + sd_locked_amount ours in
  let partner_maximum := sd_transferred_amount partners + sd_locked_amount partners in
  let settle first d1 second d2 :=
    SettleChannel id first (sd_transferred_amount d1) (sd_locked_amount d1) (sd_locksroot d1)
      second (sd_transferred_amount d2) (sd_locked_amount d2) (sd_locksroot d2) in
  if partner_maximum <? our_maximum then settle partner partners node_address ours
  else settle node_address ours partner partners.

(** [settle] with [_settle] *)
Definition proxy_settle id partner (ours partners : SettleData) b : Proxy TransactionMined :=
  _ ← st_lift (preconditions
        (channel ← detail_channel node_address partner b (Some id);
         our ← detail_participant id node_address partner b;
         partner_details ← detail_participant id partner node_address b;
         number ← get_block_number b;
         Ok (channel, our, partner_details, number))
        (check_settle_queries id ours partners));
  send_transaction (settle_transaction id partner ours partners) (measured_gas "TokenNetwork.settleChannel")
    (fun mined =>
       _ ← check_for_insufficient_eth true (measured_gas "TokenNetwork.settleChannel") (tm_block_number mined);
       settle_failed id partner ours partners (AtHash (tm_block_hash mined)) (tm_block_number mined)
         "Settle failed for an unknown reason")
    (fun h n => settle_failed id partner ours partners (AtHash h) n
                  "Settle gas estimation failed for an unknown reason.").
End proxy.
