(* ===== verification/ProxiesProofs.v ===== *)
(** The operations of the proxy of a token network: what returns was mined, a
    channel is settled with the amounts on the chain, and a balance proof of the
    partner is never updated. *)

From S2P Require Import Prelude PyDict Bytes Crypto PyFloat MediationFee State Events.
From S2P Require Import StateChanges.
From S2P Require Import Channel TokenNetwork Node Views Wal Messages ChainDecode Services.
From S2P Require Import EventHandler Proxies.

#[local] Open Scope Z_scope.

(** ** Explanations of failures always raise *)

Definition never {A} (m : Py A) : Prop := forall a, m <> Ok a.

Lemma never_raise {A} e : never (Raise e : Py A).
Proof. by intros a. Qed.

Lemma never_bind {A B} (m : Py A) (k : A -> Py B) : (forall a, never (k a)) -> never (m ≫= k).
Proof. intros Hk b. destruct m as [a|e]; [apply Hk|done]. Qed.

Create HintDb explanations.
#[export] Hint Resolve never_raise : explanations.

(** A sequence of queries and checks that ends with an exception. *)
Ltac always_raises := intros; cbv zeta; repeat (apply never_bind; intros); auto with explanations.

Section proofs.
Context `{Crypto} `{ServiceProofs} `{ClosingProofs} `{EthClient}.
Context (node_address net : bytes).
Implicit Types (b : BlockId) (id : Z) (partner : bytes).

Lemma approve_failed_raises allowance b msg : never (approve_failed node_address allowance b msg).
Proof. unfold approve_failed. always_raises. Qed.
Lemma deposit_mined_failed_raises id partner total amount mined :
  never (deposit_mined_failed node_address net id partner total amount mined).
Proof. unfold deposit_mined_failed. always_raises. Qed.
Lemma deposit_estimate_failed_raises id partner total amount h n :
  never (deposit_estimate_failed node_address net id partner total amount h n).
Proof. unfold deposit_estimate_failed. always_raises. Qed.
Lemma withdraw_mined_failed_raises id participant partner total expiration mined :
  never (withdraw_mined_failed id participant partner total expiration mined).
Proof. unfold withdraw_mined_failed. always_raises. Qed.
Lemma withdraw_estimate_failed_raises id participant partner total expiration h n :
  never (withdraw_estimate_failed id participant partner total expiration h n).
Proof. unfold withdraw_estimate_failed. always_raises. Qed.
Lemma close_mined_failed_raises id partner mined : never (close_mined_failed node_address id partner mined).
Proof. unfold close_mined_failed. always_raises. Qed.
Lemma close_estimate_failed_raises id partner h n : never (close_estimate_failed node_address id partner h n).
Proof. unfold close_estimate_failed. always_raises. Qed.
Lemma update_mined_failed_raises id partner nonce mined :
  never (update_mined_failed node_address id partner nonce mined).
Proof. unfold update_mined_failed. always_raises. Qed.
Lemma update_estimate_failed_raises id partner h n : never (update_estimate_failed node_address id partner h n).
Proof. unfold update_estimate_failed. always_raises. Qed.
Lemma unlock_mined_failed_raises id sender receiver b mined :
  never (unlock_mined_failed id sender receiver b mined).
Proof. unfold unlock_mined_failed. always_raises. Qed.
Lemma unlock_estimate_failed_raises id sender receiver h n :
  never (unlock_estimate_failed id sender receiver h n).
Proof. unfold unlock_estimate_failed. always_raises. Qed.
Lemma settle_failed_raises id partner ours partners b n msg :
  never (settle_failed node_address id partner ours partners b n msg).
Proof. unfold settle_failed. always_raises. Qed.
Lemma settle_mined_failed_raises id partner ours partners b n msg gas executed m :
  never (_ ← check_for_insufficient_eth executed gas m;
         settle_failed node_address id partner ours partners b n msg).
Proof. apply never_bind. intros. apply settle_failed_raises. Qed.
Lemma coop_settle_failed_raises mined msg :
  never (_ ← check_transaction_failure mined; Raise (A := TransactionMined) (RaidenRecoverableError msg)).
Proof. always_raises. Qed.

Hint Resolve deposit_mined_failed_raises deposit_estimate_failed_raises withdraw_mined_failed_raises
  withdraw_estimate_failed_raises close_mined_failed_raises close_estimate_failed_raises
  update_mined_failed_raises update_estimate_failed_raises unlock_mined_failed_raises
  unlock_estimate_failed_raises settle_failed_raises settle_mined_failed_raises
  coop_settle_failed_raises : explanations.

(** ** A transaction *)

(** What an operation makes of its transaction: nothing was sent and it raises, or
    the transaction was sent, and the operation returns what was mined if that
    was successful and raises otherwise. *)
Definition transaction_outcome (tx : ChainTx) (s s' : ProxyState) (r : Py TransactionMined) : Prop :=
  (s' = s /\ exists e, r = Raise e)
  \/ (s' = mkProxyState (px_sent s ++ [tx]) (px_opening s)
      /\ exists limit,
          match transact_and_poll (px_sent s) tx limit with
          | Ok mined => if bool_decide (tm_status mined = 0) then exists e, r = Raise e else r = Ok mined
          | Raise e => r = Raise e
          end).

Lemma send_transaction_outcome tx measured mined_failed estimate_failed s s' r :
  (forall mined, never (mined_failed mined)) -> (forall h n, never (estimate_failed h n)) ->
  send_transaction tx measured mined_failed estimate_failed s = (s', r) ->
  transaction_outcome tx s s' r.
Proof.
  intros Hm He. unfold send_transaction. destruct (estimate_gas (px_sent s) tx) as [[estimate|]|e].
  - destruct (safe_gas_limit estimate measured) as [limit|e]; intros [= <- <-]; [right|left; eauto].
    split; [done|]. exists limit. destruct (transact_and_poll _ tx limit) as [mined|e]; cbn; [|done].
    unfold was_transaction_successfully_mined, RECEIPT_FAILURE_CODE. case_bool_decide as Hs.
    + rewrite Hs. cbn. specialize (Hm mined). destruct (mined_failed mined) as [a|e]; [by destruct (Hm a)|eauto].
    + by rewrite (proj2 (Z.eqb_neq _ _) Hs).
  - destruct (get_latest_block (px_sent s)) as [h n]. intros [= <- <-]. left. split; [done|].
    specialize (He h n). destruct (estimate_failed h n) as [a|e]; [by destruct (He a)|eauto].
  - intros [= <- <-]. left. eauto.
Qed.

Lemma st_lift_cases {S A B} (m : Py A) (k : A -> St S B) s s' r :
  (st_lift m ≫= k) s = (s', r) ->
  (exists e, m = Raise e /\ s' = s /\ r = Raise e) \/ exists a, m = Ok a /\ k a s = (s', r).
Proof. unfold mbind, st_bind, st_lift. destruct m as [a|e]; [eauto|]. intros [= <- <-]. eauto. Qed.

Lemma preconditions_ok {A} (queries : Py A) check u :
  preconditions queries check = Ok u ->
  (exists a, queries = Ok a /\ check a = Ok tt) \/ exists msg, queries = Raise (ValueError msg).
Proof.
  destruct u. unfold preconditions. destruct queries as [a|e]; [eauto|].
  destruct e; try done; [eauto|]. by case_bool_decide.
Qed.

(** ** The operations *)

(** The operations that send one transaction. *)
Inductive Operation : Type :=
  | OpWithdraw b id partner (w : WithdrawInput)
  | OpCoopSettle id (withdraw_initiator withdraw_partner : WithdrawInput)
  | OpClose id partner (balance_hash : bytes) (nonce : Z)
      (additional_hash non_closing_signature closing_signature : bytes) b
  | OpUpdate (is_empty : bool) id partner (balance_hash : bytes) (nonce : Z)
      (additional_hash closing_signature non_closing_signature : bytes) b
  | OpUnlock id (sender receiver : bytes) (pending_locks : PendingLocksState) b
  | OpSettle id partner (ours partners : SettleData) b.

Definition run_operation (op : Operation) : Proxy TransactionMined :=
  match op with
  | OpWithdraw b id partner w => proxy_set_total_withdraw net b id partner w
  | OpCoopSettle id wi wp => proxy_coop_settle id wi wp
  | OpClose id partner bh n ah ns cs b => proxy_close node_address net id partner bh n ah ns cs b
  | OpUpdate e id partner bh n ah cs ns b => proxy_update_transfer node_address net e id partner bh n ah cs ns b
  | OpUnlock id sender receiver locks b => proxy_unlock id sender receiver locks b
  | OpSettle id partner ours partners b => proxy_settle node_address id partner ours partners b
  end.

Definition operation_transaction (op : Operation) : ChainTx :=
  match op with
  | OpWithdraw b id partner w =>
      WithdrawTotal id (wi_initiator w) (wi_total_withdraw w) (wi_expiration_block w)
        (wi_partner_signature w) (wi_initiator_signature w)
  | OpCoopSettle id wi wp => CooperativeSettle id wi wp
  | OpClose id partner bh n ah ns cs b => CloseChannel id partner node_address bh n ah ns cs
  | OpUpdate e id partner bh n ah cs ns b => UpdateNonClosingBalanceProof id partner node_address bh n ah cs ns
  | OpUnlock id sender receiver locks b => UnlockChannel id receiver sender (concat locks)
  | OpSettle id partner ours partners b => settle_transaction node_address id partner ours partners
  end.

Lemma outcome_raised tx s e : transaction_outcome tx s s (Raise e).
Proof. left. eauto. Qed.

(** Each operation sends its transaction at most once, and returns exactly if it
    was mined successfully. *)
Theorem operation_outcome op s s' r :
  run_operation op s = (s', r) -> transaction_outcome (operation_transaction op) s s' r.
Proof.
  destruct op; cbn [run_operation operation_transaction]; unfold proxy_set_total_withdraw, proxy_coop_settle,
    proxy_close, proxy_update_transfer, proxy_unlock, proxy_settle; cbv zeta; intros Hrun;
    repeat (apply st_lift_cases in Hrun as [(e & _ & -> & ->)|(? & _ & Hrun)]; [apply outcome_raised|]);
    (eapply send_transaction_outcome; [| |exact Hrun]; intros; cbn beta; auto with explanations).
Qed.

(** ** Deposits *)

(** The transactions of a deposit: nothing, the approval, or the approval and the
    deposit of the total. *)
Definition deposit_sent id partner (total_deposit : Z) (txs : list ChainTx) : Prop :=
  txs = [] \/ exists allowance,
    txs = [Approve net allowance]
    \/ txs = [Approve net allowance; DepositTotal id node_address total_deposit partner].

Lemma approve_outcome allowance s s' r :
  approve node_address net allowance s = (s', r) ->
  (s' = s /\ exists e, r = Raise e)
  \/ s' = mkProxyState (px_sent s ++ [Approve net allowance]) (px_opening s).
Proof.
  unfold approve. destruct (estimate_gas _ _) as [[estimate|]|e].
  - intros [= <- _]. by right.
  - destruct (get_latest_block _) as [h n]. intros [= <- <-]. left. split; [done|].
    assert (never (_ ← check_for_insufficient_eth false GAS_REQUIRED_FOR_APPROVE n;
      _ ← approve_failed node_address allowance (AtHash h) "Gas estimation failed for unknown reason.";
      Ok tt)) as Hn.
    { apply never_bind. intros _ [] Hf.
      apply bind_Ok in Hf as (mined & Hf & _). by apply approve_failed_raises in Hf. }
    match goal with |- exists e, ?m = _ => destruct m as [u|e] eqn:E end; [by destruct (Hn u)|eauto].
  - intros [= <- <-]. left. eauto.
Qed.

(** A deposit sends its two transactions in this order and at most once, and if it
    returns both were sent and the deposit was mined successfully. *)
Lemma set_total_deposit_outcome b id total_deposit partner s s' r :
  proxy_set_total_deposit node_address net b id total_deposit partner s = (s', r) ->
  exists txs, px_sent s' = px_sent s ++ txs /\ deposit_sent id partner total_deposit txs
    /\ forall mined, r = Ok mined -> length txs = 2%nat /\ tm_status mined <> 0.
Proof.
  intros Hrun. unfold proxy_set_total_deposit in Hrun. cbv zeta in Hrun.
  assert (forall e, s' = s -> r = Raise e ->
    exists txs, px_sent s' = px_sent s ++ txs /\ deposit_sent id partner total_deposit txs
      /\ forall mined, r = Ok mined -> length txs = 2%nat /\ tm_status mined <> 0) as Hnone.
  { intros e -> ->. exists []. rewrite app_nil_r. split; [done|]. split; [by left|done]. }
  repeat (apply st_lift_cases in Hrun as [(e & _ & Hs & Hr)|(? & _ & Hrun)]; [by eapply Hnone|]).
  unfold deposit_transaction, mbind, st_bind in Hrun.
  destruct (approve node_address net _ s) as [s1 [[]|e]] eqn:Ea;
    apply approve_outcome in Ea as [[-> [e' He]]| ->]; simplify_eq.
  - destruct (send_transaction_outcome _ _ _ _ _ _ _
      (deposit_mined_failed_raises _ _ _ _) (deposit_estimate_failed_raises _ _ _ _) Hrun)
      as [[-> [e ->]]|[-> (limit & Hl)]]; cbn; eexists.
    + split; [done|]. split; [right; eexists; by left|done].
    + rewrite <- app_assoc. split; [done|]. split; [right; eexists; by right|].
      intros mined ->. split; [done|]. destruct (transact_and_poll _ _ _) as [m|]; [|done].
      case_bool_decide; [by destruct Hl|]. by injection Hl as ->.
  - by eapply Hnone.
  - cbn. eexists. split; [done|]. split; [right; eexists; by left|done].
Qed.

(** ** Settling *)

(** The preconditions of a settlement at a block: the channel is closed, and the
    amounts have the balance hashes that both participants have on the chain. *)
Definition settleable id partner (ours partners : SettleData) b : Prop :=
  exists our_info partner_info,
    getChannelState b id node_address partner = Ok CLOSED
    /\ getChannelParticipantInfo b id node_address partner = Ok our_info
    /\ getChannelParticipantInfo b id partner node_address = Ok partner_info
    /\ settle_hash ours = Ok (info_balance_hash our_info)
    /\ settle_hash partners = Ok (info_balance_hash partner_info).

(** The state of the block was pruned, so that nothing can be checked. *)
Definition pruned id partner b : Prop :=
  exists msg,
    (channel ← detail_channel node_address partner b (Some id);
     our ← detail_participant id node_address partner b;
     partner_details ← detail_participant id partner node_address b;
     number ← get_block_number b;
     Ok (channel, our, partner_details, number)) = Raise (ValueError msg).

(** A transaction that settles the channel: each participant has its own amounts,
    and the second one the larger sum, as the contract wants it. *)
Definition settles id partner (ours partners : SettleData) (tx : ChainTx) : Prop :=
  match tx with
  | SettleChannel tx_id p1 t1 l1 r1 p2 t2 l2 r2 =>
      tx_id = id /\ t1 + l1 <= t2 + l2
      /\ ((p1, mkSettleData t1 l1 r1, p2, mkSettleData t2 l2 r2) = (node_address, ours, partner, partners)
          \/ (p1, mkSettleData t1 l1 r1, p2, mkSettleData t2 l2 r2) = (partner, partners, node_address, ours))
  | _ => False
  end.

Lemma settle_transaction_settles id partner ours partners :
  settles id partner ours partners (settle_transaction node_address id partner ours partners).
Proof.
  unfold settle_transaction. destruct ours, partners. cbn.
  destruct (_ <? _) eqn:E; cbn; (split; [done|]); split; [lia|by right|lia|by left].
Qed.

Lemma detail_participant_info id detail_for partner b details :
  detail_participant id detail_for partner b = Ok details ->
  exists info, getChannelParticipantInfo b id detail_for partner = Ok info
    /\ pd_balance_hash details = info_balance_hash info.
Proof.
  unfold detail_participant. intros Hd. apply bind_Ok in Hd as (_ & _ & Hd).
  apply bind_Ok in Hd as (info & Hi & [= <-]). by exists info.
Qed.

Lemma detail_channel_data participant1 participant2 b id data :
  detail_channel participant1 participant2 b (Some id) = Ok data ->
  exists st, getChannelState b id participant1 participant2 = Ok st /\ data = mkChannelData id 1 st.
Proof.
  unfold detail_channel, check_channel_id. intros Hd. apply bind_Ok in Hd as (_ & _ & Hd).
  apply bind_Ok in Hd as (id' & Hi & Hd). apply bind_Ok in Hi as (_ & _ & [= <-]).
  apply bind_Ok in Hd as (st & Hs & [= <-]). by exists st.
Qed.

Lemma settle_checked id partner ours partners b q :
  (channel ← detail_channel node_address partner b (Some id);
   our ← detail_participant id node_address partner b;
   partner_details ← detail_participant id partner node_address b;
   number ← get_block_number b;
   Ok (channel, our, partner_details, number)) = Ok q ->
  check_settle_queries id ours partners q = Ok tt ->
  settleable id partner ours partners b.
Proof.
  intros Hq. apply bind_Ok in Hq as (channel & Hc & Hq). apply bind_Ok in Hq as (our & Ho & Hq).
  apply bind_Ok in Hq as (partner_details & Hp & Hq). apply bind_Ok in Hq as (number & _ & [= <-]).
  apply detail_channel_data in Hc as (st & Hs & ->).
  apply detail_participant_info in Ho as (our_info & Hoi & Eo).
  apply detail_participant_info in Hp as (partner_info & Hpi & Ep).
  unfold check_settle_queries. intros Hk. apply bind_Ok in Hk as (_ & _ & Hk).
  apply bind_Ok in Hk as (_ & _ & Hk). apply bind_Ok in Hk as (_ & Hst%raise_if_Ok & Hk).
  apply bind_Ok in Hk as (our_hash & Hoh & Hk). apply bind_Ok in Hk as (partner_hash & Hph & Hk).
  apply bind_Ok in Hk as (_ & H1'%raise_if_Ok & H2'%raise_if_Ok). cbn in Hst.
  apply negb_false_iff, bool_decide_eq_true in Hst, H1', H2'. subst st.
  exists our_info, partner_info. rewrite <- Eo, <- Ep, H1', H2'. done.
Qed.

(** C12: a channel is settled with the amounts on the chain.  An operation that
    raises before it sends anything leaves no trace.  Otherwise exactly one
    transaction was sent, which settles this channel with the amounts of the call,
    the larger sum second; and if the state of the given block is known, the
    channel was closed there and the amounts have the balance hashes of both
    participants.  The operation returns exactly if the transaction was mined
    successfully. *)
Theorem settled_as_on_the_chain id partner ours partners b s s' r
    (Hrun : proxy_settle node_address id partner ours partners b s = (s', r)) :
  exists tx, settles id partner ours partners tx /\ transaction_outcome tx s s' r
    /\ (s' <> s -> pruned id partner b \/ settleable id partner ours partners b).
Proof.
  exists (settle_transaction node_address id partner ours partners).
  split; [apply settle_transaction_settles|].
  split; [by apply (operation_outcome (OpSettle id partner ours partners b))|]. intros Hsent.
  unfold proxy_settle in Hrun. apply st_lift_cases in Hrun as [(e & _ & -> & _)|([] & Hpre & _)]; [done|].
  apply preconditions_ok in Hpre as [(q & Hq & Hk)|[msg Hq]]; [right|left; by exists msg].
  by eapply settle_checked.
Qed.

(** ** Updates *)

Lemma recovered_unrecoverable data signature signer m1 m2 :
  recovered data signature signer m1 m2 = Ok tt
  \/ exists msg, recovered data signature signer m1 m2 = Raise (RaidenUnrecoverableError msg).
Proof. unfold recovered, raise_if. destruct (recover data signature); [case_match|]; eauto. Qed.

Lemma update_signatures_unrecoverable id partner balance_hash nonce additional_hash c n :
  check_update_signatures node_address net id partner balance_hash nonce additional_hash c n = Ok tt
  \/ exists msg, check_update_signatures node_address net id partner balance_hash nonce additional_hash c n
                 = Raise (RaidenUnrecoverableError msg).
Proof.
  unfold check_update_signatures, raise_if. repeat (case_match; cbn; eauto).
Qed.

(** The contract can be queried for the channel at a block after the first one. *)
Definition queryable id partner b : Prop :=
  raise_if_invalid_address_pair node_address partner = Ok tt
  /\ raise_if_invalid_address_pair partner node_address = Ok tt /\ 0 < id <= UINT256_MAX
  /\ (exists st, getChannelState b id node_address partner = Ok st)
  /\ (exists info, getChannelParticipantInfo b id partner node_address = Ok info)
  /\ exists n, get_block_number b = Ok n /\ 1 < n.

Lemma update_preconditions_refused id partner nonce b :
  queryable id partner b ->
  exists msg,
    preconditions
      (channel ← detail_channel node_address partner b (Some id);
       closer ← detail_participant id partner node_address b;
       number ← get_block_number b;
       Ok (channel, closer, number)) (check_update_queries nonce)
    = Raise (RaidenUnrecoverableError msg).
Proof.
  intros (H1' & H2' & Hid & [st Hs] & [info Hi] & n & Hn & Hlt).
  unfold detail_channel, detail_participant, check_channel_id. rewrite H1', H2'. cbn.
  rewrite (proj2 (Z.leb_gt _ _)), (proj2 (Z.ltb_ge _ _)) by lia. cbn. rewrite Hs. cbn.
  rewrite Hi. cbn. rewrite Hn. cbn. case_bool_decide; cbn; [|eauto].
  rewrite (proj2 (Z.ltb_lt _ _) Hlt). cbn. eauto.
Qed.

(** A withdraw is never sent while the state of the given block is known: the data
    that both participants sign cannot be packed. *)
Theorem withdraw_is_refused b id partner w s :
  (forall msg,
     (channel ← detail_channel (wi_initiator w) partner b (Some id);
      our ← detail_participant id (wi_initiator w) partner b;
      partner_details ← detail_participant id partner (wi_initiator w) b;
      number ← get_block_number b;
      Ok (channel, our, partner_details, number)) <> Raise (ValueError msg)) ->
  exists e, proxy_set_total_withdraw net b id partner w s = (s, Raise e).
Proof.
  intros Hknown. destruct (proxy_set_total_withdraw net b id partner w s) as [s' r] eqn:Hrun.
  unfold proxy_set_total_withdraw in Hrun. cbv zeta in Hrun.
  apply st_lift_cases in Hrun as [(e & _ & -> & ->)|(? & _ & Hrun)]; [eauto|].
  apply st_lift_cases in Hrun as [(e & _ & -> & ->)|(? & Hpre & _)]; [eauto|].
  apply preconditions_ok in Hpre as [([[[c o] p] n] & _ & Hk)|[msg Hq]]; [|by destruct (Hknown msg)].
  exfalso. revert Hk. unfold check_withdraw_queries. cbv zeta.
  do 6 (apply never_bind; intros ?). done.
Qed.

(** C40: no balance proof of a partner is ever updated.  Whatever the arguments are,
    also for a channel that the partner closed with an old balance proof and within
    the settlement period, the operation raises [RaidenUnrecoverableError] and sends
    nothing, as soon as the contract can be queried at the given block: the block
    of the settlement that the preconditions use is the constant 1. *)
Theorem update_is_always_refused is_empty id partner balance_hash nonce additional_hash c n b s
    (Hq : queryable id partner b) :
  exists msg,
    proxy_update_transfer node_address net is_empty id partner balance_hash nonce additional_hash c n b s
    = (s, Raise (RaidenUnrecoverableError msg)).
Proof.
  unfold proxy_update_transfer, mbind, st_bind, st_lift. destruct is_empty; [cbn; eauto|]. cbn [raise_if].
  destruct ((nonce <=? 0) || (UINT256_MAX <? nonce)); [cbn; eauto|]. cbn [raise_if].
  destruct (update_signatures_unrecoverable id partner balance_hash nonce additional_hash c n)
    as [-> | [msg ->]]; [|eauto].
  destruct (update_preconditions_refused id partner nonce b Hq) as [msg Hp].
  unfold mbind in Hp. rewrite Hp. eauto.
Qed.
End proofs.
