(* ===== verification/Api.v ===== *)
(** What the user asks the node for ([api/python.py]): opening and closing
    channels, deposits, withdraws and payments, with the estimate of the gas that
    the channels need ([utils/gas_reserve.py]), the conditions that the calls wait
    for ([waiting.py]) and the proxies that are made for the contracts
    ([network/proxies/proxy_manager.py]).

    The contracts and the Ethereum client are the class [Chain]; every query of
    them may raise.  Deposits and new channels go through the proxy of the token
    network ([Proxies]).  The other
    greenlets run while a call sleeps: what they do to the service in each sleep of
    the call is given with the call, as the list of its [Sleep]s; a call that needs
    more of them is still waiting, which is a timeout for its caller. *)

From Stdlib Require Import SpecFloat.
From stdpp Require Import pretty.
From S2P Require Import Prelude PyDict Bytes Crypto PyFloat MediationFee State Events.
From S2P Require Import StateChanges Formatting Channel TokenNetwork TransferTasks Mediator.
From S2P Require Import Target Initiator.
From S2P Require Import InitiatorManager Node Views Wal WalProofs Messages MessageHandler.
From S2P Require Import ChainDecode.
From S2P Require Import Services EventHandler ServiceStart Pathfinding Routing Payments.
From S2P Require Import Proxies.

#[local] Open Scope Z_scope.

(** ** The contracts *)

(** The calls of the contracts at a block and of the client, which raise as the
    Ethereum node does. *)
Class Chain : Type := {
  (** [is_binary_address] of [eth_utils] *)
  is_binary_address : bytes -> bool;
  (** whether there is code at an address *)
  get_code : BlockId -> bytes -> Py bool;
  (** the contract of the registry *)
  registry_timeout_min : bytes -> BlockId -> Py Z;
  registry_timeout_max : bytes -> BlockId -> Py Z;
  token_to_token_networks : bytes -> BlockId -> bytes -> Py bytes;
  (** [balanceOf] of a token *)
  balanceOf : bytes -> bytes -> BlockId -> Py Z;
  (** the chain and the token of a token network, and its contract *)
  network_constants : bytes -> Py (Z * bytes);
  token_network_client : bytes -> EthClient;
  gas_measurements : string -> Z;
  generate_gas_price : Py (option Z);
  web3_gas_price : Py Z;
  web3_balance : Py Z
}.

(** [TokenNetworkRegistry.get_token_network] *)
Definition get_token_network `{Chain} (registry token : bytes) (b : BlockId) : Py (option bytes) :=
  a ← token_to_token_networks registry b token;
  Ok (if bool_decide (a = NULL_ADDRESS_BYTES) then None else Some a).

(** [check_address_has_code_handle_pruned_block] *)
Definition check_address_has_code `{Chain} (a : bytes) (b : BlockId) : Py unit :=
  code ← get_code b a;
  raise_if (negb code) (RaidenError "AddressWithoutCode" EmptyString).
Definition check_code_handle_pruned_block `{Chain} (a : bytes) (b : BlockId) : Py unit :=
  match check_address_has_code a b with
  | Raise (ValueError _) => check_address_has_code a AtLatest
  | r => r
  end.

(** [ProxyManager]: the tokens and registries with a proxy, and the proxies of the
    token networks. *)
Record ProxyManager : Type := mkProxyManager {
  address_to_token : list bytes;
  address_to_token_network_registry : list bytes;
  address_to_token_network : dict bytes ProxyState
}.

(** ** Gas *)

Definition UNLOCK_TX_GAS_LIMIT : Z := 1256636.
Definition float_1_1 : float := S754_finite false 4953959590107546 (-52).

Section gas.
Context `{Chain}.

Definition gas_required_for_channel_lifecycle_after_close : Z :=
  gas_measurements "TokenNetwork.settleChannel" + UNLOCK_TX_GAS_LIMIT.
Definition gas_required_for_channel_lifecycle_after_open : Z :=
  gas_measurements "TokenNetwork.closeChannel" + gas_required_for_channel_lifecycle_after_close.
Definition gas_required_for_channel_lifecycle_complete : Z :=
  gas_measurements "TokenNetwork.openChannel" + gas_measurements "TokenNetwork.setTotalDeposit"
  + gas_required_for_channel_lifecycle_after_open.

(** [gas_price_for_fast_transaction] *)
Definition gas_price_for_fast_transaction : Py Z :=
  match generate_gas_price with
  | Ok (Some price) => Ok price
  | Ok None | Raise AttributeError | Raise IndexError => web3_gas_price
  | Raise e => Raise e
  end.

(** [get_required_gas_estimate] *)
Definition get_required_gas_estimate (manager : ProxyManager) (cs : ChainState) (registry : bytes) (channels_to_open : Z) : Z :=
  let count f := zsum (fun token => Z.of_nat (length (f cs registry token : list NettingChannelState)))
                   (get_token_identifiers cs registry) in
  let opening_channels_count := zsum px_opening (dict_values (address_to_token_network manager)) in
  (opening_channels_count + channels_to_open) * gas_required_for_channel_lifecycle_complete
  + count get_channelstate_open * gas_required_for_channel_lifecycle_after_open
  + count get_channelstate_closing * gas_required_for_channel_lifecycle_after_close
  + count get_channelstate_closed * gas_required_for_channel_lifecycle_after_close
  + count get_channelstate_settling * UNLOCK_TX_GAS_LIMIT
  + count get_channelstate_settled * UNLOCK_TX_GAS_LIMIT.

(** [get_reserve_estimate] *)
Definition get_reserve_estimate (manager : ProxyManager) (cs : ChainState) (registry : bytes)
    (channels_to_open : Z) : Py Z :=
  gas_price ← gas_price_for_fast_transaction;
  let reserve_amount := get_required_gas_estimate manager cs registry channels_to_open * gas_price in
  amount ← float_of_int reserve_amount;
  float_round (float_mul amount float_1_1).

(** [has_enough_gas_reserve] *)
Definition has_enough_gas_reserve (manager : ProxyManager) (cs : ChainState) (registry : bytes)
    (channels_to_open : Z) : Py (bool * Z) :=
  secure_reserve_estimate ← get_reserve_estimate manager cs registry channels_to_open;
  current_account_balance ← web3_balance;
  Ok (secure_reserve_estimate <=? current_account_balance, secure_reserve_estimate).
End gas.

(** ** Conditions ([waiting.py]) *)

(** [_get_channel_state_by_partner_address] *)
Definition channel_state_by_partner_address (registry token partner : bytes) (cs : ChainState) :
    Py (option NettingChannelState) :=
  match get_token_network_by_token_address cs registry token with
  | None => Raise (ValueError "The token is not registered on the network")
  | Some tn => get_channelstate_by_token_network_and_partner cs (tn_address tn) partner
  end.

(** [ChannelHasDeposit.evaluate] *)
Definition channel_has_deposit (target_address : bytes) (target_balance : Z)
    (c : option NettingChannelState) : Py bool :=
  match c with
  | None => Ok false
  | Some c =>
      if bool_decide (target_address = address (our_state c))
      then Ok (target_balance <=? contract_balance (our_state c))
      else if bool_decide (target_address = address (partner_state c))
      then Ok (target_balance <=? contract_balance (partner_state c))
      else Raise (ValueError "target_address must be one of the channel participants")
  end.

(** [ChannelExists.evaluate] *)
Definition channel_exists (c : option NettingChannelState) : Py bool :=
  Ok match c with Some _ => true | None => false end.

(** [ChannelInTargetStates.evaluate] *)
Definition channel_in_target_states (target_states : list ChannelState) (c : option NettingChannelState) :
    Py bool :=
  Ok match c with None => true | Some c => bool_decide (get_status c ∈ target_states) end.

(** [ChannelExpiredCoopSettle.evaluate] *)
Definition channel_expired_coop_settle (block_number : Z) (c : option NettingChannelState) : Py bool :=
  match c with
  | None => Ok false
  | Some c =>
      coop_settle ← assert_some (initiated_coop_settle (our_state c)) "must be set";
      Ok (cs_expiration coop_settle <? block_number)
  end.

Definition CHANNEL_AFTER_CLOSE_STATES : list ChannelState :=
  [STATE_CLOSED; STATE_SETTLING; STATE_SETTLED].

(** ** Checks of the arguments *)

Definition api_error (cls : string) : exn := RaidenError cls EmptyString.

(** [_raise_for_invalid_channel_timeouts] *)
Definition raise_for_invalid_channel_timeouts (min_reveal_timeout settle_timeout reveal_timeout : Z) :
    Py unit :=
  _ ← raise_if (reveal_timeout <? min_reveal_timeout) (api_error "InvalidRevealTimeout");
  raise_if (settle_timeout <? reveal_timeout * 2) (api_error "InvalidSettleTimeout").

Definition require_binary `{Chain} (a : bytes) : Py unit :=
  raise_if (negb (is_binary_address a)) (api_error "InvalidBinaryAddress").

(** The configuration of the calls. *)
Record ApiConfig : Type := mkApiConfig {
  minimum_reveal_timeout : Z;
  default_settle_timeout : Z;
  default_reveal_timeout : Z
}.

(** A waiter for a channel, with the state of its condition. *)
Record ChannelWaiter (C : Type) : Type := mkChannelWaiter {
  cw_registry : bytes;
  cw_token : bytes;
  cw_partner : bytes;
  cw_condition : C
}.
Arguments mkChannelWaiter {_} _ _ _ _.
Arguments cw_registry {_} _.
Arguments cw_token {_} _.
Arguments cw_partner {_} _.
Arguments cw_condition {_} _.

Section api.
Context `{Crypto} `{FloatPow} `{UlidFactory} `{MessageEnv} `{ServiceProofs} `{!PrivateKey}.
Context `{ClosingProofs} `{Chain}.
Context {Data : Type}.
Context `{!Serializer Data ChainState} `{!Serializer Data StateChange} `{!Serializer Data Event}.
Context (env : ServiceEnv) (proxy : PFSProxy) (api_config : ApiConfig).
Implicit Types (registry token partner net : bytes) (cs : ChainState).

(** ** The calls *)

Notation service := (Service (Data := Data)).

(** A sleep of the call: what the other greenlets do to the service, the exception
    of a greenlet that the call joins, and whether the node and its alarm task run
    when the sleep starts. *)
Record Sleep : Type := mkSleep {
  sl_running : bool;
  sl_others : service -> service;
  sl_joined : Py unit
}.

(** The service, the proxies with the transactions that they sent, and the sleeps
    to come. *)
Record ApiState : Type := mkApiState {
  as_service : service;
  as_manager : ProxyManager;
  as_sleeps : list Sleep
}.

Notation Api := (St ApiState).

Definition on_service {A} (m : St service A) : Api A := fun s =>
  let '(service', result) := m (as_service s) in
  (mkApiState service' (as_manager s) (as_sleeps s), result).

Definition current_state : Api ChainState := fun s => (s, Ok (sv_state (as_service s))).

Definition still_waiting : exn := api_error "Timeout".

(** [gevent.joinall] of the threads of a batch of state changes. *)
Definition join_threads (threads : list (list RaidenEvent)) : Api unit := fun s =>
  match threads, as_sleeps s with
  | [], _ => (s, Ok tt)
  | _, [] => (s, Raise still_waiting)
  | _, sleep :: sleeps =>
      (mkApiState (sl_others sleep (add_threads threads (as_service s))) (as_manager s) sleeps,
       sl_joined sleep)
  end.

(** ** Proxies *)

Definition set_manager (manager : ProxyManager) (s : ApiState) : ApiState :=
  mkApiState (as_service s) manager (as_sleeps s).

(** [ProxyManager.token]: a proxy is made once. *)
Definition manager_token token (b : BlockId) : Api unit := fun s =>
  let m := as_manager s in
  if negb (is_binary_address token)
  then (s, Raise (ValueError "token_address must be a valid address"))
  else if bool_decide (token ∈ address_to_token m) then (s, Ok tt)
  else
    match check_code_handle_pruned_block token b with
    | Raise e => (s, Raise e)
    | Ok _ =>
        (set_manager (mkProxyManager (address_to_token m ++ [token])
           (address_to_token_network_registry m) (address_to_token_network m)) s, Ok tt)
    end.

(** [ProxyManager.token_network_registry] *)
Definition manager_registry registry (b : BlockId) : Api unit := fun s =>
  let m := as_manager s in
  if bool_decide (registry ∈ address_to_token_network_registry m) then (s, Ok tt)
  else
    match check_code_handle_pruned_block registry b with
    | Raise e => (s, Raise e)
    | Ok _ =>
        (set_manager (mkProxyManager (address_to_token m)
           (address_to_token_network_registry m ++ [registry]) (address_to_token_network m)) s, Ok tt)
    end.

(** [ProxyManager.token_network] and [TokenNetwork.__init__], which makes the proxy
    of the token first. *)
Definition store_network net (px : ProxyState) (s : ApiState) : ApiState :=
  let m := as_manager s in
  set_manager (mkProxyManager (address_to_token m) (address_to_token_network_registry m)
                 (dict_set net px (address_to_token_network m))) s.

Definition manager_token_network net (b : BlockId) : Api unit :=
  _ ← st_lift (raise_if (negb (is_binary_address net)) (ValueError "address must be a valid address"));
  s ← st_get;
  if dict_mem net (address_to_token_network (as_manager s)) then mret tt
  else
    _ ← st_lift (check_code_handle_pruned_block net b);
    '(_, token) ← st_lift (network_constants net);
    _ ← manager_token token b;
    st_modify (store_network net (mkProxyState [] 0)).

(** An operation of the proxy of a token network. *)
Definition on_network {A} net (m : Proxy A) : Api A := fun s =>
  match dict_get net (address_to_token_network (as_manager s)) with
  | None => (s, Raise KeyError)
  | Some px => let '(px', result) := m px in (store_network net px' s, result)
  end.

(** ** Waiting *)

(** Each waiting greenlet evaluates its condition; those that still wait. *)
Fixpoint poll {W} (check : W -> service -> Py (bool * W)) (waiters : list W) (s : service) :
    Py (list W) :=
  match waiters with
  | [] => Ok []
  | w :: waiters' =>
      '(is_done, w') ← check w s;
      waiting ← poll check waiters' s;
      Ok (if is_done : bool then waiting else w' :: waiting)
  end.

(** [ChannelStateWaiter.wait], for the waiters of a call together
    ([gevent.joinall]), and [wait_for_withdraw_complete];
    the first asserts before a sleep that the node runs. *)
Fixpoint wait_loop {W} (asserts_running : bool) (check : W -> service -> Py (bool * W))
    (sleeps : list Sleep) (waiters : list W) (s : service) : service * list Sleep * Py unit :=
  match poll check waiters s with
  | Raise e => (s, sleeps, Raise e)
  | Ok [] => (s, sleeps, Ok tt)
  | Ok waiters' =>
      match sleeps with
      | [] => (s, [], Raise still_waiting)
      | sleep :: sleeps' =>
          if asserts_running && negb (sl_running sleep)
          then (s, sleeps, Raise (AssertionError "Waiting relies on alarm task polling"))
          else wait_loop asserts_running check sleeps' waiters' (sl_others sleep s)
      end
  end.

Definition wait_all {W} (asserts_running : bool) (check : W -> service -> Py (bool * W))
    (waiters : list W) : Api unit := fun s =>
  let '(service', sleeps, result) :=
    wait_loop asserts_running check (as_sleeps s) waiters (as_service s) in
  (mkApiState service' (as_manager s) sleeps, result).

(** A condition that keeps no state. *)
Definition pure_check (condition : ChainState -> Py bool) (w : unit) (s : service) : Py (bool * unit) :=
  is_done ← condition (sv_state s);
  Ok (is_done, w).

(** [ChannelStateWaiter.wait] for one channel *)
Definition wait_channel registry token partner
    (condition : option NettingChannelState -> Py bool) : Api unit :=
  wait_all true
    (pure_check (fun cs => c ← channel_state_by_partner_address registry token partner cs; condition c))
    [tt].

(** [wait_for_newchannel] and [wait_for_participant_deposit] *)
Definition wait_for_newchannel registry token partner : Api unit :=
  wait_channel registry token partner channel_exists.
Definition wait_for_participant_deposit registry token partner (target_address : bytes)
    (target_balance : Z) : Api unit :=
  wait_channel registry token partner (channel_has_deposit target_address target_balance).

(** [get_state_changes_stream]: the state changes from an offset of the log *)
Definition stream_next (offset : nat) (s : service) : Py (list StateChange * nat) :=
  let records := drop offset (db_state_changes (wal_storage (rs_wal (sv_log s)))) in
  changes ← py_map (fun r => deserialize (sc_data r)) records;
  Ok (changes, (offset + length records)%nat).

(** [wait_for_withdraw_complete] *)
Definition is_withdraw_of (cid : CanonicalIdentifier) (total_withdraw : Z) (sc : StateChange) : bool :=
  match sc with
  | SContractReceiveChannelWithdraw w =>
      (crw_total_withdraw w =? total_withdraw) && bool_decide (crw_canonical_identifier w = cid)
  | _ => false
  end.

Definition wait_for_withdraw_complete (cid : CanonicalIdentifier) (total_withdraw : Z) : Api unit :=
  wait_all false (fun offset s =>
    '(changes, offset') ← stream_next offset s;
    Ok (existsb (is_withdraw_of cid total_withdraw) changes, offset')) [0%nat].

(** [wait_for_channels]: a waiter per channel that is in the state *)
Definition wait_for_channels {C}
    (evaluate : C -> service -> option NettingChannelState -> Py (bool * C))
    (conditions : list (CanonicalIdentifier * C)) : Api unit :=
  cs ← current_state;
  wait_all true (fun w s =>
    c ← channel_state_by_partner_address (cw_registry w) (cw_token w) (cw_partner w) (sv_state s);
    '(is_done, condition) ← evaluate (cw_condition w) s c;
    Ok (is_done, mkChannelWaiter (cw_registry w) (cw_token w) (cw_partner w) condition))
  (omap (M := list) (fun '(cid, condition) =>
     (fun c => mkChannelWaiter (token_network_registry_address c) (token_address c)
                 (address (partner_state c)) condition) <$> channel_of cs cid) conditions).

(** [wait_for_close] *)
Definition wait_for_close registry token (channel_ids : list Z) : Api unit :=
  cs ← current_state;
  match get_token_network_by_token_address cs registry token, channel_ids with
  | None, _ :: _ => st_raise (ValueError "The token is not registered on the network")
  | None, [] => wait_for_channels (C := unit) (fun w _ c => Ok (true, w)) []
  | Some tn, _ =>
      wait_for_channels (fun w _ c =>
          is_done ← channel_in_target_states CHANNEL_AFTER_CLOSE_STATES c; Ok (is_done, w))
        (map (fun id => (mkCanonicalIdentifier (cs_chain_id cs) (tn_address tn) id, tt))
           (foldl set_add [] channel_ids))
  end.

(** ** Channels *)

(** The value of an optional address in a condition: an empty one counts as none. *)
Definition given (a : option bytes) : option bytes :=
  match a with Some [] => None | _ => a end.

(** [get_channel_list] *)
Definition get_channel_list registry (token partner : option bytes) cs : Py (list NettingChannelState) :=
  let token := given token in
  let partner := given partner in
  _ ← raise_if (negb (bool_decide (registry = [])) && negb (is_binary_address registry))
        (api_error "InvalidBinaryAddress");
  _ ← match token with Some t => require_binary t | None => Ok tt end;
  _ ← match partner with
      | Some p =>
          _ ← require_binary p;
          raise_if (bool_decide (token = None)) (api_error "UnknownTokenAddress")
      | None => Ok tt
      end;
  match token, partner with
  | Some t, Some p =>
      c ← get_channelstate_for cs registry t p;
      Ok match c with Some c => [c] | None => [] end
  | Some t, None => Ok (list_channelstate_for_tokennetwork cs registry t)
  | None, _ => Ok (list_all_channelstate cs)
  end.

(** [get_channel] *)
Definition get_channel registry token partner cs : Py NettingChannelState :=
  _ ← require_binary token;
  _ ← require_binary partner;
  channels ← get_channel_list registry (Some token) (Some partner) cs;
  _ ← py_assert (length channels <=? 1)%nat "Found channels, but expected 0 or 1.";
  match channels with
  | [] => Raise (api_error "ChannelNotFound")
  | c :: _ => Ok c
  end.

(** [is_already_existing_channel], when the token network has a proxy *)
Definition is_already_existing_channel net partner (b : BlockId) : Py bool :=
  found ← get_channel_identifier_or_none (client := token_network_client net) (se_address env) partner b;
  Ok match found with Some _ => true | None => false end.

(** The checks of [channel_open] on its arguments *)
Definition check_open_arguments registry token partner (settle_timeout reveal_timeout : Z) : Py unit :=
  _ ← raise_for_invalid_channel_timeouts (minimum_reveal_timeout api_config) settle_timeout reveal_timeout;
  _ ← require_binary registry;
  _ ← require_binary token;
  require_binary partner.

(** The checks of [channel_open] with the chain: the token network. *)
Definition check_channel_open registry token partner (settle_timeout : Z) cs : Api bytes :=
  let b := AtHash (cs_block_hash cs) in
  _ ← manager_registry registry b;
  timeout_min ← st_lift (registry_timeout_min registry b);
  timeout_max ← st_lift (registry_timeout_max registry b);
  _ ← st_lift (raise_if (settle_timeout <? timeout_min) (api_error "InvalidSettleTimeout"));
  _ ← st_lift (raise_if (timeout_max <? settle_timeout) (api_error "InvalidSettleTimeout"));
  token_network_address ← st_lift (get_token_network registry token b);
  match (token_network_address : option bytes) with
  | None => st_raise (api_error "TokenNotRegistered")
  | Some net =>
      _ ← manager_token_network net b;
      deprecated ← st_lift (@deprecation_switch (token_network_client net) b);
      _ ← st_lift (raise_if deprecated (api_error "TokenNetworkDeprecated"));
      duplicated ← st_lift (is_already_existing_channel net partner b);
      _ ← st_lift (raise_if duplicated (api_error "DuplicatedChannelError"));
      s ← st_get;
      '(has_enough_reserve, _) ←
        st_lift (has_enough_gas_reserve (as_manager s) cs (se_default_registry env) 1);
      _ ← st_lift (raise_if (negb has_enough_reserve) (api_error "InsufficientGasReserve"));
      mret net
  end.

(** The exceptions of [new_netting_channel] that mean that the channel exists. *)
Definition channel_opened_meanwhile net partner (e : exn) : Api unit :=
  match e with
  | RaidenError cls _ =>
      if bool_decide (cls = "DuplicatedChannelError"%string) then mret tt else st_raise e
  | RaidenRecoverableError _ =>
      duplicated ← st_lift (is_already_existing_channel net partner AtPending);
      if (duplicated : bool) then mret tt else st_raise e
  | _ => st_raise e
  end.

Definition open_on_chain net partner (settle_timeout : Z) (b : BlockId) : Api unit :=
  st_catch
    (_ ← on_network net (proxy_new_netting_channel (client := token_network_client net)
                           (se_address env) net partner settle_timeout b);
     mret tt)
    (channel_opened_meanwhile net partner).

(** [channel_open] *)
Definition channel_open registry token partner (settle_timeout reveal_timeout : option Z) : Api Z :=
  let settle_timeout := default (default_settle_timeout api_config) settle_timeout in
  let reveal_timeout := default (default_reveal_timeout api_config) reveal_timeout in
  _ ← st_lift (check_open_arguments registry token partner settle_timeout reveal_timeout);
  cs ← current_state;
  net ← check_channel_open registry token partner settle_timeout cs;
  _ ← open_on_chain net partner settle_timeout (AtHash (cs_block_hash cs));
  _ ← wait_for_newchannel registry token partner;
  cs ← current_state;
  found ← st_lift (get_channelstate_for cs registry token partner);
  c ← st_lift (assert_some (found : option NettingChannelState) "channel is gone");
  _ ← on_service (set_channel_reveal_timeout env (canonical_identifier c) reveal_timeout);
  mret (channel_identifier (canonical_identifier c)).

(** The common checks of the calls for an existing channel. *)
Definition existing_channel registry token partner cs : Py NettingChannelState :=
  found ← get_channelstate_for cs registry token partner;
  _ ← require_binary token;
  _ ← require_binary partner;
  _ ← raise_if (negb (bool_decide (token ∈ get_token_identifiers cs registry)))
        (api_error "UnknownTokenAddress");
  match found with
  | None => Raise (api_error "NonexistingChannel")
  | Some c => Ok c
  end.

(** [set_total_channel_withdraw] *)
Definition check_withdraw (c : NettingChannelState) (total_withdraw : Z) : Py unit :=
  _ ← raise_if (total_withdraw <=? our_total_withdraw c) (api_error "WithdrawMismatch");
  let current_balance := get_balance (our_state c) (partner_state c) in
  let amount_to_withdraw := total_withdraw - our_total_withdraw c in
  raise_if (current_balance <? amount_to_withdraw) (api_error "InsufficientFunds").

Definition set_total_channel_withdraw registry token partner (total_withdraw : Z) : Api unit :=
  cs ← current_state;
  c ← st_lift (existing_channel registry token partner cs);
  _ ← st_lift (check_withdraw c total_withdraw);
  recipient_metadata ← st_lift (proxy_query_address_metadata proxy (address (partner_state c)));
  _ ← on_service (withdraw env (canonical_identifier c) total_withdraw (Some recipient_metadata));
  wait_for_withdraw_complete (canonical_identifier c) total_withdraw.

(** The queries of [set_total_channel_deposit], at the block of the state: the
    limits are those of the channel's token network [net], and [registered] is the
    one that the registry has for the token. *)
Record DepositLimits : Type := mkDepositLimits {
  dl_deprecated : bool;
  dl_balance : Z;
  dl_network_balance : Z;
  dl_network_limit : Z;
  dl_participant_limit : Z
}.

Definition deposit_limits token registered net (b : BlockId) : Py DepositLimits :=
  deprecated ← @deprecation_switch (token_network_client net) b;
  balance ← balanceOf token (se_address env) b;
  network_balance ← balanceOf token registered b;
  network ← @network_limit (token_network_client net) b;
  participant ← @participant_limit (token_network_client net) b;
  Ok (mkDepositLimits deprecated balance network_balance network participant).

(** The checks of [set_total_channel_deposit] *)
Definition check_deposit (c : NettingChannelState) (total_deposit : Z) (limits : DepositLimits) : Py unit :=
  let deposit_increase := total_deposit - contract_balance (our_state c) in
  let total_channel_deposit := total_deposit + contract_balance (partner_state c) in
  _ ← raise_if (negb (bool_decide (get_status c = STATE_OPENED))) (api_error "UnexpectedChannelState");
  _ ← raise_if (dl_deprecated limits) (api_error "TokenNetworkDeprecated");
  _ ← raise_if (total_deposit <=? contract_balance (our_state c)) (api_error "DepositMismatch");
  _ ← raise_if (negb (deposit_increase <=? dl_balance limits)) (api_error "InsufficientFunds");
  _ ← raise_if (dl_network_limit limits <? dl_network_balance limits + deposit_increase)
        (api_error "DepositOverLimit");
  _ ← raise_if (dl_participant_limit limits <? total_deposit) (api_error "DepositOverLimit");
  raise_if (UINT256_MAX <=? total_channel_deposit) (api_error "DepositOverLimit").

(** The proxies of the call: the token network that the registry has for the
    token. *)
Definition deposit_proxies registry token (c : NettingChannelState) (b : BlockId) : Api bytes :=
  _ ← manager_token token b;
  _ ← manager_registry registry b;
  token_network ← st_lift (get_token_network registry token b);
  match (token_network : option bytes) with
  | None => st_raise (api_error "UnknownTokenAddress")
  | Some registered =>
      _ ← manager_token_network registered b;
      _ ← manager_token_network (token_network_address (canonical_identifier c)) b;
      mret registered
  end.

(** [PaymentChannel.approve_and_set_total_deposit], where a
    [RaidenRecoverableError] is only logged *)
Definition deposit_on_chain (c : NettingChannelState) (total_deposit : Z) (b : BlockId) : Api unit :=
  let net := token_network_address (canonical_identifier c) in
  st_catch
    (_ ← on_network net (proxy_set_total_deposit (client := token_network_client net)
                           (se_address env) net b (channel_identifier (canonical_identifier c))
                           total_deposit (address (partner_state c)));
     mret tt)
    (fun e => match e with RaidenRecoverableError _ => mret tt | _ => st_raise e end).

(** [set_total_channel_deposit] *)
Definition set_total_channel_deposit registry token partner (total_deposit : Z) : Api unit :=
  cs ← current_state;
  let b := AtHash (cs_block_hash cs) in
  c ← st_lift (existing_channel registry token partner cs);
  registered ← deposit_proxies registry token c b;
  limits ← st_lift (deposit_limits token registered (token_network_address (canonical_identifier c)) b);
  _ ← st_lift (check_deposit c total_deposit limits);
  _ ← deposit_on_chain c total_deposit b;
  wait_for_participant_deposit registry token partner (se_address env) total_deposit.

(** [set_reveal_timeout] *)
Definition api_set_reveal_timeout registry token partner (reveal_timeout : Z) : Api unit :=
  cs ← current_state;
  c ← st_lift (existing_channel registry token partner cs);
  _ ← st_lift (match raise_for_invalid_channel_timeouts (minimum_reveal_timeout api_config)
                       (settle_timeout c) reveal_timeout with
               | Raise _ => Raise (api_error "InvalidRevealTimeout")
               | r => r
               end);
  on_service (set_channel_reveal_timeout env (canonical_identifier c) reveal_timeout).

(** ** Closing channels *)

(** The state of the condition of a cooperative settle: the channel and the offset
    in the stream of state changes. *)
Definition is_settled_change (cid : CanonicalIdentifier) (sc : StateChange) : bool :=
  match sc with
  | SContractReceiveChannelSettled a => bool_decide (crs_canonical_identifier a = cid)
  | _ => false
  end.

(** [Or((ChannelExpiredCoopSettle, ChannelCoopSettleSuccess))] *)
Definition coop_settle_ended (w : CanonicalIdentifier * nat) (s : Service (Data := Data))
    (c : option NettingChannelState) : Py (bool * (CanonicalIdentifier * nat)) :=
  let '(cid, offset) := w in
  expired ← channel_expired_coop_settle (cs_block_number (sv_state s)) c;
  if expired : bool then Ok (true, w)
  else
    '(changes, offset') ← stream_next offset s;
    Ok (existsb (is_settled_change cid) changes, (cid, offset')).

(** The partners that are reachable get a cooperative settle. *)
Fixpoint coop_settle_changes (channels : list NettingChannelState) : Py (list ActionChannelCoopSettle) :=
  match channels with
  | [] => Ok []
  | c :: channels' =>
      match proxy_query_address_metadata proxy (address (partner_state c)) with
      | Ok metadata =>
          rest ← coop_settle_changes channels';
          Ok (mkActionChannelCoopSettle (canonical_identifier c) (Some metadata) :: rest)
      | Raise (RaidenError cls msg) =>
          if bool_decide (cls = "ServiceRequestFailed"%string) then coop_settle_changes channels'
          else Raise (RaidenError cls msg)
      | Raise e => Raise e
      end
  end.

(** [handle_state_changes] and [gevent.joinall] of its greenlets *)
Definition handle_and_join (changes : list StateChange) : Api unit :=
  threads ← on_service (service_handle_state_changes env changes);
  join_threads threads.

(** [_batch_coop_settle]; the channels of the result are those of the state before
    the wait. *)
Definition batch_coop_settle (channels_to_settle : list NettingChannelState) :
    Api (list NettingChannelState) :=
  changes ← st_lift (coop_settle_changes channels_to_settle);
  let to_coop_settle := map acs_canonical_identifier changes in
  _ ← handle_and_join (map SActionChannelCoopSettle changes);
  cs ← current_state;
  let ids := map canonical_identifier channels_to_settle in
  let channels := filter (fun c => canonical_identifier c ∈ ids) (list_all_channelstate cs) in
  let waiting := filter (fun c => canonical_identifier c ∈ to_coop_settle
                                  /\ initiated_coop_settle (our_state c) <> None) channels in
  _ ← wait_for_channels coop_settle_ended
        (map (fun c => (canonical_identifier c, (canonical_identifier c, 0%nat))) waiting);
  mret (filter (fun c => get_status c <> STATE_SETTLED) channels).

(** [channel_batch_close] *)
Definition channel_batch_close registry token (partners : list bytes) (coop_settle : bool) : Api unit :=
  _ ← st_lift (require_binary token);
  _ ← st_lift (raise_if (negb (forallb is_binary_address partners)) (api_error "InvalidBinaryAddress"));
  cs ← current_state;
  _ ← st_lift (raise_if (negb (bool_decide (token ∈ get_token_identifiers cs registry)))
                 (api_error "UnknownTokenAddress"));
  channels_to_close ← st_lift (filter_channels_by_partneraddress cs registry token partners);
  non_settled_channels ← (if coop_settle then batch_coop_settle channels_to_close
                          else mret channels_to_close);
  if coop_settle && bool_decide (non_settled_channels = []) then mret tt
  else
    _ ← handle_and_join
          (map (fun c => SActionChannelClose (mkActionChannelClose (canonical_identifier c)))
             channels_to_close);
    wait_for_close registry token
      (map (fun c => channel_identifier (canonical_identifier c)) channels_to_close).

(** [channel_close] *)
Definition api_channel_close registry token partner (coop_settle : bool) : Api unit :=
  channel_batch_close registry token [partner] coop_settle.

(** [token_network_leave] *)
Definition token_network_leave registry token : Api (list NettingChannelState) :=
  _ ← st_lift (require_binary registry);
  _ ← st_lift (require_binary token);
  cs ← current_state;
  _ ← st_lift (raise_if (bool_decide (get_token_network_address_by_token_address cs registry token = None))
                 (api_error "UnknownTokenAddress"));
  channels ← st_lift (get_channel_list registry (Some token) None cs);
  _ ← channel_batch_close registry token (map (fun c => address (partner_state c)) channels) true;
  mret channels.

(** ** Payments *)

(** The checks of [transfer_async] on the arguments; the first look-up of the
    token is for the registry of the call, the second one for the default
    registry. *)
Definition check_transfer registry token (amount : Z) (target : bytes) (identifier : Z) cs : Py bytes :=
  _ ← raise_if (bool_decide (target = se_address env)) (api_error "SamePeerAddress");
  _ ← raise_if (amount <=? 0) (api_error "InvalidAmount");
  _ ← raise_if (UINT256_MAX <? amount) (api_error "InvalidAmount");
  _ ← require_binary token;
  _ ← raise_if (negb (bool_decide (token ∈ get_token_identifiers cs registry)))
        (api_error "UnknownTokenAddress");
  _ ← require_binary target;
  _ ← raise_if (identifier <=? 0) (api_error "InvalidPaymentIdentifier");
  _ ← raise_if (UINT64_MAX <? identifier) (api_error "InvalidPaymentIdentifier");
  match get_token_network_address_by_token_address cs (se_default_registry env) token with
  | None => Raise (api_error "UnknownTokenAddress")
  | Some net => Ok net
  end.

(** [transfer_async]; [random_identifier] is the result of
    [create_default_identifier]. *)
Definition transfer_async (address_metadata : option AddressMetadata) (one_to_n : option bytes)
    (timestamp : bytes) (is_secret_registered : bytes -> bool) (random_secret : bytes)
    (random_identifier : Z) registry token (amount : Z) (target : bytes) (identifier : option Z)
    (secret secrethash : option bytes) (lock_timeout : option Z)
    (route_states : option (list RouteState)) : Api PaymentStatus :=
  cs ← current_state;
  let identifier := default random_identifier identifier in
  net ← st_lift (check_transfer registry token amount target identifier cs);
  on_service (mediated_transfer_async env proxy address_metadata one_to_n timestamp
                is_secret_registered random_secret net amount target identifier secret secrethash
                lock_timeout route_states).

End api.

(** ** Pending transfers *)

(** [LockedTransferType] *)
Inductive LockedTransferType : Type :=
  | UnsignedTransfer (t : LockedTransferUnsignedState)
  | SignedTransfer (t : LockedTransferSignedState).

(** The entries of [flatten_transfer] *)
Record FlatTransfer : Type := mkFlatTransfer {
  ft_payment_identifier : string;
  ft_token_address : string;
  ft_token_network_address : string;
  ft_channel_identifier : string;
  ft_initiator : string;
  ft_target : string;
  ft_transferred_amount : string;
  ft_locked_amount : string;
  ft_role : TransferRole
}.

Definition transfer_token (t : LockedTransferType) : bytes :=
  match t with UnsignedTransfer t => ltu_token t | SignedTransfer t => lts_token t end.
Definition transfer_channel (t : LockedTransferType) : CanonicalIdentifier :=
  match t with
  | UnsignedTransfer t => ubp_canonical_identifier (ltu_balance_proof t)
  | SignedTransfer t => sbp_canonical_identifier (lts_balance_proof t)
  end.

(** [get_transfer_from_task] *)
Definition get_transfer_from_task (secrethash : bytes) (t : TransferTask) : Py (option LockedTransferType) :=
  match t with
  | InitiatorTask _ manager_state =>
      Ok ((fun i => UnsignedTransfer (it_transfer i))
            <$> dict_get secrethash (ip_initiator_transfers manager_state))
  | MediatorTask _ mediator_state =>
      match last (mt_transfers_pair mediator_state) with
      | Some newest => Ok (Some (SignedTransfer (mp_payer_transfer newest)))
      | None =>
          waiting ← assert_some (mt_waiting_transfer mediator_state) "Invalid mediator_state";
          Ok (Some (SignedTransfer (wt_transfer waiting)))
      end
  | TargetTask _ target_state => Ok (Some (SignedTransfer (tgt_transfer target_state)))
  end.

Section transfers.
Context `{Crypto} `{Chain}.

(** [flatten_transfer] *)
Definition flatten_transfer (t : LockedTransferType) (role : TransferRole) : FlatTransfer :=
  let flat payment_identifier token cid initiator target (transferred locked : Z) :=
    mkFlatTransfer (pretty (payment_identifier : Z)) (to_checksum_address token)
      (to_checksum_address (token_network_address cid)) (pretty (channel_identifier cid))
      (to_checksum_address initiator) (to_checksum_address target) (pretty transferred)
      (pretty locked) role in
  match t with
  | UnsignedTransfer t =>
      let bp := ltu_balance_proof t in
      flat (ltu_payment_identifier t) (ltu_token t) (ubp_canonical_identifier bp) (ltu_initiator t)
        (ltu_target t) (ubp_transferred_amount bp) (ubp_locked_amount bp)
  | SignedTransfer t =>
      let bp := lts_balance_proof t in
      flat (lts_payment_identifier t) (lts_token t) (sbp_canonical_identifier bp) (lts_initiator t)
        (lts_target t) (sbp_transferred_amount bp) (sbp_locked_amount bp)
  end.

(** [transfer_tasks_view]: the channel only counts with a token. *)
Definition in_view (token : option bytes) (channel_id : option Z) (t : LockedTransferType) : bool :=
  match token with
  | None => true
  | Some token =>
      bool_decide (transfer_token t = token)
      && match channel_id with
         | None => true
         | Some id => channel_identifier (transfer_channel t) =? id
         end
  end.

Definition transfer_tasks_view (tasks : dict bytes TransferTask) (token : option bytes)
    (channel_id : option Z) : Py (list FlatTransfer) :=
  views ← py_map (fun '(secrethash, task) =>
      transfer ← get_transfer_from_task secrethash task;
      Ok match transfer with
         | Some t => if in_view token channel_id t then [flatten_transfer t (role task)] else []
         | None => []
         end) tasks;
  Ok (concat views).

(** [get_pending_transfers] *)
Definition get_pending_transfers (default_registry : bytes) (token partner : option bytes)
    (cs : ChainState) : Py (list FlatTransfer) :=
  channel_id ←
    match token with
    | None => Ok None
    | Some token =>
        net ← get_token_network default_registry token (AtHash (cs_block_hash cs));
        match (net : option bytes), partner with
        | None, _ => Raise (api_error "UnknownTokenAddress")
        | Some _, None => Ok None
        | Some _, Some partner =>
            found ← get_channelstate_for cs default_registry token partner;
            match found with
            | None => Raise (api_error "ChannelNotFound")
            | Some c => Ok (Some (channel_identifier (canonical_identifier c)))
            end
        end
    end;
  transfer_tasks_view (get_all_transfer_tasks cs) token channel_id.
End transfers.
