(* ===== verification/ApiProofs.v ===== *)
(** The calls of the user: a wait ends with its condition, and a deposit goes to
    the proxy of the token network exactly if it is within the limits. *)

From S2P Require Import Prelude PyDict Bytes Crypto PyFloat MediationFee State Events.
From S2P Require Import StateChanges Channel TokenNetwork TransferTasks Mediator Target Initiator.
From S2P Require Import InitiatorManager Node Views Wal WalProofs Messages MessageHandler.
From S2P Require Import ChainDecode.
From S2P Require Import Services EventHandler ServiceStart Pathfinding Routing Payments.
From S2P Require Import Proxies ProxiesProofs Api.

#[local] Open Scope Z_scope.

Section api.
Context `{Crypto} `{FloatPow} `{UlidFactory} `{MessageEnv} `{ServiceProofs} `{!PrivateKey}.
Context `{ClosingProofs} `{Chain}.
Context {Data : Type}.
Context `{!Serializer Data ChainState} `{!Serializer Data StateChange} `{!Serializer Data Event}.
Context (env : ServiceEnv).
Implicit Types (registry token partner net : bytes) (s : ApiState (Data := Data)).

Notation service := (Service (Data := Data)).
Notation sleep := (Sleep (Data := Data)).
Implicit Types (sv : service).

(** ** Waits *)

(** The service after some sleeps. *)
Definition after (service0 : service) (sleeps : list sleep) : service :=
  foldl (fun sv sl => sl_others sl sv) service0 sleeps.

(** The wait sleeps until the condition holds for the first time. *)
Definition first_time (asserts_running : bool) (condition : ChainState -> Py bool)
    (service0 : service) (slept : list sleep) : Prop :=
  condition (sv_state (after service0 slept)) = Ok true
  /\ forall before sl later, slept = before ++ sl :: later ->
       condition (sv_state (after service0 before)) = Ok false
       /\ (asserts_running = true -> sl_running sl = true).

Lemma first_time_nil b condition sv : condition (sv_state sv) = Ok true -> first_time b condition sv [].
Proof. intros Hc. split; [done|]. intros before sl later Hn. by destruct before. Qed.

Lemma first_time_cons b condition sv sl slept :
  first_time b condition sv (sl :: slept)
  <-> condition (sv_state sv) = Ok false /\ (b = true -> sl_running sl = true)
      /\ first_time b condition (sl_others sl sv) slept.
Proof.
  split.
  - intros [Hend Hall]. destruct (Hall [] sl slept eq_refl) as [Hf Hr]. split_and!; [done..|].
    split; [done|]. intros before sl' later ->. by apply (Hall (sl :: before) sl' later).
  - intros (Hf & Hr & Hend & Hall). split; [done|]. intros [|sl0 before] sl' later E.
    + by injection E as -> ->.
    + injection E as -> ->. by apply (Hall before sl' later).
Qed.

Lemma poll_pure condition sv :
  poll (pure_check condition) [tt] sv
  = match condition (sv_state sv) with
    | Ok true => Ok [] | Ok false => Ok [tt] | Raise e => Raise e end.
Proof. unfold pure_check. cbn. by destruct (condition (sv_state sv)) as [[|]|]. Qed.

Lemma wait_loop_returns b condition (sleeps : list sleep) sv sv' rest :
  wait_loop b (pure_check condition) sleeps [tt] sv = (sv', rest, Ok tt)
  <-> exists slept, sleeps = slept ++ rest /\ sv' = after sv slept /\ first_time b condition sv slept.
Proof.
  revert sv. induction sleeps as [|sl sleeps IH]; intros sv; cbn -[poll]; rewrite poll_pure.
  - destruct (condition (sv_state sv)) as [[|]|e] eqn:Ec; split.
    + intros [= <- <-]. exists []. eauto using first_time_nil.
    + intros (slept & Hs & -> & _). by destruct slept, rest.
    + done.
    + intros (slept & Hs & -> & [Hend _]). destruct slept; [|done]. cbn in Hend. congruence.
    + done.
    + intros (slept & Hs & -> & [Hend _]). destruct slept; [|done]. cbn in Hend. congruence.
  - destruct (condition (sv_state sv)) as [[|]|e] eqn:Ec.
    + split.
      * intros [= <- <-]. exists []. eauto using first_time_nil.
      * intros ([|sl' slept] & Hs & -> & Hf); [by simplify_list_eq|].
        apply first_time_cons in Hf as [Hf _]. congruence.
    + destruct (b && negb (sl_running sl)) eqn:Er.
      * split; [done|]. intros ([|sl' slept] & Hs & -> & Hf).
        { destruct Hf as [Hf _]. cbn in Hf. congruence. }
        injection Hs as <- Hs. apply first_time_cons in Hf as (_ & Hr & _).
        apply andb_prop in Er as [Hb Hn]. by rewrite (Hr Hb) in Hn.
      * rewrite IH. split.
        -- intros (slept & -> & -> & Hf). exists (sl :: slept). split_and!; [done..|].
           apply first_time_cons. split_and!; [done| |done]. intros ->. by destruct (sl_running sl).
        -- intros ([|sl' slept] & Hs & -> & Hf).
           { destruct Hf as [Hf _]. cbn in Hf. congruence. }
           injection Hs as <- ->. apply first_time_cons in Hf as (_ & _ & Hf). by exists slept.
    + split; [done|]. intros ([|sl' slept] & Hs & -> & Hf).
      * destruct Hf as [Hf _]. cbn in Hf. congruence.
      * apply first_time_cons in Hf as [Hf _]. congruence.
Qed.

(** The condition of a call on its channel. *)
Definition on_channel registry token partner (condition : option NettingChannelState -> Py bool)
    (cs : ChainState) : Py bool :=
  c ← channel_state_by_partner_address registry token partner cs; condition c.

Lemma wait_channel_returns registry token partner condition s s' :
  wait_channel registry token partner condition s = (s', Ok tt)
  <-> exists slept, as_sleeps s = slept ++ as_sleeps s' /\ as_manager s' = as_manager s
        /\ as_service s' = after (as_service s) slept
        /\ first_time true (on_channel registry token partner condition) (as_service s) slept.
Proof.
  unfold wait_channel, wait_all.
  pose proof (fun sv' rest => wait_loop_returns true (on_channel registry token partner condition)
    (as_sleeps s) (as_service s) sv' rest) as Hw. unfold on_channel in Hw at 1.
  destruct (wait_loop _ _ _ _ _) as [[sv rest] r]. split.
  - intros [= <- ->]. cbn. destruct (proj1 (Hw sv rest) eq_refl) as (slept & ? & ? & ?). by exists slept.
  - intros (slept & Hs & Hc & Hv & Hf).
    pose proof (proj2 (Hw (as_service s') (as_sleeps s')) (ex_intro _ slept (conj Hs (conj Hv Hf)))) as E.
    injection E as -> -> ->. rewrite <- Hc. by destruct s'.
Qed.

Lemma wait_channel_manager registry token partner condition s s' r :
  wait_channel registry token partner condition s = (s', r) -> as_manager s' = as_manager s.
Proof. unfold wait_channel, wait_all. destruct (wait_loop _ _ _ _ _) as [[sv rest] r']. by intros [= <- _]. Qed.

(** ** Deposits *)

Lemma raise_if_then {A} b e (k : unit -> Py A) a :
  (raise_if b e ≫= k) = Ok a <-> b = false /\ k tt = Ok a.
Proof. destruct b; cbn; intuition discriminate. Qed.

(** What a deposit has to satisfy: the channel is open in a token network that is
    not deprecated, the deposit increases, the node has the tokens, and neither the
    limits of the token network nor the width of an amount are exceeded. *)
Record deposit_allowed (c : NettingChannelState) (total_deposit : Z) (limits : DepositLimits) : Prop := {
  allowed_open : get_status c = STATE_OPENED;
  allowed_network : dl_deprecated limits = false;
  allowed_increase : contract_balance (our_state c) < total_deposit;
  allowed_balance : total_deposit - contract_balance (our_state c) <= dl_balance limits;
  allowed_total : dl_network_balance limits + (total_deposit - contract_balance (our_state c))
    <= dl_network_limit limits;
  allowed_participant : total_deposit <= dl_participant_limit limits;
  allowed_width : total_deposit + contract_balance (partner_state c) < UINT256_MAX
}.

Lemma check_deposit_ok c total_deposit limits :
  check_deposit c total_deposit limits = Ok tt <-> deposit_allowed c total_deposit limits.
Proof.
  unfold check_deposit. rewrite !raise_if_then, raise_if_Ok. split.
  - rewrite negb_false_iff, bool_decide_eq_true. intros (? & ? & ? & ? & ? & ? & ?). split; lia || done.
  - intros []. rewrite bool_decide_eq_true_2 by done. split_and!; lia || done.
Qed.

Definition has_deposit registry token partner (total_deposit : Z) (cs : ChainState) : Prop :=
  exists c, channel_state_by_partner_address registry token partner cs = Ok (Some c)
    /\ ((se_address env = address (our_state c) /\ total_deposit <= contract_balance (our_state c))
        \/ (se_address env = address (partner_state c)
            /\ total_deposit <= contract_balance (partner_state c))).

Lemma channel_has_deposit_true registry token partner total_deposit cs :
  on_channel registry token partner (channel_has_deposit (se_address env) total_deposit) cs = Ok true ->
  has_deposit registry token partner total_deposit cs.
Proof.
  unfold on_channel, channel_has_deposit, has_deposit.
  destruct (channel_state_by_partner_address registry token partner cs) as [[c|]|]; cbn; [|done..].
  repeat case_bool_decide; [..|done]; intros [= ?%Z.leb_le]; exists c; eauto.
Qed.

(** The transactions that the proxy of a token network sent. *)
Definition sent net s : list ChainTx :=
  match dict_get net (address_to_token_network (as_manager s)) with
  | Some px => px_sent px
  | None => []
  end.

(** Neither the service nor the chain changed, whether the call returns or
    raises. *)
Definition quiet s s' : Prop :=
  as_service s' = as_service s /\ as_sleeps s' = as_sleeps s /\ forall net, sent net s' = sent net s.
Definition quietly {A} (m : St (ApiState (Data := Data)) A) : Prop := forall s, quiet s (fst (m s)).

Lemma quiet_refl s : quiet s s.
Proof. done. Qed.

Lemma quiet_trans s1 s2 s3 : quiet s1 s2 -> quiet s2 s3 -> quiet s1 s3.
Proof. intros (A1 & A2 & A3) (B1 & B2 & B3). split_and!; [congruence..|]. intros net. by rewrite B3. Qed.

Lemma quietly_bind {A B} (m : St ApiState A) (k : A -> St ApiState B) :
  quietly m -> (forall a, quietly (k a)) -> quietly (m ≫= k).
Proof.
  intros Hm Hk s. specialize (Hm s). unfold mbind, st_bind. destruct (m s) as [s1 [a|e]]; [|done].
  eapply quiet_trans; [exact Hm|apply Hk].
Qed.

Lemma quietly_lift {A} (m : Py A) : quietly (st_lift m).
Proof. intros s. apply quiet_refl. Qed.

Lemma manager_token_quietly token b : quietly (manager_token token b).
Proof. intros s. unfold manager_token. by repeat case_match. Qed.

Lemma manager_registry_quietly registry b : quietly (manager_registry registry b).
Proof. intros s. unfold manager_registry. by repeat case_match. Qed.

Lemma manager_token_network_quietly net b : quietly (manager_token_network net b).
Proof.
  unfold manager_token_network. apply quietly_bind; [apply quietly_lift|]. intros _ s.
  unfold mbind at 1, st_bind at 1, st_get.
  destruct (dict_mem net (address_to_token_network (as_manager s))) eqn:Em; [done|].
  revert s Em. intros s Em. apply dict_mem_false in Em.
  unfold mbind, st_bind, st_lift. destruct (check_code_handle_pruned_block net b); [|done].
  destruct (network_constants net) as [[chain token]|]; [|done].
  pose proof (manager_token_quietly token b s) as Hq.
  assert (dict_get net (address_to_token_network (as_manager (fst (manager_token token b s)))) = None) as Ek
    by (unfold manager_token; by repeat case_match).
  destruct (manager_token token b s) as [s1 [[]|e]]; [|done]. cbn [fst] in *.
  eapply quiet_trans; [exact Hq|]. split_and!; [done..|]. intros net'. unfold sent, store_network. cbn.
  destruct (decide (net' = net)) as [->|Hne]; [by rewrite dict_get_set_eq, Ek|by rewrite dict_get_set_ne].
Qed.

Lemma deposit_proxies_quietly registry token c b : quietly (deposit_proxies registry token c b).
Proof.
  unfold deposit_proxies. apply quietly_bind; [apply manager_token_quietly|]. intros _.
  apply quietly_bind; [apply manager_registry_quietly|]. intros _.
  apply quietly_bind; [apply quietly_lift|]. intros [registered|]; [|intros s; apply quiet_refl].
  apply quietly_bind; [apply manager_token_network_quietly|]. intros _.
  apply quietly_bind; [apply manager_token_network_quietly|]. intros _ s. apply quiet_refl.
Qed.

(** After it was asked for, the proxy of a token network is there. *)
Lemma manager_token_network_there net b s s' :
  manager_token_network net b s = (s', Ok tt) ->
  exists px, dict_get net (address_to_token_network (as_manager s')) = Some px.
Proof.
  unfold manager_token_network, mbind, st_bind, st_lift, st_get. destruct (raise_if _ _); [|done].
  destruct (dict_mem net (address_to_token_network (as_manager s))) eqn:Em.
  - intros [= <-]. by apply dict_mem_true in Em.
  - destruct (check_code_handle_pruned_block net b); [|done].
    destruct (network_constants net) as [[chain token]|]; [|done].
    destruct (manager_token token b s) as [s1 [[]|e]]; [|done]. intros [= <-]. cbn.
    rewrite dict_get_set_eq. eauto.
Qed.

Lemma deposit_proxies_there registry token c b s s' registered :
  deposit_proxies registry token c b s = (s', Ok registered) ->
  exists px, dict_get (token_network_address (canonical_identifier c))
               (address_to_token_network (as_manager s')) = Some px.
Proof.
  unfold deposit_proxies. unfold mbind at 1, st_bind at 1.
  destruct (manager_token token b s) as [s1 [[]|e]]; [|done].
  unfold mbind at 1, st_bind at 1. destruct (manager_registry registry b s1) as [s2 [[]|e]]; [|done].
  unfold mbind, st_bind, st_lift. destruct (get_token_network registry token b) as [[net|]|e]; [|done..].
  destruct (manager_token_network net b s2) as [s3 [[]|e]]; [|done].
  destruct (manager_token_network (token_network_address (canonical_identifier c)) b s3)
    as [s4 [[]|e]] eqn:E; [|done]. intros [= <- <-]. by eapply manager_token_network_there.
Qed.

(** The call may deposit: the channel exists, the proxies can be made, the queries
    return, and the deposit satisfies the limits. *)
Record deposit_ready registry token partner (total_deposit : Z) s c s1 limits : Prop := {
  ready_channel : existing_channel registry token partner (sv_state (as_service s)) = Ok c;
  ready_proxies : exists registered,
    deposit_proxies registry token c (AtHash (cs_block_hash (sv_state (as_service s)))) s
    = (s1, Ok registered)
    /\ deposit_limits env token registered (token_network_address (canonical_identifier c))
         (AtHash (cs_block_hash (sv_state (as_service s)))) = Ok limits;
  ready_allowed : deposit_allowed c total_deposit limits
}.

(** The operation of the proxy for the deposit. *)
Definition deposit_operation (b : BlockId) (c : NettingChannelState) (total_deposit : Z) :
    St ProxyState TransactionMined :=
  let net := token_network_address (canonical_identifier c) in
  proxy_set_total_deposit (client := token_network_client net) (se_address env) net b
    (channel_identifier (canonical_identifier c)) total_deposit (address (partner_state c)).

Lemma deposit_on_chain_run b c total_deposit s px :
  let net := token_network_address (canonical_identifier c) in
  dict_get net (address_to_token_network (as_manager s)) = Some px ->
  let '(px', result) := deposit_operation b c total_deposit px in
  deposit_on_chain env c total_deposit b s
  = (store_network net px' s,
     match result with
     | Ok _ | Raise (RaidenRecoverableError _) => Ok tt
     | Raise e => Raise e
     end).
Proof.
  intros net Hpx. unfold deposit_on_chain, on_network, st_catch, mbind, st_bind. cbn zeta. fold net.
  rewrite Hpx. unfold deposit_operation. fold net. cbn zeta.
  destruct (proxy_set_total_deposit _ _ _ _ _ _ _) as [px' [mined|e]]; [done|]. by destruct e.
Qed.

Lemma sent_store net px s net' :
  sent net' (store_network net px s) = if decide (net' = net) then px_sent px else sent net' s.
Proof.
  unfold sent, store_network. cbn. case_decide as Hn; [subst; by rewrite dict_get_set_eq|].
  by rewrite dict_get_set_ne.
Qed.

Lemma deposit_ready_run registry token partner total_deposit s c s1 limits :
  deposit_ready registry token partner total_deposit s c s1 limits ->
  set_total_channel_deposit env registry token partner total_deposit s
  = (deposit_on_chain env c total_deposit (AtHash (cs_block_hash (sv_state (as_service s))))
     ≫= fun _ => wait_for_participant_deposit registry token partner (se_address env) total_deposit) s1.
Proof.
  intros [He (registered & Hp & Hl) Ha%check_deposit_ok].
  unfold set_total_channel_deposit, current_state, st_lift.
  unfold mbind at 1, st_bind at 1. cbn zeta. unfold mbind at 1, st_bind at 1. rewrite He.
  unfold mbind at 1, st_bind at 1. rewrite Hp. unfold mbind at 1, st_bind at 1. rewrite Hl.
  unfold mbind at 1, st_bind at 1. by rewrite Ha.
Qed.

Lemma deposit_refused registry token partner total_deposit s :
  (forall c s1 limits, ~ deposit_ready registry token partner total_deposit s c s1 limits) ->
  exists s' e, set_total_channel_deposit env registry token partner total_deposit s = (s', Raise e)
    /\ quiet s s'.
Proof.
  intros Hno. unfold set_total_channel_deposit, current_state, st_lift.
  unfold mbind at 1, st_bind at 1. cbn zeta. unfold mbind at 1, st_bind at 1.
  destruct (existing_channel _ _ _ _) as [c|e] eqn:He; [|by exists s, e].
  unfold mbind at 1, st_bind at 1.
  pose proof (deposit_proxies_quietly registry token c
    (AtHash (cs_block_hash (sv_state (as_service s)))) s) as Hq.
  destruct (deposit_proxies _ _ _ _ s) as [s1 [registered|e]] eqn:Hp; [|by exists s1, e].
  cbn [fst] in Hq. unfold mbind at 1, st_bind at 1.
  destruct (deposit_limits _ _ _ _ _) as [limits|e] eqn:Hl; [|by exists s1, e].
  unfold mbind at 1, st_bind at 1.
  destruct (check_deposit c total_deposit limits) as [[]|e] eqn:Hd; [|by exists s1, e].
  apply check_deposit_ok in Hd. destruct (Hno c s1 limits). split; [done|eauto|done].
Qed.

(** ** Claims *)

(** A call waits exactly until its condition on the channel holds.  It returns
    if and only if, after some of the sleeps, the condition holds in the state of
    the service, it held after none of the sleeps before, and the node was running
    whenever the call went to sleep; the call then returns at once, with the
    service as it is then and without having sent anything. *)
Theorem wait_ends_with_condition registry token partner condition s s' :
  wait_channel registry token partner condition s = (s', Ok tt)
  <-> exists slept, as_sleeps s = slept ++ as_sleeps s' /\ as_manager s' = as_manager s
        /\ as_service s' = after (as_service s) slept
        /\ first_time true (on_channel registry token partner condition) (as_service s) slept.
Proof. apply wait_channel_returns. Qed.

(** C18: a deposit is attempted exactly if it is within the limits.  If the
    channel exists, the proxies can be made, the limits can be queried at the block
    of the state and the deposit satisfies [deposit_allowed], the operation of the
    proxy is run once: its token network gets nothing, an approval, or an approval
    and the deposit of this total in this channel, and both if the operation
    returns; no other token network gets anything; an exception of the operation
    that is not recoverable is raised, and if the call returns, the state then
    shows at least the deposit.  In every other case the call raises, the service is
    the same and nothing is sent. *)
Theorem deposit_within_limits registry token partner total_deposit s s' r
    (Hrun : set_total_channel_deposit env registry token partner total_deposit s = (s', r)) :
  (forall c s1 limits, deposit_ready registry token partner total_deposit s c s1 limits ->
     let b := AtHash (cs_block_hash (sv_state (as_service s))) in
     let net := token_network_address (canonical_identifier c) in
     exists px txs,
       px_sent px = sent net s
       /\ sent net s' = sent net s ++ txs
       /\ deposit_sent (se_address env) net (channel_identifier (canonical_identifier c))
            (address (partner_state c)) total_deposit txs
       /\ (forall net', net' <> net -> sent net' s' = sent net' s)
       /\ (forall mined, snd (deposit_operation b c total_deposit px) = Ok mined ->
             length txs = 2%nat /\ tm_status mined <> 0)
       /\ (forall e, snd (deposit_operation b c total_deposit px) = Raise e ->
             (forall msg, e <> RaidenRecoverableError msg) -> r = Raise e)
       /\ (r = Ok tt -> has_deposit registry token partner total_deposit (sv_state (as_service s'))))
  /\ ((forall c s1 limits, ~ deposit_ready registry token partner total_deposit s c s1 limits) ->
      quiet s s' /\ exists e, r = Raise e).
Proof.
  split.
  - intros c s1 limits Hready b net. rewrite (deposit_ready_run _ _ _ _ _ _ _ _ Hready) in Hrun.
    destruct Hready as [_ (registered & Hp & _) _].
    pose proof (deposit_proxies_quietly registry token c b s) as (_ & _ & Hsent). fold b in Hp.
    rewrite Hp in Hsent. cbn [fst] in Hsent.
    destruct (deposit_proxies_there _ _ _ _ _ _ _ Hp) as [px Hpx]. fold net in Hpx.
    assert (px_sent px = sent net s) as Epx by (rewrite <- Hsent; unfold sent; by rewrite Hpx).
    pose proof (deposit_on_chain_run b c total_deposit s1 px Hpx) as Hchain.
    destruct (deposit_operation b c total_deposit px) as [px' result] eqn:Eop.
    destruct (set_total_deposit_outcome _ _ _ _ _ _ _ _ _ Eop) as (txs & Etx & Htx & Hok).
    exists px, txs. rewrite Eop. cbn [snd]. unfold mbind, st_bind in Hrun. fold b in Hrun. rewrite Hchain in Hrun.
    assert (forall net', sent net' s' = sent net' (store_network net px' s1)) as Hs'.
    { intros net'. destruct (match result with Ok _ => _ | Raise _ => _ end) as [[]|e];
        [|by injection Hrun as <- _]. unfold sent. by rewrite (wait_channel_manager _ _ _ _ _ _ _ Hrun). }
    split_and!; [done| |exact Htx| |exact Hok| |].
    + rewrite Hs', sent_store, decide_True by done. by rewrite Etx, Epx.
    + intros net' Hne. by rewrite Hs', sent_store, decide_False, Hsent.
    + intros e -> Hne. destruct e; try (by injection Hrun as _ <-). by destruct (Hne msg).
    + intros ->. destruct (match result with Ok _ => _ | Raise _ => _ end) as [[]|e]; [|done].
      apply wait_channel_returns in Hrun as (slept & _ & _ & -> & Hf & _).
      by apply channel_has_deposit_true.
  - intros Hno. destruct (deposit_refused _ _ _ _ _ Hno) as (s1 & e & He & Hq). rewrite He in Hrun.
    injection Hrun as <- <-. by split; [|exists e].
Qed.
End api.
