(* ===== verification/NetworkExamples.v ===== *)
(** A transport that sends a message of Alice's node to Bob until Bob confirms
    it, Alice's deposit in her channel with Bob, and the settlement of the channel:
    the theorems about the transport, the calls of the user and the proxies of the
    contracts applied to them. *)

From Stdlib Require Import SpecFloat.
From S2P Require Import Prelude PyDict Bytes Crypto PyFloat MediationFee State Events.
From S2P Require Import StateChanges.
From S2P Require Import Channel ChannelExamples TokenNetwork Node Views Wal WalProofs.
From S2P Require Import TaskExamples.
From S2P Require Import Messages MessageHandler MessageExamples Services ServicesExamples.
From S2P Require Import ChainSyncExamples EventHandler Pathfinding Routing Payments.
From S2P Require Import EventHandlerExamples Transport TransportProofs Api ApiProofs.
From S2P Require Import Proxies ProxiesProofs.

#[local] Existing Instance toy_crypto.
#[local] Existing Instance plain_messages.
#[local] Existing Instance alice_key.
#[local] Existing Instance toy_pow.
#[local] Existing Instance no_packing.
#[local] Existing Instance Accumulator.counter_ids.
#[local] Existing Instance state_rows.
#[local] Existing Instance change_rows.
#[local] Existing Instance event_rows.

(** ** The transport *)

(** Every message has a short text, and every receiver has a ready WebRTC channel. *)
#[local] Instance short_texts : MatrixEnv := {|
  message_text := fun m => match retrieable_identifier m with Some _ => "message" | None => "delivered" end;
  broadcast_text := fun _ => "broadcast";
  parse_line := fun _ _ => NotValid;
  displayname_of := fun _ => None;
  has_ready_channel := fun _ => true;
  server_name := "server"
|}.













(** ** A deposit *)

#[local] Instance balance_proofs : ClosingProofs := {| BALANCE_PROOF := 1 |}.

(** An open channel in which both have a deposit of 100 tokens, with a limit of
    1000 tokens for a participant; every transaction succeeds. *)
Definition open_channel : EthClient := {|
  binary_address a := (length a =? 20)%nat;
  getChannelIdentifier _ _ _ := Ok 7;
  getChannelParticipantInfo _ _ _ _ :=
    Ok (mkParticipantInfo 100 0 false EMPTY_BALANCE_HASH 0 LOCKSROOT_OF_NO_LOCKS 0);
  getChannelState _ _ _ _ := Ok OPENED;
  timeout_min := 20;
  timeout_max := 1000;
  participant_limit _ := Ok 1000;
  network_limit _ := Ok 2000;
  deprecation_switch _ := Ok false;
  contract_chain_id := 1;
  token_balance _ _ := Ok 500;
  token_allowance _ _ _ := Ok 0;
  eth_balance _ := Ok (10 ^ 18);
  fast_gas_price := 1;
  measured_gas _ := 100000;
  get_block_number _ := Ok 50;
  get_latest_block _ := (zero_bytes 32, 60);
  estimate_gas _ _ := Ok (Some 90000);
  transact_and_poll _ _ limit := Ok (mkTransactionMined (zero_bytes 32) 1 (zero_bytes 32) 61 90000 limit)
|}.

#[local] Instance example_chain : Chain := {|
  is_binary_address a := (length a =? 20)%nat;
  get_code _ _ := Ok true;
  registry_timeout_min _ _ := Ok 20;
  registry_timeout_max _ _ := Ok 1000;
  token_to_token_networks _ _ _ := Ok example_net;
  balanceOf _ _ _ := Ok 500;
  network_constants _ := Ok (1, be_encode 20 4);
  token_network_client _ := open_channel;
  gas_measurements _ := 1;
  generate_gas_price := Ok (Some 1);
  web3_gas_price := Ok 1;
  web3_balance := Ok (10 ^ 18)
|}.

(** The service once it has seen the deposit. *)
Definition alice_deposited : ChainState :=
  alice_node_with [(7, set_our_state (set_contract_balance 300 (our_state alice0)) alice0)] [(bob, [7])] [].

Definition service_at (cs : ChainState) : Service (Data := Row) :=
  mkService (mkRaidenService (new_WriteAheadLog cs empty_storage) 0 0) true [] [] [] [] [].

Definition no_proxies : ProxyManager := mkProxyManager [] [] [].

Definition depositing : ApiState (Data := Row) :=
  mkApiState (service_at alice_node) no_proxies
    [mkSleep true id (Ok tt); mkSleep true (fun _ => service_at alice_deposited) (Ok tt)].

Definition alice_deposits (total : Z) : ApiState (Data := Row) * Py unit :=
  set_total_channel_deposit alice_env (be_encode 20 5) (be_encode 20 4) bob total depositing.

(** The call sends both transactions, sleeps twice and returns; 1001 tokens are
    over the limit. *)
Lemma deposit_within_limits_witness :
  sent example_net (fst (alice_deposits 300)) = [Approve example_net 201; DepositTotal 7 alice 300 bob]
  /\ snd (alice_deposits 300) = Ok tt
  /\ has_deposit alice_env (be_encode 20 5) (be_encode 20 4) bob 300
       (sv_state (as_service (fst (alice_deposits 300))))
  /\ sent example_net (fst (alice_deposits 1001)) = [].
Proof.
  destruct (deposit_within_limits alice_env (be_encode 20 5) (be_encode 20 4) bob 300 depositing
    (fst (alice_deposits 300)) (snd (alice_deposits 300)) ltac:(apply surjective_pairing)) as [H1 _].
  destruct (deposit_proxies (be_encode 20 5) (be_encode 20 4) alice0
    (AtHash (cs_block_hash (sv_state (as_service depositing)))) depositing) as [s1 [registered|e]] eqn:Ep;
    [|exfalso; vm_compute in Ep; discriminate Ep].
  destruct (H1 alice0 s1 (mkDepositLimits false 500 500 2000 1000))
    as (px & txs & _ & _ & _ & _ & _ & _ & Hdep).
  { split; [vm_compute; reflexivity| |split; vm_compute; (reflexivity || discriminate)].
    exists registered. split; [exact Ep|]. vm_compute in Ep. injection Ep as _ <-. reflexivity. }
  assert (snd (alice_deposits 300) = Ok tt) as Hok by (vm_compute; reflexivity).
  split; [vm_compute; reflexivity|]. split; [exact Hok|]. split; [exact (Hdep Hok)|].
  destruct (deposit_within_limits alice_env (be_encode 20 5) (be_encode 20 4) bob 1001 depositing
    (fst (alice_deposits 1001)) (snd (alice_deposits 1001)) ltac:(apply surjective_pairing)) as [_ H2].
  destruct H2 as [(_ & _ & Hq) _]; [|rewrite Hq; vm_compute; reflexivity].
  intros c s2 limits [_ (reg & _ & Hl) Ha]. pose proof (allowed_participant _ _ _ Ha) as Hp.
  vm_compute in Hl. injection Hl as <-. cbn in Hp. lia.
Defined.

(** ** A settlement *)

Definition alice_amounts : SettleData := mkSettleData 30 0 LOCKSROOT_OF_NO_LOCKS.
Definition bob_amounts : SettleData := mkSettleData 5 0 LOCKSROOT_OF_NO_LOCKS.
Definition hash_of (d : SettleData) : bytes := match settle_hash d with Ok h => h | Raise _ => [] end.

(** The channel is closed at every block, and every transaction succeeds. *)
#[local] Instance closed_channel : EthClient := {|
  binary_address a := (length a =? 20)%nat;
  getChannelIdentifier _ _ _ := Ok 7;
  getChannelParticipantInfo _ _ participant _ :=
    Ok (mkParticipantInfo 100 0 (bool_decide (participant = bob))
          (if bool_decide (participant = alice) then hash_of alice_amounts else hash_of bob_amounts)
          3 LOCKSROOT_OF_NO_LOCKS 0);
  getChannelState _ _ _ _ := Ok CLOSED;
  timeout_min := 20;
  timeout_max := 1000;
  participant_limit _ := Ok 1000;
  network_limit _ := Ok 2000;
  deprecation_switch _ := Ok false;
  contract_chain_id := 1;
  token_balance _ _ := Ok 500;
  token_allowance _ _ _ := Ok 0;
  eth_balance _ := Ok (10 ^ 18);
  fast_gas_price := 1;
  measured_gas _ := 100000;
  get_block_number _ := Ok 50;
  get_latest_block _ := (zero_bytes 32, 60);
  estimate_gas _ _ := Ok (Some 90000);
  transact_and_poll _ _ limit := Ok (mkTransactionMined (zero_bytes 32) 1 (zero_bytes 32) 61 90000 limit)
|}.

Definition fresh_proxy : ProxyState := mkProxyState [] 0.
Definition alice_settles : ProxyState * Py TransactionMined :=
  proxy_settle alice 7 bob alice_amounts bob_amounts (AtNumber 50) fresh_proxy.

(** Alice sent more than Bob, so that she is the second participant. *)
Lemma settled_as_on_the_chain_witness :
  px_sent (fst alice_settles) = [SettleChannel 7 bob 5 0 LOCKSROOT_OF_NO_LOCKS alice 30 0 LOCKSROOT_OF_NO_LOCKS]
  /\ snd alice_settles = Ok (mkTransactionMined (zero_bytes 32) 1 (zero_bytes 32) 61 90000 130000)
  /\ (pruned alice 7 bob (AtNumber 50) \/ settleable alice 7 bob alice_amounts bob_amounts (AtNumber 50)).
Proof.
  destruct (settled_as_on_the_chain alice example_net 7 bob alice_amounts bob_amounts (AtNumber 50) fresh_proxy
    (fst alice_settles) (snd alice_settles) ltac:(apply surjective_pairing)) as (tx & Ht & Ho & Hk).
  split; [vm_compute; reflexivity|]. split; [vm_compute; reflexivity|]. apply Hk.
  vm_compute. discriminate.
Defined.

(** Bob closed the channel with an old balance proof, and Alice cannot update it. *)
Lemma update_is_always_refused_witness :
  exists msg,
    proxy_update_transfer alice example_net false 7 bob (hash_of bob_amounts) 4 (zero_bytes 32)
      (zero_bytes 65) (zero_bytes 65) (AtNumber 50) fresh_proxy
    = (fresh_proxy, Raise (RaidenUnrecoverableError msg)).
Proof.
  apply update_is_always_refused. split; [vm_compute; reflexivity|]. split; [vm_compute; reflexivity|].
  split; [vm_compute; split; [reflexivity|discriminate]|]. split; [eexists; reflexivity|].
  split; [eexists; reflexivity|]. exists 50. split; [reflexivity|lia].
Defined.
